(** * The WebApp reconciler of platform-operator-blueprint

    A shallow embedding of [internal/controller] (the [WebAppReconciler]:
    [Reconcile], [reconcileDeployment], [reconcileService],
    [cleanupChildResources], [setCondition], [labelsForWebApp]) and of the
    API types of [api/v1alpha1/webapp_types.go].

    The Go code talks to the Kubernetes API server through the
    controller-runtime client.  The server is modelled as an explicit store
    (three tables keyed by namespace/name), the client calls as operations of
    a small state-and-error monad that also records every request issued, and
    transient failures as a script of faults consumed one entry per call. *)

From stdpp Require Import base option list gmap strings pretty.
From Stdlib Require Import ZArith Lia.

Local Open Scope Z_scope.

(** ** k8s.io/apimachinery/pkg/apis/meta/v1 *)

Module metav1.

(** [metav1.Time]; the zero value answers [IsZero]. *)
Inductive Time := ZeroTime | At (t : N).

Definition Time_IsZero (t : Time) : bool :=
  match t with ZeroTime => true | At _ => false end.

(** [IsZero] on a pointer to a [Time]: a nil pointer is zero as well. *)
Definition IsZero (t : option Time) : bool :=
  match t with None => true | Some t => Time_IsZero t end.

Inductive ConditionStatus := ConditionTrue | ConditionFalse | ConditionUnknown.

Record Condition := {
  Type_ : string;
  Status : ConditionStatus;
  ObservedGeneration : Z;
  LastTransitionTime : Time;
  Reason : string;
  Message : string
}.

Record OwnerReference := {
  APIVersion : string;
  Kind : string;
  OwnerName : string;
  OwnerUID : string;
  Controller : option bool;
  BlockOwnerDeletion : option bool
}.

Record ObjectMeta := {
  Name : string;
  Namespace : string;
  UID : string;
  ResourceVersion : N;
  Generation : Z;
  DeletionTimestamp : option Time;
  Labels : gmap string string;
  Annotations : gmap string string;
  OwnerReferences : list OwnerReference;
  Finalizers : list string
}.

Record LabelSelector := { MatchLabels : gmap string string }.

(** The Go zero value of [ObjectMeta]. *)
Definition zeroMeta : ObjectMeta :=
  {| Name := EmptyString; Namespace := EmptyString; UID := EmptyString; ResourceVersion := 0%N;
     Generation := 0; DeletionTimestamp := None; Labels := ∅;
     Annotations := ∅; OwnerReferences := []; Finalizers := [] |}.

Definition setFinalizers (fs : list string) (m : ObjectMeta) : ObjectMeta :=
  {| Name := Name m; Namespace := Namespace m; UID := UID m;
     ResourceVersion := ResourceVersion m; Generation := Generation m;
     DeletionTimestamp := DeletionTimestamp m; Labels := Labels m;
     Annotations := Annotations m; OwnerReferences := OwnerReferences m;
     Finalizers := fs |}.

Definition setOwnerReferences (os : list OwnerReference) (m : ObjectMeta)
  : ObjectMeta :=
  {| Name := Name m; Namespace := Namespace m; UID := UID m;
     ResourceVersion := ResourceVersion m; Generation := Generation m;
     DeletionTimestamp := DeletionTimestamp m; Labels := Labels m;
     Annotations := Annotations m; OwnerReferences := os;
     Finalizers := Finalizers m |}.

(** The two fields the API server assigns on a write. *)
Definition stamp (rv : N) (gen : Z) (m : ObjectMeta) : ObjectMeta :=
  {| Name := Name m; Namespace := Namespace m; UID := UID m;
     ResourceVersion := rv; Generation := gen;
     DeletionTimestamp := DeletionTimestamp m; Labels := Labels m;
     Annotations := Annotations m; OwnerReferences := OwnerReferences m;
     Finalizers := Finalizers m |}.

#[global] Instance Time_eq_dec : EqDecision Time.
Proof. solve_decision. Defined.
#[global] Instance ConditionStatus_eq_dec : EqDecision ConditionStatus.
Proof. solve_decision. Defined.
#[global] Instance Condition_eq_dec : EqDecision Condition.
Proof. solve_decision. Defined.
#[global] Instance OwnerReference_eq_dec : EqDecision OwnerReference.
Proof. solve_decision. Defined.
#[global] Instance ObjectMeta_eq_dec : EqDecision ObjectMeta.
Proof. solve_decision. Defined.
#[global] Instance LabelSelector_eq_dec : EqDecision LabelSelector.
Proof. solve_decision. Defined.

End metav1.

(** ** k8s.io/apimachinery/pkg/util/intstr *)

Module intstr.
Inductive IntOrString := IntVal (i : Z) | StrVal (s : string).
Definition FromInt32 (val : Z) : IntOrString := IntVal val.
#[global] Instance IntOrString_eq_dec : EqDecision IntOrString.
Proof. solve_decision. Defined.
End intstr.

(** ** k8s.io/api/core/v1 *)

Module corev1.

Definition ProtocolTCP : string := "TCP".
Definition ServiceTypeClusterIP : string := "ClusterIP".

Record ContainerPort := {
  PortName : string;
  HostPort : Z;
  ContainerPort_ : Z;
  Protocol : string
}.

(** [Env] and [Resources] stand for the container fields the operator never
    names. *)
Record Container := {
  Name : string;
  Image : string;
  Ports : list ContainerPort;
  Env : list (string * string);
  Resources : gmap string string
}.

Record PodSpec := {
  Containers : list Container;
  ServiceAccountName : string;
  NodeSelector : gmap string string
}.

Record PodTemplateSpec := {
  TemplateMeta : metav1.ObjectMeta;
  TemplateSpec : PodSpec
}.

Record ServicePort := {
  SvcPortName : string;
  SvcProtocol : string;
  Port : Z;
  TargetPort : intstr.IntOrString;
  NodePort : Z
}.

Record ServiceSpec := {
  SvcPorts : list ServicePort;
  Selector : gmap string string;
  ClusterIP : string;
  Type_ : string;
  SessionAffinity : string
}.

Record Service := {
  ObjectMeta : metav1.ObjectMeta;
  Spec : ServiceSpec
}.

Definition setImage (i : string) (c : Container) : Container :=
  {| Name := Name c; Image := i; Ports := Ports c; Env := Env c;
     Resources := Resources c |}.

Definition setPorts (ps : list ContainerPort) (c : Container) : Container :=
  {| Name := Name c; Image := Image c; Ports := ps; Env := Env c;
     Resources := Resources c |}.

Definition setContainers (cs : list Container) (p : PodSpec) : PodSpec :=
  {| Containers := cs; ServiceAccountName := ServiceAccountName p;
     NodeSelector := NodeSelector p |}.

Definition setTemplateSpec (p : PodSpec) (t : PodTemplateSpec)
  : PodTemplateSpec :=
  {| TemplateMeta := TemplateMeta t; TemplateSpec := p |}.

Definition setSvcPorts (ps : list ServicePort) (s : ServiceSpec)
  : ServiceSpec :=
  {| SvcPorts := ps; Selector := Selector s; ClusterIP := ClusterIP s;
     Type_ := Type_ s; SessionAffinity := SessionAffinity s |}.

Definition setSelector (sel : gmap string string) (s : ServiceSpec)
  : ServiceSpec :=
  {| SvcPorts := SvcPorts s; Selector := sel; ClusterIP := ClusterIP s;
     Type_ := Type_ s; SessionAffinity := SessionAffinity s |}.

Definition setSpec (sp : ServiceSpec) (s : Service) : Service :=
  {| ObjectMeta := ObjectMeta s; Spec := sp |}.

Definition setObjectMeta (m : metav1.ObjectMeta) (s : Service) : Service :=
  {| ObjectMeta := m; Spec := Spec s |}.

#[global] Instance ContainerPort_eq_dec : EqDecision ContainerPort.
Proof. solve_decision. Defined.
#[global] Instance Container_eq_dec : EqDecision Container.
Proof. solve_decision. Defined.
#[global] Instance PodSpec_eq_dec : EqDecision PodSpec.
Proof. solve_decision. Defined.
#[global] Instance PodTemplateSpec_eq_dec : EqDecision PodTemplateSpec.
Proof. solve_decision. Defined.
#[global] Instance ServicePort_eq_dec : EqDecision ServicePort.
Proof. solve_decision. Defined.
#[global] Instance ServiceSpec_eq_dec : EqDecision ServiceSpec.
Proof. solve_decision. Defined.
#[global] Instance Service_eq_dec : EqDecision Service.
Proof. solve_decision. Defined.

End corev1.

(** ** k8s.io/api/apps/v1 *)

Module appsv1.

(** [Strategy], [MinReadySeconds] and [Paused] stand for the spec fields the
    operator never names. *)
Record DeploymentSpec := {
  Replicas : option Z;
  Selector : option metav1.LabelSelector;
  Template : corev1.PodTemplateSpec;
  Strategy : string;
  MinReadySeconds : Z;
  Paused : bool
}.

Record DeploymentStatus := {
  AvailableReplicas : Z;
  ReadyReplicas : Z
}.

Record Deployment := {
  ObjectMeta : metav1.ObjectMeta;
  Spec : DeploymentSpec;
  Status : DeploymentStatus
}.

Definition setReplicas (r : option Z) (s : DeploymentSpec) : DeploymentSpec :=
  {| Replicas := r; Selector := Selector s; Template := Template s;
     Strategy := Strategy s; MinReadySeconds := MinReadySeconds s;
     Paused := Paused s |}.

Definition setTemplate (t : corev1.PodTemplateSpec) (s : DeploymentSpec)
  : DeploymentSpec :=
  {| Replicas := Replicas s; Selector := Selector s; Template := t;
     Strategy := Strategy s; MinReadySeconds := MinReadySeconds s;
     Paused := Paused s |}.

Definition setSpec (sp : DeploymentSpec) (d : Deployment) : Deployment :=
  {| ObjectMeta := ObjectMeta d; Spec := sp; Status := Status d |}.

Definition setStatus (st : DeploymentStatus) (d : Deployment) : Deployment :=
  {| ObjectMeta := ObjectMeta d; Spec := Spec d; Status := st |}.

Definition setObjectMeta (m : metav1.ObjectMeta) (d : Deployment)
  : Deployment :=
  {| ObjectMeta := m; Spec := Spec d; Status := Status d |}.

#[global] Instance DeploymentSpec_eq_dec : EqDecision DeploymentSpec.
Proof. solve_decision. Defined.
#[global] Instance DeploymentStatus_eq_dec : EqDecision DeploymentStatus.
Proof. solve_decision. Defined.
#[global] Instance Deployment_eq_dec : EqDecision Deployment.
Proof. solve_decision. Defined.

End appsv1.

(** ** api/v1alpha1/webapp_types.go

    The later revision of this file adds the optional [Storage] and
    [InitContainer] fields to the spec; the controller reads neither. *)

Module appv1alpha1.

Record WebAppSpec := {
  Image : string;
  Replicas : option Z;
  Port : Z
}.

Record WebAppStatus := {
  AvailableReplicas : Z;
  Conditions : list metav1.Condition
}.

Definition TypeAvailable : string := "Available".
Definition TypeProgressing : string := "Progressing".
Definition TypeDegraded : string := "Degraded".

Record WebApp := {
  ObjectMeta : metav1.ObjectMeta;
  Spec : WebAppSpec;
  Status : WebAppStatus
}.

Definition setObjectMeta (m : metav1.ObjectMeta) (a : WebApp) : WebApp :=
  {| ObjectMeta := m; Spec := Spec a; Status := Status a |}.

Definition setSpec (s : WebAppSpec) (a : WebApp) : WebApp :=
  {| ObjectMeta := ObjectMeta a; Spec := s; Status := Status a |}.

Definition setStatus (st : WebAppStatus) (a : WebApp) : WebApp :=
  {| ObjectMeta := ObjectMeta a; Spec := Spec a; Status := st |}.

Definition setConditions (cs : list metav1.Condition) (st : WebAppStatus)
  : WebAppStatus :=
  {| AvailableReplicas := AvailableReplicas st; Conditions := cs |}.

Definition setAvailableReplicas (n : Z) (st : WebAppStatus) : WebAppStatus :=
  {| AvailableReplicas := n; Conditions := Conditions st |}.

#[global] Instance WebAppSpec_eq_dec : EqDecision WebAppSpec.
Proof. solve_decision. Defined.
#[global] Instance WebAppStatus_eq_dec : EqDecision WebAppStatus.
Proof. solve_decision. Defined.
#[global] Instance WebApp_eq_dec : EqDecision WebApp.
Proof. solve_decision. Defined.

End appv1alpha1.

(** ** k8s.io/apimachinery/pkg/types and pkg/runtime *)

Module types.
(** Namespace first, then name. *)
Definition NamespacedName : Type := string * string.
End types.

Module runtime.
(** What the reconciler needs of a [runtime.Scheme]: the API version and
    kind registered for the WebApp Go type, if any. *)
Record Scheme := { gvkForWebApp : option (string * string) }.
End runtime.

(** ** Errors

    Go [error] values as they occur here: API status errors of the store,
    other errors, and [fmt.Errorf("<prefix>: %w", err)] wrappers. *)

Module apierrors.
Inductive StatusReason :=
| StatusReasonNotFound
| StatusReasonAlreadyExists
| StatusReasonConflict
| StatusReasonTimeout
| StatusReasonServiceUnavailable
| StatusReasonInternalError.

#[global] Instance StatusReason_eq_dec : EqDecision StatusReason.
Proof. solve_decision. Defined.
End apierrors.

Inductive error :=
| StatusError (reason : apierrors.StatusReason) (message : string)
| PlainError (message : string)
| Wrapped (prefix : string) (inner : error).

#[global] Instance error_eq_dec : EqDecision error.
Proof. solve_decision. Defined.

(** [err.Error()] *)
Fixpoint Error (e : error) : string :=
  match e with
  | StatusError _ m => m
  | PlainError m => m
  | Wrapped p i => p +:+ ": " +:+ Error i
  end.

(** [apierrors.IsNotFound]: looks through wrappers ([errors.As]). *)
Fixpoint IsNotFound (e : error) : bool :=
  match e with
  | StatusError r _ => bool_decide (r = apierrors.StatusReasonNotFound)
  | PlainError _ => false
  | Wrapped _ i => IsNotFound i
  end.

Definition NewNotFound (resource name : string) : error :=
  StatusError apierrors.StatusReasonNotFound
    (resource +:+ " " +:+ name +:+ " not found").

Definition NewAlreadyExists (resource name : string) : error :=
  StatusError apierrors.StatusReasonAlreadyExists
    (resource +:+ " " +:+ name +:+ " already exists").

Definition NewConflict (resource name : string) : error :=
  StatusError apierrors.StatusReasonConflict
    ("Operation cannot be fulfilled on " +:+ resource +:+ " " +:+ name
     +:+ ": the object has been modified; please apply your changes to the"
     +:+ " latest version and try again").

(** ** k8s.io/apimachinery/pkg/api/meta: status conditions *)

Module meta.
Import metav1.

Definition setStatus (s : ConditionStatus) (t : Time) (c : Condition)
  : Condition :=
  {| Type_ := Type_ c; Status := s; ObservedGeneration := ObservedGeneration c;
     LastTransitionTime := t; Reason := Reason c; Message := Message c |}.

Definition setReason (r : string) (c : Condition) : Condition :=
  {| Type_ := Type_ c; Status := Status c;
     ObservedGeneration := ObservedGeneration c;
     LastTransitionTime := LastTransitionTime c; Reason := r;
     Message := Message c |}.

Definition setMessage (m : string) (c : Condition) : Condition :=
  {| Type_ := Type_ c; Status := Status c;
     ObservedGeneration := ObservedGeneration c;
     LastTransitionTime := LastTransitionTime c; Reason := Reason c;
     Message := m |}.

Definition setObservedGeneration (g : Z) (c : Condition) : Condition :=
  {| Type_ := Type_ c; Status := Status c; ObservedGeneration := g;
     LastTransitionTime := LastTransitionTime c; Reason := Reason c;
     Message := Message c |}.

Definition setLastTransitionTime (t : Time) (c : Condition) : Condition :=
  {| Type_ := Type_ c; Status := Status c;
     ObservedGeneration := ObservedGeneration c;
     LastTransitionTime := t; Reason := Reason c; Message := Message c |}.

(** [FindStatusCondition]: the first condition of the given type. *)
Fixpoint FindStatusCondition (conditions : list Condition) (conditionType : string)
  : option Condition :=
  match conditions with
  | [] => None
  | c :: rest =>
      if bool_decide (Type_ c = conditionType) then Some c
      else FindStatusCondition rest conditionType
  end.

(** The in-place update [SetStatusCondition] performs on the condition it
    found; [now] is the reading of [time.Now()]. *)
Definition mergeCondition (now : N) (existing newCondition : Condition) : Condition :=
  let c1 :=
    if bool_decide (Status existing = Status newCondition) then existing
    else setStatus (Status newCondition)
           (if Time_IsZero (LastTransitionTime newCondition) then At now
            else LastTransitionTime newCondition)
           existing in
  let c2 :=
    if bool_decide (Reason c1 = Reason newCondition) then c1
    else setReason (Reason newCondition) c1 in
  let c3 :=
    if bool_decide (Message c2 = Message newCondition) then c2
    else setMessage (Message newCondition) c2 in
  if bool_decide (ObservedGeneration c3 = ObservedGeneration newCondition)
  then c3
  else setObservedGeneration (ObservedGeneration newCondition) c3.

(** The list with its first condition of [newCondition]'s type merged. *)
Fixpoint updateFirst (now : N) (conditions : list Condition) (newCondition : Condition)
  : list Condition :=
  match conditions with
  | [] => []
  | c :: rest =>
      if bool_decide (Type_ c = Type_ newCondition)
      then mergeCondition now c newCondition :: rest
      else c :: updateFirst now rest newCondition
  end.

(** [SetStatusCondition]: append when the type is new (stamping the
    transition time when the caller left it zero), merge otherwise. *)
Definition SetStatusCondition (now : N) (conditions : list Condition)
    (newCondition : Condition) : list Condition :=
  match FindStatusCondition conditions (Type_ newCondition) with
  | None =>
      conditions ++
        [if Time_IsZero (LastTransitionTime newCondition)
         then setLastTransitionTime (At now) newCondition
         else newCondition]
  | Some _ => updateFirst now conditions newCondition
  end.
End meta.

(** ** The object kinds of the store *)

Inductive ResourceKind := KWebApp | KDeployment | KService.

Inductive AnyObject :=
| OWebApp (a : appv1alpha1.WebApp)
| ODeployment (d : appsv1.Deployment)
| OService (s : corev1.Service).

#[global] Instance ResourceKind_eq_dec : EqDecision ResourceKind.
Proof. solve_decision. Defined.
#[global] Instance AnyObject_eq_dec : EqDecision AnyObject.
Proof. solve_decision. Defined.

(** ** sigs.k8s.io/controller-runtime/pkg/controller/controllerutil *)

Module controllerutil.
Import metav1.

Definition ContainsFinalizer (m : ObjectMeta) (finalizer : string) : bool :=
  existsb (fun f => bool_decide (f = finalizer)) (Finalizers m).

Definition AddFinalizer (m : ObjectMeta) (finalizer : string) : ObjectMeta :=
  if ContainsFinalizer m finalizer then m
  else setFinalizers (Finalizers m ++ [finalizer]) m.

Definition RemoveFinalizer (m : ObjectMeta) (finalizer : string) : ObjectMeta :=
  setFinalizers
    (List.filter (fun f => negb (bool_decide (f = finalizer))) (Finalizers m)) m.

(** [validateOwner]: a namespaced owner may only own objects of its own
    namespace. *)
Definition validateOwner (owner object : ObjectMeta) : option error :=
  if bool_decide (Namespace owner = EmptyString) then None
  else if bool_decide (Namespace object = EmptyString) then
    Some (PlainError
      "cluster-scoped resource must not have a namespace-scoped owner")
  else if bool_decide (Namespace owner = Namespace object) then None
  else Some (PlainError "cross-namespace owner references are disallowed").

(** [metav1.GetControllerOf] *)
Definition GetControllerOf (m : ObjectMeta) : option OwnerReference :=
  List.find (fun o => bool_decide (Controller o = Some true)) (OwnerReferences m).

Definition referSameObject (a b : OwnerReference) : bool :=
  bool_decide (APIVersion a = APIVersion b) &&
  bool_decide (Kind a = Kind b) && bool_decide (OwnerName a = OwnerName b).

Fixpoint upsertOwnerRef (ref : OwnerReference) (owners : list OwnerReference)
  : list OwnerReference :=
  match owners with
  | [] => [ref]
  | o :: rest =>
      if referSameObject o ref then ref :: rest
      else o :: upsertOwnerRef ref rest
  end.

(** [SetControllerReference owner controlled scheme], on the metadata of
    the controlled object. *)
Definition SetControllerReference (owner : appv1alpha1.WebApp)
    (controlled : ObjectMeta) (scheme : runtime.Scheme) : error + ObjectMeta :=
  let om := appv1alpha1.ObjectMeta owner in
  match validateOwner om controlled with
  | Some e => inl e
  | None =>
      match runtime.gvkForWebApp scheme with
      | None => inl (PlainError "no kind is registered for the type v1alpha1.WebApp in scheme")
      | Some (apiVersion, kind) =>
          let ref := {| APIVersion := apiVersion; Kind := kind;
                        OwnerName := Name om; OwnerUID := UID om;
                        Controller := Some true;
                        BlockOwnerDeletion := Some true |} in
          match GetControllerOf controlled with
          | Some existing =>
              if referSameObject existing ref
              then inr (setOwnerReferences
                          (upsertOwnerRef ref (OwnerReferences controlled))
                          controlled)
              else inl (PlainError "Object is already owned by another controller")
          | None =>
              inr (setOwnerReferences
                     (upsertOwnerRef ref (OwnerReferences controlled))
                     controlled)
          end
      end
  end.
End controllerutil.

(** ** The store and its environment

    The API server is an external collaborator.  Its model keeps one table
    per kind and the counter from which resource versions are drawn.  The
    environment keeps the clock and a script: each call consumes one entry,
    which says how much time passes and whether the call fails for a reason
    of the environment's own (time-out, unavailability, a conflict with a
    concurrent writer, a stale cache read).  An exhausted script means no
    delay and no fault.  Writers other than the reconciler act between
    passes. *)

Record Store := {
  webapps : gmap types.NamespacedName appv1alpha1.WebApp;
  deployments : gmap types.NamespacedName appsv1.Deployment;
  services : gmap types.NamespacedName corev1.Service;
  nextRV : N
}.

Record Tick := { elapsed : N; fault : option error }.

Record Env := { now : N; script : list Tick }.

Record World := { store : Store; env : Env }.

Definition setWebapps (t : gmap types.NamespacedName appv1alpha1.WebApp)
    (s : Store) : Store :=
  {| webapps := t; deployments := deployments s; services := services s;
     nextRV := nextRV s |}.

Definition setDeployments (t : gmap types.NamespacedName appsv1.Deployment)
    (s : Store) : Store :=
  {| webapps := webapps s; deployments := t; services := services s;
     nextRV := nextRV s |}.

Definition setServices (t : gmap types.NamespacedName corev1.Service)
    (s : Store) : Store :=
  {| webapps := webapps s; deployments := deployments s; services := t;
     nextRV := nextRV s |}.

Definition bumpRV (s : Store) : Store :=
  {| webapps := webapps s; deployments := deployments s;
     services := services s; nextRV := N.succ (nextRV s) |}.

(** One call reaches the server: time passes, and the environment may make
    the call fail. *)
Definition environment (e : Env) : option error * Env :=
  match script e with
  | [] => (None, e)
  | t :: rest => (fault t, {| now := (now e + elapsed t)%N; script := rest |})
  end.

(** ** Outcomes, requests and the client monad *)

Inductive Res (A : Type) :=
| Ok (a : A)
| Err (e : error)
| Panic (msg : string).
Arguments Ok {A} a.
Arguments Err {A} e.
Arguments Panic {A} msg.

Definition Res_map {A B} (f : A → B) (r : Res A) : Res B :=
  match r with Ok a => Ok (f a) | Err e => Err e | Panic m => Panic m end.

(** The requests a pass issues, each with what the server answered. *)
Inductive Event :=
| EGet (k : ResourceKind) (key : types.NamespacedName) (res : Res AnyObject)
| ECreate (obj : AnyObject) (res : Res AnyObject)
| EUpdate (obj : AnyObject) (res : Res AnyObject)
| EStatusUpdate (obj : AnyObject) (res : Res AnyObject).

Definition M (A : Type) : Type := World → Res A * World * list Event.

Definition ret {A} (a : A) : M A := fun w => (Ok a, w, []).

Definition fail {A} (e : error) : M A := fun w => (Err e, w, []).

Definition panic {A} (msg : string) : M A := fun w => (Panic msg, w, []).

Definition bind {A B} (m : M A) (f : A → M B) : M B := fun w =>
  match m w with
  | (Ok a, w1, t1) =>
      match f a w1 with (r, w2, t2) => (r, w2, t1 ++ t2) end
  | (Err e, w1, t1) => (Err e, w1, t1)
  | (Panic msg, w1, t1) => (Panic msg, w1, t1)
  end.

Notation "x <- m ;; k" := (bind m (fun x => k))
  (at level 100, m at next level, right associativity, only parsing).

(** [err := f(...)] kept as a value: the caller inspects it. *)
Definition attempt {A} (m : M A) : M (error + A) := fun w =>
  match m w with
  | (Ok a, w1, t1) => (Ok (inr a), w1, t1)
  | (Err e, w1, t1) => (Ok (inl e), w1, t1)
  | (Panic msg, w1, t1) => (Panic msg, w1, t1)
  end.

(** [if err != nil { return fmt.Errorf("<prefix>: %w", err) }] *)
Definition wrapErr {A} (prefix : string) (m : M A) : M A := fun w =>
  match m w with
  | (Err e, w1, t1) => (Err (Wrapped prefix e), w1, t1)
  | other => other
  end.

(** [_ = f(...)]: the error is dropped. *)
Definition ignoreErr {A} (m : M A) : M unit := fun w =>
  match m w with
  | (Panic msg, w1, t1) => (Panic msg, w1, t1)
  | (_, w1, t1) => (Ok tt, w1, t1)
  end.

(** [time.Now()] *)
Definition Now : M N := fun w => (Ok (now (env w)), w, []).

(** ** client.Object and the client calls *)

Class Object (A : Type) := {
  kindOf : ResourceKind;
  resource : string;
  getMeta : A → metav1.ObjectMeta;
  setMeta : metav1.ObjectMeta → A → A;
  toAny : A → AnyObject;
  table : Store → gmap types.NamespacedName A;
  setTable : gmap types.NamespacedName A → Store → Store;
  (** the stored object with the submitted object's spec *)
  takeSpec : A → A → A;
  (** whether a write of the submitted object changes the stored spec *)
  specChanged : A → A → bool;
  (** whether the kind counts generations *)
  countsGeneration : bool
}.

#[global] Instance WebApp_Object : Object appv1alpha1.WebApp := {
  kindOf := KWebApp;
  resource := "webapps.app.54b3r.io";
  getMeta := appv1alpha1.ObjectMeta;
  setMeta := appv1alpha1.setObjectMeta;
  toAny := OWebApp;
  table := webapps;
  setTable := setWebapps;
  takeSpec stored obj := appv1alpha1.setSpec (appv1alpha1.Spec obj) stored;
  specChanged stored obj :=
    negb (bool_decide (appv1alpha1.Spec stored = appv1alpha1.Spec obj));
  countsGeneration := true
}.

#[global] Instance Deployment_Object : Object appsv1.Deployment := {
  kindOf := KDeployment;
  resource := "deployments.apps";
  getMeta := appsv1.ObjectMeta;
  setMeta := appsv1.setObjectMeta;
  toAny := ODeployment;
  table := deployments;
  setTable := setDeployments;
  takeSpec stored obj := appsv1.setSpec (appsv1.Spec obj) stored;
  specChanged stored obj :=
    negb (bool_decide (appsv1.Spec stored = appsv1.Spec obj));
  countsGeneration := true
}.

#[global] Instance Service_Object : Object corev1.Service := {
  kindOf := KService;
  resource := "services";
  getMeta := corev1.ObjectMeta;
  setMeta := corev1.setObjectMeta;
  toAny := OService;
  table := services;
  setTable := setServices;
  takeSpec stored obj := corev1.setSpec (corev1.Spec obj) stored;
  specChanged stored obj :=
    negb (bool_decide (corev1.Spec stored = corev1.Spec obj));
  countsGeneration := false
}.

Definition keyOf `{Object A} (obj : A) : types.NamespacedName :=
  (metav1.Namespace (getMeta obj), metav1.Name (getMeta obj)).

(** The metadata a client may write on update: labels, annotations, owner
    references and finalizers.  Identity, deletion timestamp, resource
    version and generation stay the server's. *)
Definition writableMeta (stored obj : metav1.ObjectMeta) : metav1.ObjectMeta :=
  {| metav1.Name := metav1.Name stored;
     metav1.Namespace := metav1.Namespace stored;
     metav1.UID := metav1.UID stored;
     metav1.ResourceVersion := metav1.ResourceVersion stored;
     metav1.Generation := metav1.Generation stored;
     metav1.DeletionTimestamp := metav1.DeletionTimestamp stored;
     metav1.Labels := metav1.Labels obj;
     metav1.Annotations := metav1.Annotations obj;
     metav1.OwnerReferences := metav1.OwnerReferences obj;
     metav1.Finalizers := metav1.Finalizers obj |}.

(** The server finishes a deletion once no finalizer is left. *)
Definition purgeable (m : metav1.ObjectMeta) : bool :=
  negb (metav1.IsZero (metav1.DeletionTimestamp m)) &&
  bool_decide (metav1.Finalizers m = []).

(** What the server stores for a created object: it assigns the UID, the
    resource version and the first generation. *)
Definition created `{Object A} (rv : N) (obj : A) : A :=
  let m := getMeta obj in
  setMeta
    {| metav1.Name := metav1.Name m;
       metav1.Namespace := metav1.Namespace m;
       metav1.UID := "uid-" +:+ pretty rv;
       metav1.ResourceVersion := rv;
       metav1.Generation := if countsGeneration (A:=A) then 1 else 0;
       metav1.DeletionTimestamp := None;
       metav1.Labels := metav1.Labels m;
       metav1.Annotations := metav1.Annotations m;
       metav1.OwnerReferences := metav1.OwnerReferences m;
       metav1.Finalizers := metav1.Finalizers m |} obj.

(** What an update of the main resource makes of the stored object: the
    submitted spec and writable metadata, the stored status, a new resource
    version, and the next generation when the spec changed. *)
Definition updated `{Object A} (rv : N) (stored obj : A) : A :=
  let gen :=
    if countsGeneration (A:=A) && specChanged stored obj
    then metav1.Generation (getMeta stored) + 1
    else metav1.Generation (getMeta stored) in
  setMeta (metav1.stamp rv gen (writableMeta (getMeta stored) (getMeta obj)))
    (takeSpec stored obj).

(** What a status update makes of the stored WebApp: the submitted status
    and a new resource version. *)
Definition statusUpdated (rv : N) (stored obj : appv1alpha1.WebApp)
    : appv1alpha1.WebApp :=
  appv1alpha1.setObjectMeta
    (metav1.stamp rv (metav1.Generation (appv1alpha1.ObjectMeta stored))
       (appv1alpha1.ObjectMeta stored))
    (appv1alpha1.setStatus (appv1alpha1.Status obj) stored).

Definition sameVersion `{Object A} (obj stored : A) : bool :=
  bool_decide (metav1.ResourceVersion (getMeta obj)
               = metav1.ResourceVersion (getMeta stored)).

(** [get(id) -> record | notFound] *)
Definition Get `{Object A} (key : types.NamespacedName) : M A := fun w =>
  let '(f, e1) := environment (env w) in
  let r : Res A :=
    match f with
    | Some e => Err e
    | None =>
        match table (store w) !! key with
        | Some obj => Ok obj
        | None => Err (NewNotFound (resource (A:=A)) key.2)
        end
    end in
  (r, {| store := store w; env := e1 |},
   [EGet (kindOf (A:=A)) key (Res_map toAny r)]).

(** [create(record) -> record | conflict] *)
Definition Create `{Object A} (obj : A) : M A := fun w =>
  let '(f, e1) := environment (env w) in
  let '(r, s1) :=
    match f with
    | Some e => (Err e, store w)
    | None =>
        match table (store w) !! keyOf obj with
        | Some _ =>
            (Err (NewAlreadyExists (resource (A:=A)) (keyOf obj).2), store w)
        | None =>
            let new := created (nextRV (store w)) obj in
            (Ok new,
             bumpRV (setTable (<[keyOf obj := new]> (table (store w))) (store w)))
        end
    end in
  ((r, {| store := s1; env := e1 |}), [ECreate (toAny obj) (Res_map toAny r)]).

(** [update(record, expectedToken) -> record | conflict] on the main
    resource: never writes the status (the WebApp and the Deployment have
    the status subresource); an object whose deletion was requested goes
    away with its last finalizer. *)
Definition Update `{Object A} (obj : A) : M A := fun w =>
  let '(f, e1) := environment (env w) in
  let '(r, s1) :=
    match f with
    | Some e => (Err e, store w)
    | None =>
        match table (store w) !! keyOf obj with
        | None => (Err (NewNotFound (resource (A:=A)) (keyOf obj).2), store w)
        | Some stored =>
            if sameVersion obj stored then
              let new := updated (nextRV (store w)) stored obj in
              let t' :=
                if purgeable (getMeta new)
                then delete (keyOf obj) (table (store w))
                else <[keyOf obj := new]> (table (store w)) in
              (Ok new, bumpRV (setTable t' (store w)))
            else (Err (NewConflict (resource (A:=A)) (keyOf obj).2), store w)
        end
    end in
  ((r, {| store := s1; env := e1 |}), [EUpdate (toAny obj) (Res_map toAny r)]).

(** [updateStatusOnly(record, expectedToken) -> record | conflict] for the
    WebApp ([r.Status().Update]): writes the status and nothing else. *)
Definition StatusUpdate (obj : appv1alpha1.WebApp) : M appv1alpha1.WebApp :=
  fun w =>
  let '(f, e1) := environment (env w) in
  let '(r, s1) :=
    match f with
    | Some e => (Err e, store w)
    | None =>
        match webapps (store w) !! keyOf obj with
        | None =>
            (Err (NewNotFound (resource (A:=appv1alpha1.WebApp)) (keyOf obj).2),
             store w)
        | Some stored =>
            if sameVersion obj stored then
              let new := statusUpdated (nextRV (store w)) stored obj in
              (Ok new,
               bumpRV (setWebapps (<[keyOf obj := new]> (webapps (store w)))
                         (store w)))
            else
              (Err (NewConflict (resource (A:=appv1alpha1.WebApp)) (keyOf obj).2),
               store w)
        end
    end in
  ((r, {| store := s1; env := e1 |}),
   [EStatusUpdate (OWebApp obj) (Res_map OWebApp r)]).

(** ** internal/controller: the WebApp reconciler *)

Module ctrl.
Record Request := { NamespacedName : types.NamespacedName }.

(** [RequeueAfter] is a [time.Duration], in nanoseconds. *)
Record Result := { Requeue : bool; RequeueAfter : Z }.

Definition zeroResult : Result := {| Requeue := false; RequeueAfter := 0 |}.

#[global] Instance Result_eq_dec : EqDecision Result.
Proof. solve_decision. Defined.
End ctrl.

(** The finalizer added to every WebApp resource. *)
Definition webappFinalizer : string := "app.54b3r.io/finalizer".

(** The standard requeue interval, [time.Minute]. *)
Definition requeueAfter : Z := 60 * 1000000000.

(** The embedded [client.Client] is the store of the monad; [Scheme] is the
    only field of its own. *)
Record WebAppReconciler := { Scheme : runtime.Scheme }.

Definition labelsForWebApp (name : string) : gmap string string :=
  <["app.kubernetes.io/name" := "webapp"]>
    (<["app.kubernetes.io/instance" := name]>
       (<["app.kubernetes.io/managed-by" := "platform-operator"]> ∅)).

(** [cleanupChildResources]: the children are owned through controller
    references; nothing to do, no error. *)
Definition cleanupChildResources (r : WebAppReconciler)
    (webapp : appv1alpha1.WebApp) : M unit :=
  ret tt.

(** [setCondition] updates one condition of the WebApp in memory and writes
    the status; the result is the object as the server returned it. *)
Definition setCondition (r : WebAppReconciler) (webapp : appv1alpha1.WebApp)
    (condType : string) (status : metav1.ConditionStatus)
    (reason message : string) : M appv1alpha1.WebApp :=
  t <- Now ;;
  let conditions :=
    meta.SetStatusCondition t
      (appv1alpha1.Conditions (appv1alpha1.Status webapp))
      {| metav1.Type_ := condType;
         metav1.Status := status;
         metav1.Reason := reason;
         metav1.Message := message;
         metav1.ObservedGeneration :=
           metav1.Generation (appv1alpha1.ObjectMeta webapp);
         metav1.LastTransitionTime := metav1.ZeroTime |} in
  let webapp :=
    appv1alpha1.setStatus
      (appv1alpha1.setConditions conditions (appv1alpha1.Status webapp))
      webapp in
  wrapErr ("updating status condition " +:+ condType) (StatusUpdate webapp).

(** The Deployment [reconcileDeployment] wants, before the owner reference
    is set. *)
Definition desiredDeployment (webapp : appv1alpha1.WebApp) : appsv1.Deployment :=
  let om := appv1alpha1.ObjectMeta webapp in
  let replicas :=
    match appv1alpha1.Replicas (appv1alpha1.Spec webapp) with
    | Some n => n
    | None => 1
    end in
  {| appsv1.ObjectMeta :=
       {| metav1.Name := metav1.Name om;
          metav1.Namespace := metav1.Namespace om;
          metav1.UID := EmptyString; metav1.ResourceVersion := 0%N;
          metav1.Generation := 0; metav1.DeletionTimestamp := None;
          metav1.Labels := ∅; metav1.Annotations := ∅;
          metav1.OwnerReferences := []; metav1.Finalizers := [] |};
     appsv1.Spec :=
       {| appsv1.Replicas := Some replicas;
          appsv1.Selector :=
            Some {| metav1.MatchLabels := labelsForWebApp (metav1.Name om) |};
          appsv1.Template :=
            {| corev1.TemplateMeta :=
                 {| metav1.Name := EmptyString; metav1.Namespace := EmptyString;
                    metav1.UID := EmptyString; metav1.ResourceVersion := 0%N;
                    metav1.Generation := 0; metav1.DeletionTimestamp := None;
                    metav1.Labels := labelsForWebApp (metav1.Name om);
                    metav1.Annotations := ∅; metav1.OwnerReferences := [];
                    metav1.Finalizers := [] |};
               corev1.TemplateSpec :=
                 {| corev1.Containers :=
                      [ {| corev1.Name := "webapp";
                           corev1.Image := appv1alpha1.Image (appv1alpha1.Spec webapp);
                           corev1.Ports :=
                             [ {| corev1.PortName := EmptyString; corev1.HostPort := 0;
                                  corev1.ContainerPort_ :=
                                    appv1alpha1.Port (appv1alpha1.Spec webapp);
                                  corev1.Protocol := corev1.ProtocolTCP |} ];
                           corev1.Env := []; corev1.Resources := ∅ |} ];
                    corev1.ServiceAccountName := EmptyString;
                    corev1.NodeSelector := ∅ |} |};
          appsv1.Strategy := EmptyString; appsv1.MinReadySeconds := 0;
          appsv1.Paused := false |};
     appsv1.Status := {| appsv1.AvailableReplicas := 0; appsv1.ReadyReplicas := 0 |} |}.

(** [reconcileDeployment] creates or updates the Deployment of the WebApp.
    On an existing Deployment only the replicas, and the image and ports of
    the first container, are assigned; indexing [Containers[0]] of an empty
    list panics. *)
Definition reconcileDeployment (r : WebAppReconciler)
    (webapp : appv1alpha1.WebApp) : M unit :=
  let om := appv1alpha1.ObjectMeta webapp in
  let desired := desiredDeployment webapp in
  match controllerutil.SetControllerReference webapp (appsv1.ObjectMeta desired)
          (Scheme r) with
  | inl err => fail (Wrapped "setting owner reference on deployment" err)
  | inr m =>
      let desired := appsv1.setObjectMeta m desired in
      got <- attempt (Get (A:=appsv1.Deployment)
                        (metav1.Namespace om, metav1.Name om)) ;;
      match got with
      | inl err =>
          if IsNotFound err then
            _ <- Create desired ;; ret tt
          else fail (Wrapped "getting deployment" err)
      | inr existing =>
          let existing :=
            appsv1.setSpec
              (appsv1.setReplicas (appsv1.Replicas (appsv1.Spec desired))
                 (appsv1.Spec existing)) existing in
          let containers (d : appsv1.Deployment) :=
            corev1.Containers (corev1.TemplateSpec (appsv1.Template (appsv1.Spec d))) in
          let withContainers (cs : list corev1.Container) (d : appsv1.Deployment) :=
            appsv1.setSpec
              (appsv1.setTemplate
                 (corev1.setTemplateSpec
                    (corev1.setContainers cs
                       (corev1.TemplateSpec (appsv1.Template (appsv1.Spec d))))
                    (appsv1.Template (appsv1.Spec d)))
                 (appsv1.Spec d)) d in
          match containers desired, containers existing with
          | d0 :: _, e0 :: rest =>
              let e0 := corev1.setImage (corev1.Image d0) e0 in
              let e0 := corev1.setPorts (corev1.Ports d0) e0 in
              let existing := withContainers (e0 :: rest) existing in
              _ <- Update existing ;; ret tt
          | _, _ => panic "runtime error: index out of range [0] with length 0"
          end
      end
  end.

(** The Service [reconcileService] wants, before the owner reference is
    set. *)
Definition desiredService (webapp : appv1alpha1.WebApp) : corev1.Service :=
  let om := appv1alpha1.ObjectMeta webapp in
  {| corev1.ObjectMeta :=
       {| metav1.Name := metav1.Name om;
          metav1.Namespace := metav1.Namespace om;
          metav1.UID := EmptyString; metav1.ResourceVersion := 0%N;
          metav1.Generation := 0; metav1.DeletionTimestamp := None;
          metav1.Labels := ∅; metav1.Annotations := ∅;
          metav1.OwnerReferences := []; metav1.Finalizers := [] |};
     corev1.Spec :=
       {| corev1.SvcPorts :=
            [ {| corev1.SvcPortName := EmptyString;
                 corev1.SvcProtocol := corev1.ProtocolTCP;
                 corev1.Port := appv1alpha1.Port (appv1alpha1.Spec webapp);
                 corev1.TargetPort :=
                   intstr.FromInt32 (appv1alpha1.Port (appv1alpha1.Spec webapp));
                 corev1.NodePort := 0 |} ];
          corev1.Selector := labelsForWebApp (metav1.Name om);
          corev1.ClusterIP := EmptyString;
          corev1.Type_ := corev1.ServiceTypeClusterIP;
          corev1.SessionAffinity := EmptyString |} |}.

(** [reconcileService] creates or updates the ClusterIP Service of the
    WebApp; on an existing Service only the ports and the selector are
    assigned. *)
Definition reconcileService (r : WebAppReconciler)
    (webapp : appv1alpha1.WebApp) : M unit :=
  let om := appv1alpha1.ObjectMeta webapp in
  let desired := desiredService webapp in
  match controllerutil.SetControllerReference webapp (corev1.ObjectMeta desired)
          (Scheme r) with
  | inl err => fail (Wrapped "setting owner reference on service" err)
  | inr m =>
      let desired := corev1.setObjectMeta m desired in
      got <- attempt (Get (A:=corev1.Service)
                        (metav1.Namespace om, metav1.Name om)) ;;
      match got with
      | inl err =>
          if IsNotFound err then
            _ <- Create desired ;; ret tt
          else fail (Wrapped "getting service" err)
      | inr existing =>
          let existing :=
            corev1.setSpec
              (corev1.setSvcPorts (corev1.SvcPorts (corev1.Spec desired))
                 (corev1.Spec existing)) existing in
          let existing :=
            corev1.setSpec
              (corev1.setSelector (corev1.Selector (corev1.Spec desired))
                 (corev1.Spec existing)) existing in
          _ <- Update existing ;; ret tt
      end
  end.

(** [Reconcile].  An error return always carries the zero [ctrl.Result], so
    [Err e] stands for [return ctrl.Result{}, e]; logging is left out. *)
Definition Reconcile (r : WebAppReconciler) (req : ctrl.Request) : M ctrl.Result :=
  (* Fetch the WebApp resource. If it no longer exists, nothing to do. *)
  got <- attempt (Get (A:=appv1alpha1.WebApp) (ctrl.NamespacedName req)) ;;
  match got with
  | inl err => if IsNotFound err then ret ctrl.zeroResult else fail err
  | inr webapp =>
      let om := appv1alpha1.ObjectMeta webapp in
      (* Handle deletion. *)
      if negb (metav1.IsZero (metav1.DeletionTimestamp om)) then
        _ <- (if controllerutil.ContainsFinalizer om webappFinalizer then
                _ <- wrapErr "finalizer cleanup" (cleanupChildResources r webapp) ;;
                let webapp :=
                  appv1alpha1.setObjectMeta
                    (controllerutil.RemoveFinalizer om webappFinalizer) webapp in
                _ <- wrapErr "removing finalizer" (Update webapp) ;;
                ret tt
              else ret tt) ;;
        ret ctrl.zeroResult
      (* Add finalizer on first reconcile if not already present. *)
      else if negb (controllerutil.ContainsFinalizer om webappFinalizer) then
        let webapp :=
          appv1alpha1.setObjectMeta
            (controllerutil.AddFinalizer om webappFinalizer) webapp in
        _ <- wrapErr "adding finalizer" (Update webapp) ;;
        ret {| ctrl.Requeue := true; ctrl.RequeueAfter := 0 |}
      else
        (* Mark the resource as Progressing while we reconcile. *)
        webapp <- setCondition r webapp appv1alpha1.TypeProgressing
                    metav1.ConditionTrue "Reconciling" "reconciliation in progress" ;;
        (* Reconcile the Deployment child resource. *)
        d <- attempt (reconcileDeployment r webapp) ;;
        match d with
        | inl err =>
            _ <- ignoreErr (setCondition r webapp appv1alpha1.TypeDegraded
                              metav1.ConditionTrue "DeploymentFailed" (Error err)) ;;
            fail (Wrapped "reconciling deployment" err)
        | inr _ =>
            (* Reconcile the Service child resource. *)
            s <- attempt (reconcileService r webapp) ;;
            match s with
            | inl err =>
                _ <- ignoreErr (setCondition r webapp appv1alpha1.TypeDegraded
                                  metav1.ConditionTrue "ServiceFailed" (Error err)) ;;
                fail (Wrapped "reconciling service" err)
            | inr _ =>
                (* Fetch the current Deployment to read available replicas. *)
                dep <- wrapErr "fetching deployment for status"
                         (Get (A:=appsv1.Deployment)
                            (metav1.Namespace (appv1alpha1.ObjectMeta webapp),
                             metav1.Name (appv1alpha1.ObjectMeta webapp))) ;;
                (* Update status with observed replica count and Available. *)
                let observed := appsv1.AvailableReplicas (appsv1.Status dep) in
                let webapp :=
                  appv1alpha1.setStatus
                    (appv1alpha1.setAvailableReplicas observed
                       (appv1alpha1.Status webapp)) webapp in
                let available := 0 <? observed in
                let availStatus :=
                  if available then metav1.ConditionTrue else metav1.ConditionFalse in
                let availReason :=
                  if available then "DeploymentAvailable" else "DeploymentUnavailable" in
                let availMsg :=
                  if available then pretty observed +:+ " replica(s) available"
                  else "no replicas are available yet" in
                webapp <- setCondition r webapp appv1alpha1.TypeAvailable
                            availStatus availReason availMsg ;;
                webapp <- setCondition r webapp appv1alpha1.TypeProgressing
                            metav1.ConditionFalse "ReconcileComplete"
                            "reconciliation complete" ;;
                webapp <- setCondition r webapp appv1alpha1.TypeDegraded
                            metav1.ConditionFalse "ReconcileComplete" "no errors" ;;
                (* Requeue after requeueAfter to self-heal against drift. *)
                ret {| ctrl.Requeue := false; ctrl.RequeueAfter := requeueAfter |}
            end
        end
  end.

(** ** Vocabulary of the properties *)

Definition isStatusWrite (e : Event) : bool :=
  match e with EStatusUpdate _ _ => true | _ => false end.

Definition isChild (o : AnyObject) : bool :=
  match o with OWebApp _ => false | ODeployment _ | OService _ => true end.

(** A create or an update of a Deployment or a Service, issued. *)
Definition isChildMutation (e : Event) : bool :=
  match e with
  | ECreate o _ | EUpdate o _ => isChild o
  | EGet _ _ _ | EStatusUpdate _ _ => false
  end.

Definition hasFinalizer (a : appv1alpha1.WebApp) : bool :=
  controllerutil.ContainsFinalizer (appv1alpha1.ObjectMeta a) webappFinalizer.

Definition deletionRequested (a : appv1alpha1.WebApp) : bool :=
  negb (metav1.IsZero (metav1.DeletionTimestamp (appv1alpha1.ObjectMeta a))).

(** A fresh WebApp: no deletion requested, the finalizer not yet there. *)
Definition fresh (a : appv1alpha1.WebApp) : bool :=
  negb (deletionRequested a) && negb (hasFinalizer a).

(** The next [n] calls meet no fault of the environment. *)
Definition faultFree (n : nat) (e : Env) : bool :=
  forallb (fun t => bool_decide (fault t = None)) (take n (script e)).

Definition conditionsOf (a : appv1alpha1.WebApp) : list metav1.Condition :=
  appv1alpha1.Conditions (appv1alpha1.Status a).

(** Every stored object carries the identity it is stored under, and none
    awaits its purge (the server removes such an object at once). *)
Definition wfTable `{Object A} (t : gmap types.NamespacedName A) : Prop :=
  ∀ k o, t !! k = Some o → keyOf o = k ∧ purgeable (getMeta o) = false.

Definition wfStore (s : Store) : Prop :=
  wfTable (webapps s) ∧ wfTable (deployments s) ∧ wfTable (services s).

(** ** The passes of [Reconcile], one rule per way through the function

    [Pass r req w res w' tr]: the pass from world [w] ends with [res] in
    world [w'], having issued the requests [tr].  Each rule lists the calls
    of one control path with their outcomes.  [Reconcile_Pass] shows that
    every run of [Reconcile] follows one of the rules. *)

Section Passes.
Variable r : WebAppReconciler.
Variable req : ctrl.Request.

Let key := ctrl.NamespacedName req.

Definition markProgressing (a : appv1alpha1.WebApp) : M appv1alpha1.WebApp :=
  setCondition r a appv1alpha1.TypeProgressing metav1.ConditionTrue
    "Reconciling" "reconciliation in progress".

Definition reportDegraded (a : appv1alpha1.WebApp) (reason : string)
    (e : error) : M appv1alpha1.WebApp :=
  setCondition r a appv1alpha1.TypeDegraded metav1.ConditionTrue reason (Error e).

(** The in-memory WebApp after line 146, [webapp.Status.AvailableReplicas =
    dep.Status.AvailableReplicas]. *)
Definition withObserved (a : appv1alpha1.WebApp) (dep : appsv1.Deployment)
    : appv1alpha1.WebApp :=
  appv1alpha1.setStatus
    (appv1alpha1.setAvailableReplicas
       (appsv1.AvailableReplicas (appsv1.Status dep)) (appv1alpha1.Status a)) a.

Definition writeAvailable (a : appv1alpha1.WebApp) (dep : appsv1.Deployment)
    : M appv1alpha1.WebApp :=
  let observed := appsv1.AvailableReplicas (appsv1.Status dep) in
  setCondition r (withObserved a dep) appv1alpha1.TypeAvailable
    (if 0 <? observed then metav1.ConditionTrue else metav1.ConditionFalse)
    (if 0 <? observed then "DeploymentAvailable" else "DeploymentUnavailable")
    (if 0 <? observed then pretty observed +:+ " replica(s) available"
     else "no replicas are available yet").

Definition clearProgressing (a : appv1alpha1.WebApp) : M appv1alpha1.WebApp :=
  setCondition r a appv1alpha1.TypeProgressing metav1.ConditionFalse
    "ReconcileComplete" "reconciliation complete".

Definition clearDegraded (a : appv1alpha1.WebApp) : M appv1alpha1.WebApp :=
  setCondition r a appv1alpha1.TypeDegraded metav1.ConditionFalse
    "ReconcileComplete" "no errors".

Definition removeToken (a : appv1alpha1.WebApp) : appv1alpha1.WebApp :=
  appv1alpha1.setObjectMeta
    (controllerutil.RemoveFinalizer (appv1alpha1.ObjectMeta a) webappFinalizer) a.

Definition addToken (a : appv1alpha1.WebApp) : appv1alpha1.WebApp :=
  appv1alpha1.setObjectMeta
    (controllerutil.AddFinalizer (appv1alpha1.ObjectMeta a) webappFinalizer) a.

Inductive Pass (w : World) : Res ctrl.Result → World → list Event → Prop :=
| pass_gone e w1 t1 :
    Get (A:=appv1alpha1.WebApp) key w = (Err e, w1, t1) →
    IsNotFound e = true →
    Pass w (Ok ctrl.zeroResult) w1 t1
| pass_fetch_failed e w1 t1 :
    Get (A:=appv1alpha1.WebApp) key w = (Err e, w1, t1) →
    IsNotFound e = false →
    Pass w (Err e) w1 t1
| pass_deleting_done a w1 t1 :
    Get key w = (Ok a, w1, t1) →
    deletionRequested a = true → hasFinalizer a = false →
    Pass w (Ok ctrl.zeroResult) w1 t1
| pass_deleting_failed a w1 t1 e w2 t2 :
    Get key w = (Ok a, w1, t1) →
    deletionRequested a = true → hasFinalizer a = true →
    Update (removeToken a) w1 = (Err e, w2, t2) →
    Pass w (Err (Wrapped "removing finalizer" e)) w2 (t1 ++ t2)
| pass_deleting_released a w1 t1 a2 w2 t2 :
    Get key w = (Ok a, w1, t1) →
    deletionRequested a = true → hasFinalizer a = true →
    Update (removeToken a) w1 = (Ok a2, w2, t2) →
    Pass w (Ok ctrl.zeroResult) w2 (t1 ++ t2)
| pass_register_failed a w1 t1 e w2 t2 :
    Get key w = (Ok a, w1, t1) →
    deletionRequested a = false → hasFinalizer a = false →
    Update (addToken a) w1 = (Err e, w2, t2) →
    Pass w (Err (Wrapped "adding finalizer" e)) w2 (t1 ++ t2)
| pass_registered a w1 t1 a2 w2 t2 :
    Get key w = (Ok a, w1, t1) →
    deletionRequested a = false → hasFinalizer a = false →
    Update (addToken a) w1 = (Ok a2, w2, t2) →
    Pass w (Ok {| ctrl.Requeue := true; ctrl.RequeueAfter := 0 |}) w2 (t1 ++ t2)
| pass_mark_failed a w1 t1 e w2 t2 :
    Get key w = (Ok a, w1, t1) →
    deletionRequested a = false → hasFinalizer a = true →
    markProgressing a w1 = (Err e, w2, t2) →
    Pass w (Err e) w2 (t1 ++ t2)
| pass_deployment_failed a w1 t1 a2 w2 t2 e w3 t3 r4 w4 t4 :
    Get key w = (Ok a, w1, t1) →
    deletionRequested a = false → hasFinalizer a = true →
    markProgressing a w1 = (Ok a2, w2, t2) →
    reconcileDeployment r a2 w2 = (Err e, w3, t3) →
    reportDegraded a2 "DeploymentFailed" e w3 = (r4, w4, t4) →
    Pass w (Err (Wrapped "reconciling deployment" e)) w4 (t1 ++ t2 ++ t3 ++ t4)
| pass_deployment_panicked a w1 t1 a2 w2 t2 msg w3 t3 :
    Get key w = (Ok a, w1, t1) →
    deletionRequested a = false → hasFinalizer a = true →
    markProgressing a w1 = (Ok a2, w2, t2) →
    reconcileDeployment r a2 w2 = (Panic msg, w3, t3) →
    Pass w (Panic msg) w3 (t1 ++ t2 ++ t3)
| pass_service_failed a w1 t1 a2 w2 t2 w3 t3 e w4 t4 r5 w5 t5 :
    Get key w = (Ok a, w1, t1) →
    deletionRequested a = false → hasFinalizer a = true →
    markProgressing a w1 = (Ok a2, w2, t2) →
    reconcileDeployment r a2 w2 = (Ok tt, w3, t3) →
    reconcileService r a2 w3 = (Err e, w4, t4) →
    reportDegraded a2 "ServiceFailed" e w4 = (r5, w5, t5) →
    Pass w (Err (Wrapped "reconciling service" e)) w5
      (t1 ++ t2 ++ t3 ++ t4 ++ t5)
| pass_observe_failed a w1 t1 a2 w2 t2 w3 t3 w4 t4 e w5 t5 :
    Get key w = (Ok a, w1, t1) →
    deletionRequested a = false → hasFinalizer a = true →
    markProgressing a w1 = (Ok a2, w2, t2) →
    reconcileDeployment r a2 w2 = (Ok tt, w3, t3) →
    reconcileService r a2 w3 = (Ok tt, w4, t4) →
    Get (A:=appsv1.Deployment) (keyOf a2) w4 = (Err e, w5, t5) →
    Pass w (Err (Wrapped "fetching deployment for status" e)) w5
      (t1 ++ t2 ++ t3 ++ t4 ++ t5)
| pass_available_failed a w1 t1 a2 w2 t2 w3 t3 w4 t4 dep w5 t5 e w6 t6 :
    Get key w = (Ok a, w1, t1) →
    deletionRequested a = false → hasFinalizer a = true →
    markProgressing a w1 = (Ok a2, w2, t2) →
    reconcileDeployment r a2 w2 = (Ok tt, w3, t3) →
    reconcileService r a2 w3 = (Ok tt, w4, t4) →
    Get (keyOf a2) w4 = (Ok dep, w5, t5) →
    writeAvailable a2 dep w5 = (Err e, w6, t6) →
    Pass w (Err e) w6 (t1 ++ t2 ++ t3 ++ t4 ++ t5 ++ t6)
| pass_clear_progressing_failed
    a w1 t1 a2 w2 t2 w3 t3 w4 t4 dep w5 t5 a6 w6 t6 e w7 t7 :
    Get key w = (Ok a, w1, t1) →
    deletionRequested a = false → hasFinalizer a = true →
    markProgressing a w1 = (Ok a2, w2, t2) →
    reconcileDeployment r a2 w2 = (Ok tt, w3, t3) →
    reconcileService r a2 w3 = (Ok tt, w4, t4) →
    Get (keyOf a2) w4 = (Ok dep, w5, t5) →
    writeAvailable a2 dep w5 = (Ok a6, w6, t6) →
    clearProgressing a6 w6 = (Err e, w7, t7) →
    Pass w (Err e) w7 (t1 ++ t2 ++ t3 ++ t4 ++ t5 ++ t6 ++ t7)
| pass_clear_degraded_failed
    a w1 t1 a2 w2 t2 w3 t3 w4 t4 dep w5 t5 a6 w6 t6 a7 w7 t7 e w8 t8 :
    Get key w = (Ok a, w1, t1) →
    deletionRequested a = false → hasFinalizer a = true →
    markProgressing a w1 = (Ok a2, w2, t2) →
    reconcileDeployment r a2 w2 = (Ok tt, w3, t3) →
    reconcileService r a2 w3 = (Ok tt, w4, t4) →
    Get (keyOf a2) w4 = (Ok dep, w5, t5) →
    writeAvailable a2 dep w5 = (Ok a6, w6, t6) →
    clearProgressing a6 w6 = (Ok a7, w7, t7) →
    clearDegraded a7 w7 = (Err e, w8, t8) →
    Pass w (Err e) w8 (t1 ++ t2 ++ t3 ++ t4 ++ t5 ++ t6 ++ t7 ++ t8)
| pass_complete
    a w1 t1 a2 w2 t2 w3 t3 w4 t4 dep w5 t5 a6 w6 t6 a7 w7 t7 a8 w8 t8 :
    Get key w = (Ok a, w1, t1) →
    deletionRequested a = false → hasFinalizer a = true →
    markProgressing a w1 = (Ok a2, w2, t2) →
    reconcileDeployment r a2 w2 = (Ok tt, w3, t3) →
    reconcileService r a2 w3 = (Ok tt, w4, t4) →
    Get (keyOf a2) w4 = (Ok dep, w5, t5) →
    writeAvailable a2 dep w5 = (Ok a6, w6, t6) →
    clearProgressing a6 w6 = (Ok a7, w7, t7) →
    clearDegraded a7 w7 = (Ok a8, w8, t8) →
    Pass w (Ok {| ctrl.Requeue := false; ctrl.RequeueAfter := requeueAfter |})
      w8 (t1 ++ t2 ++ t3 ++ t4 ++ t5 ++ t6 ++ t7 ++ t8).
End Passes.

(** The pass reached the synchronisation of the children: the WebApp [a]
    was fetched with the finalizer and without a deletion request, and the
    Progressing mark was written; [a2] is the WebApp then held, [w2] the
    world, [pre] the requests so far. *)
Definition reachesSync (r : WebAppReconciler) (req : ctrl.Request) (w : World)
    (a a2 : appv1alpha1.WebApp) (w2 : World) (pre : list Event) : Prop :=
  ∃ w1 t1 t2,
    Get (ctrl.NamespacedName req) w = (Ok a, w1, t1)
    ∧ deletionRequested a = false
    ∧ hasFinalizer a = true
    ∧ markProgressing r a w1 = (Ok a2, w2, t2)
    ∧ pre = t1 ++ t2.

(** The synchronisation of the children fails with [e]: in
    [reconcileDeployment], or after it in [reconcileService]; [wf] is the
    world then, [mid] the requests of the synchronisation, [reason] and
    [prefix] the words lines 126-137 use for the failing child. *)
Definition syncFails (r : WebAppReconciler) (a2 : appv1alpha1.WebApp)
    (w2 : World) (e : error) (wf : World) (mid : list Event)
    (reason prefix : string) : Prop :=
  (reconcileDeployment r a2 w2 = (Err e, wf, mid)
   ∧ reason = "DeploymentFailed" ∧ prefix = "reconciling deployment")
  ∨ (∃ w3 t3 t4,
       reconcileDeployment r a2 w2 = (Ok tt, w3, t3)
       ∧ reconcileService r a2 w3 = (Err e, wf, t4)
       ∧ mid = t3 ++ t4
       ∧ reason = "ServiceFailed" ∧ prefix = "reconciling service").

(** The failure of the synchronisation is reported, in the words of the
    specification: after the pass the WebApp of [req] carries the Degraded
    condition, True, with the reason of the failing child. *)
Definition failureReported (req : ctrl.Request) (w' : World) (reason : string)
    : Prop :=
  ∃ a' c,
    webapps (store w') !! ctrl.NamespacedName req = Some a'
    ∧ meta.FindStatusCondition
        (appv1alpha1.Conditions (appv1alpha1.Status a'))
        appv1alpha1.TypeDegraded = Some c
    ∧ metav1.Status c = metav1.ConditionTrue
    ∧ metav1.Reason c = reason.

(** The pass reached status projection: both children were synchronised and
    the Deployment [dep] was fetched for its status. *)
Definition reachesProjection (r : WebAppReconciler) (req : ctrl.Request)
    (w : World) (a2 : appv1alpha1.WebApp) (dep : appsv1.Deployment)
    (w5 : World) (pre : list Event) : Prop :=
  ∃ a w2 pre2 w3 t3 w4 t4 t5,
    reachesSync r req w a a2 w2 pre2
    ∧ reconcileDeployment r a2 w2 = (Ok tt, w3, t3)
    ∧ reconcileService r a2 w3 = (Ok tt, w4, t4)
    ∧ Get (keyOf a2) w4 = (Ok dep, w5, t5)
    ∧ pre = pre2 ++ t3 ++ t4 ++ t5.

(** The condition [setCondition] hands to [meta.SetStatusCondition], and the
    in-memory WebApp after that call. *)
Definition newCondition (a : appv1alpha1.WebApp) (condType : string)
    (status : metav1.ConditionStatus) (reason message : string)
    : metav1.Condition :=
  {| metav1.Type_ := condType;
     metav1.Status := status;
     metav1.Reason := reason;
     metav1.Message := message;
     metav1.ObservedGeneration := metav1.Generation (appv1alpha1.ObjectMeta a);
     metav1.LastTransitionTime := metav1.ZeroTime |}.

Definition conditioned (now : N) (a : appv1alpha1.WebApp) (condType : string)
    (status : metav1.ConditionStatus) (reason message : string)
    : appv1alpha1.WebApp :=
  appv1alpha1.setStatus
    (appv1alpha1.setConditions
       (meta.SetStatusCondition now (conditionsOf a)
          (newCondition a condType status reason message))
       (appv1alpha1.Status a)) a.

(** The WebApp the reconciler holds in memory is the one in the store. *)
Definition synced (a : appv1alpha1.WebApp) (w : World) : Prop :=
  webapps (store w) !! keyOf a = Some a.

(** [c'] carries what a write of [c] sets: everything but the transition
    time. *)
Definition agrees (c' c : metav1.Condition) : Prop :=
  metav1.Type_ c' = metav1.Type_ c
  ∧ metav1.Status c' = metav1.Status c
  ∧ metav1.Reason c' = metav1.Reason c
  ∧ metav1.Message c' = metav1.Message c
  ∧ metav1.ObservedGeneration c' = metav1.ObservedGeneration c.

(** [p] occurs in [s]. *)
Fixpoint prefixb (p s : string) : bool :=
  match p, s with
  | EmptyString, _ => true
  | String a p', String b s' => bool_decide (a = b) && prefixb p' s'
  | String _ _, EmptyString => false
  end.

Fixpoint infixb (p s : string) : bool :=
  prefixb p s
  || match s with
     | EmptyString => false
     | String _ s' => infixb p s'
     end.

(** The decision table for the Available condition in the words of the
    specification: True when at least one replica is available, else False
    with reason "Unavailable" and a message carrying the observed count. *)
Definition availableAsSpecified (observed : Z) (c : metav1.Condition) : Prop :=
  if 0 <? observed then metav1.Status c = metav1.ConditionTrue
  else metav1.Status c = metav1.ConditionFalse
       ∧ metav1.Reason c = "Unavailable"
       ∧ infixb (pretty observed) (metav1.Message c) = true.

(** The decision table of lines 146-155. *)
Definition availableAsCoded (observed : Z) (c : metav1.Condition) : Prop :=
  if 0 <? observed
  then metav1.Status c = metav1.ConditionTrue
       ∧ metav1.Reason c = "DeploymentAvailable"
       ∧ metav1.Message c = pretty observed +:+ " replica(s) available"
  else metav1.Status c = metav1.ConditionFalse
       ∧ metav1.Reason c = "DeploymentUnavailable"
       ∧ metav1.Message c = "no replicas are available yet".

(** ** A scenario: the WebApp [default/demo]

    Desired state: image [app:1.0], two replicas, port 8080 (scenario A of
    the specification). *)

Module Scenario.

Definition key : types.NamespacedName := ("default", "demo").

Definition req : ctrl.Request := {| ctrl.NamespacedName := key |}.

Definition reconciler : WebAppReconciler :=
  {| Scheme := {| runtime.gvkForWebApp := Some ("app.54b3r.io/v1alpha1", "WebApp") |} |}.

(** The same reconciler with a scheme in which the WebApp kind was never
    registered. *)
Definition kindless : WebAppReconciler :=
  {| Scheme := {| runtime.gvkForWebApp := None |} |}.

Definition demoMeta (finalizers : list string) (deletion : option metav1.Time)
    : metav1.ObjectMeta :=
  {| metav1.Name := "demo"; metav1.Namespace := "default";
     metav1.UID := "uid-1"; metav1.ResourceVersion := 7%N;
     metav1.Generation := 1; metav1.DeletionTimestamp := deletion;
     metav1.Labels := ∅; metav1.Annotations := ∅;
     metav1.OwnerReferences := []; metav1.Finalizers := finalizers |}.

Definition demo (finalizers : list string) (deletion : option metav1.Time)
    : appv1alpha1.WebApp :=
  {| appv1alpha1.ObjectMeta := demoMeta finalizers deletion;
     appv1alpha1.Spec :=
       {| appv1alpha1.Image := "app:1.0";
          appv1alpha1.Replicas := Some 2;
          appv1alpha1.Port := 8080 |};
     appv1alpha1.Status :=
       {| appv1alpha1.AvailableReplicas := 0;
          appv1alpha1.Conditions := [] |} |}.

(** A world holding only the given WebApp, at time 100, with the given
    script. *)
Definition worldOf (a : appv1alpha1.WebApp) (sc : list Tick) : World :=
  {| store := {| webapps := {[ key := a ]}; deployments := ∅;
                 services := ∅; nextRV := 8%N |};
     env := {| now := 100%N; script := sc |} |}.

(** Freshly created: no finalizer, no children. *)
Definition fresh0 : World := worldOf (demo [] None) [].

(** The finalizer registered, no children yet. *)
Definition registered0 : World := worldOf (demo [webappFinalizer] None) [].

(** Deletion requested with the finalizer still there. *)
Definition deleting0 : World :=
  worldOf (demo [webappFinalizer] (Some (metav1.At 90%N))) [].

Definition quiet : Tick := {| elapsed := 1%N; fault := None |}.

(** The seventh call of the pass, the fetch of the Deployment for status,
    times out. *)
Definition observeFails : World :=
  worldOf (demo [webappFinalizer] None)
    [quiet; quiet; quiet; quiet; quiet; quiet;
     {| elapsed := 30%N;
        fault := Some (StatusError apierrors.StatusReasonTimeout
                         "the server was unable to return a response in time") |}].

(** The fourth call of the pass, the create of the Deployment, is
    refused. *)
Definition createFails : World :=
  worldOf (demo [webappFinalizer] None)
    [quiet; quiet; quiet;
     {| elapsed := 1%N;
        fault := Some (StatusError apierrors.StatusReasonServiceUnavailable
                         "the server is currently unable to handle the request") |}].

(** The create of the Deployment is refused, and so is the status write
    that follows it: the store is out of reach from the fourth call on. *)
Definition outage : World :=
  worldOf (demo [webappFinalizer] None)
    [quiet; quiet; quiet;
     {| elapsed := 1%N;
        fault := Some (StatusError apierrors.StatusReasonServiceUnavailable
                         "the server is currently unable to handle the request") |};
     {| elapsed := 1%N;
        fault := Some (StatusError apierrors.StatusReasonServiceUnavailable
                         "the server is currently unable to handle the request") |}].

Definition worldAfter (w : World) : World := (Reconcile reconciler req w).1.2.
Definition resultOf (w : World) : Res ctrl.Result := (Reconcile reconciler req w).1.1.
Definition traceOf (w : World) : list Event := (Reconcile reconciler req w).2.

Definition storedWebApp (w : World) : option appv1alpha1.WebApp :=
  webapps (store w) !! key.

Definition okOf {A} (d : A) (run : Res A * World * list Event) : A :=
  match run.1.1 with Ok a => a | _ => d end.

(** The calls of a pass on the registered WebApp up to status projection,
    in a world [w]. *)
Definition registered : appv1alpha1.WebApp := demo [webappFinalizer] None.
Definition fetch (w : World) := Get (A:=appv1alpha1.WebApp) key w.
Definition mark (w : World) := markProgressing reconciler registered (fetch w).1.2.
Definition marked (w : World) : appv1alpha1.WebApp := okOf registered (mark w).
Definition syncDeployment (w : World) :=
  reconcileDeployment reconciler (marked w) (mark w).1.2.
Definition syncService (w : World) :=
  reconcileService reconciler (marked w) (syncDeployment w).1.2.
Definition observe (w : World) :=
  Get (A:=appsv1.Deployment) key (syncService w).1.2.
Definition observed (w : World) : appsv1.Deployment :=
  okOf (desiredDeployment registered) (observe w).

(** Scenario B: the children exist and were tuned by hand.  The Deployment
    runs [app:0.9] with one replica on port 80, carries an annotation, an
    environment variable, resource limits, a sidecar and a strategy; the
    Service carries a cluster IP and a session affinity and still exposes
    port 80.  The WebApp asks for [app:1.0], two replicas, port 8080. *)
Definition childMeta (uid : string) (rv : N) (gen : Z) : metav1.ObjectMeta :=
  {| metav1.Name := "demo"; metav1.Namespace := "default";
     metav1.UID := uid; metav1.ResourceVersion := rv;
     metav1.Generation := gen; metav1.DeletionTimestamp := None;
     metav1.Labels := ∅;
     metav1.Annotations := {[ "example.com/tuned-by" := "operations" ]};
     metav1.OwnerReferences := []; metav1.Finalizers := [] |}.

Definition tunedDeployment : appsv1.Deployment :=
  {| appsv1.ObjectMeta := childMeta "uid-9" 9%N 4;
     appsv1.Spec :=
       {| appsv1.Replicas := Some 1;
          appsv1.Selector :=
            Some {| metav1.MatchLabels := labelsForWebApp "demo" |};
          appsv1.Template :=
            {| corev1.TemplateMeta :=
                 metav1.zeroMeta;
               corev1.TemplateSpec :=
                 {| corev1.Containers :=
                      [ {| corev1.Name := "webapp";
                           corev1.Image := "app:0.9";
                           corev1.Ports :=
                             [ {| corev1.PortName := "http"; corev1.HostPort := 0;
                                  corev1.ContainerPort_ := 80;
                                  corev1.Protocol := corev1.ProtocolTCP |} ];
                           corev1.Env := [("LOG_LEVEL", "debug")];
                           corev1.Resources := {[ "memory" := "256Mi" ]} |};
                        {| corev1.Name := "sidecar";
                           corev1.Image := "proxy:2";
                           corev1.Ports := [];
                           corev1.Env := [];
                           corev1.Resources := ∅ |} ];
                    corev1.ServiceAccountName := "demo-sa";
                    corev1.NodeSelector := {[ "disk" := "ssd" ]} |} |};
          appsv1.Strategy := "Recreate"; appsv1.MinReadySeconds := 5;
          appsv1.Paused := false |};
     appsv1.Status :=
       {| appsv1.AvailableReplicas := 1; appsv1.ReadyReplicas := 1 |} |}.

Definition tunedService : corev1.Service :=
  {| corev1.ObjectMeta := childMeta "uid-10" 10%N 0;
     corev1.Spec :=
       {| corev1.SvcPorts :=
            [ {| corev1.SvcPortName := "http";
                 corev1.SvcProtocol := corev1.ProtocolTCP;
                 corev1.Port := 80;
                 corev1.TargetPort := intstr.IntVal 80;
                 corev1.NodePort := 0 |} ];
          corev1.Selector := {[ "app" := "demo" ]};
          corev1.ClusterIP := "10.0.0.7";
          corev1.Type_ := corev1.ServiceTypeClusterIP;
          corev1.SessionAffinity := "ClientIP" |} |}.

Definition tuned : World :=
  {| store := {| webapps := {[ key := registered ]};
                 deployments := {[ key := tunedDeployment ]};
                 services := {[ key := tunedService ]};
                 nextRV := 11%N |};
     env := {| now := 100%N; script := [] |} |}.

(** The stored children after a synchronisation in [w]. *)
Definition deploymentAfter (w : World) : option appsv1.Deployment :=
  deployments (store (reconcileDeployment reconciler registered w).1.2) !! key.

Definition serviceAfter (w : World) : option corev1.Service :=
  services (store (reconcileService reconciler registered w).1.2) !! key.

(** The stored WebApp of the scenario. *)
Definition current (w : World) : appv1alpha1.WebApp :=
  default registered (storedWebApp w).

(** Another client edits the desired state: [n] replicas. *)
Definition scale (n : Z) (w : World) :=
  Update
    (appv1alpha1.setSpec
       {| appv1alpha1.Image := appv1alpha1.Image (appv1alpha1.Spec (current w));
          appv1alpha1.Replicas := Some n;
          appv1alpha1.Port := appv1alpha1.Port (appv1alpha1.Spec (current w)) |}
       (current w)) w.

Definition scaled (n : Z) (w : World) : World := (scale n w).1.2.

(** The registered WebApp in a world where every call takes one unit of
    time. *)
Definition ticking : World := worldOf registered (replicate 30 quiet).

(** The Deployment of the WebApp exists but lists no container. *)
Definition hollowDeployment : appsv1.Deployment :=
  appsv1.setSpec
    (appsv1.setTemplate
       (corev1.setTemplateSpec
          (corev1.setContainers []
             (corev1.TemplateSpec (appsv1.Template (appsv1.Spec tunedDeployment))))
          (appsv1.Template (appsv1.Spec tunedDeployment)))
       (appsv1.Spec tunedDeployment))
    tunedDeployment.

Definition hollow : World :=
  {| store := {| webapps := {[ key := registered ]};
                 deployments := {[ key := hollowDeployment ]};
                 services := ∅;
                 nextRV := 11%N |};
     env := {| now := 100%N; script := [] |} |}.

(** Deletion requested while another controller still holds a finalizer of
    its own. *)
Definition heldByAnother : World :=
  worldOf (demo ["example.com/backup"; webappFinalizer]
             (Some (metav1.At 90%N))) [].

End Scenario.

(** A request that is neither a status write nor a child create or update. *)
Definition quietEvent (e : Event) : Prop :=
  isStatusWrite e = false ∧ isChildMutation e = false.

(** Status is written last, in the words of the specification: within a
    pass no status write is issued before a child create or update. *)
Definition statusWrittenLast (tr : list Event) : Prop :=
  ∀ i j e c,
    tr !! i = Some e → tr !! j = Some c →
    isStatusWrite e = true → isChildMutation c = true →
    (j < i)%nat.

(** The status write of line 120 for the fetched WebApp [a]: its status
    with the Progressing condition set to True, reason Reconciling. *)
Definition isProgressingMark (a : appv1alpha1.WebApp) (e : Event) : Prop :=
  ∃ now rr,
    e = EStatusUpdate
          (OWebApp (conditioned now a appv1alpha1.TypeProgressing
                      metav1.ConditionTrue "Reconciling"
                      "reconciliation in progress")) rr.

(** What lines 237-239 make of an existing Deployment whose first container
    is [c0]: the replicas, and the image and ports of [c0], are the desired
    ones; every other field is spelled out as the existing one. *)
Definition mergedDeployment (a : appv1alpha1.WebApp)
    (existing : appsv1.Deployment) (c0 : corev1.Container)
    (rest : list corev1.Container) (m : metav1.ObjectMeta) : appsv1.Deployment :=
  let sp := appsv1.Spec existing in
  let tpl := appsv1.Template sp in
  let pod := corev1.TemplateSpec tpl in
  {| appsv1.ObjectMeta := m;
     appsv1.Spec :=
       {| appsv1.Replicas :=
            Some (match appv1alpha1.Replicas (appv1alpha1.Spec a) with
                  | Some n => n
                  | None => 1
                  end);
          appsv1.Selector := appsv1.Selector sp;
          appsv1.Template :=
            {| corev1.TemplateMeta := corev1.TemplateMeta tpl;
               corev1.TemplateSpec :=
                 {| corev1.Containers :=
                      {| corev1.Name := corev1.Name c0;
                         corev1.Image := appv1alpha1.Image (appv1alpha1.Spec a);
                         corev1.Ports :=
                           [ {| corev1.PortName := EmptyString; corev1.HostPort := 0;
                                corev1.ContainerPort_ :=
                                  appv1alpha1.Port (appv1alpha1.Spec a);
                                corev1.Protocol := corev1.ProtocolTCP |} ];
                         corev1.Env := corev1.Env c0;
                         corev1.Resources := corev1.Resources c0 |} :: rest;
                    corev1.ServiceAccountName := corev1.ServiceAccountName pod;
                    corev1.NodeSelector := corev1.NodeSelector pod |} |};
          appsv1.Strategy := appsv1.Strategy sp;
          appsv1.MinReadySeconds := appsv1.MinReadySeconds sp;
          appsv1.Paused := appsv1.Paused sp |};
     appsv1.Status := appsv1.Status existing |}.

(** What lines 283-284 make of an existing Service: the ports and the
    selector are the desired ones; every other field is the existing one. *)
Definition mergedService (a : appv1alpha1.WebApp) (existing : corev1.Service)
    (m : metav1.ObjectMeta) : corev1.Service :=
  {| corev1.ObjectMeta := m;
     corev1.Spec :=
       {| corev1.SvcPorts :=
            [ {| corev1.SvcPortName := EmptyString;
                 corev1.SvcProtocol := corev1.ProtocolTCP;
                 corev1.Port := appv1alpha1.Port (appv1alpha1.Spec a);
                 corev1.TargetPort :=
                   intstr.IntVal (appv1alpha1.Port (appv1alpha1.Spec a));
                 corev1.NodePort := 0 |} ];
          corev1.Selector :=
            labelsForWebApp (metav1.Name (appv1alpha1.ObjectMeta a));
          corev1.ClusterIP := corev1.ClusterIP (corev1.Spec existing);
          corev1.Type_ := corev1.Type_ (corev1.Spec existing);
          corev1.SessionAffinity := corev1.SessionAffinity (corev1.Spec existing) |} |}.

(** The generation the server gives a Deployment written with a new spec. *)
Definition nextGeneration (existing new : appsv1.Deployment) : Z :=
  if bool_decide (appsv1.Spec existing = appsv1.Spec new)
  then metav1.Generation (appsv1.ObjectMeta existing)
  else metav1.Generation (appsv1.ObjectMeta existing) + 1.

(** ** Observed generations *)

(** The generation the first condition of type [condType] was computed
    for. *)
Definition observedGeneration (a : appv1alpha1.WebApp) (condType : string)
    : option Z :=
  metav1.ObservedGeneration
    <$> meta.FindStatusCondition (conditionsOf a) condType.

(** No condition claims a generation the WebApp has not reached. *)
Definition generationBounded (a : appv1alpha1.WebApp) : bool :=
  forallb
    (λ c, metav1.ObservedGeneration c
          <=? metav1.Generation (appv1alpha1.ObjectMeta a))
    (conditionsOf a).

(** From [a] to [a'] no condition type lost its condition or went back to
    an earlier generation. *)
Definition neverDecreases (a a' : appv1alpha1.WebApp) : Prop :=
  ∀ ty g, observedGeneration a ty = Some g →
          ∃ g', observedGeneration a' ty = Some g' ∧ g ≤ g'.

(** [a'] is a later state of the stored WebApp [a]. *)
Definition advances (a a' : appv1alpha1.WebApp) : Prop :=
  keyOf a' = keyOf a
  ∧ (generationBounded a = true →
     neverDecreases a a' ∧ generationBounded a' = true).

(** What another writer may do to the WebApp under [k] between two passes:
    the main resource has the status subresource, so the status stays; the
    generation counter of the store does not go back. *)
Definition externalEdit (k : types.NamespacedName) (w w' : World) : Prop :=
  ∀ a, webapps (store w) !! k = Some a →
       ∃ a', webapps (store w') !! k = Some a'
             ∧ keyOf a' = keyOf a
             ∧ appv1alpha1.Status a' = appv1alpha1.Status a
             ∧ metav1.Generation (appv1alpha1.ObjectMeta a)
               ≤ metav1.Generation (appv1alpha1.ObjectMeta a').

(** One step in the life of the WebApp of [req]: a pass of the reconciler
    that leaves it in the store, or an edit by another writer. *)
Inductive lifeStep (r : WebAppReconciler) (req : ctrl.Request)
    (w w' : World) : Prop :=
| life_pass res tr :
    Reconcile r req w = (res, w', tr) →
    is_Some (webapps (store w') !! ctrl.NamespacedName req) →
    lifeStep r req w w'
| life_edit :
    externalEdit (ctrl.NamespacedName req) w w' →
    lifeStep r req w w'.

(** ** Children in the desired form *)

(** A synchronisation would leave the spec of [d] as it is: the replicas,
    and the image and ports of the first container, are the desired
    ones. *)
Definition deploymentCarries (a : appv1alpha1.WebApp) (d : appsv1.Deployment)
    : Prop :=
  ∃ c0 rest,
    corev1.Containers (corev1.TemplateSpec (appsv1.Template (appsv1.Spec d)))
    = c0 :: rest
    ∧ mergedDeployment a d c0 rest (appsv1.ObjectMeta d) = d.

Definition serviceCarries (a : appv1alpha1.WebApp) (s : corev1.Service)
    : Prop :=
  mergedService a s (corev1.ObjectMeta s) = s.

(** ** Two passes in a row *)

(** [b] is [a] but for the resource version and the status. *)
Definition sameTarget (a b : appv1alpha1.WebApp) : Prop :=
  appv1alpha1.Spec b = appv1alpha1.Spec a
  ∧ ∃ rv, appv1alpha1.ObjectMeta b
          = metav1.stamp rv (metav1.Generation (appv1alpha1.ObjectMeta a))
              (appv1alpha1.ObjectMeta a).

(** The status a complete pass leaves for a WebApp of generation [g] whose
    Deployment has [observed] replicas available. *)
Definition projected (g observed : Z) (a : appv1alpha1.WebApp) : Prop :=
  appv1alpha1.AvailableReplicas (appv1alpha1.Status a) = observed
  ∧ (∃ c, meta.FindStatusCondition (conditionsOf a) appv1alpha1.TypeAvailable
          = Some c
          ∧ availableAsCoded observed c
          ∧ metav1.ObservedGeneration c = g)
  ∧ (∃ c, meta.FindStatusCondition (conditionsOf a) appv1alpha1.TypeProgressing
          = Some c
          ∧ metav1.Status c = metav1.ConditionFalse
          ∧ metav1.Reason c = "ReconcileComplete"
          ∧ metav1.Message c = "reconciliation complete"
          ∧ metav1.ObservedGeneration c = g)
  ∧ (∃ c, meta.FindStatusCondition (conditionsOf a) appv1alpha1.TypeDegraded
          = Some c
          ∧ metav1.Status c = metav1.ConditionFalse
          ∧ metav1.Reason c = "ReconcileComplete"
          ∧ metav1.Message c = "no errors"
          ∧ metav1.ObservedGeneration c = g).

(** The conditions [cs] with the transition time of the first condition of
    type [ty] set to [t]. *)
Fixpoint retimed (ty : string) (t : metav1.Time) (cs : list metav1.Condition)
    : list metav1.Condition :=
  match cs with
  | [] => []
  | c :: rest =>
      if bool_decide (metav1.Type_ c = ty)
      then meta.setLastTransitionTime t c :: rest
      else c :: retimed ty t rest
  end.

(** The observed state of [a'] is that of [a] but for the time of the last
    transition of the Progressing condition, which is [t]: the same replica
    count and the same list of conditions otherwise. *)
Definition sameObservedAt (t : metav1.Time) (a a' : appv1alpha1.WebApp)
    : Prop :=
  appv1alpha1.AvailableReplicas (appv1alpha1.Status a')
  = appv1alpha1.AvailableReplicas (appv1alpha1.Status a)
  ∧ conditionsOf a'
    = retimed appv1alpha1.TypeProgressing t (conditionsOf a).

Definition sameObserved (a a' : appv1alpha1.WebApp) : Prop :=
  ∃ t, sameObservedAt t a a'.

(** The Progressing condition of [a] made its last transition at [t]. *)
Definition progressingSince (a : appv1alpha1.WebApp) (t : N) : Prop :=
  ∃ c, meta.FindStatusCondition (conditionsOf a) appv1alpha1.TypeProgressing
       = Some c
       ∧ metav1.LastTransitionTime c = metav1.At t.

(** The identical observed state, in the words of the specification. *)
Definition identicalObserved (a a' : option appv1alpha1.WebApp) : Prop :=
  appv1alpha1.Status <$> a' = appv1alpha1.Status <$> a.

(** The child mutations of a trace. *)
Definition childMutations (tr : list Event) : list Event :=
  List.filter isChildMutation tr.

(** Idempotence in the words of the specification: of two passes in a row
    from [w], the second leaves the observed state the first left, and its
    child mutations are those of the first, or none. *)
Definition idempotentAt (r : WebAppReconciler) (req : ctrl.Request)
    (w : World) : Prop :=
  let w1 := (Reconcile r req w).1.2 in
  let w2 := (Reconcile r req w1).1.2 in
  identicalObserved
    (webapps (store w1) !! ctrl.NamespacedName req)
    (webapps (store w2) !! ctrl.NamespacedName req)
  ∧ (childMutations (Reconcile r req w1).2 = childMutations (Reconcile r req w).2
     ∨ childMutations (Reconcile r req w1).2 = []).

(** The result of a pass that ran to its end. *)
Definition completed : Res ctrl.Result :=
  Ok {| ctrl.Requeue := false; ctrl.RequeueAfter := requeueAfter |}.

(** The same object under a new resource version. *)
Definition restampedDeployment (rv : N) (d : appsv1.Deployment)
    : appsv1.Deployment :=
  appsv1.setObjectMeta
    (metav1.stamp rv (metav1.Generation (appsv1.ObjectMeta d))
       (appsv1.ObjectMeta d)) d.

Definition restampedService (rv : N) (s : corev1.Service) : corev1.Service :=
  corev1.setObjectMeta
    (metav1.stamp rv (metav1.Generation (corev1.ObjectMeta s))
       (corev1.ObjectMeta s)) s.

(** The WebApp of [req] and its children after a complete pass: the WebApp
    [a] is registered, the children [d] and [s] are in the desired form,
    the status is the projection of [d]. *)
Definition settled (r : WebAppReconciler) (req : ctrl.Request) (w : World)
    (a : appv1alpha1.WebApp) (d : appsv1.Deployment) (s : corev1.Service)
    : Prop :=
  webapps (store w) !! ctrl.NamespacedName req = Some a
  ∧ deployments (store w) !! ctrl.NamespacedName req = Some d
  ∧ services (store w) !! ctrl.NamespacedName req = Some s
  ∧ keyOf a = ctrl.NamespacedName req
  ∧ deletionRequested a = false ∧ hasFinalizer a = true
  ∧ wfStore (store w)
  ∧ (∃ m, controllerutil.SetControllerReference a
            (appsv1.ObjectMeta (desiredDeployment a)) (Scheme r) = inr m)
  ∧ deploymentCarries a d ∧ serviceCarries a s
  ∧ projected (metav1.Generation (appv1alpha1.ObjectMeta a))
      (appsv1.AvailableReplicas (appsv1.Status d)) a.

(** The states in which a pass that met no fault leaves the WebApp of [req]
    when it did not run to its end. *)

(** Nothing to do: no WebApp under the key, or one whose deletion was
    requested and that no longer carries the finalizer. *)
Definition idle (req : ctrl.Request) (w : World) : Prop :=
  match webapps (store w) !! ctrl.NamespacedName req with
  | None => True
  | Some a => deletionRequested a = true ∧ hasFinalizer a = false
  end.

(** The condition of type [condType] of [a] is the one [setCondition] would
    write for it now, whatever its transition time. *)
Definition carries (a : appv1alpha1.WebApp) (condType : string)
    (status : metav1.ConditionStatus) (reason message : string) : Prop :=
  ∃ c, meta.FindStatusCondition (conditionsOf a) condType = Some c
       ∧ agrees c (newCondition a condType status reason message).

(** The WebApp [a] of [req] is registered and marked Progressing. *)
Definition inProgress (req : ctrl.Request) (w : World)
    (a : appv1alpha1.WebApp) : Prop :=
  webapps (store w) !! ctrl.NamespacedName req = Some a
  ∧ keyOf a = ctrl.NamespacedName req
  ∧ deletionRequested a = false ∧ hasFinalizer a = true
  ∧ carries a appv1alpha1.TypeProgressing metav1.ConditionTrue
      "Reconciling" "reconciliation in progress".

(** No owner reference can be set on the children of [a] (the scheme knows
    no kind for the WebApp), which the Degraded condition of [a] reports. *)
Definition unowned (r : WebAppReconciler) (req : ctrl.Request) (w : World)
    (a : appv1alpha1.WebApp) (e : error) : Prop :=
  inProgress req w a
  ∧ controllerutil.SetControllerReference a
      (appsv1.ObjectMeta (desiredDeployment a)) (Scheme r) = inl e
  ∧ carries a appv1alpha1.TypeDegraded metav1.ConditionTrue
      "DeploymentFailed"
      (Error (Wrapped "setting owner reference on deployment" e)).

(** The Deployment [d] of [a] lists no container. *)
Definition hollowed (r : WebAppReconciler) (req : ctrl.Request) (w : World)
    (a : appv1alpha1.WebApp) (d : appsv1.Deployment) : Prop :=
  inProgress req w a
  ∧ (∃ m, controllerutil.SetControllerReference a
            (appsv1.ObjectMeta (desiredDeployment a)) (Scheme r) = inr m)
  ∧ deployments (store w) !! ctrl.NamespacedName req = Some d
  ∧ corev1.Containers (corev1.TemplateSpec (appsv1.Template (appsv1.Spec d)))
    = [].

(** The controller reference [SetControllerReference] puts on a child of
    [a]. *)
Definition controllerRef (gvk : string * string) (a : appv1alpha1.WebApp)
    : metav1.OwnerReference :=
  {| metav1.APIVersion := gvk.1; metav1.Kind := gvk.2;
     metav1.OwnerName := metav1.Name (appv1alpha1.ObjectMeta a);
     metav1.OwnerUID := metav1.UID (appv1alpha1.ObjectMeta a);
     metav1.Controller := Some true;
     metav1.BlockOwnerDeletion := Some true |}.

(** The replicas asked of the Deployment: the spec's, one when it gives
    none. *)
Definition desiredReplicas (a : appv1alpha1.WebApp) : Z :=
  default 1 (appv1alpha1.Replicas (appv1alpha1.Spec a)).

(** Tables that agree outside the key [k]. *)
Definition agreeOutside {A} (k : types.NamespacedName)
    (t t' : gmap types.NamespacedName A) : Prop :=
  ∀ k', k' ≠ k → t' !! k' = t !! k'.

(** From [w] to [w'] nothing changed outside the key [k]. *)
Definition touchesOnly (k : types.NamespacedName) (w w' : World) : Prop :=
  agreeOutside k (webapps (store w)) (webapps (store w'))
  ∧ agreeOutside k (deployments (store w)) (deployments (store w'))
  ∧ agreeOutside k (services (store w)) (services (store w')).

(** [n] passes in a row, and that each of them ran to its end. *)
Fixpoint passes (r : WebAppReconciler) (req : ctrl.Request) (n : nat)
    (w : World) : World :=
  match n with
  | O => w
  | S n => passes r req n (Reconcile r req w).1.2
  end.

Fixpoint allComplete (r : WebAppReconciler) (req : ctrl.Request) (n : nat)
    (w : World) : Prop :=
  match n with
  | O => True
  | S n =>
      (Reconcile r req w).1.1 = completed
      ∧ allComplete r req n (Reconcile r req w).1.2
  end.

(** What a pass may make of the stored WebApp [a] besides its status: the
    same object under a new resource version, with or without the
    operator's finalizer. *)
Definition keepsDesired (a a' : appv1alpha1.WebApp) : Prop :=
  appv1alpha1.Spec a' = appv1alpha1.Spec a
  ∧ metav1.Generation (appv1alpha1.ObjectMeta a')
    = metav1.Generation (appv1alpha1.ObjectMeta a)
  ∧ metav1.Name (appv1alpha1.ObjectMeta a')
    = metav1.Name (appv1alpha1.ObjectMeta a)
  ∧ metav1.Namespace (appv1alpha1.ObjectMeta a')
    = metav1.Namespace (appv1alpha1.ObjectMeta a)
  ∧ metav1.UID (appv1alpha1.ObjectMeta a')
    = metav1.UID (appv1alpha1.ObjectMeta a)
  ∧ metav1.Labels (appv1alpha1.ObjectMeta a')
    = metav1.Labels (appv1alpha1.ObjectMeta a)
  ∧ metav1.Annotations (appv1alpha1.ObjectMeta a')
    = metav1.Annotations (appv1alpha1.ObjectMeta a)
  ∧ metav1.OwnerReferences (appv1alpha1.ObjectMeta a')
    = metav1.OwnerReferences (appv1alpha1.ObjectMeta a)
  ∧ metav1.DeletionTimestamp (appv1alpha1.ObjectMeta a')
    = metav1.DeletionTimestamp (appv1alpha1.ObjectMeta a)
  ∧ (∀ f, f ≠ webappFinalizer →
          f ∈ metav1.Finalizers (appv1alpha1.ObjectMeta a')
          ↔ f ∈ metav1.Finalizers (appv1alpha1.ObjectMeta a)).

(** ** The monad: inversion of runs *)

Lemma bind_inv {A B} (m : M A) (f : A → M B) w r w' tr :
  bind m f w = (r, w', tr) →
  (∃ a w1 t1 t2, m w = (Ok a, w1, t1) ∧ f a w1 = (r, w', t2) ∧ tr = t1 ++ t2)
  ∨ (∃ e, m w = (Err e, w', tr) ∧ r = Err e)
  ∨ (∃ msg, m w = (Panic msg, w', tr) ∧ r = Panic msg).
Proof.
  unfold bind. destruct (m w) as [[[a|e|msg] w1] t1].
  - destruct (f a w1) as [[r2 w2] t2] eqn:Ef. intros [= <- <- <-].
    left. by exists a, w1, t1, t2.
  - intros [= <- <- <-]. right; left. by exists e.
  - intros [= <- <- <-]. right; right. by exists msg.
Qed.

Lemma attempt_inv {A} (m : M A) w r w' tr :
  attempt m w = (r, w', tr) →
  (∃ a, m w = (Ok a, w', tr) ∧ r = Ok (inr a))
  ∨ (∃ e, m w = (Err e, w', tr) ∧ r = Ok (inl e))
  ∨ (∃ msg, m w = (Panic msg, w', tr) ∧ r = Panic msg).
Proof.
  unfold attempt. destruct (m w) as [[[a|e|msg] w1] t1]; intros [= <- <- <-];
    [left|right;left|right;right]; eauto.
Qed.

Lemma wrapErr_inv {A} prefix (m : M A) w r w' tr :
  wrapErr prefix m w = (r, w', tr) →
  (∃ a, m w = (Ok a, w', tr) ∧ r = Ok a)
  ∨ (∃ e, m w = (Err e, w', tr) ∧ r = Err (Wrapped prefix e))
  ∨ (∃ msg, m w = (Panic msg, w', tr) ∧ r = Panic msg).
Proof.
  unfold wrapErr. destruct (m w) as [[[a|e|msg] w1] t1]; intros [= <- <- <-];
    [left|right;left|right;right]; eauto.
Qed.

Lemma ignoreErr_inv {A} (m : M A) w r w' tr :
  ignoreErr m w = (r, w', tr) →
  (∃ a, m w = (Ok a, w', tr) ∧ r = Ok tt)
  ∨ (∃ e, m w = (Err e, w', tr) ∧ r = Ok tt)
  ∨ (∃ msg, m w = (Panic msg, w', tr) ∧ r = Panic msg).
Proof.
  unfold ignoreErr. destruct (m w) as [[[a|e|msg] w1] t1]; intros [= <- <- <-];
    [left|right;left|right;right]; eauto.
Qed.

(** ** The client calls: what a run can be *)

Lemma Get_inv `{Object A} key w (r : Res A) w' tr :
  Get key w = (r, w', tr) →
  tr = [EGet (kindOf (A:=A)) key (Res_map toAny r)]
  ∧ store w' = store w
  ∧ env w' = (environment (env w)).2
  ∧ (∀ msg, r ≠ Panic msg)
  ∧ (∀ o, r = Ok o → table (store w) !! key = Some o
                      ∧ (environment (env w)).1 = None)
  ∧ ((environment (env w)).1 = None →
     r = match table (store w) !! key with
         | Some o => Ok o
         | None => Err (NewNotFound (resource (A:=A)) key.2)
         end).
Proof.
  unfold Get. destruct (environment (env w)) as [f e1]. simpl.
  intros [= <- <- <-]. simpl. split_and!; try done.
  - destruct f; [done|]. by destruct (table (store w) !! key).
  - intros o. destruct f; [done|].
    destruct (table (store w) !! key) eqn:E; [|done]. by intros [= ->].
  - by intros ->.
Qed.

Lemma ret_inv {A} (a : A) w r w' tr :
  ret a w = (r, w', tr) → r = Ok a ∧ w' = w ∧ tr = [].
Proof. by intros [= <- <- <-]. Qed.

Lemma fail_inv {A} e w (r : Res A) w' tr :
  fail e w = (r, w', tr) → r = Err e ∧ w' = w ∧ tr = [].
Proof. by intros [= <- <- <-]. Qed.

Lemma panic_inv {A} msg w (r : Res A) w' tr :
  panic msg w = (r, w', tr) → r = Panic msg ∧ w' = w ∧ tr = [].
Proof. by intros [= <- <- <-]. Qed.

Lemma Update_no_panic `{Object A} (obj : A) w msg w' tr :
  Update obj w ≠ (Panic msg, w', tr).
Proof.
  unfold Update. destruct (environment (env w)) as [[e|] e1]; [done|].
  destruct (table (store w) !! keyOf obj); [|done].
  by destruct (sameVersion obj a).
Qed.

Lemma Create_no_panic `{Object A} (obj : A) w msg w' tr :
  Create obj w ≠ (Panic msg, w', tr).
Proof.
  unfold Create. destruct (environment (env w)) as [[e|] e1]; [done|].
  by destruct (table (store w) !! keyOf obj).
Qed.

Lemma Get_no_panic `{Object A} key w msg w' tr :
  Get (A:=A) key w ≠ (Panic msg, w', tr).
Proof.
  unfold Get. destruct (environment (env w)) as [[e|] e1]; [done|].
  by destruct (table (store w) !! key).
Qed.

Lemma StatusUpdate_no_panic obj w msg w' tr :
  StatusUpdate obj w ≠ (Panic msg, w', tr).
Proof.
  unfold StatusUpdate. destruct (environment (env w)) as [[e|] e1]; [done|].
  destruct (webapps (store w) !! keyOf obj); [|done].
  by destruct (sameVersion obj w0).
Qed.

(** Peels the monadic structure off a run in the context, one combinator at
    a time, and closes the cases in which a call that cannot panic did. *)
Ltac inv_run :=
  repeat match goal with
  | H : ret _ _ = (_, _, _) |- _ =>
      apply ret_inv in H as (? & ? & ?); simplify_eq
  | H : fail _ _ = (_, _, _) |- _ =>
      apply fail_inv in H as (? & ? & ?); simplify_eq
  | H : panic _ _ = (_, _, _) |- _ =>
      apply panic_inv in H as (? & ? & ?); simplify_eq
  | H : Get _ _ = (Panic _, _, _) |- _ => by apply Get_no_panic in H
  | H : Update _ _ = (Panic _, _, _) |- _ => by apply Update_no_panic in H
  | H : Create _ _ = (Panic _, _, _) |- _ => by apply Create_no_panic in H
  | H : StatusUpdate _ _ = (Panic _, _, _) |- _ =>
      by apply StatusUpdate_no_panic in H
  | H : bind _ _ _ = (_, _, _) |- _ =>
      apply bind_inv in H as
        [(? & ? & ? & ? & ? & ? & ?)|[(? & ? & ?)|(? & ? & ?)]]; simplify_eq
  | H : attempt _ _ = (_, _, _) |- _ =>
      apply attempt_inv in H as [(? & ? & ?)|[(? & ? & ?)|(? & ? & ?)]];
      simplify_eq
  | H : wrapErr _ _ _ = (_, _, _) |- _ =>
      apply wrapErr_inv in H as [(? & ? & ?)|[(? & ? & ?)|(? & ? & ?)]];
      simplify_eq
  | H : ignoreErr _ _ = (_, _, _) |- _ =>
      apply ignoreErr_inv in H as [(? & ? & ?)|[(? & ? & ?)|(? & ? & ?)]];
      simplify_eq
  end.

Lemma setCondition_no_panic r a ty st rs m w msg w' tr :
  setCondition r a ty st rs m w ≠ (Panic msg, w', tr).
Proof. unfold setCondition, Now. intros H. inv_run. Qed.

Lemma reconcileService_no_panic r a w msg w' tr :
  reconcileService r a w ≠ (Panic msg, w', tr).
Proof.
  unfold reconcileService.
  destruct (controllerutil.SetControllerReference _ _ _) as [e|m]; [done|].
  intros H. inv_run.
  destruct (IsNotFound _); inv_run.
Qed.

(** Every run of [Reconcile] follows one of the rules of [Pass]. *)
Lemma Reconcile_Pass r req w res w' tr :
  Reconcile r req w = (res, w', tr) → Pass r req w res w' tr.
Proof.
  unfold Reconcile. intros H. inv_run.
  - (* fetched *)
    match goal with Hg : Get _ w = (Ok ?a, _, _) |- _ => rename a into a0 end.
    cbv beta iota zeta in *.
    fold (deletionRequested a0) in *. fold (hasFinalizer a0) in *.
    destruct (deletionRequested a0) eqn:Hdel; cbn [negb] in *; cbv beta iota in *.
    + destruct (hasFinalizer a0) eqn:Hfin; cbv beta iota in *; inv_run;
        unfold cleanupChildResources in *; inv_run; rewrite ?app_nil_r; simpl.
      * by eapply pass_deleting_released.
      * by eapply pass_deleting_failed.
      * by eapply pass_deleting_done.
    + destruct (hasFinalizer a0) eqn:Hfin; cbn [negb] in *; cbv beta iota in *.
      * inv_run; cbv beta iota zeta in *; inv_run; cbv beta iota zeta in *; inv_run.
        all: try match goal with
          | H : setCondition _ _ _ _ _ _ _ = (Panic _, _, _) |- _ =>
              by apply setCondition_no_panic in H
          | H : reconcileService _ _ _ = (Panic _, _, _) |- _ =>
              by apply reconcileService_no_panic in H
          end.
        all: rewrite ?app_nil_r.
        all: repeat match goal with u : unit |- _ => destruct u end.
        all: first
          [ by eapply pass_complete | by eapply pass_clear_degraded_failed
          | by eapply pass_clear_progressing_failed
          | by eapply pass_available_failed | by eapply pass_observe_failed
          | by eapply pass_service_failed | by eapply pass_deployment_failed
          | by eapply pass_deployment_panicked | by eapply pass_mark_failed ].
      * inv_run; rewrite ?app_nil_r.
        -- by eapply pass_registered.
        -- by eapply pass_register_failed.
  - (* fetch failed *)
    cbv beta iota in *.
    destruct (IsNotFound _) eqn:Hnf; inv_run; rewrite ?app_nil_r.
    + by eapply pass_gone.
    + by eapply pass_fetch_failed.
Qed.

(** ** The monad: building runs *)

Lemma bind_ok {A B} (m : M A) (f : A → M B) w a w1 t1 r w2 t2 tr :
  m w = (Ok a, w1, t1) → f a w1 = (r, w2, t2) → tr = t1 ++ t2 →
  bind m f w = (r, w2, tr).
Proof. unfold bind. by intros -> -> ->. Qed.

Lemma bind_err {A B} (m : M A) (f : A → M B) w e w1 t1 :
  m w = (Err e, w1, t1) → bind m f w = (Err e, w1, t1).
Proof. unfold bind. by intros ->. Qed.

Lemma bind_panic {A B} (m : M A) (f : A → M B) w msg w1 t1 :
  m w = (Panic msg, w1, t1) → bind m f w = (Panic msg, w1, t1).
Proof. unfold bind. by intros ->. Qed.

Lemma attempt_ok {A} (m : M A) w a w1 t1 :
  m w = (Ok a, w1, t1) → attempt m w = (Ok (inr a), w1, t1).
Proof. unfold attempt. by intros ->. Qed.

Lemma attempt_err {A} (m : M A) w e w1 t1 :
  m w = (Err e, w1, t1) → attempt m w = (Ok (inl e), w1, t1).
Proof. unfold attempt. by intros ->. Qed.

Lemma attempt_panic {A} (m : M A) w msg w1 t1 :
  m w = (Panic msg, w1, t1) → attempt m w = (Panic msg, w1, t1).
Proof. unfold attempt. by intros ->. Qed.

Lemma wrapErr_ok {A} prefix (m : M A) w a w1 t1 :
  m w = (Ok a, w1, t1) → wrapErr prefix m w = (Ok a, w1, t1).
Proof. unfold wrapErr. by intros ->. Qed.

Lemma wrapErr_err {A} prefix (m : M A) w e w1 t1 :
  m w = (Err e, w1, t1) → wrapErr prefix m w = (Err (Wrapped prefix e), w1, t1).
Proof. unfold wrapErr. by intros ->. Qed.

Lemma ignoreErr_any {A} (m : M A) w r w1 t1 :
  m w = (r, w1, t1) → (∀ msg, r ≠ Panic msg) →
  ignoreErr m w = (Ok tt, w1, t1).
Proof. unfold ignoreErr. intros -> Hn. destruct r; try done. by destruct (Hn msg). Qed.

(** Builds the run of a monadic term from the runs of its calls found in
    the context. *)
Ltac run :=
  cbv beta iota zeta;
  first
    [ eassumption
    | eapply attempt_ok; run
    | eapply attempt_err; run
    | eapply attempt_panic; run
    | eapply wrapErr_ok; run
    | eapply wrapErr_err; run
    | eapply ignoreErr_any; [run | intros ? ->; by eapply setCondition_no_panic]
    | eapply bind_err; run
    | eapply bind_panic; run
    | eapply bind_ok; [run | run | run]
    | reflexivity
    | by rewrite ?app_nil_r ].

(** Conversely, each rule of [Pass] is a run of [Reconcile]. *)
Lemma Pass_Reconcile r req w res w' tr :
  Pass r req w res w' tr → Reconcile r req w = (res, w', tr).
Proof.
  intros HP. unfold Reconcile.
  destruct HP;
    unfold markProgressing, reportDegraded, writeAvailable, withObserved,
      clearProgressing, clearDegraded, removeToken, addToken, keyOf in *;
    (eapply bind_ok; [run | | ]); cbv beta iota zeta;
    repeat match goal with
    | H : deletionRequested ?a = _ |- _ =>
        unfold deletionRequested in H; rewrite H
    | H : hasFinalizer ?a = _ |- _ => unfold hasFinalizer in H; rewrite ?H
    | H : IsNotFound _ = _ |- _ => rewrite H
    end; cbn [negb]; run.
Qed.

(** ** The client calls, case by case *)

Ltac red_obj :=
  cbn [table setTable getMeta setMeta toAny kindOf resource takeSpec
       specChanged countsGeneration
       WebApp_Object Deployment_Object Service_Object
       store env fst snd Res_map
       webapps deployments services nextRV setWebapps setDeployments
       setServices bumpRV] in *.

(** The client calls as equations, outcome by outcome. *)
Lemma Get_run `{Object A} key w :
  Get (A:=A) key w =
    match environment (env w) with
    | (Some e, e1) =>
        (Err e, {| store := store w; env := e1 |},
         [EGet (kindOf (A:=A)) key (Err e)])
    | (None, e1) =>
        match table (store w) !! key with
        | Some obj =>
            (Ok obj, {| store := store w; env := e1 |},
             [EGet (kindOf (A:=A)) key (Ok (toAny obj))])
        | None =>
            (Err (NewNotFound (resource (A:=A)) key.2),
             {| store := store w; env := e1 |},
             [EGet (kindOf (A:=A)) key
                (Err (NewNotFound (resource (A:=A)) key.2))])
        end
    end.
Proof.
  unfold Get. destruct (environment (env w)) as [[e|] e1]; [done|].
  by destruct (table (store w) !! key).
Qed.

Lemma Create_run `{Object A} (obj : A) w :
  Create obj w =
    match environment (env w) with
    | (Some e, e1) =>
        (Err e, {| store := store w; env := e1 |},
         [ECreate (toAny obj) (Err e)])
    | (None, e1) =>
        match table (store w) !! keyOf obj with
        | Some _ =>
            (Err (NewAlreadyExists (resource (A:=A)) (keyOf obj).2),
             {| store := store w; env := e1 |},
             [ECreate (toAny obj)
                (Err (NewAlreadyExists (resource (A:=A)) (keyOf obj).2))])
        | None =>
            let new := created (nextRV (store w)) obj in
            (Ok new,
             {| store :=
                  bumpRV (setTable (<[keyOf obj := new]> (table (store w)))
                            (store w));
                env := e1 |},
             [ECreate (toAny obj) (Ok (toAny new))])
        end
    end.
Proof.
  unfold Create. destruct (environment (env w)) as [[e|] e1]; [done|].
  by destruct (table (store w) !! keyOf obj).
Qed.

Lemma Update_cases `{Object A} (obj : A) w :
  Update obj w =
    match environment (env w) with
    | (Some e, e1) =>
        (Err e, {| store := store w; env := e1 |},
         [EUpdate (toAny obj) (Err e)])
    | (None, e1) =>
        match table (store w) !! keyOf obj with
        | None =>
            (Err (NewNotFound (resource (A:=A)) (keyOf obj).2),
             {| store := store w; env := e1 |},
             [EUpdate (toAny obj)
                (Err (NewNotFound (resource (A:=A)) (keyOf obj).2))])
        | Some stored =>
            if sameVersion obj stored then
              let new := updated (nextRV (store w)) stored obj in
              (Ok new,
               {| store :=
                    bumpRV (setTable
                              (if purgeable (getMeta new)
                               then delete (keyOf obj) (table (store w))
                               else <[keyOf obj := new]> (table (store w)))
                              (store w));
                  env := e1 |},
               [EUpdate (toAny obj) (Ok (toAny new))])
            else
              (Err (NewConflict (resource (A:=A)) (keyOf obj).2),
               {| store := store w; env := e1 |},
               [EUpdate (toAny obj)
                  (Err (NewConflict (resource (A:=A)) (keyOf obj).2))])
        end
    end.
Proof.
  unfold Update. destruct (environment (env w)) as [[e|] e1]; [done|].
  destruct (table (store w) !! keyOf obj) as [st|]; [|done].
  by destruct (sameVersion obj st).
Qed.

Lemma StatusUpdate_cases (obj : appv1alpha1.WebApp) w :
  StatusUpdate obj w =
    match environment (env w) with
    | (Some e, e1) =>
        (Err e, {| store := store w; env := e1 |},
         [EStatusUpdate (OWebApp obj) (Err e)])
    | (None, e1) =>
        match webapps (store w) !! keyOf obj with
        | None =>
            (Err (NewNotFound (resource (A:=appv1alpha1.WebApp)) (keyOf obj).2),
             {| store := store w; env := e1 |},
             [EStatusUpdate (OWebApp obj)
                (Err (NewNotFound (resource (A:=appv1alpha1.WebApp))
                        (keyOf obj).2))])
        | Some stored =>
            if sameVersion obj stored then
              let new := statusUpdated (nextRV (store w)) stored obj in
              (Ok new,
               {| store :=
                    bumpRV (setWebapps (<[keyOf obj := new]> (webapps (store w)))
                              (store w));
                  env := e1 |},
               [EStatusUpdate (OWebApp obj) (Ok (OWebApp new))])
            else
              (Err (NewConflict (resource (A:=appv1alpha1.WebApp)) (keyOf obj).2),
               {| store := store w; env := e1 |},
               [EStatusUpdate (OWebApp obj)
                  (Err (NewConflict (resource (A:=appv1alpha1.WebApp))
                          (keyOf obj).2))])
        end
    end.
Proof.
  unfold StatusUpdate. destruct (environment (env w)) as [[e|] e1]; [done|].
  destruct (webapps (store w) !! keyOf obj) as [st|]; [|done].
  by destruct (sameVersion obj st).
Qed.

(** Opens the client call of hypothesis [H] into its outcomes: a fault of
    the environment, an answer of the store. *)
Ltac open_call H :=
  first [ rewrite Get_run in H | rewrite Update_cases in H
        | rewrite Create_run in H | rewrite StatusUpdate_cases in H ];
  red_obj;
  repeat match type of H with
         | context [match ?x with _ => _ end] =>
             let E := fresh "E" in destruct x eqn:E; simplify_eq; red_obj
         | context [if ?x then _ else _] =>
             let E := fresh "E" in destruct x eqn:E; simplify_eq; red_obj
         end;
  cbv zeta in *; simplify_eq; red_obj.

(** The runs of the write calls when the object is in the store at the
    version the caller holds: only the environment can make them fail. *)
Lemma Update_run `{Object A} (obj stored : A) w :
  table (store w) !! keyOf obj = Some stored →
  sameVersion obj stored = true →
  Update obj w =
    match environment (env w) with
    | (Some e, e1) =>
        (Err e, {| store := store w; env := e1 |},
         [EUpdate (toAny obj) (Err e)])
    | (None, e1) =>
        let new := updated (nextRV (store w)) stored obj in
        (Ok new,
         {| store :=
              bumpRV (setTable
                        (if purgeable (getMeta new)
                         then delete (keyOf obj) (table (store w))
                         else <[keyOf obj := new]> (table (store w)))
                        (store w));
            env := e1 |},
         [EUpdate (toAny obj) (Ok (toAny new))])
    end.
Proof.
  intros Hl Hv. unfold Update. destruct (environment (env w)) as [[e|] e1]; [done|].
  rewrite Hl, Hv. done.
Qed.

Lemma StatusUpdate_run (obj stored : appv1alpha1.WebApp) w :
  webapps (store w) !! keyOf obj = Some stored →
  sameVersion obj stored = true →
  StatusUpdate obj w =
    match environment (env w) with
    | (Some e, e1) =>
        (Err e, {| store := store w; env := e1 |},
         [EStatusUpdate (OWebApp obj) (Err e)])
    | (None, e1) =>
        let new := statusUpdated (nextRV (store w)) stored obj in
        (Ok new,
         {| store :=
              bumpRV (setWebapps (<[keyOf obj := new]> (webapps (store w)))
                        (store w));
            env := e1 |},
         [EStatusUpdate (OWebApp obj) (Ok (OWebApp new))])
    end.
Proof.
  intros Hl Hv. unfold StatusUpdate.
  destruct (environment (env w)) as [[e|] e1]; [done|].
  rewrite Hl, Hv. done.
Qed.

Lemma keyOf_addToken a : keyOf (addToken a) = keyOf a.
Proof.
  unfold addToken, keyOf, controllerutil.AddFinalizer. simpl.
  by destruct (controllerutil.ContainsFinalizer _ _).
Qed.

Lemma keyOf_removeToken a : keyOf (removeToken a) = keyOf a.
Proof. done. Qed.

Lemma sameVersion_refl `{Object A} (a : A) : sameVersion a a = true.
Proof. unfold sameVersion. by apply bool_decide_eq_true_2. Qed.

Lemma sameVersion_addToken a : sameVersion (addToken a) a = true.
Proof.
  unfold addToken, sameVersion, controllerutil.AddFinalizer. simpl.
  destruct (controllerutil.ContainsFinalizer _ _); by apply bool_decide_eq_true_2.
Qed.

Lemma sameVersion_removeToken a : sameVersion (removeToken a) a = true.
Proof. unfold sameVersion. by apply bool_decide_eq_true_2. Qed.

Lemma hasFinalizer_addToken a :
  hasFinalizer a = false →
  metav1.Finalizers (appv1alpha1.ObjectMeta (addToken a))
  = metav1.Finalizers (appv1alpha1.ObjectMeta a) ++ [webappFinalizer].
Proof.
  unfold hasFinalizer, addToken, controllerutil.AddFinalizer. simpl.
  by intros ->.
Qed.

Lemma ContainsFinalizer_snoc fs m f :
  metav1.Finalizers m = fs ++ [f] →
  controllerutil.ContainsFinalizer m f = true.
Proof.
  unfold controllerutil.ContainsFinalizer. intros ->.
  rewrite existsb_app. simpl. rewrite bool_decide_eq_true_2; [|done].
  by rewrite orb_true_r.
Qed.

Lemma ContainsFinalizer_removed m f :
  controllerutil.ContainsFinalizer (controllerutil.RemoveFinalizer m f) f = false.
Proof.
  unfold controllerutil.ContainsFinalizer, controllerutil.RemoveFinalizer. simpl.
  induction (metav1.Finalizers m) as [|x l IH]; [done|]. simpl.
  destruct (bool_decide (x = f)) eqn:E; simpl; [done|]. by rewrite E.
Qed.

Lemma purgeable_not_deleting m :
  metav1.IsZero (metav1.DeletionTimestamp m) = true → purgeable m = false.
Proof. unfold purgeable. by intros ->. Qed.

Lemma faultFree_S n e :
  faultFree (S n) e = true →
  (environment e).1 = None ∧ faultFree n (environment e).2 = true.
Proof.
  unfold faultFree, environment. destruct (script e) as [|t rest] eqn:E; simpl.
  - rewrite E. intros _. by destruct n.
  - intros [Ht Hrest]%andb_prop. by apply bool_decide_eq_true in Ht.
Qed.

Lemma faultFree_environment n e f e1 :
  faultFree (S n) e = true → environment e = (f, e1) →
  f = None ∧ faultFree n e1 = true.
Proof. intros [H1 H2]%faultFree_S E. rewrite E in H1, H2. done. Qed.

(** The single request each client call issues. *)
Lemma Get_trace `{Object A} key w (r : Res A) w' tr :
  Get key w = (r, w', tr) → tr = [EGet (kindOf (A:=A)) key (Res_map toAny r)].
Proof. unfold Get. destruct (environment (env w)). by intros [= <- <- <-]. Qed.

Lemma Create_trace `{Object A} (obj : A) w r w' tr :
  Create obj w = (r, w', tr) → tr = [ECreate (toAny obj) (Res_map toAny r)].
Proof.
  unfold Create. destruct (environment (env w)) as [[e|] e1];
    [|destruct (table (store w) !! keyOf obj)]; by intros [= <- <- <-].
Qed.

Lemma Update_trace `{Object A} (obj : A) w r w' tr :
  Update obj w = (r, w', tr) → tr = [EUpdate (toAny obj) (Res_map toAny r)].
Proof.
  unfold Update. destruct (environment (env w)) as [[e|] e1];
    [|destruct (table (store w) !! keyOf obj) as [st|];
      [destruct (sameVersion obj st)|]]; by intros [= <- <- <-].
Qed.

Lemma StatusUpdate_trace obj w r w' tr :
  StatusUpdate obj w = (r, w', tr) →
  tr = [EStatusUpdate (OWebApp obj) (Res_map OWebApp r)].
Proof.
  unfold StatusUpdate. destruct (environment (env w)) as [[e|] e1];
    [|destruct (webapps (store w) !! keyOf obj) as [st|];
      [destruct (sameVersion obj st)|]]; by intros [= <- <- <-].
Qed.

Lemma Exists_Forall_false {A} (P : A → bool) l :
  Exists (λ x, P x = true) l → Forall (λ x, P x = false) l → False.
Proof.
  induction 1 as [x l Hx|x l _ IH]; intros [Hf Hl]%Forall_cons; [congruence|auto].
Qed.

(** Closes [Forall P tr] for a trace given by its events. *)
Ltac trace_forall :=
  repeat first
    [ by apply Forall_nil_2
    | apply Forall_cons_2; [done|]
    | apply Forall_app; split
    | eassumption ].

(** C1.  For a fresh WebApp (finalizer absent, no deletion requested) a pass
    issues no create or update of a Deployment or Service and leaves both
    tables as they were; when the store answers the two calls of the pass,
    it stores the WebApp with the finalizer appended and returns
    [Requeue: true].  And a pass that does issue a child create or update
    started from a store in which the WebApp already carried the finalizer:
    the token is in the store before any child exists. *)
Theorem C1_finalizer_registered_first r req w res w' tr
    (Hrun : Reconcile r req w = (res, w', tr)) :
  (∀ a, webapps (store w) !! ctrl.NamespacedName req = Some a →
        keyOf a = ctrl.NamespacedName req →
        fresh a = true →
        Forall (λ e, isChildMutation e = false) tr
        ∧ deployments (store w') = deployments (store w)
        ∧ services (store w') = services (store w)
        ∧ (faultFree 2 (env w) = true →
           res = Ok {| ctrl.Requeue := true; ctrl.RequeueAfter := 0 |}
           ∧ ∃ a', webapps (store w') !! ctrl.NamespacedName req = Some a'
                   ∧ hasFinalizer a' = true
                   ∧ metav1.Finalizers (appv1alpha1.ObjectMeta a')
                     = metav1.Finalizers (appv1alpha1.ObjectMeta a)
                       ++ [webappFinalizer]
                   ∧ tr = [EGet KWebApp (ctrl.NamespacedName req) (Ok (OWebApp a));
                           EUpdate (OWebApp (addToken a)) (Ok (OWebApp a'))]))
  ∧ (Exists (λ e, isChildMutation e = true) tr →
     ∃ a, webapps (store w) !! ctrl.NamespacedName req = Some a
          ∧ hasFinalizer a = true ∧ deletionRequested a = false).
Proof.
  apply Reconcile_Pass in Hrun. split.
  - intros a Hlook Hkey Hfresh.
    apply andb_prop in Hfresh as [Hdel Hfin].
    apply negb_true_iff in Hdel, Hfin.
    inversion Hrun; subst;
      match goal with H : Get _ w = _ |- _ =>
        rewrite Get_run in H; red_obj; rewrite Hlook in H;
        destruct (environment (env w)) as [[ef|] e1] eqn:Henv; simplify_eq
      end.
    all: try congruence.
    1-2: split_and!; [trace_forall|done|done|];
         intros Hff; by destruct (faultFree_environment _ _ _ _ Hff Henv).
    all: match goal with H : Update (addToken ?a) ?w1 = _ |- _ =>
           rewrite (Update_run (addToken a) a) in H;
             [|by rewrite keyOf_addToken, Hkey|by apply sameVersion_addToken];
           red_obj; rewrite keyOf_addToken, Hkey in H;
           destruct (environment e1) as [[ef|] e2] eqn:Henv2; simplify_eq
         end; red_obj.
    + split_and!; [trace_forall|done|done|].
      intros Hff. destruct (faultFree_environment _ _ _ _ Hff Henv) as [_ Hff'].
      by destruct (faultFree_environment _ _ _ _ Hff' Henv2).
    + split_and!; [trace_forall|done|done|].
      intros _. split; [done|].
      rewrite purgeable_not_deleting; last first.
      { simpl. unfold deletionRequested in Hdel.
        by apply negb_false_iff in Hdel. }
      eexists. split; [apply lookup_insert_eq|]. split_and!; [|by apply hasFinalizer_addToken|done].
      unfold hasFinalizer. eapply ContainsFinalizer_snoc.
      simpl. by apply hasFinalizer_addToken.
  - intros Hex.
    inversion Hrun; subst;
      match goal with H : Get _ w = _ |- _ =>
        rewrite Get_run in H; red_obj;
        destruct (environment (env w)) as [[ef|] e1] eqn:Henv;
        [|destruct (webapps (store w) !! ctrl.NamespacedName req) eqn:Hlook];
        simplify_eq
      end.
    all: try (by eexists).
    all: repeat match goal with
         | H : Update _ _ = _ |- _ => apply Update_trace in H; subst
         end.
    all: exfalso; eapply Exists_Forall_false; [exact Hex|trace_forall].
Qed.

(** ** [setCondition], [reconcileDeployment], [reconcileService]: runs *)

(** [setCondition] on a WebApp held at the stored version: one status write
    of the conditioned object, which only the environment can make fail. *)
Lemma setCondition_run r a s ty st rs msg w :
  webapps (store w) !! keyOf a = Some s →
  appv1alpha1.ObjectMeta a = appv1alpha1.ObjectMeta s →
  setCondition r a ty st rs msg w =
    let obj := conditioned (now (env w)) a ty st rs msg in
    match environment (env w) with
    | (Some e, e1) =>
        (Err (Wrapped ("updating status condition " +:+ ty) e),
         {| store := store w; env := e1 |},
         [EStatusUpdate (OWebApp obj) (Err e)])
    | (None, e1) =>
        let new := statusUpdated (nextRV (store w)) s obj in
        (Ok new,
         {| store :=
              bumpRV (setWebapps (<[keyOf a := new]> (webapps (store w)))
                        (store w));
            env := e1 |},
         [EStatusUpdate (OWebApp obj) (Ok (OWebApp new))])
    end.
Proof.
  intros Hl Hm. unfold setCondition, Now, bind, wrapErr.
  fold (conditionsOf a). fold (newCondition a ty st rs msg).
  fold (conditioned (now (env w)) a ty st rs msg).
  rewrite (StatusUpdate_run _ s); [| done |].
  - by destruct (environment (env w)) as [[e|] e1].
  - unfold sameVersion. simpl. rewrite Hm. by apply bool_decide_eq_true_2.
Qed.

Lemma setCondition_trace r a ty st rs msg w res w' tr :
  setCondition r a ty st rs msg w = (res, w', tr) →
  ∃ rr, tr = [EStatusUpdate
                (OWebApp (conditioned (now (env w)) a ty st rs msg)) rr].
Proof.
  unfold setCondition, Now. intros H. inv_run.
  all: match goal with H : StatusUpdate _ _ = _ |- _ =>
         apply StatusUpdate_trace in H; subst end; by eexists.
Qed.

(** What the children calls leave alone. *)
Lemma reconcileDeployment_frame r a w res w' tr :
  reconcileDeployment r a w = (res, w', tr) →
  webapps (store w') = webapps (store w)
  ∧ services (store w') = services (store w)
  ∧ Forall (λ e, isStatusWrite e = false) tr.
Proof.
  unfold reconcileDeployment.
  destruct (controllerutil.SetControllerReference _ _ _) as [e|m]; intros H.
  { inv_run. split_and!; try done; trace_forall. }
  inv_run; cbv beta iota zeta in *.
  all: repeat match goal with
       | H : context [IsNotFound ?e] |- _ => destruct (IsNotFound e)
       | H : match ?l with [] => _ | _ :: _ => _ end _ = _ |- _ =>
           destruct l
       end; inv_run.
  all: repeat match goal with
       | H : Get _ _ = _ |- _ => open_call H
       | H : Create _ _ = _ |- _ => open_call H
       | H : Update _ _ = _ |- _ => open_call H
       end.
  all: split_and!; try done; trace_forall.
Qed.

Lemma reconcileService_frame r a w res w' tr :
  reconcileService r a w = (res, w', tr) →
  webapps (store w') = webapps (store w)
  ∧ deployments (store w') = deployments (store w)
  ∧ Forall (λ e, isStatusWrite e = false) tr.
Proof.
  unfold reconcileService.
  destruct (controllerutil.SetControllerReference _ _ _) as [e|m]; intros H.
  { inv_run. split_and!; try done; trace_forall. }
  inv_run; cbv beta iota zeta in *.
  all: repeat match goal with
       | H : context [IsNotFound ?e] |- _ => destruct (IsNotFound e)
       end; inv_run.
  all: repeat match goal with
       | H : Get _ _ = _ |- _ => open_call H
       | H : Create _ _ = _ |- _ => open_call H
       | H : Update _ _ = _ |- _ => open_call H
       end.
  all: split_and!; try done; trace_forall.
Qed.

(** ** Status conditions *)

Lemma mergeCondition_agrees now e c :
  metav1.Type_ e = metav1.Type_ c → agrees (meta.mergeCondition now e c) c.
Proof.
  intros Ht. unfold meta.mergeCondition, agrees.
  repeat case_bool_decide; simpl in *; repeat case_bool_decide; simpl in *;
    split_and!; congruence.
Qed.

Lemma find_updateFirst now l c e :
  meta.FindStatusCondition l (metav1.Type_ c) = Some e →
  meta.FindStatusCondition (meta.updateFirst now l c) (metav1.Type_ c)
  = Some (meta.mergeCondition now e c)
  ∧ metav1.Type_ e = metav1.Type_ c.
Proof.
  induction l as [|x l IH]; [done|]. simpl.
  case_bool_decide as Hx.
  - intros [= ->]. simpl.
    destruct (mergeCondition_agrees now e c Hx) as (Ht & _).
    by rewrite bool_decide_eq_true_2.
  - intros Hf. simpl. rewrite bool_decide_eq_false_2; auto.
Qed.

Lemma find_app_None l1 l2 ty :
  meta.FindStatusCondition l1 ty = None →
  meta.FindStatusCondition (l1 ++ l2) ty = meta.FindStatusCondition l2 ty.
Proof.
  induction l1 as [|x l IH]; [done|]. simpl. by case_bool_decide.
Qed.

Lemma find_app_Some l1 l2 ty c :
  meta.FindStatusCondition l1 ty = Some c →
  meta.FindStatusCondition (l1 ++ l2) ty = Some c.
Proof.
  induction l1 as [|x l IH]; [done|]. simpl. by case_bool_decide.
Qed.

(** After a write the condition of that type carries what was written. *)
Lemma find_SetStatusCondition_same now l c :
  ∃ c', meta.FindStatusCondition (meta.SetStatusCondition now l c)
          (metav1.Type_ c) = Some c'
        ∧ agrees c' c.
Proof.
  unfold meta.SetStatusCondition.
  destruct (meta.FindStatusCondition l (metav1.Type_ c)) as [e|] eqn:Hf.
  - destruct (find_updateFirst now l c e Hf) as [H1 H2].
    eexists. split; [exact H1|]. by apply mergeCondition_agrees.
  - rewrite find_app_None by done. simpl.
    destruct (metav1.Time_IsZero _); simpl;
      rewrite bool_decide_eq_true_2 by done; eexists; by split.
Qed.

Lemma find_updateFirst_other now l c ty :
  ty ≠ metav1.Type_ c →
  meta.FindStatusCondition (meta.updateFirst now l c) ty
  = meta.FindStatusCondition l ty.
Proof.
  intros Hne. induction l as [|x l IH]; [done|]. simpl.
  case_bool_decide as Hx; simpl.
  - destruct (mergeCondition_agrees now x c Hx) as (Ht & _).
    rewrite !bool_decide_eq_false_2; congruence.
  - by rewrite IH.
Qed.

(** A write leaves the conditions of the other types as they were. *)
Lemma find_SetStatusCondition_other now l c ty :
  ty ≠ metav1.Type_ c →
  meta.FindStatusCondition (meta.SetStatusCondition now l c) ty
  = meta.FindStatusCondition l ty.
Proof.
  intros Hne. unfold meta.SetStatusCondition.
  destruct (meta.FindStatusCondition l (metav1.Type_ c)) as [e|] eqn:Hf.
  - by apply find_updateFirst_other.
  - destruct (meta.FindStatusCondition l ty) as [x|] eqn:Hty.
    + by apply find_app_Some.
    + rewrite find_app_None by done. simpl.
      destruct (metav1.Time_IsZero _); simpl; by rewrite bool_decide_eq_false_2.
Qed.

(** ** The WebApp in memory and in the store *)

Lemma keyOf_statusUpdated rv s obj : keyOf (statusUpdated rv s obj) = keyOf s.
Proof. done. Qed.

Lemma Get_synced key w a w1 t1 :
  Get key w = (Ok a, w1, t1) →
  (∀ x, webapps (store w) !! key = Some x → keyOf x = key) →
  synced a w1 ∧ store w1 = store w ∧ keyOf a = key
  ∧ webapps (store w) !! key = Some a
  ∧ env w1 = (environment (env w)).2
  ∧ t1 = [EGet KWebApp key (Ok (OWebApp a))].
Proof.
  intros H Hwf. rewrite Get_run in H. red_obj.
  destruct (environment (env w)) as [[e|] e1] eqn:Henv; [done|].
  destruct (webapps (store w) !! key) as [x|] eqn:Hl; simplify_eq.
  unfold synced. red_obj. rewrite (Hwf _ eq_refl), Hl. done.
Qed.

Lemma setCondition_synced r a a0 ty st rs msg w res w' tr :
  synced a0 w →
  appv1alpha1.ObjectMeta a = appv1alpha1.ObjectMeta a0 →
  setCondition r a ty st rs msg w = (res, w', tr) →
  env w' = (environment (env w)).2
  ∧ deployments (store w') = deployments (store w)
  ∧ services (store w') = services (store w)
  ∧ ((∃ e, (environment (env w)).1 = Some e
           ∧ res = Err (Wrapped ("updating status condition " +:+ ty) e)
           ∧ store w' = store w
           ∧ tr = [EStatusUpdate
                     (OWebApp (conditioned (now (env w)) a ty st rs msg))
                     (Err e)])
     ∨ (∃ a', (environment (env w)).1 = None
           ∧ res = Ok a'
           ∧ a' = statusUpdated (nextRV (store w)) a0
                    (conditioned (now (env w)) a ty st rs msg)
           ∧ synced a' w'
           ∧ webapps (store w') = <[keyOf a0 := a']> (webapps (store w))
           ∧ nextRV (store w') = N.succ (nextRV (store w))
           ∧ tr = [EStatusUpdate
                     (OWebApp (conditioned (now (env w)) a ty st rs msg))
                     (Ok (OWebApp a'))])).
Proof.
  intros Hs Hm H.
  assert (keyOf a = keyOf a0) as Hk by (unfold keyOf; simpl; by rewrite Hm).
  rewrite (setCondition_run r a a0) in H; [|by rewrite Hk|done].
  cbv zeta in H.
  destruct (environment (env w)) as [[e|] e1]; injection H as <- <- <-;
    red_obj; split_and!; try done.
  - left. by eexists.
  - right. eexists. split_and!; try done.
    + unfold synced. red_obj. rewrite keyOf_statusUpdated, Hk.
      apply lookup_insert_eq.
    + by rewrite Hk.
Qed.

Lemma synced_frame a w w' :
  synced a w → webapps (store w') = webapps (store w) → synced a w'.
Proof. unfold synced. by intros ? ->. Qed.

Lemma reconcileDeployment_synced r x a w res w' tr :
  synced a w → reconcileDeployment r x w = (res, w', tr) → synced a w'.
Proof.
  intros Hs (Hw & _)%reconcileDeployment_frame. by eapply synced_frame.
Qed.

Lemma reconcileService_synced r x a w res w' tr :
  synced a w → reconcileService r x w = (res, w', tr) → synced a w'.
Proof.
  intros Hs (Hw & _)%reconcileService_frame. by eapply synced_frame.
Qed.

Lemma Get_store `{Object A} key w (res : Res A) w' tr :
  Get key w = (res, w', tr) → store w' = store w.
Proof.
  rewrite Get_run. destruct (environment (env w)) as [[e|] e1];
    [|destruct (table (store w) !! key)]; by intros [= <- <- <-].
Qed.

Lemma Get_keeps_synced `{Object A} key a w (res : Res A) w' tr :
  synced a w → Get key w = (res, w', tr) → synced a w'.
Proof.
  intros Hs Hg%Get_store. eapply synced_frame; [done|by rewrite Hg].
Qed.

Lemma setCondition_ok r a a0 ty st rs msg w a' w' tr :
  synced a0 w →
  appv1alpha1.ObjectMeta a = appv1alpha1.ObjectMeta a0 →
  setCondition r a ty st rs msg w = (Ok a', w', tr) →
  synced a' w'
  ∧ keyOf a' = keyOf a0
  ∧ a' = statusUpdated (nextRV (store w)) a0
           (conditioned (now (env w)) a ty st rs msg)
  ∧ webapps (store w') = <[keyOf a0 := a']> (webapps (store w))
  ∧ deployments (store w') = deployments (store w)
  ∧ services (store w') = services (store w)
  ∧ nextRV (store w') = N.succ (nextRV (store w))
  ∧ environment (env w) = (None, env w')
  ∧ tr = [EStatusUpdate (OWebApp (conditioned (now (env w)) a ty st rs msg))
            (Ok (OWebApp a'))].
Proof.
  intros Hs Hm H.
  destruct (setCondition_synced _ _ _ _ _ _ _ _ _ _ _ Hs Hm H)
    as (He & Hd & Hsv & [(e & _ & [=] & _)|(x & Hnone & [= <-] & Hx & Hsx & Hw & Hrv & Ht)]).
  split_and!; try done.
  - by rewrite Hx.
  - destruct (environment (env w)) as [f e1]; simpl in *. by subst.
Qed.

(** Follows the WebApp held in memory through the calls of a pass found in
    the context: after each call it is still the stored one. *)
Ltac follow :=
  repeat match goal with
  | Hs : synced ?a ?w, H : reconcileDeployment _ _ ?w = (_, ?w', _) |- _ =>
      lazymatch goal with
      | _ : synced a w' |- _ => fail
      | _ => pose proof (reconcileDeployment_synced _ _ _ _ _ _ _ Hs H)
      end
  | Hs : synced ?a ?w, H : reconcileService _ _ ?w = (_, ?w', _) |- _ =>
      lazymatch goal with
      | _ : synced a w' |- _ => fail
      | _ => pose proof (reconcileService_synced _ _ _ _ _ _ _ Hs H)
      end
  | Hs : synced ?a ?w, H : Get _ ?w = (_, ?w', _) |- _ =>
      lazymatch goal with
      | _ : synced a w' |- _ => fail
      | _ => pose proof (Get_keeps_synced _ _ _ _ _ _ Hs H)
      end
  | Hs : synced ?a0 ?w, H : setCondition _ ?a _ _ _ _ ?w = (Ok ?a', ?w', _) |- _ =>
      lazymatch goal with
      | _ : synced a' w' |- _ => fail
      | _ =>
          pose proof (setCondition_ok _ a a0 _ _ _ _ _ _ _ _ Hs eq_refl H)
            as (? & ? & ? & ? & ? & ? & ? & ? & ?)
      end
  end.

(** C10.  A pass that runs to its end (it returns the periodic requeue
    interval) leaves in the store a Degraded condition with state False,
    reason ReconcileComplete and message "no errors", stamped with the
    generation of the WebApp: whatever Degraded condition an earlier pass
    left is replaced. *)
Theorem C10_clean_pass_clears_degraded r req w w' tr
    (Hkey : ∀ x, webapps (store w) !! ctrl.NamespacedName req = Some x →
                 keyOf x = ctrl.NamespacedName req)
    (Hrun : Reconcile r req w
            = (Ok {| ctrl.Requeue := false; ctrl.RequeueAfter := requeueAfter |},
               w', tr)) :
  ∃ a' c,
    webapps (store w') !! ctrl.NamespacedName req = Some a'
    ∧ meta.FindStatusCondition (conditionsOf a') appv1alpha1.TypeDegraded = Some c
    ∧ metav1.Status c = metav1.ConditionFalse
    ∧ metav1.Reason c = "ReconcileComplete"
    ∧ metav1.Message c = "no errors"
    ∧ metav1.ObservedGeneration c
      = metav1.Generation (appv1alpha1.ObjectMeta a').
Proof.
  apply Reconcile_Pass in Hrun. inversion Hrun; subst.
  unfold markProgressing, writeAvailable, clearProgressing, clearDegraded in *.
  destruct (Get_synced _ _ _ _ _ H Hkey) as (Hs & _ & Hk & _).
  clear Hrun.
  follow.
  exists a8.
  destruct (find_SetStatusCondition_same (now (env w7)) (conditionsOf a7)
              (newCondition a7 appv1alpha1.TypeDegraded metav1.ConditionFalse
                 "ReconcileComplete" "no errors"))
    as (c & Hc & _ & Hst & Hrs & Hmsg & Hgen).
  exists c. split_and!; try done.
  - match goal with Hs : synced a8 w' |- _ => unfold synced in Hs; rewrite <- Hs end.
    f_equal. congruence.
  - by subst a8.
  - by subst a8.
Qed.

(** Equations with the same left-hand side: the runs of a call are
    determined. *)
Ltac det :=
  repeat match goal with
  | H1 : ?x = (_, _, _), H2 : ?x = (_, _, _) |- _ =>
      rewrite H1 in H2; simplify_eq
  end.

Lemma conditionsOf_statusUpdated rv s now a ty st rs msg :
  conditionsOf (statusUpdated rv s (conditioned now a ty st rs msg))
  = meta.SetStatusCondition now (conditionsOf a) (newCondition a ty st rs msg).
Proof. done. Qed.

Lemma availableReplicas_statusUpdated rv s now a ty st rs msg :
  appv1alpha1.AvailableReplicas
    (appv1alpha1.Status (statusUpdated rv s (conditioned now a ty st rs msg)))
  = appv1alpha1.AvailableReplicas (appv1alpha1.Status a).
Proof. done. Qed.

Lemma generation_statusUpdated rv s obj :
  metav1.Generation (appv1alpha1.ObjectMeta (statusUpdated rv s obj))
  = metav1.Generation (appv1alpha1.ObjectMeta s).
Proof. done. Qed.

Lemma types_distinct :
  appv1alpha1.TypeAvailable ≠ appv1alpha1.TypeProgressing
  ∧ appv1alpha1.TypeAvailable ≠ appv1alpha1.TypeDegraded
  ∧ appv1alpha1.TypeProgressing ≠ appv1alpha1.TypeDegraded.
Proof. done. Qed.

(** The Available condition [writeAvailable] submits. *)
Lemma writeAvailable_condition now a dep :
  let observed := appsv1.AvailableReplicas (appsv1.Status dep) in
  let obj :=
    conditioned now (withObserved a dep) appv1alpha1.TypeAvailable
      (if 0 <? observed then metav1.ConditionTrue else metav1.ConditionFalse)
      (if 0 <? observed then "DeploymentAvailable" else "DeploymentUnavailable")
      (if 0 <? observed then pretty observed +:+ " replica(s) available"
       else "no replicas are available yet") in
  appv1alpha1.AvailableReplicas (appv1alpha1.Status obj) = observed
  ∧ ∃ c, meta.FindStatusCondition (conditionsOf obj) appv1alpha1.TypeAvailable
         = Some c
         ∧ availableAsCoded observed c
         ∧ metav1.ObservedGeneration c
           = metav1.Generation (appv1alpha1.ObjectMeta a).
Proof.
  intros observed obj. split; [done|].
  destruct (find_SetStatusCondition_same now (conditionsOf (withObserved a dep))
              (newCondition (withObserved a dep) appv1alpha1.TypeAvailable
                 (if 0 <? observed then metav1.ConditionTrue else metav1.ConditionFalse)
                 (if 0 <? observed then "DeploymentAvailable" else "DeploymentUnavailable")
                 (if 0 <? observed then pretty observed +:+ " replica(s) available"
                  else "no replicas are available yet")))
    as (c & Hc & _ & Hst & Hrs & Hmsg & Hgen).
  exists c. split; [exact Hc|]. split; [|exact Hgen].
  unfold availableAsCoded. simpl in Hst, Hrs, Hmsg.
  by destruct (0 <? observed).
Qed.

(** C5 (as amended).  On a pass that reaches status projection, the next
    request is a status write carrying the observed replica count and an
    Available condition that is True with reason DeploymentAvailable and
    message "<n> replica(s) available" when the count is positive, and
    False with reason DeploymentUnavailable and the fixed message "no
    replicas are available yet" otherwise.  When the pass ends without
    error, the stored WebApp has that count, that Available condition, and
    Progressing False with reason ReconcileComplete. *)
Theorem C5_status_projection r req w a2 dep w5 pre res w' tr
    (Hkey : ∀ x, webapps (store w) !! ctrl.NamespacedName req = Some x →
                 keyOf x = ctrl.NamespacedName req)
    (Hreach : reachesProjection r req w a2 dep w5 pre)
    (Hrun : Reconcile r req w = (res, w', tr)) :
  let observed := appsv1.AvailableReplicas (appsv1.Status dep) in
  ∃ obj rr rest c,
    tr = pre ++ EStatusUpdate (OWebApp obj) rr :: rest
    ∧ appv1alpha1.AvailableReplicas (appv1alpha1.Status obj) = observed
    ∧ meta.FindStatusCondition (conditionsOf obj) appv1alpha1.TypeAvailable
      = Some c
    ∧ availableAsCoded observed c
    ∧ (metav1.Status c = metav1.ConditionTrue ↔ 0 < observed)
    ∧ (∀ x, res = Ok x →
        ∃ a' av p,
          webapps (store w') !! ctrl.NamespacedName req = Some a'
          ∧ appv1alpha1.AvailableReplicas (appv1alpha1.Status a') = observed
          ∧ meta.FindStatusCondition (conditionsOf a') appv1alpha1.TypeAvailable
            = Some av
          ∧ agrees av c
          ∧ meta.FindStatusCondition (conditionsOf a') appv1alpha1.TypeProgressing
            = Some p
          ∧ metav1.Status p = metav1.ConditionFalse
          ∧ metav1.Reason p = "ReconcileComplete").
Proof.
  destruct Hreach as (a & w2 & pre2 & w3 & t3 & w4 & t4 & t5
                      & (w1 & t1 & t2 & Hget & Hdel & Hfin & Hmark & ->)
                      & Hdep & Hsvc & Hobs & ->).
  intros observed.
  apply Reconcile_Pass in Hrun. inversion Hrun; subst; det; try congruence.
  all: unfold writeAvailable, clearProgressing, clearDegraded in *.
  all: match goal with
       | H : setCondition _ (withObserved ?x ?d) _ _ _ _ ?v = _ |- _ =>
           destruct (writeAvailable_condition (now (env v)) x d)
             as (Hav & c & Hc & Hcoded & Hgen);
           destruct (setCondition_trace _ _ _ _ _ _ _ _ _ _ H) as [rr Ht6]
       end; subst.
  all: eexists _, rr, _, c.
  all: split; [by rewrite <- !app_assoc|].
  all: split; [exact Hav|]. all: split; [exact Hc|]. all: split; [exact Hcoded|].
  all: split;
    [unfold availableAsCoded in Hcoded; fold observed in Hcoded;
     destruct (0 <? observed) eqn:Hpos;
     [apply Z.ltb_lt in Hpos; by destruct Hcoded
     |apply Z.ltb_ge in Hpos; destruct Hcoded as (-> & _); split; [done|lia]]|].
  all: intros x Hx; try discriminate Hx.
  (* the pass that ran to its end *)
  clear Hrun.
  match goal with H : Get (ctrl.NamespacedName req) w = _ |- _ =>
    destruct (Get_synced _ _ _ _ _ H Hkey) as (Hs & _ & Hk & _) end.
  unfold markProgressing in *. follow.
  match goal with Hs8 : synced ?a8 w' |- _ =>
    exists a8; unfold synced in Hs8;
    assert (keyOf a8 = ctrl.NamespacedName req) as Hk8 by congruence;
    rewrite Hk8 in Hs8;
    assert (appv1alpha1.AvailableReplicas (appv1alpha1.Status a8) = observed
            ∧ meta.FindStatusCondition (conditionsOf a8) appv1alpha1.TypeAvailable
              = Some c
            ∧ ∃ p, meta.FindStatusCondition (conditionsOf a8)
                     appv1alpha1.TypeProgressing = Some p
                   ∧ metav1.Status p = metav1.ConditionFalse
                   ∧ metav1.Reason p = "ReconcileComplete")
      as (? & ? & p & ? & ? & ?)
  end.
  { repeat match goal with
           | Heq : ?x = statusUpdated _ _ _ |- _ => subst x
           end.
    rewrite !conditionsOf_statusUpdated, !availableReplicas_statusUpdated.
    rewrite !(find_SetStatusCondition_other _ _ _ appv1alpha1.TypeAvailable) by done.
    rewrite (find_SetStatusCondition_other _ _ _ appv1alpha1.TypeProgressing) by done.
    split_and!; try done.
    match goal with
    | |- context [meta.SetStatusCondition ?n ?l ?x] =>
        destruct (find_SetStatusCondition_same n l x) as (p & Hp & _ & Hpst & Hprs & _)
    end.
    by exists p. }
  exists c, p. split_and!; done.
Qed.

Lemma Scenario_run w :
  Reconcile Scenario.reconciler Scenario.req w
  = (Scenario.resultOf w, Scenario.worldAfter w, Scenario.traceOf w).
Proof.
  unfold Scenario.resultOf, Scenario.worldAfter, Scenario.traceOf.
  by destruct (Reconcile Scenario.reconciler Scenario.req w) as [[res w'] tr].
Qed.

Lemma Scenario_key_ok a sc :
  keyOf a = Scenario.key →
  ∀ x, webapps (store (Scenario.worldOf a sc)) !! ctrl.NamespacedName Scenario.req
       = Some x →
       keyOf x = ctrl.NamespacedName Scenario.req.
Proof.
  intros Ha x. simpl. rewrite lookup_singleton_eq. by intros [= <-].
Qed.

(** C5, the claim as stated fails: with no replica available the pass
    writes reason DeploymentUnavailable, not Unavailable, and a message
    without the count. *)
Lemma C5_reason_is_DeploymentUnavailable :
  Scenario.resultOf Scenario.registered0
  = Ok {| ctrl.Requeue := false; ctrl.RequeueAfter := requeueAfter |}
  ∧ ∃ a c,
      Scenario.storedWebApp (Scenario.worldAfter Scenario.registered0) = Some a
      ∧ appv1alpha1.AvailableReplicas (appv1alpha1.Status a) = 0
      ∧ meta.FindStatusCondition (conditionsOf a) appv1alpha1.TypeAvailable
        = Some c
      ∧ metav1.Reason c = "DeploymentUnavailable"
      ∧ metav1.Message c = "no replicas are available yet"
      ∧ ¬ availableAsSpecified 0 c.
Proof.
  split; [vm_compute; reflexivity|].
  eexists _, _. split; [vm_compute; reflexivity|].
  split; [done|]. split; [vm_compute; reflexivity|]. split; [done|]. split; [done|].
  unfold availableAsSpecified. simpl. by intros (_ & ? & _).
Qed.

Lemma Scenario_reaches_projection :
  reachesProjection Scenario.reconciler Scenario.req Scenario.registered0
    (Scenario.marked Scenario.registered0)
    (Scenario.observed Scenario.registered0)
    (Scenario.observe Scenario.registered0).1.2
    ((Scenario.fetch Scenario.registered0).2
     ++ (Scenario.mark Scenario.registered0).2
     ++ (Scenario.syncDeployment Scenario.registered0).2
     ++ (Scenario.syncService Scenario.registered0).2
     ++ (Scenario.observe Scenario.registered0).2).
Proof.
  exists Scenario.registered,
         (Scenario.mark Scenario.registered0).1.2,
         ((Scenario.fetch Scenario.registered0).2
          ++ (Scenario.mark Scenario.registered0).2),
         (Scenario.syncDeployment Scenario.registered0).1.2,
         (Scenario.syncDeployment Scenario.registered0).2,
         (Scenario.syncService Scenario.registered0).1.2,
         (Scenario.syncService Scenario.registered0).2,
         (Scenario.observe Scenario.registered0).2.
  split.
  { exists (Scenario.fetch Scenario.registered0).1.2,
           (Scenario.fetch Scenario.registered0).2,
           (Scenario.mark Scenario.registered0).2.
    split_and!; [vm_compute; reflexivity|done|done|vm_compute; reflexivity|done]. }
  split_and!; [vm_compute; reflexivity|vm_compute; reflexivity|vm_compute; reflexivity|].
  by rewrite <- !app_assoc.
Qed.

Lemma C5_status_projection_witness :
  ∃ obj rr rest c,
    Scenario.traceOf Scenario.registered0
    = ((Scenario.fetch Scenario.registered0).2
       ++ (Scenario.mark Scenario.registered0).2
       ++ (Scenario.syncDeployment Scenario.registered0).2
       ++ (Scenario.syncService Scenario.registered0).2
       ++ (Scenario.observe Scenario.registered0).2)
      ++ EStatusUpdate (OWebApp obj) rr :: rest
    ∧ meta.FindStatusCondition (conditionsOf obj) appv1alpha1.TypeAvailable
      = Some c
    ∧ availableAsCoded
        (appsv1.AvailableReplicas
           (appsv1.Status (Scenario.observed Scenario.registered0))) c.
Proof.
  destruct (C5_status_projection Scenario.reconciler Scenario.req
              Scenario.registered0 _ _ _ _ _ _ _
              (Scenario_key_ok Scenario.registered [] eq_refl)
              Scenario_reaches_projection
              (Scenario_run Scenario.registered0))
    as (obj & rr & rest & c & Ht & _ & Hc & Hcoded & _).
  exists obj, rr, rest, c. split_and!; [exact Ht|exact Hc|exact Hcoded].
Defined.

(** C2.  For a WebApp whose deletion was requested: [cleanupChildResources]
    touches nothing and returns no error; the pass issues no child request
    and no status write.  With the finalizer present and the store answering
    both calls, the pass submits the WebApp without the token, the store
    keeps it so (or purges it when no finalizer is left), and the pass
    returns the zero result: success, no re-delivery.  A pass that returns
    an error has persisted nothing.  With the finalizer absent the pass
    issues its read and nothing else, changes nothing, and returns the zero
    result. *)
Theorem C2_deletion r req w a res w' tr
    (Hlook : webapps (store w) !! ctrl.NamespacedName req = Some a)
    (Hkey : keyOf a = ctrl.NamespacedName req)
    (Hdel : deletionRequested a = true)
    (Hrun : Reconcile r req w = (res, w', tr)) :
  (∀ v, cleanupChildResources r a v = (Ok tt, v, []))
  ∧ Forall (λ e, isChildMutation e = false) tr
  ∧ Forall (λ e, isStatusWrite e = false) tr
  ∧ deployments (store w') = deployments (store w)
  ∧ services (store w') = services (store w)
  ∧ (∀ e, res = Err e → store w' = store w)
  ∧ (hasFinalizer a = false →
       (∃ rr, tr = [EGet KWebApp (ctrl.NamespacedName req) rr])
       ∧ store w' = store w
       ∧ (faultFree 1 (env w) = true → res = Ok ctrl.zeroResult))
  ∧ (hasFinalizer a = true →
       faultFree 2 (env w) = true →
       let a' := updated (nextRV (store w)) a (removeToken a) in
       res = Ok ctrl.zeroResult
       ∧ tr = [EGet KWebApp (ctrl.NamespacedName req) (Ok (OWebApp a));
               EUpdate (OWebApp (removeToken a)) (Ok (OWebApp a'))]
       ∧ hasFinalizer a' = false
       ∧ webapps (store w') !! ctrl.NamespacedName req
         = (if purgeable (appv1alpha1.ObjectMeta a') then None else Some a')).
Proof.
  split; [done|].
  apply Reconcile_Pass in Hrun.
  inversion Hrun; subst;
    match goal with H : Get _ w = _ |- _ =>
      rewrite Get_run in H; red_obj; rewrite Hlook in H;
      destruct (environment (env w)) as [[ef|] e1] eqn:Henv; simplify_eq
    end.
  all: try congruence.
  all: try match goal with H : Update (removeToken ?a) ?w1 = _ |- _ =>
           rewrite (Update_run (removeToken a) a) in H;
             [|by rewrite keyOf_removeToken, Hkey|by apply sameVersion_removeToken];
           red_obj; rewrite keyOf_removeToken, Hkey in H;
           destruct (environment e1) as [[ef|] e2] eqn:Henv2; simplify_eq
         end; red_obj.
  all: split_and!; try done; try trace_forall.
  all: lazymatch goal with
       | |- ∀ e, _ = Err e → _ => intros ? ?; by simplify_eq
       | |- hasFinalizer _ = false → _ =>
           intros Hnf;
           first
             [ congruence
             | split_and!;
               [ by eexists | done
               | intros Hff;
                 first [ done
                       | by destruct (faultFree_environment _ _ _ _ Hff Henv) ] ] ]
       | |- hasFinalizer _ = true → _ =>
           intros Hyf Hff; try congruence;
           try (by destruct (faultFree_environment _ _ _ _ Hff Henv));
           try (destruct (faultFree_environment _ _ _ _ Hff Henv) as [_ Hff'];
                by destruct (faultFree_environment _ _ _ _ Hff' Henv2))
       end.
  split_and!; try done.
  - unfold hasFinalizer. apply ContainsFinalizer_removed.
  - match goal with |- context [purgeable ?m] => destruct (purgeable m) end;
      red_obj; [apply lookup_delete_eq|apply lookup_insert_eq].
Qed.

(** C4.  When the synchronisation of a child fails, the pass returns the
    error (wrapped) and ends with a status write whose Degraded condition is
    True with the reason of the failing child, the text of the error as
    message and the generation of the WebApp; that write carries the replica
    count and the Available condition the WebApp was fetched with: status
    projection was not reached.  Whether the failure is then on record is
    decided by the store alone.  When the environment lets that last call
    through, the store accepts the write, the stored WebApp has exactly the
    status submitted and the failure is reported.  When the environment
    fails that call too, the error of the write is dropped, the stored
    WebApp is still the one the Progressing mark left, and it carries the
    Degraded condition it was fetched with, if any. *)
Theorem C4_sync_failure_reported r req w a a2 w2 pre e wf mid reason prefix
    res w' tr
    (Hkey : ∀ x, webapps (store w) !! ctrl.NamespacedName req = Some x →
                 keyOf x = ctrl.NamespacedName req)
    (Hreach : reachesSync r req w a a2 w2 pre)
    (Hfail : syncFails r a2 w2 e wf mid reason prefix)
    (Hrun : Reconcile r req w = (res, w', tr)) :
  let obj :=
    conditioned (now (env wf)) a2 appv1alpha1.TypeDegraded
      metav1.ConditionTrue reason (Error e) in
  res = Err (Wrapped prefix e)
  ∧ (∃ c, meta.FindStatusCondition (conditionsOf obj) appv1alpha1.TypeDegraded
          = Some c
          ∧ metav1.Status c = metav1.ConditionTrue
          ∧ metav1.Reason c = reason
          ∧ metav1.Message c = Error e
          ∧ metav1.ObservedGeneration c
            = metav1.Generation (appv1alpha1.ObjectMeta a))
  ∧ appv1alpha1.AvailableReplicas (appv1alpha1.Status obj)
    = appv1alpha1.AvailableReplicas (appv1alpha1.Status a)
  ∧ meta.FindStatusCondition (conditionsOf obj) appv1alpha1.TypeAvailable
    = meta.FindStatusCondition (conditionsOf a) appv1alpha1.TypeAvailable
  ∧ (∃ a', webapps (store w') !! ctrl.NamespacedName req = Some a'
           ∧ appv1alpha1.AvailableReplicas (appv1alpha1.Status a')
             = appv1alpha1.AvailableReplicas (appv1alpha1.Status a)
           ∧ meta.FindStatusCondition (conditionsOf a') appv1alpha1.TypeAvailable
             = meta.FindStatusCondition (conditionsOf a) appv1alpha1.TypeAvailable)
  ∧ match (environment (env wf)).1 with
    | None =>
        ∃ a', tr = pre ++ mid ++ [EStatusUpdate (OWebApp obj) (Ok (OWebApp a'))]
              ∧ webapps (store w') !! ctrl.NamespacedName req = Some a'
              ∧ appv1alpha1.Status a' = appv1alpha1.Status obj
              ∧ failureReported req w' reason
    | Some e' =>
        tr = pre ++ mid ++ [EStatusUpdate (OWebApp obj) (Err e')]
        ∧ webapps (store w') !! ctrl.NamespacedName req = Some a2
        ∧ meta.FindStatusCondition (conditionsOf a2) appv1alpha1.TypeDegraded
          = meta.FindStatusCondition (conditionsOf a) appv1alpha1.TypeDegraded
    end.
Proof.
  intros obj.
  destruct Hreach as (w1 & t1 & t2 & Hget & Hdel & Hfin & Hmark & ->).
  destruct (Get_synced _ _ _ _ _ Hget Hkey) as (Hs & _ & Hk & _).
  unfold markProgressing in Hmark.
  destruct (setCondition_ok _ _ _ _ _ _ _ _ _ _ _ Hs eq_refl Hmark)
    as (Hs2 & Hk2 & Ha2 & _).
  destruct types_distinct as (Hap & Had & Hpd).
  assert (Hfacts :
    appv1alpha1.AvailableReplicas (appv1alpha1.Status a2)
    = appv1alpha1.AvailableReplicas (appv1alpha1.Status a)
    ∧ meta.FindStatusCondition (conditionsOf a2) appv1alpha1.TypeAvailable
      = meta.FindStatusCondition (conditionsOf a) appv1alpha1.TypeAvailable
    ∧ meta.FindStatusCondition (conditionsOf a2) appv1alpha1.TypeDegraded
      = meta.FindStatusCondition (conditionsOf a) appv1alpha1.TypeDegraded
    ∧ metav1.Generation (appv1alpha1.ObjectMeta a2)
      = metav1.Generation (appv1alpha1.ObjectMeta a)).
  { rewrite Ha2, conditionsOf_statusUpdated, availableReplicas_statusUpdated.
    rewrite !find_SetStatusCondition_other by (simpl; congruence). done. }
  destruct Hfacts as (Hav2 & Hfa2 & Hfd2 & Hg2).
  assert (Hswf : synced a2 wf).
  { destruct Hfail as [(Hd & _)|(w3 & t3 & t4 & Hd & Hsv & _)]; follow; done. }
  apply Reconcile_Pass in Hrun.
  destruct (find_SetStatusCondition_same (now (env wf)) (conditionsOf a2)
              (newCondition a2 appv1alpha1.TypeDegraded metav1.ConditionTrue
                 reason (Error e)))
    as (c & Hc & _ & Hcst & Hcrs & Hcmsg & Hcgen).
  assert (Hobj :
    appv1alpha1.AvailableReplicas (appv1alpha1.Status obj)
    = appv1alpha1.AvailableReplicas (appv1alpha1.Status a)
    ∧ meta.FindStatusCondition (conditionsOf obj) appv1alpha1.TypeAvailable
      = meta.FindStatusCondition (conditionsOf a) appv1alpha1.TypeAvailable).
  { split; [exact Hav2|]. rewrite <- Hfa2. subst obj.
    by apply find_SetStatusCondition_other. }
  destruct Hobj as (Hoav & Hofa).
  assert (Hreport : ∀ r4 w4 t4,
    reportDegraded r a2 reason e wf = (r4, w4, t4) →
    match (environment (env wf)).1 with
    | None =>
        ∃ a', t4 = [EStatusUpdate (OWebApp obj) (Ok (OWebApp a'))]
              ∧ webapps (store w4) !! ctrl.NamespacedName req = Some a'
              ∧ appv1alpha1.Status a' = appv1alpha1.Status obj
    | Some e' =>
        t4 = [EStatusUpdate (OWebApp obj) (Err e')]
        ∧ webapps (store w4) !! ctrl.NamespacedName req = Some a2
    end).
  { intros r4 w4 t4 Hrep. unfold reportDegraded in Hrep.
    destruct (setCondition_synced _ _ _ _ _ _ _ _ _ _ _ Hswf eq_refl Hrep)
      as (_ & _ & _ & [(e' & -> & -> & Hst & ->)
                      |(a' & -> & -> & Ha' & Hs' & _ & _ & ->)]).
    - split; [done|].
      rewrite Hst. unfold synced in Hswf. by rewrite <- Hk, <- Hk2.
    - exists a'. split; [done|]. split; [|by rewrite Ha'].
      unfold synced in Hs'. rewrite <- Hs'. f_equal.
      rewrite Ha', keyOf_statusUpdated. congruence. }
  assert (Hlast : ∀ w4 t4,
    match (environment (env wf)).1 with
    | None =>
        ∃ a', t4 = [EStatusUpdate (OWebApp obj) (Ok (OWebApp a'))]
              ∧ webapps (store w4) !! ctrl.NamespacedName req = Some a'
              ∧ appv1alpha1.Status a' = appv1alpha1.Status obj
    | Some e' =>
        t4 = [EStatusUpdate (OWebApp obj) (Err e')]
        ∧ webapps (store w4) !! ctrl.NamespacedName req = Some a2
    end →
    ∃ a', webapps (store w4) !! ctrl.NamespacedName req = Some a'
          ∧ appv1alpha1.AvailableReplicas (appv1alpha1.Status a')
            = appv1alpha1.AvailableReplicas (appv1alpha1.Status a)
          ∧ meta.FindStatusCondition (conditionsOf a') appv1alpha1.TypeAvailable
            = meta.FindStatusCondition (conditionsOf a) appv1alpha1.TypeAvailable).
  { intros w4 t4 H4. destruct ((environment (env wf)).1).
    - destruct H4 as (_ & Hl). by exists a2.
    - destruct H4 as (a' & _ & Hl & Hst). exists a'. split; [done|].
      unfold conditionsOf. by rewrite Hst. }
  destruct Hfail as [(Hd & -> & ->)|(w3 & t3 & t4 & Hd & Hsv & -> & -> & ->)];
    inversion Hrun; subst; unfold markProgressing in *; det; try congruence.
  all: match goal with H : reportDegraded _ _ _ _ _ = _ |- _ =>
         pose proof (Hreport _ _ _ H) as Hrep end.
  all: pose proof (Hlast _ _ Hrep) as Hstored.
  all: split; [done|].
  all: split; [exists c; split_and!; first [exact Hc|done|congruence]|].
  all: split; [done|]. all: split; [done|]. all: split; [exact Hstored|].
  all: match type of Hrep with match ?x with _ => _ end => destruct x end.
  all: try (destruct Hrep as (-> & Hl); split_and!;
            [by rewrite <- ?app_assoc|done|done]).
  all: destruct Hrep as (a' & -> & Hl & Hst); exists a'; split_and!;
         [by rewrite <- ?app_assoc|done|done|].
  all: exists a', c; split; [done|]; rewrite Hst; split; [exact Hc|done].
Qed.

(** C8, at the failing input: the fetch of the Deployment for status times
    out after the Progressing mark was written.  The pass returns the
    error; its only status write is the mark; the stored WebApp has no
    Degraded condition and is left Progressing=True. *)
Theorem C8_observe_failure_not_reported :
  Scenario.resultOf Scenario.observeFails
  = Err (Wrapped "fetching deployment for status"
           (StatusError apierrors.StatusReasonTimeout
              "the server was unable to return a response in time"))
  ∧ (∃ rr, List.filter isStatusWrite (Scenario.traceOf Scenario.observeFails)
           = [EStatusUpdate
                (OWebApp (conditioned 101 Scenario.registered
                            appv1alpha1.TypeProgressing metav1.ConditionTrue
                            "Reconciling" "reconciliation in progress")) rr])
  ∧ ∃ a p,
      Scenario.storedWebApp (Scenario.worldAfter Scenario.observeFails) = Some a
      ∧ meta.FindStatusCondition (conditionsOf a) appv1alpha1.TypeDegraded = None
      ∧ meta.FindStatusCondition (conditionsOf a) appv1alpha1.TypeAvailable = None
      ∧ meta.FindStatusCondition (conditionsOf a) appv1alpha1.TypeProgressing
        = Some p
      ∧ metav1.Status p = metav1.ConditionTrue
      ∧ metav1.Reason p = "Reconciling".
Proof.
  split; [vm_compute; reflexivity|].
  split; [eexists; vm_compute; reflexivity|].
  eexists _, _. split; [vm_compute; reflexivity|].
  split; [vm_compute; reflexivity|].
  split; [vm_compute; reflexivity|].
  split; [vm_compute; reflexivity|]. by split.
Qed.

(** ** The order of the requests of a pass *)

Lemma lookup_Forall_false {A} (P : A → bool) (l : list A) i x :
  Forall (λ y, P y = false) l → l !! i = Some x → P x = true → False.
Proof.
  intros Hall Hl Hx. eapply Forall_lookup_1 in Hall; [|exact Hl].
  simpl in Hall. congruence.
Qed.

(** In a trace made of quiet requests, then one request [m], then requests
    that are no status writes, then requests that are no child mutations, a
    status write that comes before a child mutation is [m]. *)
Lemma mark_only_before_children pre m mid post i j e c :
  Forall quietEvent pre →
  Forall (λ y, isStatusWrite y = false) mid →
  Forall (λ y, isChildMutation y = false) post →
  (pre ++ m :: mid ++ post) !! i = Some e →
  (pre ++ m :: mid ++ post) !! j = Some c →
  isStatusWrite e = true → isChildMutation c = true → (i < j)%nat →
  i = length pre ∧ e = m.
Proof.
  intros Hpre Hmid Hpost Hi Hj He Hc Hlt.
  destruct (decide (i < length pre)%nat) as [Hi1|Hi1].
  { rewrite lookup_app_l in Hi by done.
    eapply Forall_lookup_1 in Hpre as [Hq _]; [|exact Hi]. congruence. }
  destruct (decide (i = length pre)) as [->|Hi2].
  { split; [done|]. rewrite lookup_app_r, Nat.sub_diag in Hi by lia.
    simpl in Hi. congruence. }
  exfalso.
  rewrite lookup_app_r in Hi by lia.
  rewrite lookup_app_r in Hj by lia.
  destruct (i - length pre)%nat as [|i'] eqn:Ei; [lia|].
  destruct (j - length pre)%nat as [|j'] eqn:Ej; [lia|].
  simpl in Hi, Hj.
  destruct (decide (i' < length mid)%nat) as [Hi3|Hi3].
  { rewrite lookup_app_l in Hi by done.
    by eapply (lookup_Forall_false isStatusWrite). }
  rewrite lookup_app_r in Hj by lia.
  by eapply (lookup_Forall_false isChildMutation).
Qed.

Lemma no_children_vacuous (tr : list Event) (j : nat) c :
  Forall (λ y, isChildMutation y = false) tr →
  tr !! j = Some c → isChildMutation c = true → False.
Proof. intros. by eapply (lookup_Forall_false isChildMutation). Qed.

Lemma setCondition_quiet_children r a ty st rs msg w res w' tr :
  setCondition r a ty st rs msg w = (res, w', tr) →
  Forall (λ y, isChildMutation y = false) tr.
Proof. intros [rr ->]%setCondition_trace. trace_forall. Qed.

(** C7 (as amended).  Within a pass, a status write that is issued before a
    child create or update is the second request of the pass, the
    Progressing mark on the WebApp just fetched.  Every other status write
    (replica count, Available, Progressing=False, Degraded) comes after all
    child requests of the pass. *)
Theorem C7_only_the_mark_precedes_children r req w res w' tr
    (Hrun : Reconcile r req w = (res, w', tr)) :
  ∀ i j e c,
    tr !! i = Some e → tr !! j = Some c →
    isStatusWrite e = true → isChildMutation c = true → (i < j)%nat →
    i = 1%nat
    ∧ ∃ a, tr !! 0%nat
           = Some (EGet KWebApp (ctrl.NamespacedName req) (Ok (OWebApp a)))
           ∧ isProgressingMark a e.
Proof.
  intros i j e c Hi Hj He Hc Hlt.
  apply Reconcile_Pass in Hrun.
  inversion Hrun; subst;
    unfold markProgressing, reportDegraded, writeAvailable, clearProgressing,
      clearDegraded in *;
    repeat match goal with
    | H : Get _ _ = _ |- _ => apply Get_trace in H; red_obj
    | H : Update _ _ = _ |- _ => apply Update_trace in H; red_obj
    | H : reconcileDeployment _ _ _ = _ |- _ =>
        apply reconcileDeployment_frame in H as (_ & _ & H)
    | H : reconcileService _ _ _ = _ |- _ =>
        apply reconcileService_frame in H as (_ & _ & H)
    end; subst.
  (* the passes that end before the mark *)
  1-7: exfalso; eapply (no_children_vacuous _ j c); [|exact Hj|exact Hc];
       trace_forall.
  (* the mark failed *)
  { exfalso. eapply (no_children_vacuous _ j c); [|exact Hj|exact Hc].
    trace_forall. by eapply setCondition_quiet_children. }
  all: match goal with
       | H : setCondition _ ?a appv1alpha1.TypeProgressing metav1.ConditionTrue
               _ _ ?v = (_, _, ?t) |- _ =>
           destruct (setCondition_trace _ _ _ _ _ _ _ _ _ _ H) as [rr0 ->]
       end.
  all: repeat match goal with
       | H : setCondition _ _ _ _ _ _ _ = _ |- _ =>
           apply setCondition_quiet_children in H
       end.
  all: simpl in Hi, Hj.
  all: match type of Hi with
       | (?g :: ?m :: ?rest) !! _ = _ =>
           assert (Hsplit : ∃ mid post, rest = mid ++ post
                     ∧ Forall (λ y, isStatusWrite y = false) mid
                     ∧ Forall (λ y, isChildMutation y = false) post);
           [ match goal with
             | H3 : Forall (λ y, isStatusWrite y = false) ?ta,
               H4 : Forall (λ y, isStatusWrite y = false) ?tb
               |- ∃ mid post, ?ta ++ ?tb ++ ?p = _ ∧ _ =>
                 exists (ta ++ tb), p;
                 split_and!; [by rewrite app_assoc|trace_forall|trace_forall]
             | H3 : Forall (λ y, isStatusWrite y = false) ?ta
               |- ∃ mid post, ?ta ++ ?p = _ ∧ _ =>
                 exists ta, p; split_and!; [done|trace_forall|trace_forall]
             | H3 : Forall (λ y, isStatusWrite y = false) ?ta
               |- ∃ mid post, ?ta = _ ∧ _ =>
                 exists ta, []; split_and!;
                 [by rewrite app_nil_r|trace_forall|trace_forall]
             end
           | destruct Hsplit as (mid & post & Hrest & Hmid & Hpost);
             rewrite Hrest in Hi, Hj;
             destruct (mark_only_before_children [g] m mid post i j e c)
               as [-> ->];
             [ trace_forall; by split | done | done | exact Hi | exact Hj
             | done | done | done | ];
             split; [done|]; eexists; split; [done|]; by eexists _, _ ]
       end.
Qed.

(** ** The scenario, evaluated *)

Lemma C1_finalizer_registered_first_witness :
  fresh (Scenario.demo [] None) = true
  ∧ Forall (λ e, isChildMutation e = false) (Scenario.traceOf Scenario.fresh0)
  ∧ Scenario.resultOf Scenario.fresh0
    = Ok {| ctrl.Requeue := true; ctrl.RequeueAfter := 0 |}
  ∧ (Exists (λ e, isChildMutation e = true)
       (Scenario.traceOf Scenario.registered0)
     ∧ ∃ a, Scenario.storedWebApp Scenario.registered0 = Some a
            ∧ hasFinalizer a = true).
Proof.
  split; [vm_compute; reflexivity|].
  destruct (C1_finalizer_registered_first Scenario.reconciler Scenario.req
              Scenario.fresh0 _ _ _ (Scenario_run Scenario.fresh0))
    as [Hfresh _].
  destruct (Hfresh (Scenario.demo [] None))
    as (Hnone & _ & _ & Hok);
    [vm_compute; reflexivity|vm_compute; reflexivity|vm_compute; reflexivity|].
  destruct Hok as (Hres & _); [vm_compute; reflexivity|].
  split; [exact Hnone|]. split; [exact Hres|].
  destruct (C1_finalizer_registered_first Scenario.reconciler Scenario.req
              Scenario.registered0 _ _ _ (Scenario_run Scenario.registered0))
    as [_ Hchild].
  assert (Hex : Exists (λ e, isChildMutation e = true)
                  (Scenario.traceOf Scenario.registered0)).
  { apply Exists_exists. eexists.
    split; [apply list_elem_of_lookup; exists 3%nat; vm_compute; reflexivity|].
    reflexivity. }
  split; [exact Hex|].
  destruct (Hchild Hex) as (a & Ha & Hf & _). exists a. split; [exact Ha|exact Hf].
Defined.

Lemma C2_deletion_witness :
  deletionRequested (Scenario.demo [webappFinalizer] (Some (metav1.At 90%N)))
  = true
  ∧ Scenario.resultOf Scenario.deleting0 = Ok ctrl.zeroResult
  ∧ Forall (λ e, isChildMutation e = false) (Scenario.traceOf Scenario.deleting0).
Proof.
  split; [vm_compute; reflexivity|].
  destruct (C2_deletion Scenario.reconciler Scenario.req Scenario.deleting0
              (Scenario.demo [webappFinalizer] (Some (metav1.At 90%N)))
              (Scenario.resultOf Scenario.deleting0)
              (Scenario.worldAfter Scenario.deleting0)
              (Scenario.traceOf Scenario.deleting0))
    as (_ & Hnone & _ & _ & _ & _ & _ & Hpresent);
    [ vm_compute; reflexivity | vm_compute; reflexivity
    | vm_compute; reflexivity | apply Scenario_run | ].
  destruct Hpresent as (Hres & _);
    [vm_compute; reflexivity|vm_compute; reflexivity|].
  split; [exact Hres|exact Hnone].
Defined.

Lemma C10_clean_pass_clears_degraded_witness :
  Scenario.resultOf Scenario.registered0
  = Ok {| ctrl.Requeue := false; ctrl.RequeueAfter := requeueAfter |}
  ∧ ∃ a' c,
      Scenario.storedWebApp (Scenario.worldAfter Scenario.registered0) = Some a'
      ∧ meta.FindStatusCondition (conditionsOf a') appv1alpha1.TypeDegraded
        = Some c
      ∧ metav1.Status c = metav1.ConditionFalse
      ∧ metav1.Reason c = "ReconcileComplete"
      ∧ metav1.Message c = "no errors".
Proof.
  assert (Hres : Scenario.resultOf Scenario.registered0
                 = Ok {| ctrl.Requeue := false; ctrl.RequeueAfter := requeueAfter |})
    by (vm_compute; reflexivity).
  split; [exact Hres|].
  destruct (C10_clean_pass_clears_degraded Scenario.reconciler Scenario.req
              Scenario.registered0
              (Scenario.worldAfter Scenario.registered0)
              (Scenario.traceOf Scenario.registered0)
              (Scenario_key_ok Scenario.registered [] eq_refl))
    as (a' & c & Ha & Hc & Hst & Hrs & Hmsg & _).
  { rewrite Scenario_run. rewrite Hres. reflexivity. }
  exists a', c. split; [exact Ha|]. split; [exact Hc|]. split; [exact Hst|].
  split; [exact Hrs|exact Hmsg].
Defined.

(** C7, the claim as stated fails: the pass on the registered WebApp writes
    the status (the Progressing mark, second request) before it creates the
    Deployment (fourth request). *)
Lemma C7_mark_written_before_children :
  ¬ statusWrittenLast (Scenario.traceOf Scenario.registered0).
Proof.
  intros H.
  assert (Hm : ∃ e, Scenario.traceOf Scenario.registered0 !! 1%nat = Some e
                    ∧ isStatusWrite e = true)
    by (eexists; split; [vm_compute; reflexivity|reflexivity]).
  assert (Hc : ∃ c, Scenario.traceOf Scenario.registered0 !! 3%nat = Some c
                    ∧ isChildMutation c = true)
    by (eexists; split; [vm_compute; reflexivity|reflexivity]).
  destruct Hm as (e & He & Hs). destruct Hc as (c & Hc & Hch).
  specialize (H 1%nat 3%nat e c He Hc Hs Hch). lia.
Qed.

Lemma C7_only_the_mark_precedes_children_witness :
  ∃ e c,
    Scenario.traceOf Scenario.registered0 !! 1%nat = Some e
    ∧ Scenario.traceOf Scenario.registered0 !! 3%nat = Some c
    ∧ isStatusWrite e = true ∧ isChildMutation c = true
    ∧ ∃ a, isProgressingMark a e.
Proof.
  assert (Hm : ∃ e, Scenario.traceOf Scenario.registered0 !! 1%nat = Some e
                    ∧ isStatusWrite e = true)
    by (eexists; split; [vm_compute; reflexivity|reflexivity]).
  assert (Hc : ∃ c, Scenario.traceOf Scenario.registered0 !! 3%nat = Some c
                    ∧ isChildMutation c = true)
    by (eexists; split; [vm_compute; reflexivity|reflexivity]).
  destruct Hm as (e & He & Hs). destruct Hc as (c & Hc & Hch).
  destruct (C7_only_the_mark_precedes_children Scenario.reconciler Scenario.req
              Scenario.registered0 _ _ _ (Scenario_run Scenario.registered0)
              1%nat 3%nat e c He Hc Hs Hch)
    as (_ & a & _ & Hmark); [lia|].
  exists e, c. split; [exact He|]. split; [exact Hc|]. split; [exact Hs|].
  split; [exact Hch|]. exists a. exact Hmark.
Defined.

(** ** The children: what a synchronisation writes *)

Lemma writableMeta_id m : writableMeta m m = m.
Proof. by destruct m. Qed.

Lemma stamp_purgeable rv gen m : purgeable (metav1.stamp rv gen m) = purgeable m.
Proof. done. Qed.

Lemma updated_deployment rv (existing obj : appsv1.Deployment) :
  appsv1.ObjectMeta obj = appsv1.ObjectMeta existing →
  updated rv existing obj
  = {| appsv1.ObjectMeta :=
         metav1.stamp rv (nextGeneration existing obj) (appsv1.ObjectMeta existing);
       appsv1.Spec := appsv1.Spec obj;
       appsv1.Status := appsv1.Status existing |}.
Proof.
  intros Hm. unfold updated, nextGeneration. simpl.
  rewrite Hm, writableMeta_id. by destruct (bool_decide _).
Qed.

Lemma updated_service rv (existing obj : corev1.Service) :
  corev1.ObjectMeta obj = corev1.ObjectMeta existing →
  updated rv existing obj
  = {| corev1.ObjectMeta :=
         metav1.stamp rv (metav1.Generation (corev1.ObjectMeta existing))
           (corev1.ObjectMeta existing);
       corev1.Spec := corev1.Spec obj |}.
Proof. intros Hm. unfold updated. simpl. by rewrite Hm, writableMeta_id. Qed.

Lemma reconcileDeployment_existing r a w existing res w' tr :
  wfStore (store w) →
  deployments (store w) !! keyOf a = Some existing →
  reconcileDeployment r a w = (res, w', tr) →
  webapps (store w') = webapps (store w)
  ∧ services (store w') = services (store w)
  ∧ (deployments (store w') = deployments (store w)
     ∨ ∃ c0 rest rr,
         corev1.Containers
           (corev1.TemplateSpec (appsv1.Template (appsv1.Spec existing)))
         = c0 :: rest
         ∧ res = Ok tt
         ∧ tr = [EGet KDeployment (keyOf a) (Ok (ODeployment existing));
                 EUpdate
                   (ODeployment
                      (mergedDeployment a existing c0 rest
                         (appsv1.ObjectMeta existing))) rr]
         ∧ deployments (store w')
           = <[keyOf a :=
                 mergedDeployment a existing c0 rest
                   (metav1.stamp (nextRV (store w))
                      (nextGeneration existing
                         (mergedDeployment a existing c0 rest
                            (appsv1.ObjectMeta existing)))
                      (appsv1.ObjectMeta existing))]>
               (deployments (store w))).
Proof.
  intros (_ & Hwf & _) Hex. destruct (Hwf _ _ Hex) as [Hkey Hnp].
  unfold reconcileDeployment.
  destruct (controllerutil.SetControllerReference _ _ _) as [e|m] eqn:Hscr;
    intros H.
  { inv_run. by split_and!; [| |left]. }
  assert (Hm : keyOf (appsv1.setObjectMeta m (desiredDeployment a)) = keyOf a).
  { unfold controllerutil.SetControllerReference in Hscr.
    repeat case_match; simplify_eq; done. }
  change (metav1.Namespace (appv1alpha1.ObjectMeta a),
          metav1.Name (appv1alpha1.ObjectMeta a)) with (keyOf a) in H.
  apply bind_inv in H as
    [(got & w1 & t1 & t2 & Hg & Hk & ->)|[(? & Hg & _)|(? & Hg & _)]];
    [|by apply attempt_inv in Hg as [(? & _ & ?)|[(? & _ & ?)|(? & _ & ?)]]
     |apply attempt_inv in Hg as [(? & _ & ?)|[(? & _ & ?)|(? & Hg & ?)]];
      try done; by apply Get_no_panic in Hg].
  unfold attempt in Hg. rewrite Get_run in Hg; red_obj; rewrite Hex in Hg.
  destruct (environment (env w)) as [[ef|] e1] eqn:Henv;
    injection Hg as <- <- <-; cbv beta iota zeta in Hk.
  - (* the read failed *)
    destruct (IsNotFound ef).
    + apply bind_inv in Hk as
        [(? & w2 & t3 & t4 & Hc & Hr & ->)|[(? & Hc & ->)|(? & Hc & _)]];
        [| |by apply Create_no_panic in Hc].
      all: rewrite Create_run in Hc; red_obj; rewrite Hm, Hex in Hc.
      all: destruct (environment e1) as [[?|] ?]; simplify_eq.
      all: try (apply ret_inv in Hr as (_ & -> & _)); red_obj.
      all: by split_and!; [| |left].
    + apply fail_inv in Hk as (_ & -> & _). by split_and!; [| |left].
  - (* the read answered *)
    set (c1 := corev1.Containers
                 (corev1.TemplateSpec (appsv1.Template (appsv1.Spec existing)))).
    change (corev1.Containers (corev1.TemplateSpec (appsv1.Template (appsv1.Spec
              (appsv1.setSpec (appsv1.setReplicas
                 (appsv1.Replicas (appsv1.Spec (appsv1.setObjectMeta m (desiredDeployment a))))
                 (appsv1.Spec existing)) existing))))) with c1 in Hk.
    simpl (corev1.Containers (corev1.TemplateSpec (appsv1.Template (appsv1.Spec
              (appsv1.setObjectMeta m (desiredDeployment a)))))) in Hk.
    cbv beta iota zeta in Hk.
    destruct c1 as [|c0 rest] eqn:Hc1; subst c1.
    { apply panic_inv in Hk as (_ & -> & _). by split_and!; [| |left]. }
    apply bind_inv in Hk as
      [(? & w2 & t3 & t4 & Hu & Hr & ->)|[(? & Hu & ->)|(? & Hu & _)]];
      [| |by apply Update_no_panic in Hu].
    all: match type of Hu with Update ?obj _ = _ =>
           assert (Hko : keyOf obj = keyOf a) by (rewrite <- Hkey; reflexivity);
           rewrite (Update_run obj existing) in Hu;
             [| by (red_obj; rewrite Hko) | by apply bool_decide_eq_true_2 ];
           rewrite Hko in Hu; red_obj
         end.
    all: destruct (environment e1) as [[?|] ?]; simplify_eq.
    all: try (apply ret_inv in Hr as (-> & -> & ->)); red_obj.
    all: try (by split_and!; [| |left]).
    split_and!; try done. right. exists c0, rest. eexists.
    split; [done|]. split; [done|]. split; [reflexivity|].
    rewrite updated_deployment by done. simpl appsv1.ObjectMeta.
    rewrite stamp_purgeable, Hnp. reflexivity.
Qed.

Lemma reconcileService_existing r a w existing res w' tr :
  wfStore (store w) →
  services (store w) !! keyOf a = Some existing →
  reconcileService r a w = (res, w', tr) →
  webapps (store w') = webapps (store w)
  ∧ deployments (store w') = deployments (store w)
  ∧ (services (store w') = services (store w)
     ∨ ∃ rr,
         res = Ok tt
         ∧ tr = [EGet KService (keyOf a) (Ok (OService existing));
                 EUpdate
                   (OService (mergedService a existing (corev1.ObjectMeta existing)))
                   rr]
         ∧ services (store w')
           = <[keyOf a :=
                 mergedService a existing
                   (metav1.stamp (nextRV (store w))
                      (metav1.Generation (corev1.ObjectMeta existing))
                      (corev1.ObjectMeta existing))]>
               (services (store w))).
Proof.
  intros (_ & _ & Hwf) Hex. destruct (Hwf _ _ Hex) as [Hkey Hnp].
  unfold reconcileService.
  destruct (controllerutil.SetControllerReference _ _ _) as [e|m] eqn:Hscr;
    intros H.
  { inv_run. by split_and!; [| |left]. }
  assert (Hm : keyOf (corev1.setObjectMeta m (desiredService a)) = keyOf a).
  { unfold controllerutil.SetControllerReference in Hscr.
    repeat case_match; simplify_eq; done. }
  change (metav1.Namespace (appv1alpha1.ObjectMeta a),
          metav1.Name (appv1alpha1.ObjectMeta a)) with (keyOf a) in H.
  apply bind_inv in H as
    [(got & w1 & t1 & t2 & Hg & Hk & ->)|[(? & Hg & _)|(? & Hg & _)]];
    [|by apply attempt_inv in Hg as [(? & _ & ?)|[(? & _ & ?)|(? & _ & ?)]]
     |apply attempt_inv in Hg as [(? & _ & ?)|[(? & _ & ?)|(? & Hg & ?)]];
      try done; by apply Get_no_panic in Hg].
  unfold attempt in Hg. rewrite Get_run in Hg; red_obj; rewrite Hex in Hg.
  destruct (environment (env w)) as [[ef|] e1] eqn:Henv;
    injection Hg as <- <- <-; cbv beta iota zeta in Hk.
  - destruct (IsNotFound ef).
    + apply bind_inv in Hk as
        [(? & w2 & t3 & t4 & Hc & Hr & ->)|[(? & Hc & ->)|(? & Hc & _)]];
        [| |by apply Create_no_panic in Hc].
      all: rewrite Create_run in Hc; red_obj; rewrite Hm, Hex in Hc.
      all: destruct (environment e1) as [[?|] ?]; simplify_eq.
      all: try (apply ret_inv in Hr as (_ & -> & _)); red_obj.
      all: by split_and!; [| |left].
    + apply fail_inv in Hk as (_ & -> & _). by split_and!; [| |left].
  - apply bind_inv in Hk as
      [(? & w2 & t3 & t4 & Hu & Hr & ->)|[(? & Hu & ->)|(? & Hu & _)]];
      [| |by apply Update_no_panic in Hu].
    all: match type of Hu with Update ?obj _ = _ =>
           assert (Hko : keyOf obj = keyOf a) by (rewrite <- Hkey; reflexivity);
           rewrite (Update_run obj existing) in Hu;
             [| by (red_obj; rewrite Hko) | by apply bool_decide_eq_true_2 ];
           rewrite Hko in Hu; red_obj
         end.
    all: destruct (environment e1) as [[?|] ?]; simplify_eq.
    all: try (apply ret_inv in Hr as (-> & -> & ->)); red_obj.
    all: try (by split_and!; [| |left]).
    split_and!; try done. right. eexists.
    split; [done|]. split; [reflexivity|].
    rewrite updated_service by done. simpl corev1.ObjectMeta.
    rewrite stamp_purgeable, Hnp. reflexivity.
Qed.

(** C6.  On an existing Deployment a synchronisation either writes nothing
    or submits one update: the Deployment as read, with the replicas, and
    the image and ports of the first container, set; the store then holds
    that object under the same key, with a new resource version and
    generation.  Every other field (metadata, selector, template metadata,
    the other fields of the first container, the other containers, the
    other spec fields, the status) is the one read.  Likewise for the
    Service with ports and selector.  No other table changes, nothing is
    created or deleted. *)
Theorem C6_sync_writes_owned_fields_only r a w
    (Hwf : wfStore (store w)) :
  (∀ existing res w' tr,
     deployments (store w) !! keyOf a = Some existing →
     reconcileDeployment r a w = (res, w', tr) →
     webapps (store w') = webapps (store w)
     ∧ services (store w') = services (store w)
     ∧ (deployments (store w') = deployments (store w)
        ∨ ∃ c0 rest rr,
            corev1.Containers
              (corev1.TemplateSpec (appsv1.Template (appsv1.Spec existing)))
            = c0 :: rest
            ∧ res = Ok tt
            ∧ tr = [EGet KDeployment (keyOf a) (Ok (ODeployment existing));
                    EUpdate
                      (ODeployment
                         (mergedDeployment a existing c0 rest
                            (appsv1.ObjectMeta existing))) rr]
            ∧ deployments (store w')
              = <[keyOf a :=
                    mergedDeployment a existing c0 rest
                      (metav1.stamp (nextRV (store w))
                         (nextGeneration existing
                            (mergedDeployment a existing c0 rest
                               (appsv1.ObjectMeta existing)))
                         (appsv1.ObjectMeta existing))]>
                  (deployments (store w))))
  ∧ (∀ existing res w' tr,
       services (store w) !! keyOf a = Some existing →
       reconcileService r a w = (res, w', tr) →
       webapps (store w') = webapps (store w)
       ∧ deployments (store w') = deployments (store w)
       ∧ (services (store w') = services (store w)
          ∨ ∃ rr,
              res = Ok tt
              ∧ tr = [EGet KService (keyOf a) (Ok (OService existing));
                      EUpdate
                        (OService
                           (mergedService a existing (corev1.ObjectMeta existing)))
                        rr]
              ∧ services (store w')
                = <[keyOf a :=
                      mergedService a existing
                        (metav1.stamp (nextRV (store w))
                           (metav1.Generation (corev1.ObjectMeta existing))
                           (corev1.ObjectMeta existing))]>
                    (services (store w)))).
Proof.
  split.
  - intros. by eapply reconcileDeployment_existing.
  - intros. by eapply reconcileService_existing.
Qed.

Lemma wfTable_singleton `{Object A} (k : types.NamespacedName) (o : A) :
  keyOf o = k → purgeable (getMeta o) = false →
  wfTable ({[ k := o ]} : gmap types.NamespacedName A).
Proof. by intros Hk Hp k' o' [<- <-]%lookup_singleton_Some. Qed.

Lemma Scenario_tuned_wf : wfStore (store Scenario.tuned).
Proof.
  split_and!; simpl; apply wfTable_singleton; vm_compute; reflexivity.
Qed.

Lemma run_eta {A} (x : Res A * World * list Event) : x = (x.1.1, x.1.2, x.2).
Proof. by destruct x as [[? ?] ?]. Qed.

Lemma C6_sync_writes_owned_fields_only_witness :
  wfStore (store Scenario.tuned)
  ∧ (∃ d c0 c1,
       Scenario.deploymentAfter Scenario.tuned = Some d
       ∧ corev1.Containers
           (corev1.TemplateSpec (appsv1.Template (appsv1.Spec d))) = [c0; c1]
       ∧ appsv1.Replicas (appsv1.Spec d) = Some 2
       ∧ corev1.Image c0 = "app:1.0"
       ∧ corev1.Env c0 = [("LOG_LEVEL", "debug")]
       ∧ corev1.Name c1 = "sidecar"
       ∧ appsv1.Strategy (appsv1.Spec d) = "Recreate"
       ∧ metav1.OwnerReferences (appsv1.ObjectMeta d) = [])
  ∧ (∃ s,
       Scenario.serviceAfter Scenario.tuned = Some s
       ∧ corev1.Selector (corev1.Spec s) = labelsForWebApp "demo"
       ∧ corev1.ClusterIP (corev1.Spec s) = "10.0.0.7"
       ∧ corev1.SessionAffinity (corev1.Spec s) = "ClientIP").
Proof.
  split; [exact Scenario_tuned_wf|].
  destruct (C6_sync_writes_owned_fields_only Scenario.reconciler
              Scenario.registered Scenario.tuned Scenario_tuned_wf)
    as [HD HS].
  split.
  - set (run := reconcileDeployment Scenario.reconciler Scenario.registered
                  Scenario.tuned).
    pose proof (HD Scenario.tunedDeployment run.1.1 run.1.2 run.2) as H.
    assert (H1 : deployments (store Scenario.tuned) !! keyOf Scenario.registered
                 = Some Scenario.tunedDeployment) by (vm_compute; reflexivity).
    specialize (H H1 (run_eta run)).
    destruct H as (_ & _ & [Hsame|(c0 & rest & rr & Hc & _ & _ & Hnew)]);
      subst run.
    + exfalso.
      assert (Hne : appsv1.Replicas
                      <$> (appsv1.Spec <$> Scenario.deploymentAfter Scenario.tuned)
                    ≠ Some (Some 1))
        by (vm_compute; discriminate).
      apply Hne. unfold Scenario.deploymentAfter. rewrite Hsame.
      vm_compute; reflexivity.
    + unfold Scenario.deploymentAfter. rewrite Hnew.
      change (keyOf Scenario.registered) with Scenario.key.
      rewrite lookup_insert_eq. injection Hc as <- <-.
      eexists _, _, _. split; [reflexivity|]. split; [reflexivity|].
      repeat split.
  - set (run := reconcileService Scenario.reconciler Scenario.registered
                  Scenario.tuned).
    pose proof (HS Scenario.tunedService run.1.1 run.1.2 run.2) as H.
    assert (H1 : services (store Scenario.tuned) !! keyOf Scenario.registered
                 = Some Scenario.tunedService) by (vm_compute; reflexivity).
    specialize (H H1 (run_eta run)).
    destruct H as (_ & _ & [Hsame|(rr & _ & _ & Hnew)]); subst run.
    + exfalso.
      assert (Hne : corev1.SvcPorts
                      <$> (corev1.Spec <$> Scenario.serviceAfter Scenario.tuned)
                    ≠ corev1.SvcPorts
                        <$> (corev1.Spec <$> Some Scenario.tunedService))
        by (vm_compute; discriminate).
      apply Hne. unfold Scenario.serviceAfter. rewrite Hsame.
      vm_compute; reflexivity.
    + unfold Scenario.serviceAfter. rewrite Hnew.
      change (keyOf Scenario.registered) with Scenario.key.
      rewrite lookup_insert_eq. eexists. split; [reflexivity|]. repeat split.
Defined.

Lemma Scenario_create_fails_reaches_sync :
  reachesSync Scenario.reconciler Scenario.req Scenario.createFails
    Scenario.registered
    (Scenario.marked Scenario.createFails)
    (Scenario.mark Scenario.createFails).1.2
    ((Scenario.fetch Scenario.createFails).2
     ++ (Scenario.mark Scenario.createFails).2).
Proof.
  exists (Scenario.fetch Scenario.createFails).1.2,
         (Scenario.fetch Scenario.createFails).2,
         (Scenario.mark Scenario.createFails).2.
  split_and!; [vm_compute; reflexivity|done|done|vm_compute; reflexivity|done].
Qed.

Lemma Scenario_create_fails_sync_fails :
  syncFails Scenario.reconciler
    (Scenario.marked Scenario.createFails)
    (Scenario.mark Scenario.createFails).1.2
    (StatusError apierrors.StatusReasonServiceUnavailable
       "the server is currently unable to handle the request")
    (Scenario.syncDeployment Scenario.createFails).1.2
    (Scenario.syncDeployment Scenario.createFails).2
    "DeploymentFailed" "reconciling deployment".
Proof. left. split_and!; [vm_compute; reflexivity|done|done]. Qed.

Lemma Scenario_outage_reaches_sync :
  reachesSync Scenario.reconciler Scenario.req Scenario.outage
    Scenario.registered
    (Scenario.marked Scenario.outage)
    (Scenario.mark Scenario.outage).1.2
    ((Scenario.fetch Scenario.outage).2 ++ (Scenario.mark Scenario.outage).2).
Proof.
  exists (Scenario.fetch Scenario.outage).1.2,
         (Scenario.fetch Scenario.outage).2,
         (Scenario.mark Scenario.outage).2.
  split_and!; [vm_compute; reflexivity|done|done|vm_compute; reflexivity|done].
Qed.

Lemma Scenario_outage_sync_fails :
  syncFails Scenario.reconciler
    (Scenario.marked Scenario.outage)
    (Scenario.mark Scenario.outage).1.2
    (StatusError apierrors.StatusReasonServiceUnavailable
       "the server is currently unable to handle the request")
    (Scenario.syncDeployment Scenario.outage).1.2
    (Scenario.syncDeployment Scenario.outage).2
    "DeploymentFailed" "reconciling deployment".
Proof. left. split_and!; [vm_compute; reflexivity|done|done]. Qed.

(** C4, the claim as stated fails.  In the pass on the registered WebApp
    whose fourth and fifth calls the store refuses, the create of the
    Deployment fails, so the synchronisation fails, and the status write
    that should report it fails as well; its error is dropped.  The pass
    returns the wrapped error and the stored WebApp carries no Degraded
    condition: its only condition is the Progressing mark. *)
Lemma C4_refused_report_is_dropped :
  (∃ a a2 w2 pre e wf mid,
     reachesSync Scenario.reconciler Scenario.req Scenario.outage a a2 w2 pre
     ∧ syncFails Scenario.reconciler a2 w2 e wf mid
         "DeploymentFailed" "reconciling deployment"
     ∧ Scenario.resultOf Scenario.outage
       = Err (Wrapped "reconciling deployment" e))
  ∧ conditionsOf
      <$> Scenario.storedWebApp (Scenario.worldAfter Scenario.outage)
    = Some [ {| metav1.Type_ := "Progressing";
                metav1.Status := metav1.ConditionTrue;
                metav1.ObservedGeneration := 1;
                metav1.LastTransitionTime := metav1.At 101%N;
                metav1.Reason := "Reconciling";
                metav1.Message := "reconciliation in progress" |} ]
  ∧ ¬ failureReported Scenario.req (Scenario.worldAfter Scenario.outage)
        "DeploymentFailed".
Proof.
  split.
  { eexists _, _, _, _, _, _, _.
    split; [exact Scenario_outage_reaches_sync|].
    split; [exact Scenario_outage_sync_fails|].
    vm_compute; reflexivity. }
  assert (Hst : conditionsOf
                  <$> Scenario.storedWebApp (Scenario.worldAfter Scenario.outage)
                = Some [ {| metav1.Type_ := "Progressing";
                            metav1.Status := metav1.ConditionTrue;
                            metav1.ObservedGeneration := 1;
                            metav1.LastTransitionTime := metav1.At 101%N;
                            metav1.Reason := "Reconciling";
                            metav1.Message := "reconciliation in progress" |} ])
    by (vm_compute; reflexivity).
  split; [exact Hst|].
  intros (a' & c & Ha' & Hc & _).
  unfold Scenario.storedWebApp in Hst.
  change (ctrl.NamespacedName Scenario.req) with Scenario.key in Ha'.
  rewrite Ha' in Hst. simpl in Hst. injection Hst as Hst.
  unfold conditionsOf in Hst. rewrite Hst in Hc. revert Hc.
  vm_compute. discriminate.
Qed.

Lemma C4_sync_failure_reported_witness :
  Scenario.resultOf Scenario.createFails
  = Err (Wrapped "reconciling deployment"
           (StatusError apierrors.StatusReasonServiceUnavailable
              "the server is currently unable to handle the request"))
  ∧ failureReported Scenario.req (Scenario.worldAfter Scenario.createFails)
      "DeploymentFailed"
  ∧ ∃ a', Scenario.storedWebApp (Scenario.worldAfter Scenario.createFails)
          = Some a'
          ∧ meta.FindStatusCondition (conditionsOf a') appv1alpha1.TypeAvailable
            = None.
Proof.
  pose proof (C4_sync_failure_reported Scenario.reconciler Scenario.req
                Scenario.createFails _ _ _ _ _ _ _ _ _ _ _ _
                (Scenario_key_ok Scenario.registered _ eq_refl)
                Scenario_create_fails_reaches_sync
                Scenario_create_fails_sync_fails
                (Scenario_run Scenario.createFails))
    as (Hres & _ & _ & _ & (a' & Ha' & _ & Hav) & Hlast).
  assert (He : (environment
                  (env (Scenario.syncDeployment Scenario.createFails).1.2)).1
               = None) by (vm_compute; reflexivity).
  rewrite He in Hlast. destruct Hlast as (a'' & _ & _ & _ & Hrep).
  split; [exact Hres|]. split; [exact Hrep|].
  exists a'. split; [exact Ha'|]. exact Hav.
Defined.

(** ** Observed generations *)

Lemma generationBounded_Forall a :
  generationBounded a = true
  ↔ Forall (λ c, metav1.ObservedGeneration c
                 ≤ metav1.Generation (appv1alpha1.ObjectMeta a))
      (conditionsOf a).
Proof.
  unfold generationBounded. rewrite forallb_forall, Forall_forall.
  split; intros H c Hc.
  - apply Z.leb_le, H. by apply list_elem_of_In.
  - apply Z.leb_le, H. by apply list_elem_of_In.
Qed.

Lemma find_elem_of l ty c :
  meta.FindStatusCondition l ty = Some c → c ∈ l.
Proof.
  induction l as [|x l IH]; [done|]. simpl. case_bool_decide.
  - intros [= ->]. left.
  - intros H'. right. auto.
Qed.

Lemma mergeCondition_generation now e c :
  metav1.ObservedGeneration (meta.mergeCondition now e c)
  = metav1.ObservedGeneration c.
Proof.
  unfold meta.mergeCondition.
  repeat case_bool_decide; simpl in *; repeat case_bool_decide; simpl in *;
    congruence.
Qed.

Lemma updateFirst_Forall (P : metav1.Condition → Prop) now l c :
  Forall P l → (∀ e, e ∈ l → P (meta.mergeCondition now e c)) →
  Forall P (meta.updateFirst now l c).
Proof.
  induction l as [|x l IH]; [done|].
  intros [Hx Hl]%Forall_cons Hm. simpl. case_bool_decide.
  - apply Forall_cons_2; [apply Hm; left|done].
  - apply Forall_cons_2; [done|]. apply IH; [done|].
    intros e He. apply Hm. by right.
Qed.

Lemma SetStatusCondition_bounded now l c g :
  Forall (λ x, metav1.ObservedGeneration x ≤ g) l →
  metav1.ObservedGeneration c ≤ g →
  Forall (λ x, metav1.ObservedGeneration x ≤ g)
    (meta.SetStatusCondition now l c).
Proof.
  intros Hl Hc. unfold meta.SetStatusCondition.
  destruct (meta.FindStatusCondition l (metav1.Type_ c)).
  - apply updateFirst_Forall; [done|].
    intros e _. by rewrite mergeCondition_generation.
  - apply Forall_app. split; [done|]. apply Forall_cons_2; [|done].
    by destruct (metav1.Time_IsZero _).
Qed.

Lemma neverDecreases_refl a : neverDecreases a a.
Proof. intros ty g Hg. exists g. split; [done|lia]. Qed.

Lemma neverDecreases_trans a b c :
  neverDecreases a b → neverDecreases b c → neverDecreases a c.
Proof.
  intros Hab Hbc ty g Hg. destruct (Hab _ _ Hg) as (g1 & Hg1 & ?).
  destruct (Hbc _ _ Hg1) as (g2 & Hg2 & ?). exists g2. split; [done|lia].
Qed.

Lemma advances_refl a : advances a a.
Proof. split; [done|]. intros Hb. split; [apply neverDecreases_refl|done]. Qed.

Lemma advances_trans a b c : advances a b → advances b c → advances a c.
Proof.
  intros [Hk1 H1] [Hk2 H2]. split; [congruence|]. intros Hb.
  destruct (H1 Hb) as [Hn1 Hb1]. destruct (H2 Hb1) as [Hn2 Hb2].
  split; [by eapply neverDecreases_trans|done].
Qed.

(** A write that leaves the status alone and does not take the generation
    back. *)
Lemma advances_status a a' :
  keyOf a' = keyOf a →
  appv1alpha1.Status a' = appv1alpha1.Status a →
  metav1.Generation (appv1alpha1.ObjectMeta a)
  ≤ metav1.Generation (appv1alpha1.ObjectMeta a') →
  advances a a'.
Proof.
  intros Hk Hst Hg. split; [done|]. intros Hb. split.
  - intros ty g. unfold observedGeneration, conditionsOf. rewrite Hst.
    intros ->. eexists. split; [done|lia].
  - apply generationBounded_Forall. apply generationBounded_Forall in Hb.
    unfold conditionsOf in *. rewrite Hst.
    eapply Forall_impl; [exact Hb|]. simpl. intros. lia.
Qed.

(** A status write of [setCondition]: the condition written carries the
    generation of the WebApp; the others stay. *)
Lemma advances_statusUpdated rv now a x ty st rs msg :
  appv1alpha1.ObjectMeta x = appv1alpha1.ObjectMeta a →
  conditionsOf x = conditionsOf a →
  advances a (statusUpdated rv a (conditioned now x ty st rs msg)).
Proof.
  intros Hm Hc. split; [done|]. intros Hb.
  apply generationBounded_Forall in Hb. split.
  - intros ty' g. unfold observedGeneration.
    rewrite conditionsOf_statusUpdated, Hc.
    destruct (decide (ty' = ty)) as [->|Hne].
    + destruct (find_SetStatusCondition_same now (conditionsOf a)
                  (newCondition x ty st rs msg))
        as (c' & Hc' & _ & _ & _ & _ & Hg').
      simpl in Hc', Hg'. rewrite Hc'. simpl.
      destruct (meta.FindStatusCondition (conditionsOf a) ty) as [c|] eqn:Hf;
        [|done].
      intros [= <-]. eexists. split; [done|]. rewrite Hg', Hm.
      apply find_elem_of in Hf.
      by apply (proj1 (Forall_forall _ _) Hb).
    + rewrite find_SetStatusCondition_other by done.
      intros ->. eexists. split; [done|lia].
  - apply generationBounded_Forall.
    rewrite conditionsOf_statusUpdated, generation_statusUpdated, Hc.
    apply SetStatusCondition_bounded; [done|]. simpl. rewrite Hm. lia.
Qed.

Lemma setCondition_advances r x a ty st rs msg w res w' tr :
  synced a w →
  appv1alpha1.ObjectMeta x = appv1alpha1.ObjectMeta a →
  conditionsOf x = conditionsOf a →
  setCondition r x ty st rs msg w = (res, w', tr) →
  ∃ a', synced a' w' ∧ advances a a'
        ∧ match res with Ok y => y = a' | _ => True end.
Proof.
  intros Hs Hm Hc H.
  destruct (setCondition_synced _ _ _ _ _ _ _ _ _ _ _ Hs Hm H)
    as (_ & _ & _ & [(e & _ & -> & Hst & _)|(a' & _ & -> & -> & Hs' & _)]).
  - exists a. split; [|split; [apply advances_refl|done]].
    unfold synced in *. by rewrite Hst.
  - eexists. split; [exact Hs'|]. split; [|done].
    by apply advances_statusUpdated.
Qed.

(** An update of the main resource, by the reconciler or by anyone else:
    the status stays, the generation does not go back. *)
Lemma Update_advances (x a : appv1alpha1.WebApp) w res w' tr :
  synced a w → keyOf x = keyOf a →
  Update x w = (res, w', tr) →
  ∀ a', webapps (store w') !! keyOf a = Some a' → advances a a'.
Proof.
  intros Hs Hk H a' Ha'. rewrite Update_cases in H. red_obj.
  rewrite Hk, Hs in H.
  destruct (environment (env w)) as [[e|] e1].
  { injection H as <- <- <-. red_obj. unfold synced in Hs.
    rewrite Hs in Ha'. injection Ha' as <-. apply advances_refl. }
  destruct (sameVersion x a).
  - injection H as <- <- <-. red_obj.
    destruct (purgeable _).
    + by rewrite lookup_delete_eq in Ha'.
    + rewrite lookup_insert_eq in Ha'. injection Ha' as <-.
      apply advances_status; [done|done|]. unfold updated. red_obj. simpl.
      destruct (negb _); lia.
  - injection H as <- <- <-. red_obj. unfold synced in Hs.
    rewrite Hs in Ha'. injection Ha' as <-. apply advances_refl.
Qed.

Lemma synced_stored a k w a' :
  synced a w → keyOf a = k → webapps (store w) !! k = Some a' → a' = a.
Proof. unfold synced. intros Hs <- Ha'. congruence. Qed.

Lemma advances_key a a' : advances a a' → keyOf a' = keyOf a.
Proof. by intros [? _]. Qed.

(** Follows the stored WebApp through the calls of a pass found in the
    context, each call advancing it. *)
Ltac advance :=
  repeat match goal with
  | Hs : synced ?a ?w, H : reconcileDeployment _ _ ?w = (_, ?w', _) |- _ =>
      lazymatch goal with
      | _ : synced _ w' |- _ => fail
      | _ => pose proof (reconcileDeployment_synced _ _ _ _ _ _ _ Hs H)
      end
  | Hs : synced ?a ?w, H : reconcileService _ _ ?w = (_, ?w', _) |- _ =>
      lazymatch goal with
      | _ : synced _ w' |- _ => fail
      | _ => pose proof (reconcileService_synced _ _ _ _ _ _ _ Hs H)
      end
  | Hs : synced ?a ?w, H : Get _ ?w = (_, ?w', _) |- _ =>
      lazymatch goal with
      | _ : synced _ w' |- _ => fail
      | _ => pose proof (Get_keeps_synced _ _ _ _ _ _ Hs H)
      end
  | Hs : synced ?a0 ?w, H : setCondition _ ?x _ _ _ _ ?w = (_, ?w', _) |- _ =>
      lazymatch goal with
      | _ : synced _ w' |- _ => fail
      | _ =>
          let a' := fresh "s" in
          let Hs' := fresh "Hs" in
          let Ha := fresh "Ha" in
          let He := fresh "He" in
          destruct (setCondition_advances _ x a0 _ _ _ _ _ _ _ _
                      Hs eq_refl eq_refl H) as (a' & Hs' & Ha & He);
          simpl in He; try subst a'
      end
  end.

Lemma Reconcile_advances r req w res w' tr a :
  Reconcile r req w = (res, w', tr) →
  webapps (store w) !! ctrl.NamespacedName req = Some a →
  keyOf a = ctrl.NamespacedName req →
  ∀ a', webapps (store w') !! ctrl.NamespacedName req = Some a' →
        advances a a'.
Proof.
  intros Hrun Ha Hk a' Ha'.
  assert (Hkey : ∀ x, webapps (store w) !! ctrl.NamespacedName req = Some x →
                      keyOf x = ctrl.NamespacedName req)
    by (intros x Hx; congruence).
  apply Reconcile_Pass in Hrun.
  inversion Hrun; subst; clear Hrun;
    unfold markProgressing, reportDegraded, writeAvailable, clearProgressing,
      clearDegraded in *;
    try match goal with
    | H : Get (A:=appv1alpha1.WebApp) _ w = (Err _, _, _) |- _ =>
        apply Get_store in H; rewrite H in Ha';
        assert (a' = a) as -> by congruence; apply advances_refl
    end;
    match goal with
    | H : Get _ w = (Ok ?b, _, _) |- _ =>
        destruct (Get_synced _ _ _ _ _ H Hkey) as (Hs & Hst & Hkb & Hb & _);
        assert (b = a) as -> by congruence
    end.
  all: try match goal with
    | H : Update ?x _ = _ |- _ =>
        rewrite <- Hk in Ha';
        apply (Update_advances x _ _ _ _ _ Hs) with (a' := a') in H;
          [exact H
          |first [apply keyOf_addToken|apply keyOf_removeToken]
          |exact Ha']
    end.
  all: advance.
  all: match goal with
    | Hx : webapps (store ?wf) !! _ = Some ?y, Hs' : synced ?b ?wf
      |- advances _ ?y =>
        assert (y = b) as ->;
          [eapply synced_stored; [exact Hs'| |exact Hx]|]
    end.
  all: repeat match goal with
    | H : advances _ _ |- _ => pose proof (advances_key _ _ H); revert H
    end; intros; try congruence.
  all: eauto using advances_refl, advances_trans.
Qed.

Lemma lifeStep_advances r req w w' a :
  lifeStep r req w w' →
  webapps (store w) !! ctrl.NamespacedName req = Some a →
  keyOf a = ctrl.NamespacedName req →
  ∃ a', webapps (store w') !! ctrl.NamespacedName req = Some a'
        ∧ advances a a'.
Proof.
  intros [res tr Hrun [a' Ha']|Hedit] Ha Hk.
  - exists a'. split; [done|]. by eapply Reconcile_advances.
  - destruct (Hedit _ Ha) as (a' & Ha' & Hk' & Hst & Hg).
    exists a'. split; [done|]. by apply advances_status.
Qed.

Lemma life_advances r req w w' :
  rtc (lifeStep r req) w w' →
  ∀ a, webapps (store w) !! ctrl.NamespacedName req = Some a →
       keyOf a = ctrl.NamespacedName req →
       ∃ a', webapps (store w') !! ctrl.NamespacedName req = Some a'
             ∧ advances a a'.
Proof.
  induction 1 as [w|w w1 w' Hstep _ IH]; intros a Ha Hk.
  - exists a. split; [done|apply advances_refl].
  - destruct (lifeStep_advances _ _ _ _ _ Hstep Ha Hk) as (a1 & Ha1 & Hadv).
    destruct (IH a1 Ha1) as (a' & Ha' & Hadv').
    { rewrite <- Hk. by apply advances_key. }
    exists a'. split; [done|]. by eapply advances_trans.
Qed.

Lemma setCondition_stamps r a ty st rs msg w res w' tr :
  setCondition r a ty st rs msg w = (res, w', tr) →
  ∃ c rr,
    tr = [EStatusUpdate
            (OWebApp (conditioned (now (env w)) a ty st rs msg)) rr]
    ∧ meta.FindStatusCondition
        (conditionsOf (conditioned (now (env w)) a ty st rs msg)) ty
      = Some c
    ∧ metav1.ObservedGeneration c
      = metav1.Generation (appv1alpha1.ObjectMeta a)
    ∧ ∀ y, res = Ok y →
           rr = Ok (OWebApp y)
           ∧ webapps (store w') !! keyOf a = Some y
           ∧ meta.FindStatusCondition (conditionsOf y) ty = Some c.
Proof.
  destruct (find_SetStatusCondition_same (now (env w)) (conditionsOf a)
              (newCondition a ty st rs msg))
    as (c & Hc & _ & _ & _ & _ & Hg).
  unfold setCondition, Now, bind, wrapErr.
  fold (conditionsOf a). fold (newCondition a ty st rs msg).
  fold (conditioned (now (env w)) a ty st rs msg).
  rewrite StatusUpdate_cases.
  change (keyOf (conditioned (now (env w)) a ty st rs msg)) with (keyOf a).
  intros H. exists c.
  destruct (environment (env w)) as [[e|] e1];
    [|destruct (webapps (store w) !! keyOf a) as [s|];
      [destruct (sameVersion _ s)|]];
    injection H as <- <- <-; eexists; (split; [reflexivity|]);
    (split; [exact Hc|]); (split; [exact Hg|]); intros y [= <-].
  split; [done|]. red_obj. split; [apply lookup_insert_eq|exact Hc].
Qed.

(** C9.  Every status write of [setCondition] submits the condition with
    the generation of the WebApp it holds as observedGeneration, and the
    store keeps it on success.  Consequently, over any sequence of passes
    of the reconciler and of edits by other writers that leave the status
    alone and do not take the generation back, the observedGeneration of
    each condition type never decreases, provided no condition was ahead of
    the generation at the start (as for a new WebApp, which has none). *)
Theorem C9_observed_generation_never_decreases r req :
  (∀ a ty st rs msg w res w' tr,
     setCondition r a ty st rs msg w = (res, w', tr) →
     ∃ c rr,
       tr = [EStatusUpdate
               (OWebApp (conditioned (now (env w)) a ty st rs msg)) rr]
       ∧ meta.FindStatusCondition
           (conditionsOf (conditioned (now (env w)) a ty st rs msg)) ty
         = Some c
       ∧ metav1.ObservedGeneration c
         = metav1.Generation (appv1alpha1.ObjectMeta a)
       ∧ ∀ y, res = Ok y →
              rr = Ok (OWebApp y)
              ∧ webapps (store w') !! keyOf a = Some y
              ∧ meta.FindStatusCondition (conditionsOf y) ty = Some c)
  ∧ (∀ w w' a,
       rtc (lifeStep r req) w w' →
       webapps (store w) !! ctrl.NamespacedName req = Some a →
       keyOf a = ctrl.NamespacedName req →
       generationBounded a = true →
       ∃ a', webapps (store w') !! ctrl.NamespacedName req = Some a'
             ∧ neverDecreases a a'
             ∧ generationBounded a' = true).
Proof.
  split.
  - intros. by eapply setCondition_stamps.
  - intros w w' a Hlife Ha Hk Hb.
    destruct (life_advances _ _ _ _ Hlife a Ha Hk) as (a' & Ha' & _ & Hadv).
    destruct (Hadv Hb). by exists a'.
Qed.

(** An update by another client that does not end a pending deletion is
    such an edit. *)
Lemma Update_externalEdit (x a : appv1alpha1.WebApp) w res w' tr :
  synced a w → keyOf x = keyOf a →
  Update x w = (res, w', tr) →
  is_Some (webapps (store w') !! keyOf a) →
  externalEdit (keyOf a) w w'.
Proof.
  intros Hs Hk H [a' Ha'] b Hb.
  assert (b = a) as -> by (unfold synced in Hs; congruence).
  exists a'. split; [done|].
  pose proof (Update_advances _ _ _ _ _ _ Hs Hk H a' Ha') as [Hk' _].
  split; [done|].
  rewrite Update_cases in H. red_obj. rewrite Hk, Hs in H.
  destruct (environment (env w)) as [[e|] e1].
  { injection H as <- <- <-. red_obj. unfold synced in Hs.
    rewrite Hs in Ha'. injection Ha' as <-. split; [done|lia]. }
  destruct (sameVersion x a).
  - injection H as <- <- <-. red_obj.
    destruct (purgeable _).
    + by rewrite lookup_delete_eq in Ha'.
    + rewrite lookup_insert_eq in Ha'. injection Ha' as <-.
      split; [done|]. unfold updated. red_obj. simpl.
      destruct (negb _); lia.
  - injection H as <- <- <-. red_obj. unfold synced in Hs.
    rewrite Hs in Ha'. injection Ha' as <-. split; [done|lia].
Qed.

Lemma Scenario_life :
  rtc (lifeStep Scenario.reconciler Scenario.req)
    (Scenario.worldAfter Scenario.registered0)
    (Scenario.worldAfter
       (Scenario.scaled 3 (Scenario.worldAfter Scenario.registered0))).
Proof.
  eapply rtc_l; [|apply rtc_once].
  - apply life_edit.
    assert (Hk : keyOf (Scenario.current
                          (Scenario.worldAfter Scenario.registered0))
                 = ctrl.NamespacedName Scenario.req)
      by (vm_compute; reflexivity).
    rewrite <- Hk.
    apply (Update_externalEdit _ _ _ _ _ _)
      with (3 := run_eta
                   (Scenario.scale 3 (Scenario.worldAfter Scenario.registered0)));
      [vm_compute; reflexivity|vm_compute; reflexivity|].
    eexists. vm_compute. reflexivity.
  - eapply life_pass; [apply Scenario_run|].
    eexists. vm_compute. reflexivity.
Qed.

Lemma C9_observed_generation_never_decreases_witness :
  generationBounded
    (Scenario.current (Scenario.worldAfter Scenario.registered0)) = true
  ∧ observedGeneration
      (Scenario.current (Scenario.worldAfter Scenario.registered0))
      appv1alpha1.TypeAvailable = Some 1
  ∧ ∃ a' g',
      Scenario.storedWebApp
        (Scenario.worldAfter
           (Scenario.scaled 3 (Scenario.worldAfter Scenario.registered0)))
      = Some a'
      ∧ observedGeneration a' appv1alpha1.TypeAvailable = Some g'
      ∧ 1 ≤ g'.
Proof.
  assert (Hb : generationBounded
                 (Scenario.current (Scenario.worldAfter Scenario.registered0))
               = true) by (vm_compute; reflexivity).
  assert (Hg : observedGeneration
                 (Scenario.current (Scenario.worldAfter Scenario.registered0))
                 appv1alpha1.TypeAvailable = Some 1)
    by (vm_compute; reflexivity).
  split; [exact Hb|]. split; [exact Hg|].
  destruct (C9_observed_generation_never_decreases Scenario.reconciler
              Scenario.req) as [_ Hlife].
  destruct (Hlife _ _
              (Scenario.current (Scenario.worldAfter Scenario.registered0))
              Scenario_life)
    as (a' & Ha' & Hn & _);
    [vm_compute; reflexivity|vm_compute; reflexivity|exact Hb|].
  destruct (Hn _ _ Hg) as (g' & Hg' & Hle).
  exists a', g'. split; [exact Ha'|]. split; [exact Hg'|exact Hle].
Defined.

(** ** Two passes in a row *)

(** Runs the client calls of hypothesis [H] outcome by outcome; an update
    is left to [exec_update]. *)
Ltac exec H :=
  repeat first
    [ rewrite Get_run in H
    | rewrite Create_run in H
    | rewrite StatusUpdate_cases in H
    | progress (cbv beta iota zeta in H)
    | progress red_obj
    | match type of H with
      | context [match environment ?e with _ => _ end] =>
          destruct (environment e) as [[?|] ?] eqn:?
      | context [match ?t !! ?k with _ => _ end] => destruct (t !! k) eqn:?
      | context [if IsNotFound ?e then _ else _] => destruct (IsNotFound e) eqn:?
      | context [if sameVersion ?x ?y then _ else _] =>
          destruct (sameVersion x y) eqn:?
      | context [if purgeable ?x then _ else _] => destruct (purgeable x) eqn:?
      | context [match corev1.Containers ?x with _ => _ end] =>
          destruct (corev1.Containers x) eqn:?
      end ].

(** The update of the object read as [d], found under its own key. *)
Ltac exec_update H Hwf :=
  match goal with
  | Hl : _ !! _ = Some ?d |- _ =>
      let Hkd := fresh "Hkd" in
      let Hpd := fresh "Hpd" in
      let Hl' := fresh "Hl" in
      destruct (Hwf _ _ Hl) as [Hkd Hpd];
      pose proof Hl as Hl'; rewrite <- Hkd in Hl';
      match type of H with
      | context [Update ?obj _] =>
          rewrite (Update_run obj d) in H;
            [|exact Hl'|by apply bool_decide_eq_true_2]
      end
  end.

Lemma SetControllerReference_key a m0 sch m :
  controllerutil.SetControllerReference a m0 sch = inr m →
  metav1.Name m = metav1.Name m0 ∧ metav1.Namespace m = metav1.Namespace m0
  ∧ metav1.DeletionTimestamp m = metav1.DeletionTimestamp m0.
Proof.
  unfold controllerutil.SetControllerReference.
  repeat case_match; intros; simplify_eq; done.
Qed.

Ltac red_rec H :=
  cbn [appsv1.ObjectMeta appsv1.Spec appsv1.Status appsv1.Replicas
       appsv1.Selector appsv1.Template appsv1.Strategy appsv1.MinReadySeconds
       appsv1.Paused appsv1.setSpec appsv1.setReplicas appsv1.setTemplate
       appsv1.setObjectMeta appsv1.setStatus
       corev1.ObjectMeta corev1.Spec corev1.Containers corev1.TemplateSpec
       corev1.TemplateMeta corev1.setContainers corev1.setTemplateSpec
       corev1.setSpec corev1.setObjectMeta corev1.setSvcPorts
       corev1.setSelector corev1.SvcPorts corev1.Selector
       desiredDeployment desiredService] in H.

Lemma wfTable_insert `{Object A} (t : gmap types.NamespacedName A) k o :
  wfTable t → keyOf o = k → purgeable (getMeta o) = false →
  wfTable (<[k := o]> t).
Proof.
  intros Hwf Hk Hp k' o'. destruct (decide (k = k')) as [<-|Hne].
  - rewrite lookup_insert_eq. by intros [= <-].
  - rewrite lookup_insert_ne by done. apply Hwf.
Qed.

Lemma created_deployment_carries a rv m :
  deploymentCarries a (created rv (appsv1.setObjectMeta m (desiredDeployment a))).
Proof. eexists _, _. split; reflexivity. Qed.

Lemma merged_deployment_carries a d c0 rest m :
  deploymentCarries a (mergedDeployment a d c0 rest m).
Proof. eexists _, _. split; reflexivity. Qed.

Lemma created_service_carries a rv m :
  serviceCarries a (created rv (corev1.setObjectMeta m (desiredService a))).
Proof. reflexivity. Qed.

Lemma merged_service_carries a s m : serviceCarries a (mergedService a s m).
Proof. reflexivity. Qed.

Lemma reconcileDeployment_ok r a w w' tr :
  wfTable (deployments (store w)) →
  reconcileDeployment r a w = (Ok tt, w', tr) →
  ∃ d m,
    controllerutil.SetControllerReference a
      (appsv1.ObjectMeta (desiredDeployment a)) (Scheme r) = inr m
    ∧ deployments (store w') !! keyOf a = Some d
    ∧ deploymentCarries a d
    ∧ wfTable (deployments (store w'))
    ∧ webapps (store w') = webapps (store w)
    ∧ services (store w') = services (store w).
Proof.
  intros Hwf H. unfold reconcileDeployment in H.
  destruct (controllerutil.SetControllerReference _ _ _) as [e|m] eqn:Hscr;
    [done|].
  destruct (SetControllerReference_key _ _ _ _ Hscr) as (Hn & Hns & Hdt).
  assert (Hm : keyOf (appsv1.setObjectMeta m (desiredDeployment a)) = keyOf a)
    by (unfold keyOf; f_equal; [exact Hns|exact Hn]).
  change (metav1.Namespace (appv1alpha1.ObjectMeta a),
          metav1.Name (appv1alpha1.ObjectMeta a)) with (keyOf a) in H.
  unfold bind, attempt, ret, fail, panic in H. red_rec H.
  exec H; try discriminate H.
  all: try (exec_update H Hwf; exec H; try discriminate H).
  all: inversion H; subst w' tr; clear H.
  all: try match goal with
       | Hp : purgeable ?x = true |- _ =>
           assert (purgeable x = false); [|congruence];
           match goal with
           | |- purgeable (_ (updated ?rv ?d ?obj)) = _ =>
               change (purgeable (appsv1.ObjectMeta (updated rv d obj)) = false);
               rewrite (updated_deployment rv d obj eq_refl); exact Hpd
           end
       end.
  all: eexists _, m; (split; [done|]); red_obj.
  all: match goal with |- context [<[?k := _]> _] =>
         first [ replace k with (keyOf a) by (symmetry; exact Hm)
               | replace k with (keyOf a) by (rewrite <- Hkd; reflexivity) ]
       end.
  all: split; [apply lookup_insert_eq|].
  all: split; [eexists _, _; split; reflexivity|].
  all: split; [|done].
  all: apply wfTable_insert; [done| |].
  all: try first [exact Hm | by rewrite <- Hkd].
  all: first [done | unfold purgeable; simpl; by rewrite Hdt].
Qed.

Lemma reconcileService_ok r a w w' tr :
  wfTable (services (store w)) →
  reconcileService r a w = (Ok tt, w', tr) →
  ∃ s m,
    controllerutil.SetControllerReference a
      (corev1.ObjectMeta (desiredService a)) (Scheme r) = inr m
    ∧ services (store w') !! keyOf a = Some s
    ∧ serviceCarries a s
    ∧ wfTable (services (store w'))
    ∧ webapps (store w') = webapps (store w)
    ∧ deployments (store w') = deployments (store w).
Proof.
  intros Hwf H. unfold reconcileService in H.
  destruct (controllerutil.SetControllerReference _ _ _) as [e|m] eqn:Hscr;
    [done|].
  destruct (SetControllerReference_key _ _ _ _ Hscr) as (Hn & Hns & Hdt).
  assert (Hm : keyOf (corev1.setObjectMeta m (desiredService a)) = keyOf a)
    by (unfold keyOf; f_equal; [exact Hns|exact Hn]).
  change (metav1.Namespace (appv1alpha1.ObjectMeta a),
          metav1.Name (appv1alpha1.ObjectMeta a)) with (keyOf a) in H.
  unfold bind, attempt, ret, fail, panic in H. red_rec H.
  exec H; try discriminate H.
  all: try (exec_update H Hwf; exec H; try discriminate H).
  all: inversion H; subst w' tr; clear H.
  all: try match goal with
       | Hp : purgeable ?x = true |- _ =>
           assert (purgeable x = false); [|congruence];
           match goal with
           | |- purgeable (_ (updated ?rv ?d ?obj)) = _ =>
               change (purgeable (corev1.ObjectMeta (updated rv d obj)) = false);
               rewrite (updated_service rv d obj eq_refl); exact Hpd
           end
       end.
  all: eexists _, m; (split; [done|]); red_obj.
  all: match goal with |- context [<[?k := _]> _] =>
         first [ replace k with (keyOf a) by (symmetry; exact Hm)
               | replace k with (keyOf a) by (rewrite <- Hkd; reflexivity) ]
       end.
  all: split; [apply lookup_insert_eq|].
  all: split; [reflexivity|].
  all: split; [|done].
  all: apply wfTable_insert; [done| |].
  all: try first [exact Hm | by rewrite <- Hkd].
  all: first [done | unfold purgeable; simpl; by rewrite Hdt].
Qed.

(** The synchronisations ask of the WebApp only its identity and its
    spec. *)
Lemma reconcileDeployment_sameTarget r a b :
  sameTarget a b → reconcileDeployment r b = reconcileDeployment r a.
Proof.
  intros (Hsp & rv & Hm).
  unfold reconcileDeployment, desiredDeployment,
    controllerutil.SetControllerReference, controllerutil.validateOwner.
  cbn [appsv1.ObjectMeta]. by rewrite Hsp, Hm.
Qed.

Lemma reconcileService_sameTarget r a b :
  sameTarget a b → reconcileService r b = reconcileService r a.
Proof.
  intros (Hsp & rv & Hm).
  unfold reconcileService, desiredService,
    controllerutil.SetControllerReference, controllerutil.validateOwner.
  cbn [corev1.ObjectMeta]. by rewrite Hsp, Hm.
Qed.

Lemma stamp_id (m : metav1.ObjectMeta) :
  metav1.stamp (metav1.ResourceVersion m) (metav1.Generation m) m = m.
Proof. by destruct m. Qed.

Lemma sameTarget_refl a : sameTarget a a.
Proof. split; [done|]. eexists. by rewrite stamp_id. Qed.

Lemma sameTarget_trans a b c : sameTarget a b → sameTarget b c → sameTarget a c.
Proof.
  intros (Hs1 & rv1 & Hm1) (Hs2 & rv2 & Hm2). split; [congruence|].
  exists rv2. by rewrite Hm2, Hm1.
Qed.

Lemma sameTarget_statusUpdated rv a obj : sameTarget a (statusUpdated rv a obj).
Proof. split; [done|]. by exists rv. Qed.

Lemma sameTarget_key a b : sameTarget a b → keyOf b = keyOf a.
Proof. intros (_ & rv & Hm). unfold keyOf. simpl. by rewrite Hm. Qed.

Lemma sameTarget_registered a b :
  sameTarget a b →
  hasFinalizer b = hasFinalizer a
  ∧ deletionRequested b = deletionRequested a
  ∧ metav1.Generation (appv1alpha1.ObjectMeta b)
    = metav1.Generation (appv1alpha1.ObjectMeta a).
Proof.
  intros (_ & rv & Hm).
  unfold hasFinalizer, deletionRequested, controllerutil.ContainsFinalizer.
  by rewrite Hm.
Qed.

Lemma sameTarget_owner r a b :
  sameTarget a b →
  controllerutil.SetControllerReference b
    (appsv1.ObjectMeta (desiredDeployment b)) (Scheme r)
  = controllerutil.SetControllerReference a
      (appsv1.ObjectMeta (desiredDeployment a)) (Scheme r).
Proof.
  intros (Hsp & rv & Hm).
  unfold desiredDeployment, controllerutil.SetControllerReference,
    controllerutil.validateOwner.
  cbn [appsv1.ObjectMeta]. by rewrite Hm.
Qed.

Lemma sameTarget_deploymentCarries a b d :
  sameTarget a b → deploymentCarries a d → deploymentCarries b d.
Proof.
  intros (Hsp & rv & Hm) (c0 & rest & Hc & Hd). exists c0, rest.
  split; [done|]. rewrite <- Hd at 2. unfold mergedDeployment. by rewrite Hsp.
Qed.

Lemma sameTarget_serviceCarries a b s :
  sameTarget a b → serviceCarries a s → serviceCarries b s.
Proof.
  intros (Hsp & rv & Hm). unfold serviceCarries, mergedService.
  by rewrite Hsp, Hm.
Qed.

(** ** Calls that meet no fault *)

Lemma Get_quiet `{Object A} k w (x : A) n :
  table (A:=A) (store w) !! k = Some x →
  faultFree (S n) (env w) = true →
  ∃ w', Get k w = (Ok x, w', [EGet (kindOf (A:=A)) k (Ok (toAny x))])
        ∧ store w' = store w
        ∧ faultFree n (env w') = true.
Proof.
  intros Hl [He Hf]%faultFree_S. rewrite Get_run.
  destruct (environment (env w)) as [[e|] e1]; simpl in *; [done|].
  rewrite Hl. by eexists.
Qed.

Lemma setCondition_quiet r x a ty st rs msg w n :
  synced a w →
  appv1alpha1.ObjectMeta x = appv1alpha1.ObjectMeta a →
  faultFree (S n) (env w) = true →
  let a' := statusUpdated (nextRV (store w)) a
              (conditioned (now (env w)) x ty st rs msg) in
  ∃ w', setCondition r x ty st rs msg w
        = (Ok a', w',
           [EStatusUpdate (OWebApp (conditioned (now (env w)) x ty st rs msg))
              (Ok (OWebApp a'))])
        ∧ synced a' w'
        ∧ deployments (store w') = deployments (store w)
        ∧ services (store w') = services (store w)
        ∧ faultFree n (env w') = true.
Proof.
  intros Hs Hm [He Hf]%faultFree_S a'.
  assert (Hk : keyOf x = keyOf a) by (unfold keyOf; simpl; by rewrite Hm).
  rewrite (setCondition_run r x a); [|by rewrite Hk|done].
  cbv zeta. destruct (environment (env w)) as [[e|] e1]; simpl in *; [done|].
  eexists. split; [reflexivity|]. red_obj. split_and!; try done.
  unfold synced. red_obj. rewrite Hk. apply lookup_insert_eq.
Qed.

Lemma carried_deployment a d c0 rest m :
  mergedDeployment a d c0 rest (appsv1.ObjectMeta d) = d →
  mergedDeployment a d c0 rest m = appsv1.setObjectMeta m d.
Proof. intros Hd. rewrite <- Hd at 2. reflexivity. Qed.

Lemma carried_service a s m :
  mergedService a s (corev1.ObjectMeta s) = s →
  mergedService a s m = corev1.setObjectMeta m s.
Proof. intros Hs. rewrite <- Hs at 2. reflexivity. Qed.

(** The synchronisation of a Deployment already in the desired form: it is
    read and written back as it is; the store gives it a new resource
    version. *)
Lemma reconcileDeployment_steady r a w d m n :
  controllerutil.SetControllerReference a
    (appsv1.ObjectMeta (desiredDeployment a)) (Scheme r) = inr m →
  wfTable (deployments (store w)) →
  deployments (store w) !! keyOf a = Some d →
  deploymentCarries a d →
  faultFree (S (S n)) (env w) = true →
  ∃ w', reconcileDeployment r a w
        = (Ok tt, w',
           [EGet KDeployment (keyOf a) (Ok (ODeployment d));
            EUpdate (ODeployment d)
              (Ok (ODeployment (restampedDeployment (nextRV (store w)) d)))])
        ∧ deployments (store w')
          = <[keyOf a := restampedDeployment (nextRV (store w)) d]>
              (deployments (store w))
        ∧ webapps (store w') = webapps (store w)
        ∧ services (store w') = services (store w)
        ∧ nextRV (store w') = N.succ (nextRV (store w))
        ∧ faultFree n (env w') = true.
Proof.
  intros Hscr Hwf Hl (c0 & rest & Hc & Hd) [He1 [He2 Hf]%faultFree_S]%faultFree_S.
  destruct (Hwf _ _ Hl) as [Hkd Hpd].
  unfold reconcileDeployment. rewrite Hscr.
  change (metav1.Namespace (appv1alpha1.ObjectMeta a),
          metav1.Name (appv1alpha1.ObjectMeta a)) with (keyOf a).
  unfold bind, attempt, ret. rewrite Get_run. red_obj.
  destruct (environment (env w)) as [[e|] e1]; simpl in He1, He2, Hf; [done|].
  rewrite Hl. cbv beta iota zeta.
  change (corev1.Containers (corev1.TemplateSpec (appsv1.Template (appsv1.Spec
            (appsv1.setSpec (appsv1.setReplicas
               (appsv1.Replicas (appsv1.Spec (appsv1.setObjectMeta m (desiredDeployment a))))
               (appsv1.Spec d)) d)))))
    with (corev1.Containers (corev1.TemplateSpec (appsv1.Template (appsv1.Spec d)))).
  simpl (corev1.Containers (corev1.TemplateSpec (appsv1.Template (appsv1.Spec
            (appsv1.setObjectMeta m (desiredDeployment a)))))).
  rewrite Hc. cbv beta iota zeta.
  match goal with |- context [Update ?obj _] =>
    change obj with (mergedDeployment a d c0 rest (appsv1.ObjectMeta d))
  end.
  rewrite Hd.
  rewrite (Update_run d d); [|by (red_obj; rewrite Hkd)|apply sameVersion_refl].
  red_obj. destruct (environment e1) as [[e|] e2]; simpl in He2, Hf; [done|].
  cbv beta iota zeta. red_obj.
  assert (Hu : updated (nextRV (store w)) d d
               = restampedDeployment (nextRV (store w)) d).
  { rewrite updated_deployment by done. unfold nextGeneration.
    rewrite bool_decide_eq_true_2 by done. by destruct d. }
  rewrite Hu. change (purgeable (appsv1.ObjectMeta (restampedDeployment (nextRV (store w)) d)))
    with (purgeable (appsv1.ObjectMeta d)).
  rewrite Hpd, Hkd. eexists. split; [reflexivity|]. by red_obj.
Qed.

Lemma reconcileService_steady r a w s m n :
  controllerutil.SetControllerReference a
    (corev1.ObjectMeta (desiredService a)) (Scheme r) = inr m →
  wfTable (services (store w)) →
  services (store w) !! keyOf a = Some s →
  serviceCarries a s →
  faultFree (S (S n)) (env w) = true →
  ∃ w', reconcileService r a w
        = (Ok tt, w',
           [EGet KService (keyOf a) (Ok (OService s));
            EUpdate (OService s)
              (Ok (OService (restampedService (nextRV (store w)) s)))])
        ∧ services (store w')
          = <[keyOf a := restampedService (nextRV (store w)) s]>
              (services (store w))
        ∧ webapps (store w') = webapps (store w)
        ∧ deployments (store w') = deployments (store w)
        ∧ nextRV (store w') = N.succ (nextRV (store w))
        ∧ faultFree n (env w') = true.
Proof.
  intros Hscr Hwf Hl Hd [He1 [He2 Hf]%faultFree_S]%faultFree_S.
  destruct (Hwf _ _ Hl) as [Hkd Hpd].
  unfold reconcileService. rewrite Hscr.
  change (metav1.Namespace (appv1alpha1.ObjectMeta a),
          metav1.Name (appv1alpha1.ObjectMeta a)) with (keyOf a).
  unfold bind, attempt, ret. rewrite Get_run. red_obj.
  destruct (environment (env w)) as [[e|] e1]; simpl in He1, He2, Hf; [done|].
  rewrite Hl. cbv beta iota zeta.
  match goal with |- context [Update ?obj _] =>
    change obj with (mergedService a s (corev1.ObjectMeta s))
  end.
  rewrite Hd.
  rewrite (Update_run s s); [|by (red_obj; rewrite Hkd)|apply sameVersion_refl].
  red_obj. destruct (environment e1) as [[e|] e2]; simpl in He2, Hf; [done|].
  cbv beta iota zeta. red_obj.
  assert (Hu : updated (nextRV (store w)) s s
               = restampedService (nextRV (store w)) s).
  { rewrite updated_service by done. by destruct s. }
  rewrite Hu. change (purgeable (corev1.ObjectMeta (restampedService (nextRV (store w)) s)))
    with (purgeable (corev1.ObjectMeta s)).
  rewrite Hpd, Hkd. eexists. split; [reflexivity|]. by red_obj.
Qed.

(** ** A complete pass settles the WebApp and its children *)

Lemma Get_ok_stored `{Object A} k w (x : A) w' tr :
  Get k w = (Ok x, w', tr) →
  table (A:=A) (store w) !! k = Some x ∧ store w' = store w.
Proof.
  rewrite Get_run. destruct (environment (env w)) as [[e|] e1]; [done|].
  destruct (table (store w) !! k); [|done]. by intros [= <- <- <-].
Qed.

(** The status after the three writes that end a complete pass. *)
Lemma projected_after_writes rv5 rv6 rv7 now5 now6 now7 a2 dep :
  let observed := appsv1.AvailableReplicas (appsv1.Status dep) in
  let a6 :=
    statusUpdated rv5 a2
      (conditioned now5 (withObserved a2 dep) appv1alpha1.TypeAvailable
         (if 0 <? observed then metav1.ConditionTrue else metav1.ConditionFalse)
         (if 0 <? observed then "DeploymentAvailable" else "DeploymentUnavailable")
         (if 0 <? observed then pretty observed +:+ " replica(s) available"
          else "no replicas are available yet")) in
  let a7 :=
    statusUpdated rv6 a6
      (conditioned now6 a6 appv1alpha1.TypeProgressing metav1.ConditionFalse
         "ReconcileComplete" "reconciliation complete") in
  let a8 :=
    statusUpdated rv7 a7
      (conditioned now7 a7 appv1alpha1.TypeDegraded metav1.ConditionFalse
         "ReconcileComplete" "no errors") in
  projected (metav1.Generation (appv1alpha1.ObjectMeta a2)) observed a8.
Proof.
  intros observed a6 a7 a8.
  destruct types_distinct as (Hap & Had & Hpd).
  split; [done|]. split; [|split].
  - destruct (writeAvailable_condition now5 a2 dep) as (_ & c & Hc & Hcoded & Hg).
    exists c. split; [|done].
    unfold a8. rewrite conditionsOf_statusUpdated.
    rewrite find_SetStatusCondition_other by done.
    unfold a7. rewrite conditionsOf_statusUpdated.
    rewrite find_SetStatusCondition_other by done.
    exact Hc.
  - destruct (find_SetStatusCondition_same now6 (conditionsOf a6)
                (newCondition a6 appv1alpha1.TypeProgressing
                   metav1.ConditionFalse "ReconcileComplete"
                   "reconciliation complete"))
      as (c & Hc & _ & Hst & Hrs & Hmsg & Hg).
    exists c. split; [|done].
    unfold a8. rewrite conditionsOf_statusUpdated.
    rewrite find_SetStatusCondition_other by done. exact Hc.
  - destruct (find_SetStatusCondition_same now7 (conditionsOf a7)
                (newCondition a7 appv1alpha1.TypeDegraded
                   metav1.ConditionFalse "ReconcileComplete" "no errors"))
      as (c & Hc & _ & Hst & Hrs & Hmsg & Hg).
    exists c. split; [|done]. exact Hc.
Qed.

Lemma sameTarget_purgeable a b :
  sameTarget a b →
  purgeable (appv1alpha1.ObjectMeta b) = purgeable (appv1alpha1.ObjectMeta a).
Proof. intros (_ & rv & ->). apply stamp_purgeable. Qed.

Lemma settles_steps r req w a w0 t1 a2 w2 t2 w3 t3 w4 t4 dep w5 t5
    a6 w6 t6 a7 w7 t7 a8 w8 t8 :
  wfStore (store w) →
  Get (ctrl.NamespacedName req) w = (Ok a, w0, t1) →
  deletionRequested a = false → hasFinalizer a = true →
  markProgressing r a w0 = (Ok a2, w2, t2) →
  reconcileDeployment r a2 w2 = (Ok tt, w3, t3) →
  reconcileService r a2 w3 = (Ok tt, w4, t4) →
  Get (keyOf a2) w4 = (Ok dep, w5, t5) →
  writeAvailable r a2 dep w5 = (Ok a6, w6, t6) →
  clearProgressing r a6 w6 = (Ok a7, w7, t7) →
  clearDegraded r a7 w7 = (Ok a8, w8, t8) →
  ∃ s, settled r req w8 a8 dep s.
Proof.
  intros (Hwa & Hwd & Hws) HG Hdel Hfin HM HD HS HGd HA HP HDg.
  assert (Hkey : ∀ x, webapps (store w) !! ctrl.NamespacedName req = Some x →
                      keyOf x = ctrl.NamespacedName req)
    by (intros x Hx; by destruct (Hwa _ _ Hx)).
  destruct (Get_synced _ _ _ _ _ HG Hkey) as (Hs0 & Hst0 & Hk & Hb & _).
  unfold markProgressing, writeAvailable, clearProgressing, clearDegraded in *.
  destruct (setCondition_ok _ a a _ _ _ _ _ _ _ _ Hs0 eq_refl HM)
    as (Hs2 & Hk2 & Ea2 & Hw2 & Hd2 & Hsv2 & _).
  destruct (reconcileDeployment_ok _ _ _ _ _
              ltac:(rewrite Hd2, Hst0; exact Hwd) HD)
    as (d & m & Hscr & Hld & Hcd & Hwd3 & Hwa3 & Hsv3).
  destruct (reconcileService_ok _ _ _ _ _
              ltac:(rewrite Hsv3, Hsv2, Hst0; exact Hws) HS)
    as (s & ms & _ & Hls & Hcs & Hws4 & Hwa4 & Hd4).
  destruct (Get_ok_stored _ _ _ _ _ HGd) as (Hldep & Hst5). red_obj.
  rewrite Hd4, Hld in Hldep. injection Hldep as ->.
  assert (Hs5 : synced a2 w5).
  { eapply synced_frame; [exact Hs2|]. by rewrite Hst5, Hwa4, Hwa3. }
  destruct (setCondition_ok _ (withObserved a2 dep) a2 _ _ _ _ _ _ _ _
              Hs5 eq_refl HA)
    as (Hs6 & Hk6 & Ea6 & Hw6 & Hd6 & Hsv6 & _).
  destruct (setCondition_ok _ a6 a6 _ _ _ _ _ _ _ _ Hs6 eq_refl HP)
    as (Hs7 & Hk7 & Ea7 & Hw7 & Hd7 & Hsv7 & _).
  destruct (setCondition_ok _ a7 a7 _ _ _ _ _ _ _ _ Hs7 eq_refl HDg)
    as (Hs8 & Hk8 & Ea8 & Hw8 & Hd8 & Hsv8 & _).
  assert (T2 : sameTarget a a2) by (rewrite Ea2; apply sameTarget_statusUpdated).
  assert (T6 : sameTarget a2 a6) by (rewrite Ea6; apply sameTarget_statusUpdated).
  assert (T7 : sameTarget a6 a7) by (rewrite Ea7; apply sameTarget_statusUpdated).
  assert (T8 : sameTarget a7 a8) by (rewrite Ea8; apply sameTarget_statusUpdated).
  assert (T28 : sameTarget a2 a8) by eauto using sameTarget_trans.
  assert (T08 : sameTarget a a8) by eauto using sameTarget_trans.
  assert (K8 : keyOf a8 = ctrl.NamespacedName req) by congruence.
  assert (K2 : keyOf a2 = ctrl.NamespacedName req) by congruence.
  destruct (sameTarget_registered _ _ T08) as (Hf8 & Hdel8 & Hg8).
  destruct (sameTarget_registered _ _ T28) as (_ & _ & Hg28).
  destruct (Hwa _ _ Hb) as [_ Hpa].
  exists s. unfold settled. split_and!.
  - rewrite <- K8. exact Hs8.
  - by rewrite Hd8, Hd7, Hd6, Hst5, Hd4, <- K2.
  - by rewrite Hsv8, Hsv7, Hsv6, Hst5, <- K2.
  - exact K8.
  - congruence.
  - congruence.
  - split_and!.
    + rewrite Hw8, Hw7, Hw6, Hst5, Hwa4, Hwa3, Hw2, Hst0.
      repeat (apply wfTable_insert;
              [|congruence
               |erewrite sameTarget_purgeable;
                  [exact Hpa|eauto using sameTarget_trans]]).
      exact Hwa.
    + by rewrite Hd8, Hd7, Hd6, Hst5, Hd4.
    + by rewrite Hsv8, Hsv7, Hsv6, Hst5.
  - exists m. by rewrite (sameTarget_owner _ _ _ T28).
  - exact (sameTarget_deploymentCarries _ _ _ T28 Hcd).
  - exact (sameTarget_serviceCarries _ _ _ T28 Hcs).
  - rewrite Hg28, Ea8, Ea7, Ea6. apply projected_after_writes.
Qed.

Lemma complete_settles r req w w1 tr1 :
  wfStore (store w) →
  Reconcile r req w = (completed, w1, tr1) →
  ∃ a d s, settled r req w1 a d s.
Proof.
  intros Hwf Hrun.
  apply Reconcile_Pass in Hrun. unfold completed in Hrun.
  inversion Hrun; subst; clear Hrun.
  eexists _, _. by eapply settles_steps.
Qed.

(** ** A pass on a settled WebApp *)

Lemma find_type l ty c :
  meta.FindStatusCondition l ty = Some c → metav1.Type_ c = ty.
Proof.
  induction l as [|x l IH]; [done|]. simpl. case_bool_decide; [|done].
  by intros [= <-].
Qed.

Lemma agrees_refl c : agrees c c.
Proof. done. Qed.

(** Writing a condition that is already there changes nothing, not even the
    transition time. *)
Lemma mergeCondition_same t c n : agrees c n → meta.mergeCondition t c n = c.
Proof.
  intros (_ & Hs & Hr & Hm & Hg). unfold meta.mergeCondition.
  rewrite (bool_decide_eq_true_2 _ Hs). cbv zeta.
  rewrite (bool_decide_eq_true_2 _ Hr), (bool_decide_eq_true_2 _ Hm).
  by rewrite (bool_decide_eq_true_2 _ Hg).
Qed.

Lemma updateFirst_same t cs n c :
  meta.FindStatusCondition cs (metav1.Type_ n) = Some c → agrees c n →
  meta.updateFirst t cs n = cs.
Proof.
  induction cs as [|x cs IH]; [done|]. simpl.
  case_bool_decide; intros Hf Ha.
  - injection Hf as ->. by rewrite mergeCondition_same.
  - by rewrite IH.
Qed.

Lemma SetStatusCondition_same t cs n c :
  meta.FindStatusCondition cs (metav1.Type_ n) = Some c → agrees c n →
  meta.SetStatusCondition t cs n = cs.
Proof.
  intros Hf Ha. unfold meta.SetStatusCondition. rewrite Hf.
  by eapply updateFirst_same.
Qed.

Lemma mergeCondition_eq t c n :
  meta.mergeCondition t c n
  = {| metav1.Type_ := metav1.Type_ c;
       metav1.Status := metav1.Status n;
       metav1.ObservedGeneration := metav1.ObservedGeneration n;
       metav1.LastTransitionTime :=
         if bool_decide (metav1.Status c = metav1.Status n)
         then metav1.LastTransitionTime c
         else if metav1.Time_IsZero (metav1.LastTransitionTime n)
              then metav1.At t else metav1.LastTransitionTime n;
       metav1.Reason := metav1.Reason n;
       metav1.Message := metav1.Message n |}.
Proof.
  destruct c as [cty cst cg ct crs cmsg], n as [nty nst ng nt nrs nmsg].
  unfold meta.mergeCondition, meta.setStatus, meta.setReason, meta.setMessage,
    meta.setObservedGeneration.
  cbn [metav1.Type_ metav1.Status metav1.ObservedGeneration
       metav1.LastTransitionTime metav1.Reason metav1.Message].
  destruct (bool_decide (cst = nst)) eqn:E1;
    [apply bool_decide_eq_true_1 in E1; subst|];
    cbn [metav1.Type_ metav1.Status metav1.ObservedGeneration
         metav1.LastTransitionTime metav1.Reason metav1.Message].
  all: destruct (bool_decide (crs = nrs)) eqn:E2;
    [apply bool_decide_eq_true_1 in E2; subst|];
    cbn [metav1.Type_ metav1.Status metav1.ObservedGeneration
         metav1.LastTransitionTime metav1.Reason metav1.Message].
  all: destruct (bool_decide (cmsg = nmsg)) eqn:E3;
    [apply bool_decide_eq_true_1 in E3; subst|];
    cbn [metav1.Type_ metav1.Status metav1.ObservedGeneration
         metav1.LastTransitionTime metav1.Reason metav1.Message].
  all: destruct (bool_decide (cg = ng)) eqn:E4;
    [apply bool_decide_eq_true_1 in E4; subst|]; reflexivity.
Qed.

Lemma mergeCondition_type t c n :
  metav1.Type_ (meta.mergeCondition t c n) = metav1.Type_ c.
Proof. by rewrite mergeCondition_eq. Qed.

(** A condition set to another status and back has moved its transition
    time and nothing else. *)
Lemma mergeCondition_flip t1 t2 c n1 n2 :
  metav1.Status n1 ≠ metav1.Status c →
  agrees c n2 →
  metav1.LastTransitionTime n1 = metav1.ZeroTime →
  metav1.LastTransitionTime n2 = metav1.ZeroTime →
  meta.mergeCondition t2 (meta.mergeCondition t1 c n1) n2
  = meta.setLastTransitionTime (metav1.At t2) c.
Proof.
  intros Hne (_ & Hs & Hr & Hm & Hg) Hz1 Hz2.
  rewrite !mergeCondition_eq.
  cbn [metav1.Type_ metav1.Status metav1.ObservedGeneration
       metav1.LastTransitionTime metav1.Reason metav1.Message].
  rewrite Hz2. cbn [metav1.Time_IsZero].
  rewrite (bool_decide_eq_false_2 (metav1.Status n1 = metav1.Status n2))
    by congruence.
  unfold meta.setLastTransitionTime. by rewrite Hs, Hr, Hm, Hg.
Qed.

Lemma updateFirst_flip t1 t2 cs n1 n2 c :
  meta.FindStatusCondition cs (metav1.Type_ n2) = Some c →
  metav1.Type_ n1 = metav1.Type_ n2 →
  metav1.Status n1 ≠ metav1.Status c →
  agrees c n2 →
  metav1.LastTransitionTime n1 = metav1.ZeroTime →
  metav1.LastTransitionTime n2 = metav1.ZeroTime →
  meta.updateFirst t2 (meta.updateFirst t1 cs n1) n2
  = retimed (metav1.Type_ n2) (metav1.At t2) cs.
Proof.
  intros Hf Hty Hne Ha Hz1 Hz2.
  induction cs as [|x cs IH]; [done|].
  cbn [meta.updateFirst retimed meta.FindStatusCondition] in *.
  rewrite Hty. destruct (bool_decide (metav1.Type_ x = metav1.Type_ n2)) eqn:Hx.
  - injection Hf as ->. cbn [meta.updateFirst].
    rewrite mergeCondition_type, Hx. by rewrite mergeCondition_flip.
  - cbn [meta.updateFirst]. rewrite Hx. by rewrite IH.
Qed.

Lemma SetStatusCondition_flip t1 t2 cs n1 n2 c :
  meta.FindStatusCondition cs (metav1.Type_ n2) = Some c →
  metav1.Type_ n1 = metav1.Type_ n2 →
  metav1.Status n1 ≠ metav1.Status c →
  agrees c n2 →
  metav1.LastTransitionTime n1 = metav1.ZeroTime →
  metav1.LastTransitionTime n2 = metav1.ZeroTime →
  meta.SetStatusCondition t2 (meta.SetStatusCondition t1 cs n1) n2
  = retimed (metav1.Type_ n2) (metav1.At t2) cs.
Proof.
  intros Hf Hty Hne Ha Hz1 Hz2.
  assert (H1 : meta.SetStatusCondition t1 cs n1 = meta.updateFirst t1 cs n1).
  { unfold meta.SetStatusCondition. by rewrite Hty, Hf. }
  rewrite H1. unfold meta.SetStatusCondition.
  rewrite <- Hty in Hf. destruct (find_updateFirst t1 _ _ _ Hf) as [Hf' _].
  rewrite Hty in Hf', Hf. rewrite Hf'. by eapply updateFirst_flip.
Qed.

Lemma retimed_same ty t cs c :
  meta.FindStatusCondition cs ty = Some c →
  metav1.LastTransitionTime c = t →
  retimed ty t cs = cs.
Proof.
  induction cs as [|x cs IH]; [done|]. simpl. case_bool_decide; intros Hf Ht.
  - injection Hf as ->. subst t. by destruct c.
  - by rewrite IH.
Qed.

Lemma retimed_none ty t cs :
  meta.FindStatusCondition cs ty = None → retimed ty t cs = cs.
Proof.
  induction cs as [|x cs IH]; [done|]. simpl. case_bool_decide; [done|].
  intros Hf. by rewrite IH.
Qed.

Lemma retimed_retimed ty t t' cs :
  retimed ty t' (retimed ty t cs) = retimed ty t' cs.
Proof.
  induction cs as [|x cs IH]; [done|]. simpl.
  case_bool_decide as Hx; simpl.
  - by rewrite bool_decide_eq_true_2.
  - by rewrite bool_decide_eq_false_2, IH.
Qed.

Lemma find_SetStatusCondition_time now l c :
  metav1.LastTransitionTime c = metav1.ZeroTime →
  ∃ c', meta.FindStatusCondition (meta.SetStatusCondition now l c)
          (metav1.Type_ c) = Some c'
        ∧ metav1.LastTransitionTime c'
          = match meta.FindStatusCondition l (metav1.Type_ c) with
            | Some e =>
                if bool_decide (metav1.Status e = metav1.Status c)
                then metav1.LastTransitionTime e
                else metav1.At now
            | None => metav1.At now
            end.
Proof.
  intros Hz. unfold meta.SetStatusCondition.
  destruct (meta.FindStatusCondition l (metav1.Type_ c)) as [e|] eqn:Hf.
  - destruct (find_updateFirst now l c e Hf) as [H1 H2].
    eexists. split; [exact H1|]. unfold meta.mergeCondition. rewrite Hz.
    simpl. repeat case_bool_decide; simpl in *; repeat case_bool_decide;
      simpl in *; congruence.
  - rewrite find_app_None by done. rewrite Hz. simpl.
    rewrite bool_decide_eq_true_2 by done. by eexists.
Qed.

(** ** The clock only moves forward *)

Lemma environment_now e : (now e ≤ now (environment e).2)%N.
Proof. unfold environment. destruct (script e); simpl; lia. Qed.

Lemma Get_now `{Object A} k w (r : Res A) w' tr :
  Get k w = (r, w', tr) → (now (env w) ≤ now (env w'))%N.
Proof. intros (_ & _ & -> & _)%Get_inv. apply environment_now. Qed.

Ltac call_now H :=
  match type of H with
  | _ ?w = _ =>
      pose proof (environment_now (env w));
      first [ rewrite Create_run in H | rewrite Update_cases in H
            | rewrite StatusUpdate_cases in H ];
      cbv zeta in H;
      destruct (environment (env w)) as [[?|] ?];
      repeat case_match; simplify_eq; cbn [fst snd env] in *; done
  end.

Lemma Create_now `{Object A} (obj : A) w r w' tr :
  Create obj w = (r, w', tr) → (now (env w) ≤ now (env w'))%N.
Proof. intros H0. call_now H0. Qed.

Lemma Update_now `{Object A} (obj : A) w r w' tr :
  Update obj w = (r, w', tr) → (now (env w) ≤ now (env w'))%N.
Proof. intros H0. call_now H0. Qed.

Lemma StatusUpdate_now obj w r w' tr :
  StatusUpdate obj w = (r, w', tr) → (now (env w) ≤ now (env w'))%N.
Proof. intros H0. call_now H0. Qed.

Lemma setCondition_now r a ty st rs msg w res w' tr :
  setCondition r a ty st rs msg w = (res, w', tr) →
  (now (env w) ≤ now (env w'))%N.
Proof.
  unfold setCondition, Now. intros H. inv_run.
  all: match goal with H : StatusUpdate _ _ = _ |- _ =>
         by apply StatusUpdate_now in H end.
Qed.

Ltac calls_now :=
  repeat match goal with
  | H : Get _ _ = _ |- _ => apply Get_now in H
  | H : Create _ _ = _ |- _ => apply Create_now in H
  | H : Update _ _ = _ |- _ => apply Update_now in H
  end.

Lemma reconcileDeployment_now r a w res w' tr :
  reconcileDeployment r a w = (res, w', tr) →
  (now (env w) ≤ now (env w'))%N.
Proof.
  unfold reconcileDeployment.
  destruct (controllerutil.SetControllerReference _ _ _) as [e|m]; intros H.
  { by inv_run. }
  inv_run; cbv beta iota zeta in *.
  all: repeat match goal with
       | H : context [IsNotFound ?e] |- _ => destruct (IsNotFound e)
       | H : match ?l with [] => _ | _ :: _ => _ end _ = _ |- _ =>
           destruct l
       end; inv_run.
  all: calls_now; lia.
Qed.

Lemma reconcileService_now r a w res w' tr :
  reconcileService r a w = (res, w', tr) →
  (now (env w) ≤ now (env w'))%N.
Proof.
  unfold reconcileService.
  destruct (controllerutil.SetControllerReference _ _ _) as [e|m]; intros H.
  { by inv_run. }
  inv_run; cbv beta iota zeta in *.
  all: repeat match goal with
       | H : context [IsNotFound ?e] |- _ => destruct (IsNotFound e)
       end; inv_run.
  all: calls_now; lia.
Qed.

Lemma find_retimed_other ty t cs ty' :
  ty' ≠ ty →
  meta.FindStatusCondition (retimed ty t cs) ty'
  = meta.FindStatusCondition cs ty'.
Proof.
  intros Hne. induction cs as [|x cs IH]; [done|].
  cbn [retimed]. case_bool_decide as Hx.
  - cbn [meta.FindStatusCondition metav1.Type_ meta.setLastTransitionTime].
    by rewrite !bool_decide_eq_false_2 by congruence.
  - cbn [meta.FindStatusCondition]. by rewrite IH.
Qed.

Lemma coded_agrees observed a c :
  metav1.Type_ c = appv1alpha1.TypeAvailable →
  availableAsCoded observed c →
  metav1.ObservedGeneration c = metav1.Generation (appv1alpha1.ObjectMeta a) →
  agrees c
    (newCondition a appv1alpha1.TypeAvailable
       (if 0 <? observed then metav1.ConditionTrue else metav1.ConditionFalse)
       (if 0 <? observed then "DeploymentAvailable" else "DeploymentUnavailable")
       (if 0 <? observed then pretty observed +:+ " replica(s) available"
        else "no replicas are available yet")).
Proof.
  unfold availableAsCoded, agrees, newCondition.
  cbn [metav1.Type_ metav1.Status metav1.ObservedGeneration metav1.Reason
       metav1.Message].
  intros Hty Hc Hg. destruct (0 <? observed); destruct Hc as (? & ? & ?);
    by split_and!.
Qed.

(** The status two complete passes in a row leave: the second one flips the
    Progressing condition to True and back, and rewrites the others as they
    are. *)
Lemma steady_conditions t0 t5 t6 t7 rv0 rv5 rv6 rv7 a dep :
  projected (metav1.Generation (appv1alpha1.ObjectMeta a))
    (appsv1.AvailableReplicas (appsv1.Status dep)) a →
  let observed := appsv1.AvailableReplicas (appsv1.Status dep) in
  let a2 :=
    statusUpdated rv0 a
      (conditioned t0 a appv1alpha1.TypeProgressing metav1.ConditionTrue
         "Reconciling" "reconciliation in progress") in
  let a6 :=
    statusUpdated rv5 a2
      (conditioned t5 (withObserved a2 dep) appv1alpha1.TypeAvailable
         (if 0 <? observed then metav1.ConditionTrue else metav1.ConditionFalse)
         (if 0 <? observed then "DeploymentAvailable" else "DeploymentUnavailable")
         (if 0 <? observed then pretty observed +:+ " replica(s) available"
          else "no replicas are available yet")) in
  let a7 :=
    statusUpdated rv6 a6
      (conditioned t6 a6 appv1alpha1.TypeProgressing metav1.ConditionFalse
         "ReconcileComplete" "reconciliation complete") in
  let a8 :=
    statusUpdated rv7 a7
      (conditioned t7 a7 appv1alpha1.TypeDegraded metav1.ConditionFalse
         "ReconcileComplete" "no errors") in
  sameObservedAt (metav1.At t6) a a8.
Proof.
  intros (Hn & (ca & Hca & Hcoded & Hga) & (cp & Hcp & Hp1 & Hp2 & Hp3 & Hgp)
            & (cd & Hcd & Hd1 & Hd2 & Hd3 & Hgd)) observed a2 a6 a7 a8.
  destruct types_distinct as (Hap & Had & Hpd).
  split; [by rewrite Hn|].
  set (PT := newCondition a appv1alpha1.TypeProgressing metav1.ConditionTrue
               "Reconciling" "reconciliation in progress").
  set (AV := newCondition (withObserved a2 dep) appv1alpha1.TypeAvailable
               (if 0 <? observed then metav1.ConditionTrue
                else metav1.ConditionFalse)
               (if 0 <? observed then "DeploymentAvailable"
                else "DeploymentUnavailable")
               (if 0 <? observed then pretty observed +:+ " replica(s) available"
                else "no replicas are available yet")).
  assert (E2 : conditionsOf a2
               = meta.SetStatusCondition t0 (conditionsOf a) PT)
    by apply conditionsOf_statusUpdated.
  assert (E6 : conditionsOf a6 = conditionsOf a2).
  { unfold a6. rewrite conditionsOf_statusUpdated.
    change (conditionsOf (withObserved a2 dep)) with (conditionsOf a2).
    eapply SetStatusCondition_same.
    - cbn [newCondition metav1.Type_]. rewrite E2.
      rewrite find_SetStatusCondition_other by done. exact Hca.
    - apply (coded_agrees observed (withObserved a2 dep) ca);
        [by eapply find_type|done|done]. }
  assert (E7 : conditionsOf a7
               = retimed appv1alpha1.TypeProgressing (metav1.At t6)
                   (conditionsOf a)).
  { unfold a7. rewrite conditionsOf_statusUpdated, E6, E2.
    apply (SetStatusCondition_flip t0 t6 (conditionsOf a) PT
             (newCondition a6 appv1alpha1.TypeProgressing
                metav1.ConditionFalse "ReconcileComplete"
                "reconciliation complete") cp);
      [exact Hcp|done| |
       |done|done].
    - cbn [PT newCondition metav1.Status]. by rewrite Hp1.
    - unfold agrees, newCondition.
      cbn [metav1.Type_ metav1.Status metav1.ObservedGeneration metav1.Reason
           metav1.Message].
      split_and!; [by eapply find_type|done|done|done|done]. }
  unfold a8. rewrite conditionsOf_statusUpdated, E7.
  eapply SetStatusCondition_same.
  - cbn [newCondition metav1.Type_].
    rewrite find_retimed_other by done. exact Hcd.
  - unfold agrees, newCondition.
    cbn [metav1.Type_ metav1.Status metav1.ObservedGeneration metav1.Reason
         metav1.Message].
    split_and!; [by eapply find_type|done|done|done|done].
Qed.

(** A complete pass leaves the Progressing condition with the transition
    time of its last but one write. *)
Lemma progressing_after_writes t0 t5 t6 t7 rv0 rv5 rv6 rv7 a dep :
  let observed := appsv1.AvailableReplicas (appsv1.Status dep) in
  let a2 :=
    statusUpdated rv0 a
      (conditioned t0 a appv1alpha1.TypeProgressing metav1.ConditionTrue
         "Reconciling" "reconciliation in progress") in
  let a6 :=
    statusUpdated rv5 a2
      (conditioned t5 (withObserved a2 dep) appv1alpha1.TypeAvailable
         (if 0 <? observed then metav1.ConditionTrue else metav1.ConditionFalse)
         (if 0 <? observed then "DeploymentAvailable" else "DeploymentUnavailable")
         (if 0 <? observed then pretty observed +:+ " replica(s) available"
          else "no replicas are available yet")) in
  let a7 :=
    statusUpdated rv6 a6
      (conditioned t6 a6 appv1alpha1.TypeProgressing metav1.ConditionFalse
         "ReconcileComplete" "reconciliation complete") in
  let a8 :=
    statusUpdated rv7 a7
      (conditioned t7 a7 appv1alpha1.TypeDegraded metav1.ConditionFalse
         "ReconcileComplete" "no errors") in
  progressingSince a8 t6.
Proof.
  intros observed a2 a6 a7 a8.
  destruct types_distinct as (Hap & Had & Hpd).
  destruct (find_SetStatusCondition_same t0 (conditionsOf a)
              (newCondition a appv1alpha1.TypeProgressing metav1.ConditionTrue
                 "Reconciling" "reconciliation in progress"))
    as (cm & Hcm & _ & Hst & _).
  assert (F6 : meta.FindStatusCondition (conditionsOf a6)
                 appv1alpha1.TypeProgressing = Some cm).
  { unfold a6. rewrite conditionsOf_statusUpdated.
    rewrite find_SetStatusCondition_other
      by (cbn [newCondition metav1.Type_]; congruence).
    change (conditionsOf (withObserved a2 dep)) with (conditionsOf a2).
    unfold a2. rewrite conditionsOf_statusUpdated. exact Hcm. }
  destruct (find_SetStatusCondition_time t6 (conditionsOf a6)
              (newCondition a6 appv1alpha1.TypeProgressing
                 metav1.ConditionFalse "ReconcileComplete"
                 "reconciliation complete") eq_refl)
    as (c & Hc & Ht).
  cbn [newCondition metav1.Type_ metav1.Status] in Hc, Ht.
  rewrite F6 in Ht.
  rewrite bool_decide_eq_false_2 in Ht by (rewrite Hst; done).
  exists c. split; [|exact Ht].
  unfold a8. rewrite conditionsOf_statusUpdated.
  rewrite find_SetStatusCondition_other by done.
  unfold a7. rewrite conditionsOf_statusUpdated. exact Hc.
Qed.

Lemma settled_steady r req w a d s n :
  settled r req w a d s →
  faultFree (10 + n) (env w) = true →
  ∃ w' tr a' rvd rvs t,
    Reconcile r req w = (completed, w', tr)
    ∧ settled r req w' a'
        (restampedDeployment rvd d) (restampedService rvs s)
    ∧ sameTarget a a'
    ∧ sameObservedAt (metav1.At t) a a'
    ∧ (now (env w) ≤ t ≤ now (env w'))%N
    ∧ deployments (store w')
      = <[ctrl.NamespacedName req := restampedDeployment rvd d]>
          (deployments (store w))
    ∧ services (store w')
      = <[ctrl.NamespacedName req := restampedService rvs s]>
          (services (store w))
    ∧ childMutations tr
      = [EUpdate (ODeployment d) (Ok (ODeployment (restampedDeployment rvd d)));
         EUpdate (OService s) (Ok (OService (restampedService rvs s)))]
    ∧ faultFree n (env w') = true.
Proof.
  intros (Ha & Hd & Hs & Hk & Hdel & Hfin & Hwf & (m & Hscr) & Hcd & Hcs & Hproj)
         Hq.
  pose proof Hwf as (Hwa & Hwd & Hws).
  destruct (@Get_quiet _ WebApp_Object (ctrl.NamespacedName req) w a (9 + n)
              Ha Hq)
    as (w0 & HG & Hst0 & Hq0).
  assert (Hs0 : synced a w0) by (unfold synced; by rewrite Hst0, Hk).
  destruct (setCondition_quiet r a a appv1alpha1.TypeProgressing
              metav1.ConditionTrue "Reconciling" "reconciliation in progress"
              w0 (8 + n) Hs0 eq_refl Hq0)
    as (w2 & HM & Hs2 & Hd2 & Hsv2 & Hq2).
  set (a2 := statusUpdated (nextRV (store w0)) a
               (conditioned (now (env w0)) a appv1alpha1.TypeProgressing
                  metav1.ConditionTrue "Reconciling"
                  "reconciliation in progress")) in *.
  assert (T2 : sameTarget a a2) by apply sameTarget_statusUpdated.
  assert (K2 : keyOf a2 = keyOf a) by done.
  destruct (reconcileDeployment_steady r a w2 d m (6 + n) Hscr)
    as (w3 & HD & Hd3 & Hwa3 & Hsv3 & Hrv3 & Hq3);
    [by rewrite Hd2, Hst0|by rewrite Hd2, Hst0, Hk|done|done|].
  destruct (reconcileService_steady r a w3 s m (4 + n) Hscr)
    as (w4 & HS & Hsv4 & Hwa4 & Hd4 & Hrv4 & Hq4);
    [by rewrite Hsv3, Hsv2, Hst0|by rewrite Hsv3, Hsv2, Hst0, Hk|done|done|].
  rewrite <- (reconcileDeployment_sameTarget r a a2 T2) in HD.
  rewrite <- (reconcileService_sameTarget r a a2 T2) in HS.
  set (d2 := restampedDeployment (nextRV (store w2)) d) in *.
  set (s2 := restampedService (nextRV (store w3)) s) in *.
  destruct (@Get_quiet _ Deployment_Object (keyOf a2) w4 d2 (3 + n))
    as (w5 & HGd & Hst5 & Hq5); [|done|].
  { red_obj. rewrite Hd4, Hd3, K2. apply lookup_insert_eq. }
  assert (Hs5 : synced a2 w5).
  { eapply synced_frame; [exact Hs2|]. by rewrite Hst5, Hwa4, Hwa3. }
  destruct (setCondition_quiet r (withObserved a2 d2) a2
              appv1alpha1.TypeAvailable
              (if 0 <? appsv1.AvailableReplicas (appsv1.Status d2)
               then metav1.ConditionTrue else metav1.ConditionFalse)
              (if 0 <? appsv1.AvailableReplicas (appsv1.Status d2)
               then "DeploymentAvailable" else "DeploymentUnavailable")
              (if 0 <? appsv1.AvailableReplicas (appsv1.Status d2)
               then pretty (appsv1.AvailableReplicas (appsv1.Status d2))
                    +:+ " replica(s) available"
               else "no replicas are available yet")
              w5 (2 + n) Hs5 eq_refl Hq5)
    as (w6 & HA & Hs6 & Hd6 & Hsv6 & Hq6).
  match type of HA with _ = (Ok ?x, _, _) => set (a6 := x) in * end.
  destruct (setCondition_quiet r a6 a6 appv1alpha1.TypeProgressing
              metav1.ConditionFalse "ReconcileComplete"
              "reconciliation complete" w6 (1 + n) Hs6 eq_refl Hq6)
    as (w7 & HP & Hs7 & Hd7 & Hsv7 & Hq7).
  match type of HP with _ = (Ok ?x, _, _) => set (a7 := x) in * end.
  destruct (setCondition_quiet r a7 a7 appv1alpha1.TypeDegraded
              metav1.ConditionFalse "ReconcileComplete" "no errors"
              w7 n Hs7 eq_refl Hq7)
    as (w8 & HDg & Hs8 & Hd8 & Hsv8 & Hq8).
  match type of HDg with _ = (Ok ?x, _, _) => set (a8 := x) in * end.
  destruct (settles_steps r req w a w0 _ a2 w2 _ w3 _ w4 _ d2 w5 _
              a6 w6 _ a7 w7 _ a8 w8 _ Hwf HG Hdel Hfin HM HD HS HGd HA HP HDg)
    as (s' & Hset).
  assert (Hd' : deployments (store w8)
                = <[ctrl.NamespacedName req := d2]> (deployments (store w))).
  { by rewrite Hd8, Hd7, Hd6, Hst5, Hd4, Hd3, Hd2, Hst0, Hk. }
  assert (Hs' : services (store w8)
                = <[ctrl.NamespacedName req := s2]> (services (store w))).
  { by rewrite Hsv8, Hsv7, Hsv6, Hst5, Hsv4, Hsv3, Hsv2, Hst0, Hk. }
  assert (s' = s2) as ->.
  { destruct Hset as (_ & _ & Hls & _). rewrite Hs', lookup_insert_eq in Hls.
    congruence. }
  assert (T8 : sameTarget a a8).
  { eapply sameTarget_trans; [exact T2|].
    eapply sameTarget_trans; [apply sameTarget_statusUpdated|].
    eapply sameTarget_trans; apply sameTarget_statusUpdated. }
  exists w8. eexists.
  exists a8, (nextRV (store w2)), (nextRV (store w3)), (now (env w6)).
  split.
  { apply Pass_Reconcile. eapply pass_complete; eauto. }
  split; [exact Hset|]. split; [exact T8|]. split.
  { apply (steady_conditions (now (env w0)) (now (env w5)) (now (env w6))
             (now (env w7)) (nextRV (store w0)) (nextRV (store w5))
             (nextRV (store w6)) (nextRV (store w7)) a d2).
    exact Hproj. }
  split.
  { apply Get_now in HG, HGd. apply setCondition_now in HM, HA, HP, HDg.
    apply reconcileDeployment_now in HD. apply reconcileService_now in HS.
    lia. }
  split; [exact Hd'|]. split; [exact Hs'|]. split; [reflexivity|exact Hq8].
Qed.

(** The Progressing condition after a complete pass dates from that pass. *)
Lemma complete_since r req w w1 tr1 :
  wfStore (store w) →
  Reconcile r req w = (completed, w1, tr1) →
  ∃ a t, webapps (store w1) !! ctrl.NamespacedName req = Some a
         ∧ progressingSince a t
         ∧ (now (env w) ≤ t ≤ now (env w1))%N.
Proof.
  intros (Hwa & _) Hrun.
  assert (Hkey : ∀ x, webapps (store w) !! ctrl.NamespacedName req = Some x →
                      keyOf x = ctrl.NamespacedName req)
    by (intros x Hx; by destruct (Hwa _ _ Hx)).
  apply Reconcile_Pass in Hrun. unfold completed in Hrun.
  inversion Hrun; subst; clear Hrun.
  unfold markProgressing, writeAvailable, clearProgressing, clearDegraded in *.
  match goal with H : Get _ w = (Ok ?a, _, _) |- _ =>
    destruct (Get_synced _ _ _ _ _ H Hkey) as (Hs0 & _ & Hk & _);
    pose proof (Get_now _ _ _ _ _ H) as N0
  end.
  match goal with
    H : setCondition _ _ _ metav1.ConditionTrue _ _ _ = _ |- _ =>
      rename H into HM end.
  match goal with
    H : setCondition _ _ appv1alpha1.TypeAvailable _ _ _ _ = _ |- _ =>
      rename H into HA end.
  match goal with
    H : setCondition _ _ appv1alpha1.TypeProgressing _ _ _ _ = _ |- _ =>
      rename H into HP end.
  match goal with
    H : setCondition _ _ appv1alpha1.TypeDegraded _ _ _ _ = _ |- _ =>
      rename H into HDg end.
  match goal with H : reconcileDeployment _ _ _ = _ |- _ =>
    rename H into HD end.
  match goal with H : reconcileService _ _ _ = _ |- _ =>
    rename H into HS end.
  match goal with H : Get (A:=appsv1.Deployment) _ _ = _ |- _ =>
    rename H into HGd end.
  pose proof (setCondition_now _ _ _ _ _ _ _ _ _ _ HM) as N1.
  pose proof (reconcileDeployment_now _ _ _ _ _ _ HD) as N2.
  pose proof (reconcileService_now _ _ _ _ _ _ HS) as N3.
  pose proof (Get_now _ _ _ _ _ HGd) as N4.
  pose proof (setCondition_now _ _ _ _ _ _ _ _ _ _ HA) as N5.
  pose proof (setCondition_now _ _ _ _ _ _ _ _ _ _ HP) as N6.
  pose proof (setCondition_now _ _ _ _ _ _ _ _ _ _ HDg) as N7.
  pose proof (reconcileDeployment_frame _ _ _ _ _ _ HD) as (F2 & _).
  pose proof (reconcileService_frame _ _ _ _ _ _ HS) as (F3 & _).
  pose proof (Get_store _ _ _ _ _ HGd) as F4.
  destruct (setCondition_ok _ _ _ _ _ _ _ _ _ _ _ Hs0 eq_refl HM)
    as (Hs2 & Hk2 & Ea2 & _).
  assert (Hs5 : synced a2 w5).
  { eapply synced_frame; [exact Hs2|]. congruence. }
  destruct (setCondition_ok _ (withObserved a2 dep) a2 _ _ _ _ _ _ _ _
              Hs5 eq_refl HA)
    as (Hs6 & Hk6 & Ea6 & _).
  destruct (setCondition_ok _ a6 a6 _ _ _ _ _ _ _ _ Hs6 eq_refl HP)
    as (Hs7 & Hk7 & Ea7 & _).
  destruct (setCondition_ok _ a7 a7 _ _ _ _ _ _ _ _ Hs7 eq_refl HDg)
    as (Hs8 & Hk8 & Ea8 & _).
  exists a8, (now (env w6)). split.
  { unfold synced in Hs8. rewrite <- Hs8. f_equal. congruence. }
  split; [|lia].
  rewrite Ea8, Ea7, Ea6, Ea2. apply progressing_after_writes.
Qed.

(** ** Passes that meet no fault *)

Lemma faultFree_weaken m n e :
  (m ≤ n)%nat → faultFree n e = true → faultFree m e = true.
Proof.
  unfold faultFree. revert m n.
  induction (script e) as [|t l IH]; intros [|m] [|n] Hle; cbn; try done;
    try lia.
  destruct (bool_decide (fault t = None)); cbn; [|done].
  apply IH. lia.
Qed.

Lemma Get_faultless `{Object A} k w (r : Res A) w' tr n :
  faultFree (S n) (env w) = true → Get k w = (r, w', tr) →
  r = match table (store w) !! k with
      | Some o => Ok o
      | None => Err (NewNotFound (resource (A:=A)) k.2)
      end
  ∧ store w' = store w ∧ faultFree n (env w') = true.
Proof.
  intros [He Hf]%faultFree_S (_ & Hst & Henv & _ & _ & Hr)%Get_inv.
  rewrite Henv. auto.
Qed.

Lemma setCondition_faultless r x a ty st rs msg w res w' tr n :
  synced a w →
  appv1alpha1.ObjectMeta x = appv1alpha1.ObjectMeta a →
  faultFree (S n) (env w) = true →
  setCondition r x ty st rs msg w = (res, w', tr) →
  let a' := statusUpdated (nextRV (store w)) a
              (conditioned (now (env w)) x ty st rs msg) in
  res = Ok a'
  ∧ synced a' w'
  ∧ deployments (store w') = deployments (store w)
  ∧ services (store w') = services (store w)
  ∧ faultFree n (env w') = true.
Proof.
  intros Hs Hm Hq H a'.
  destruct (setCondition_quiet r x a ty st rs msg w n Hs Hm Hq)
    as (w'' & Hrun & Hs' & Hd & Hsv & Hq').
  rewrite Hrun in H. injection H as <- <- <-. by split_and!.
Qed.

(** What a write of a condition leaves of the conditions. *)
Lemma newCondition_generation a b ty st rs msg :
  metav1.Generation (appv1alpha1.ObjectMeta b)
  = metav1.Generation (appv1alpha1.ObjectMeta a) →
  newCondition b ty st rs msg = newCondition a ty st rs msg.
Proof. unfold newCondition. by intros ->. Qed.

Lemma carries_written rv a0 now x ty st rs msg :
  appv1alpha1.ObjectMeta x = appv1alpha1.ObjectMeta a0 →
  carries (statusUpdated rv a0 (conditioned now x ty st rs msg)) ty st rs msg.
Proof.
  intros Hm. unfold carries. rewrite conditionsOf_statusUpdated.
  destruct (find_SetStatusCondition_same now (conditionsOf x)
              (newCondition x ty st rs msg)) as (c & Hc & Hag).
  exists c. split; [exact Hc|].
  rewrite (newCondition_generation x); [done|].
  by rewrite generation_statusUpdated, Hm.
Qed.

Lemma carries_other rv a0 now x ty st rs msg ty' st' rs' msg' :
  appv1alpha1.ObjectMeta x = appv1alpha1.ObjectMeta a0 →
  ty ≠ ty' →
  carries x ty st rs msg →
  carries (statusUpdated rv a0 (conditioned now x ty' st' rs' msg'))
    ty st rs msg.
Proof.
  intros Hm Hne (c & Hc & Hag). unfold carries.
  rewrite conditionsOf_statusUpdated.
  rewrite find_SetStatusCondition_other by done.
  exists c. split; [exact Hc|].
  rewrite (newCondition_generation x); [done|].
  by rewrite generation_statusUpdated, Hm.
Qed.

Lemma carries_status a b ty st rs msg :
  appv1alpha1.Status b = appv1alpha1.Status a →
  metav1.Generation (appv1alpha1.ObjectMeta b)
  = metav1.Generation (appv1alpha1.ObjectMeta a) →
  carries a ty st rs msg → carries b ty st rs msg.
Proof.
  intros Hst Hg (c & Hc & Hag). exists c. unfold conditionsOf.
  rewrite Hst. split; [exact Hc|]. by rewrite (newCondition_generation a).
Qed.

(** Writing a condition the WebApp carries leaves its status as it is. *)
Lemma carries_rewrite rv a0 now a ty st rs msg :
  carries a ty st rs msg →
  appv1alpha1.Status (statusUpdated rv a0 (conditioned now a ty st rs msg))
  = appv1alpha1.Status a.
Proof.
  intros (c & Hc & Hag). unfold statusUpdated, conditioned.
  cbn [appv1alpha1.Status appv1alpha1.setObjectMeta appv1alpha1.setStatus].
  rewrite (SetStatusCondition_same now (conditionsOf a)
             (newCondition a ty st rs msg) c Hc Hag).
  unfold conditionsOf. by destruct a as [m sp [n cs]].
Qed.

Lemma owner_set_same r a :
  controllerutil.SetControllerReference a
    (corev1.ObjectMeta (desiredService a)) (Scheme r)
  = controllerutil.SetControllerReference a
      (appsv1.ObjectMeta (desiredDeployment a)) (Scheme r).
Proof. reflexivity. Qed.

(** Without an owner reference the synchronisation stops before its first
    call. *)
Lemma reconcileDeployment_unowned r a e w :
  controllerutil.SetControllerReference a
    (appsv1.ObjectMeta (desiredDeployment a)) (Scheme r) = inl e →
  reconcileDeployment r a w
  = (Err (Wrapped "setting owner reference on deployment" e), w, []).
Proof. intros H. unfold reconcileDeployment. by rewrite H. Qed.

Lemma reconcileDeployment_no_container r (a : appv1alpha1.WebApp) w d m n :
  controllerutil.SetControllerReference a
    (appsv1.ObjectMeta (desiredDeployment a)) (Scheme r) = inr m →
  deployments (store w) !! keyOf a = Some d →
  corev1.Containers (corev1.TemplateSpec (appsv1.Template (appsv1.Spec d)))
  = [] →
  faultFree (S n) (env w) = true →
  ∃ w', reconcileDeployment r a w
        = (Panic "runtime error: index out of range [0] with length 0", w',
           [EGet KDeployment (keyOf a) (Ok (ODeployment d))])
        ∧ store w' = store w
        ∧ faultFree n (env w') = true.
Proof.
  intros Hscr Hl Hc [He Hf]%faultFree_S.
  unfold reconcileDeployment. rewrite Hscr.
  change (metav1.Namespace (appv1alpha1.ObjectMeta a),
          metav1.Name (appv1alpha1.ObjectMeta a)) with (keyOf a).
  unfold bind, attempt, panic. rewrite Get_run. red_obj.
  destruct (environment (env w)) as [[e|] e1]; simpl in He, Hf; [done|].
  rewrite Hl. cbv beta iota zeta.
  change (corev1.Containers (corev1.TemplateSpec (appsv1.Template (appsv1.Spec
            (appsv1.setSpec (appsv1.setReplicas
               (appsv1.Replicas (appsv1.Spec (appsv1.setObjectMeta m (desiredDeployment a))))
               (appsv1.Spec d)) d)))))
    with (corev1.Containers (corev1.TemplateSpec (appsv1.Template (appsv1.Spec d)))).
  rewrite Hc.
  simpl (corev1.Containers (corev1.TemplateSpec (appsv1.Template (appsv1.Spec
            (appsv1.setObjectMeta m (desiredDeployment a)))))).
  cbv beta iota zeta. by eexists.
Qed.

Lemma reconcileDeployment_panics r (a : appv1alpha1.WebApp) w msg w' tr :
  reconcileDeployment r a w = (Panic msg, w', tr) →
  ∃ d, deployments (store w) !! keyOf a = Some d
       ∧ corev1.Containers
           (corev1.TemplateSpec (appsv1.Template (appsv1.Spec d))) = []
       ∧ msg = "runtime error: index out of range [0] with length 0"
       ∧ tr = [EGet KDeployment (keyOf a) (Ok (ODeployment d))]
       ∧ store w' = store w.
Proof.
  intros H. unfold reconcileDeployment in H.
  destruct (controllerutil.SetControllerReference _ _ _) as [e|m] eqn:Hscr;
    [done|].
  change (metav1.Namespace (appv1alpha1.ObjectMeta a),
          metav1.Name (appv1alpha1.ObjectMeta a)) with (keyOf a) in H.
  unfold bind, attempt, ret, fail, panic in H. red_rec H.
  exec H; try discriminate H.
  all: try (match type of H with
            | context [Update ?o ?w0] =>
                destruct (Update o w0) as [[[?|?|?] ?] ?] eqn:HU
            end; try discriminate H; by apply Update_no_panic in HU).
  injection H as <- <- <-. eexists. by split_and!.
Qed.

(** ** A pass on a WebApp the last pass could not bring to its end *)

Lemma idle_steady r req w n :
  idle req w → faultFree (S n) (env w) = true →
  ∃ w' rr,
    Reconcile r req w
    = (Ok ctrl.zeroResult, w', [EGet KWebApp (ctrl.NamespacedName req) rr])
    ∧ store w' = store w
    ∧ faultFree n (env w') = true.
Proof.
  unfold idle. intros Hidle [He Hf]%faultFree_S.
  unfold Reconcile, bind, attempt. rewrite Get_run. red_obj.
  destruct (environment (env w)) as [[e|] e1]; simpl in He, Hf; [done|].
  destruct (webapps (store w) !! ctrl.NamespacedName req) as [a|].
  - destruct Hidle as [Hdel Hfin].
    unfold deletionRequested in Hdel. unfold hasFinalizer in Hfin.
    cbv beta iota zeta. rewrite Hdel, Hfin. cbn. by eexists _, _.
  - cbn. by eexists _, _.
Qed.

Lemma unowned_steady r req w a e n :
  unowned r req w a e → faultFree (3 + n) (env w) = true →
  ∃ w' tr a',
    Reconcile r req w
    = (Err (Wrapped "reconciling deployment"
              (Wrapped "setting owner reference on deployment" e)), w', tr)
    ∧ unowned r req w' a' e
    ∧ sameTarget a a'
    ∧ appv1alpha1.Status a' = appv1alpha1.Status a
    ∧ deployments (store w') = deployments (store w)
    ∧ services (store w') = services (store w)
    ∧ childMutations tr = []
    ∧ faultFree n (env w') = true.
Proof.
  intros ((Ha & Hk & Hdel & Hfin & HcP) & Hscr & HcD) Hq.
  destruct (@Get_quiet _ WebApp_Object (ctrl.NamespacedName req) w a (2 + n)
              Ha Hq)
    as (w0 & HG & Hst0 & Hq0).
  assert (Hs0 : synced a w0) by (unfold synced; by rewrite Hst0, Hk).
  destruct (setCondition_quiet r a a appv1alpha1.TypeProgressing
              metav1.ConditionTrue "Reconciling" "reconciliation in progress"
              w0 (1 + n) Hs0 eq_refl Hq0)
    as (w2 & HM & Hs2 & Hd2 & Hsv2 & Hq2).
  set (a2 := statusUpdated (nextRV (store w0)) a
               (conditioned (now (env w0)) a appv1alpha1.TypeProgressing
                  metav1.ConditionTrue "Reconciling"
                  "reconciliation in progress")) in *.
  assert (T2 : sameTarget a a2) by apply sameTarget_statusUpdated.
  assert (S2 : appv1alpha1.Status a2 = appv1alpha1.Status a)
    by (by apply carries_rewrite).
  destruct (sameTarget_registered _ _ T2) as (Hf2 & Hdel2 & Hg2).
  assert (Hscr2 : controllerutil.SetControllerReference a2
                    (appsv1.ObjectMeta (desiredDeployment a2)) (Scheme r)
                  = inl e)
    by (by rewrite (sameTarget_owner r a a2 T2)).
  pose proof (reconcileDeployment_unowned r a2 e w2 Hscr2) as HD.
  set (err := Wrapped "setting owner reference on deployment" e) in *.
  assert (HcD2 : carries a2 appv1alpha1.TypeDegraded metav1.ConditionTrue
                   "DeploymentFailed" (Error err))
    by (by apply (carries_status a a2)).
  destruct (setCondition_quiet r a2 a2 appv1alpha1.TypeDegraded
              metav1.ConditionTrue "DeploymentFailed" (Error err)
              w2 n Hs2 eq_refl Hq2)
    as (w4 & HR & Hs4 & Hd4 & Hsv4 & Hq4).
  set (a4 := statusUpdated (nextRV (store w2)) a2
               (conditioned (now (env w2)) a2 appv1alpha1.TypeDegraded
                  metav1.ConditionTrue "DeploymentFailed" (Error err))) in *.
  assert (T4 : sameTarget a2 a4) by apply sameTarget_statusUpdated.
  assert (S4 : appv1alpha1.Status a4 = appv1alpha1.Status a2)
    by (by apply carries_rewrite).
  assert (T04 : sameTarget a a4) by (by eapply sameTarget_trans).
  destruct (sameTarget_registered _ _ T04) as (Hf4 & Hdel4 & Hg4).
  assert (K4 : keyOf a4 = ctrl.NamespacedName req)
    by (by rewrite (sameTarget_key _ _ T04)).
  exists w4. eexists. exists a4. split.
  { apply Pass_Reconcile.
    eapply (pass_deployment_failed r req w a w0 _ a2 w2 _ err w2 [] _ w4);
      [exact HG|exact Hdel|exact Hfin|exact HM|exact HD|exact HR]. }
  split.
  { split; [|split].
    - split_and!; [by rewrite <- K4|exact K4|congruence|congruence|].
      apply (carries_status a a4); [congruence|done|done].
    - by rewrite (sameTarget_owner r a a4 T04).
    - apply (carries_status a a4); [congruence|done|done]. }
  split; [exact T04|]. split; [congruence|].
  split; [by rewrite Hd4, Hd2, Hst0|]. split; [by rewrite Hsv4, Hsv2, Hst0|].
  split; [reflexivity|exact Hq4].
Qed.

Lemma hollowed_steady r req w a d n :
  hollowed r req w a d → faultFree (3 + n) (env w) = true →
  ∃ w' tr a',
    Reconcile r req w
    = (Panic "runtime error: index out of range [0] with length 0", w', tr)
    ∧ hollowed r req w' a' d
    ∧ sameTarget a a'
    ∧ appv1alpha1.Status a' = appv1alpha1.Status a
    ∧ deployments (store w') = deployments (store w)
    ∧ services (store w') = services (store w)
    ∧ childMutations tr = []
    ∧ faultFree n (env w') = true.
Proof.
  intros ((Ha & Hk & Hdel & Hfin & HcP) & (m & Hscr) & Hd & Hnone) Hq.
  destruct (@Get_quiet _ WebApp_Object (ctrl.NamespacedName req) w a (2 + n)
              Ha Hq)
    as (w0 & HG & Hst0 & Hq0).
  assert (Hs0 : synced a w0) by (unfold synced; by rewrite Hst0, Hk).
  destruct (setCondition_quiet r a a appv1alpha1.TypeProgressing
              metav1.ConditionTrue "Reconciling" "reconciliation in progress"
              w0 (1 + n) Hs0 eq_refl Hq0)
    as (w2 & HM & Hs2 & Hd2 & Hsv2 & Hq2).
  set (a2 := statusUpdated (nextRV (store w0)) a
               (conditioned (now (env w0)) a appv1alpha1.TypeProgressing
                  metav1.ConditionTrue "Reconciling"
                  "reconciliation in progress")) in *.
  assert (T2 : sameTarget a a2) by apply sameTarget_statusUpdated.
  assert (S2 : appv1alpha1.Status a2 = appv1alpha1.Status a)
    by (by apply carries_rewrite).
  destruct (sameTarget_registered _ _ T2) as (Hf2 & Hdel2 & Hg2).
  assert (K2 : keyOf a2 = ctrl.NamespacedName req)
    by (by rewrite (sameTarget_key _ _ T2)).
  assert (Hscr2 : controllerutil.SetControllerReference a2
                    (appsv1.ObjectMeta (desiredDeployment a2)) (Scheme r)
                  = inr m)
    by (by rewrite (sameTarget_owner r a a2 T2)).
  destruct (reconcileDeployment_no_container r a2 w2 d m n Hscr2)
    as (w3 & HD & Hst3 & Hq3); [by rewrite K2, Hd2, Hst0|exact Hnone|exact Hq2|].
  exists w3. eexists. exists a2. split.
  { apply Pass_Reconcile.
    eapply (pass_deployment_panicked r req w a w0 _ a2 w2 _ _ w3);
      [exact HG|exact Hdel|exact Hfin|exact HM|exact HD]. }
  split.
  { split; [|split; [|split]].
    - split_and!; [|exact K2|congruence|congruence|].
      + rewrite Hst3, <- K2. exact Hs2.
      + by apply (carries_status a a2).
    - by exists m.
    - by rewrite Hst3, Hd2, Hst0.
    - exact Hnone. }
  split; [exact T2|]. split; [exact S2|].
  split; [by rewrite Hst3, Hd2, Hst0|]. split; [by rewrite Hst3, Hsv2, Hst0|].
  split; [reflexivity|exact Hq3].
Qed.

(** The environment's faults are the only reason a synchronisation call
    fails, the missing owner reference apart. *)
Ltac no_fault :=
  repeat match goal with
  | Hq : faultFree (S _) ?e = true, He : environment ?e = (_, _) |- _ =>
      let Hn := fresh "Hn" in
      let Hq' := fresh "Hq" in
      destruct (faultFree_environment _ _ _ _ Hq He) as [Hn Hq'];
      clear Hq; try discriminate Hn; clear Hn
  end.

Lemma reconcileDeployment_faultless r a w res w' tr n :
  wfTable (deployments (store w)) →
  faultFree (2 + n) (env w) = true →
  reconcileDeployment r a w = (res, w', tr) →
  faultFree n (env w') = true
  ∧ ∀ e, res = Err e →
      ∃ e0, controllerutil.SetControllerReference a
              (appsv1.ObjectMeta (desiredDeployment a)) (Scheme r) = inl e0
            ∧ e = Wrapped "setting owner reference on deployment" e0.
Proof.
  intros Hwf Hq H. unfold reconcileDeployment in H.
  destruct (controllerutil.SetControllerReference _ _ _) as [e0|m] eqn:Hscr.
  { unfold fail in H. injection H as <- <- <-. split.
    - eapply faultFree_weaken; [|exact Hq]. lia.
    - intros e [= <-]. by exists e0. }
  destruct (SetControllerReference_key _ _ _ _ Hscr) as (Hn & Hns & Hdt).
  assert (Hm : keyOf (appsv1.setObjectMeta m (desiredDeployment a)) = keyOf a)
    by (unfold keyOf; f_equal; [exact Hns|exact Hn]).
  change (metav1.Namespace (appv1alpha1.ObjectMeta a),
          metav1.Name (appv1alpha1.ObjectMeta a)) with (keyOf a) in H.
  unfold bind, attempt, ret, fail, panic in H. red_rec H.
  cbn [plus] in Hq.
  exec H; no_fault; try discriminate.
  all: try (exec_update H Hwf; exec H; no_fault; try discriminate).
  all: try match goal with H1 : _ !! keyOf _ = Some _ |- _ =>
         rewrite Hm in H1; congruence end.
  all: inversion H; subst res w' tr; clear H.
  all: split; [|intros ? ?; discriminate].
  all: cbn [env]; first [assumption|eapply faultFree_weaken; [|eassumption]; lia].
Qed.


Lemma reconcileService_faultless r a w res w' tr n :
  wfTable (services (store w)) →
  faultFree (2 + n) (env w) = true →
  reconcileService r a w = (res, w', tr) →
  faultFree n (env w') = true
  ∧ ∀ e, res = Err e →
      ∃ e0, controllerutil.SetControllerReference a
              (corev1.ObjectMeta (desiredService a)) (Scheme r) = inl e0
            ∧ e = Wrapped "setting owner reference on service" e0.
Proof.
  intros Hwf Hq H. unfold reconcileService in H.
  destruct (controllerutil.SetControllerReference _ _ _) as [e0|m] eqn:Hscr.
  { unfold fail in H. injection H as <- <- <-. split.
    - eapply faultFree_weaken; [|exact Hq]. lia.
    - intros e [= <-]. by exists e0. }
  destruct (SetControllerReference_key _ _ _ _ Hscr) as (Hn & Hns & Hdt).
  assert (Hm : keyOf (corev1.setObjectMeta m (desiredService a)) = keyOf a)
    by (unfold keyOf; f_equal; [exact Hns|exact Hn]).
  change (metav1.Namespace (appv1alpha1.ObjectMeta a),
          metav1.Name (appv1alpha1.ObjectMeta a)) with (keyOf a) in H.
  unfold bind, attempt, ret, fail, panic in H. red_rec H.
  cbn [plus] in Hq.
  exec H; no_fault; try discriminate.
  all: try (exec_update H Hwf; exec H; no_fault; try discriminate).
  all: try match goal with H1 : _ !! keyOf _ = Some _ |- _ =>
         rewrite Hm in H1; congruence end.
  all: inversion H; subst res w' tr; clear H.
  all: split; [|intros ? ?; discriminate].
  all: cbn [env]; first [assumption|eapply faultFree_weaken; [|eassumption]; lia].
Qed.

(** ** The outcomes of a pass that meets no fault *)

Lemma released_idle r req w a n :
  webapps (store w) !! ctrl.NamespacedName req = Some a →
  keyOf a = ctrl.NamespacedName req →
  deletionRequested a = true → hasFinalizer a = true →
  faultFree (2 + n) (env w) = true →
  ∃ w' tr, Reconcile r req w = (Ok ctrl.zeroResult, w', tr) ∧ idle req w'.
Proof.
  intros Ha Hk Hdel Hfin Hq.
  destruct (@Get_quiet _ WebApp_Object (ctrl.NamespacedName req) w a (1 + n)
              Ha Hq)
    as (w0 & HG & Hst0 & Hq0).
  destruct (Update (removeToken a) w0) as [[ru w2] t2] eqn:HU.
  pose proof HU as HU'.
  rewrite (Update_run (removeToken a) a) in HU';
    [|by (red_obj; rewrite keyOf_removeToken, Hk, Hst0)
     |by apply sameVersion_removeToken].
  red_obj. rewrite keyOf_removeToken, Hk in HU'.
  apply faultFree_S in Hq0 as [He _].
  destruct (environment (env w0)) as [[e|] e1]; simpl in He; [done|].
  cbv zeta in HU'. injection HU' as <- <- <-.
  eexists _, _. split.
  { apply Pass_Reconcile.
    eapply (pass_deleting_released r req w a w0 _ _ _ _ HG Hdel Hfin HU). }
  unfold idle. red_obj.
  match goal with |- context [purgeable ?m] => destruct (purgeable m) end.
  - by rewrite lookup_delete_eq.
  - rewrite lookup_insert_eq. split.
    + unfold deletionRequested in *. exact Hdel.
    + unfold hasFinalizer. apply ContainsFinalizer_removed.
Qed.

Lemma registered_pass r req w a res w1 tr :
  wfStore (store w) →
  webapps (store w) !! ctrl.NamespacedName req = Some a →
  deletionRequested a = false → hasFinalizer a = true →
  faultFree 10 (env w) = true →
  Reconcile r req w = (res, w1, tr) →
  (∃ a1 e,
     res = Err (Wrapped "reconciling deployment"
                  (Wrapped "setting owner reference on deployment" e))
     ∧ unowned r req w1 a1 e)
  ∨ (∃ a1 d,
       res = Panic "runtime error: index out of range [0] with length 0"
       ∧ hollowed r req w1 a1 d)
  ∨ res = completed.
Proof.
  intros (Hwa & Hwd & Hws) Ha Hdel Hfin Hq Hrun.
  destruct (Hwa _ _ Ha) as [Hk _].
  destruct (@Get_quiet _ WebApp_Object (ctrl.NamespacedName req) w a 9 Ha Hq)
    as (w0 & HG & Hst0 & Hq0).
  assert (Hs0 : synced a w0) by (unfold synced; by rewrite Hst0, Hk).
  destruct (setCondition_quiet r a a appv1alpha1.TypeProgressing
              metav1.ConditionTrue "Reconciling" "reconciliation in progress"
              w0 8 Hs0 eq_refl Hq0)
    as (w2 & HM & Hs2 & Hd2 & Hsv2 & Hq2).
  set (a2 := statusUpdated (nextRV (store w0)) a
               (conditioned (now (env w0)) a appv1alpha1.TypeProgressing
                  metav1.ConditionTrue "Reconciling"
                  "reconciliation in progress")) in *.
  assert (T2 : sameTarget a a2) by apply sameTarget_statusUpdated.
  destruct (sameTarget_registered _ _ T2) as (Hf2 & Hdel2 & Hg2).
  assert (K2 : keyOf a2 = ctrl.NamespacedName req)
    by (by rewrite (sameTarget_key _ _ T2)).
  assert (C2 : carries a2 appv1alpha1.TypeProgressing metav1.ConditionTrue
                 "Reconciling" "reconciliation in progress")
    by (by apply carries_written).
  assert (Hwd2 : wfTable (deployments (store w2))) by (by rewrite Hd2, Hst0).
  destruct (reconcileDeployment r a2 w2) as [[resD w3] t3] eqn:HD.
  destruct (reconcileDeployment_faultless r a2 w2 resD w3 t3 6 Hwd2 Hq2 HD)
    as (Hq3 & Herr).
  destruct resD as [[]|e|msg].
  - (* the Deployment is synchronised *)
    destruct (reconcileDeployment_ok _ _ _ _ _ Hwd2 HD)
      as (d & m & Hscr & Hld & _ & Hwd3 & Hwa3 & Hsv3).
    assert (Hws3 : wfTable (services (store w3)))
      by (by rewrite Hsv3, Hsv2, Hst0).
    destruct (reconcileService r a2 w3) as [[resS w4] t4] eqn:HS.
    destruct (reconcileService_faultless r a2 w3 resS w4 t4 4 Hws3 Hq3 HS)
      as (Hq4 & Herr4).
    destruct resS as [[]|e|msg].
    + destruct (reconcileService_ok _ _ _ _ _ Hws3 HS)
        as (s & ms & _ & _ & _ & _ & Hwa4 & Hd4).
      destruct (@Get_quiet _ Deployment_Object (keyOf a2) w4 d 3)
        as (w5 & HGd & Hst5 & Hq5); [by (red_obj; rewrite Hd4)|exact Hq4|].
      assert (Hs5 : synced a2 w5).
      { eapply synced_frame; [exact Hs2|]. by rewrite Hst5, Hwa4, Hwa3. }
      destruct (setCondition_quiet r (withObserved a2 d) a2
                  appv1alpha1.TypeAvailable
                  (if 0 <? appsv1.AvailableReplicas (appsv1.Status d)
                   then metav1.ConditionTrue else metav1.ConditionFalse)
                  (if 0 <? appsv1.AvailableReplicas (appsv1.Status d)
                   then "DeploymentAvailable" else "DeploymentUnavailable")
                  (if 0 <? appsv1.AvailableReplicas (appsv1.Status d)
                   then pretty (appsv1.AvailableReplicas (appsv1.Status d))
                        +:+ " replica(s) available"
                   else "no replicas are available yet")
                  w5 2 Hs5 eq_refl Hq5)
        as (w6 & HA & Hs6 & _ & _ & Hq6).
      match type of HA with _ = (Ok ?x, _, _) => set (a6 := x) in * end.
      destruct (setCondition_quiet r a6 a6 appv1alpha1.TypeProgressing
                  metav1.ConditionFalse "ReconcileComplete"
                  "reconciliation complete" w6 1 Hs6 eq_refl Hq6)
        as (w7 & HP & Hs7 & _ & _ & Hq7).
      match type of HP with _ = (Ok ?x, _, _) => set (a7 := x) in * end.
      destruct (setCondition_quiet r a7 a7 appv1alpha1.TypeDegraded
                  metav1.ConditionFalse "ReconcileComplete" "no errors"
                  w7 0 Hs7 eq_refl Hq7)
        as (w8 & HDg & _).
      right. right.
      pose proof (Pass_Reconcile _ _ _ _ _ _
                    (pass_complete r req w a w0 _ a2 w2 _ w3 _ w4 _ d w5 _
                       a6 w6 _ a7 w7 _ _ w8 _
                       HG Hdel Hfin HM HD HS HGd HA HP HDg)) as Hrun'.
      rewrite Hrun' in Hrun. by injection Hrun as <- _ _.
    + destruct (Herr4 e eq_refl) as (e0 & Hscr4 & _).
      rewrite owner_set_same in Hscr4. congruence.
    + by apply reconcileService_no_panic in HS.
  - (* no owner reference can be set *)
    destruct (Herr e eq_refl) as (e0 & Hscr & ->).
    rewrite (reconcileDeployment_unowned r a2 e0 w2 Hscr) in HD.
    injection HD as <- <-.
    set (err := Wrapped "setting owner reference on deployment" e0) in *.
    destruct (setCondition_quiet r a2 a2 appv1alpha1.TypeDegraded
                metav1.ConditionTrue "DeploymentFailed" (Error err)
                w2 7 Hs2 eq_refl Hq2)
      as (w4 & HR & Hs4 & Hd4 & Hsv4 & Hq4).
    set (a4 := statusUpdated (nextRV (store w2)) a2
                 (conditioned (now (env w2)) a2 appv1alpha1.TypeDegraded
                    metav1.ConditionTrue "DeploymentFailed" (Error err))) in *.
    assert (T4 : sameTarget a2 a4) by apply sameTarget_statusUpdated.
    assert (T04 : sameTarget a a4) by (by eapply sameTarget_trans).
    destruct (sameTarget_registered _ _ T04) as (Hf4 & Hdel4 & Hg4).
    assert (K4 : keyOf a4 = ctrl.NamespacedName req)
      by (by rewrite (sameTarget_key _ _ T04)).
    left. exists a4, e0.
    pose proof (Pass_Reconcile _ _ _ _ _ _
                  (pass_deployment_failed r req w a w0 _ a2 w2 _ err w2 [] _
                     w4 _ HG Hdel Hfin HM
                     (reconcileDeployment_unowned r a2 e0 w2 Hscr) HR))
      as Hrun'.
    rewrite Hrun' in Hrun. injection Hrun as <- <- _.
    split; [done|]. split; [|split].
    + split_and!; [by rewrite <- K4|exact K4|congruence|congruence|].
      apply carries_other; [done|by destruct types_distinct as (_ & _ & ?)|done].
    + rewrite <- Hscr. symmetry. apply (sameTarget_owner r a2 a4 T4).
    + by apply carries_written.
  - (* the Deployment lists no container *)
    destruct (reconcileDeployment_panics _ _ _ _ _ _ HD)
      as (d & Hld & Hnone & -> & -> & Hst3).
    right. left. exists a2, d.
    pose proof (Pass_Reconcile _ _ _ _ _ _
                  (pass_deployment_panicked r req w a w0 _ a2 w2 _ _ w3 _
                     HG Hdel Hfin HM HD)) as Hrun'.
    rewrite Hrun' in Hrun. injection Hrun as <- <- _.
    split; [done|]. split; [|split; [|split]].
    + split_and!; [|exact K2|congruence|congruence|exact C2].
      rewrite Hst3, <- K2. exact Hs2.
    + destruct (controllerutil.SetControllerReference a2
                  (appsv1.ObjectMeta (desiredDeployment a2)) (Scheme r))
        as [e0|m] eqn:Hscr; [|by exists m].
      by rewrite (reconcileDeployment_unowned r a2 e0 w2 Hscr) in HD.
    + by rewrite Hst3, <- K2.
    + exact Hnone.
Qed.

Lemma quiet_pass r req w res w1 tr :
  wfStore (store w) →
  (∀ a, webapps (store w) !! ctrl.NamespacedName req = Some a →
        fresh a = false) →
  faultFree 10 (env w) = true →
  Reconcile r req w = (res, w1, tr) →
  (res = Ok ctrl.zeroResult ∧ idle req w1)
  ∨ (∃ a1 e,
       res = Err (Wrapped "reconciling deployment"
                    (Wrapped "setting owner reference on deployment" e))
       ∧ unowned r req w1 a1 e)
  ∨ (∃ a1 d,
       res = Panic "runtime error: index out of range [0] with length 0"
       ∧ hollowed r req w1 a1 d)
  ∨ res = completed.
Proof.
  intros Hwf Hreg Hq Hrun.
  destruct (webapps (store w) !! ctrl.NamespacedName req) as [a|] eqn:Ha.
  - specialize (Hreg a eq_refl). unfold fresh in Hreg.
    destruct (deletionRequested a) eqn:Hdel, (hasFinalizer a) eqn:Hfin;
      try discriminate Hreg.
    + left. destruct Hwf as (Hwa & _). destruct (Hwa _ _ Ha) as [Hk _].
      destruct (released_idle r req w a 8 Ha Hk Hdel Hfin Hq)
        as (w' & tr' & Hrun' & Hidle).
      rewrite Hrun' in Hrun. by injection Hrun as <- <- _.
    + left.
      destruct (idle_steady r req w 9) as (w' & rr & Hrun' & Hst & _);
        [unfold idle; by rewrite Ha|exact Hq|].
      rewrite Hrun' in Hrun. injection Hrun as <- <- _.
      split; [done|]. unfold idle. by rewrite Hst, Ha.
    + right. by eapply registered_pass.
  - left.
    destruct (idle_steady r req w 9) as (w' & rr & Hrun' & Hst & _);
      [unfold idle; by rewrite Ha|exact Hq|].
    rewrite Hrun' in Hrun. injection Hrun as <- <- _.
    split; [done|]. unfold idle. by rewrite Hst, Ha.
Qed.

Lemma identical_same_time a a' t :
  sameObservedAt (metav1.At t) a a' → progressingSince a t →
  appv1alpha1.Status a' = appv1alpha1.Status a.
Proof.
  intros (Hn & Hc) (c & Hf & Ht).
  rewrite (retimed_same _ _ _ c Hf Ht) in Hc. unfold conditionsOf in Hc.
  destruct (appv1alpha1.Status a') as [n' cs'], (appv1alpha1.Status a) as [n cs].
  simpl in *. by subst.
Qed.

(** C3.  Two passes in a row on a WebApp that is not waiting for its
    finalizer, the first running to its end or meeting no fault of the
    environment, the second meeting none.  The second pass returns what the
    first returned.  When the first did not run to its end
    (no WebApp under the key, a deletion under way, no owner reference to
    be set, a Deployment without containers), the claim holds to the
    letter: the second pass issues no child mutation, leaves the children
    as they are, and leaves the WebApp with the identical status, the same
    spec and the same metadata but for the resource version.  When the
    first ran to its end, so does the second: the stored WebApp keeps its
    spec and metadata, its replica count and its list of conditions, every
    condition as it was but the Progressing one, whose transition time
    alone moves, from a reading [t1] of the clock during the first pass to
    a reading [t2] during the second (the pass sets it True and False
    again), so that the status is identical when the two readings are; the
    only child mutations are two updates that submit the stored Deployment
    and Service as they are, and the store keeps them under a new resource
    version. *)
Theorem C3_second_pass_changes_nothing r req w res1 w1 tr1 res2 w2 tr2
    (Hwf : wfStore (store w))
    (Hreg : ∀ a, webapps (store w) !! ctrl.NamespacedName req = Some a →
                 fresh a = false)
    (Hrun1 : Reconcile r req w = (res1, w1, tr1))
    (Hquiet1 : res1 = completed ∨ faultFree 10 (env w) = true)
    (Hquiet2 : faultFree 10 (env w1) = true)
    (Hrun2 : Reconcile r req w1 = (res2, w2, tr2)) :
  res2 = res1
  ∧ (res1 ≠ completed →
       idempotentAt r req w
       ∧ childMutations tr2 = []
       ∧ deployments (store w2) = deployments (store w1)
       ∧ services (store w2) = services (store w1)
       ∧ identicalObserved
           (webapps (store w1) !! ctrl.NamespacedName req)
           (webapps (store w2) !! ctrl.NamespacedName req)
       ∧ match webapps (store w1) !! ctrl.NamespacedName req,
               webapps (store w2) !! ctrl.NamespacedName req with
         | Some a1, Some a2 => sameTarget a1 a2
         | None, None => True
         | _, _ => False
         end)
  ∧ (res1 = completed →
       ∃ a1 d1 s1 a2 rvd rvs t1 t2,
         webapps (store w1) !! ctrl.NamespacedName req = Some a1
         ∧ deployments (store w1) !! ctrl.NamespacedName req = Some d1
         ∧ services (store w1) !! ctrl.NamespacedName req = Some s1
         ∧ webapps (store w2) !! ctrl.NamespacedName req = Some a2
         ∧ sameTarget a1 a2
         ∧ appv1alpha1.AvailableReplicas (appv1alpha1.Status a2)
           = appv1alpha1.AvailableReplicas (appv1alpha1.Status a1)
         ∧ conditionsOf a2
           = retimed appv1alpha1.TypeProgressing (metav1.At t2)
               (conditionsOf a1)
         ∧ progressingSince a1 t1
         ∧ (now (env w) ≤ t1 ≤ now (env w1))%N
         ∧ (now (env w1) ≤ t2 ≤ now (env w2))%N
         ∧ (t2 = t1 → identicalObserved (Some a1) (Some a2))
         ∧ deployments (store w2)
           = <[ctrl.NamespacedName req := restampedDeployment rvd d1]>
               (deployments (store w1))
         ∧ services (store w2)
           = <[ctrl.NamespacedName req := restampedService rvs s1]>
               (services (store w1))
         ∧ childMutations tr2
           = [EUpdate (ODeployment d1)
                (Ok (ODeployment (restampedDeployment rvd d1)));
              EUpdate (OService s1)
                (Ok (OService (restampedService rvs s1)))]).
Proof.
  assert (Hcases :
    (res1 = Ok ctrl.zeroResult ∧ idle req w1)
    ∨ (∃ a1 e,
         res1 = Err (Wrapped "reconciling deployment"
                       (Wrapped "setting owner reference on deployment" e))
         ∧ unowned r req w1 a1 e)
    ∨ (∃ a1 d,
         res1 = Panic "runtime error: index out of range [0] with length 0"
         ∧ hollowed r req w1 a1 d)
    ∨ res1 = completed).
  { destruct Hquiet1 as [->|Hq1]; [by repeat right|].
    by eapply quiet_pass. }
  destruct Hcases as [(-> & Hidle)|[(a1 & e & -> & Hun)|[(a1 & d & -> & Hho)| ->]]].
  - (* nothing to do *)
    destruct (idle_steady r req w1 9 Hidle Hquiet2)
      as (w' & rr & Hrun' & Hst & _).
    rewrite Hrun' in Hrun2. injection Hrun2 as <- <- <-.
    split; [done|]. split; [|intros [=]]. intros _.
    assert (Hid : identicalObserved
                    (webapps (store w1) !! ctrl.NamespacedName req)
                    (webapps (store w') !! ctrl.NamespacedName req))
      by (by rewrite Hst).
    split.
    { unfold idempotentAt. rewrite Hrun1. cbn [fst snd]. rewrite Hrun'.
      cbn [fst snd]. split; [exact Hid|by right]. }
    split; [done|]. rewrite Hst. split_and!; try done.
    destruct (webapps (store w1) !! ctrl.NamespacedName req) as [a|];
      [apply sameTarget_refl|done].
  - (* no owner reference can be set *)
    destruct (unowned_steady r req w1 a1 e 7 Hun Hquiet2)
      as (w' & tr' & a' & Hrun' & Hun' & HT & HS & Hd & Hs & Hm & _).
    rewrite Hrun' in Hrun2. injection Hrun2 as <- <- <-.
    split; [done|]. split; [|intros [=]]. intros _.
    destruct Hun as ((Ha1 & _) & _). destruct Hun' as ((Ha' & _) & _).
    assert (Hid : identicalObserved
                    (webapps (store w1) !! ctrl.NamespacedName req)
                    (webapps (store w') !! ctrl.NamespacedName req))
      by (rewrite Ha1, Ha'; unfold identicalObserved; simpl; by rewrite HS).
    split.
    { unfold idempotentAt. rewrite Hrun1. cbn [fst snd]. rewrite Hrun'.
      cbn [fst snd]. split; [exact Hid|by right]. }
    split; [done|]. split; [done|]. split; [done|]. split; [exact Hid|].
    by rewrite Ha1, Ha'.
  - (* the Deployment lists no container *)
    destruct (hollowed_steady r req w1 a1 d 7 Hho Hquiet2)
      as (w' & tr' & a' & Hrun' & Hho' & HT & HS & Hd & Hs & Hm & _).
    rewrite Hrun' in Hrun2. injection Hrun2 as <- <- <-.
    split; [done|]. split; [|intros [=]]. intros _.
    destruct Hho as ((Ha1 & _) & _). destruct Hho' as ((Ha' & _) & _).
    assert (Hid : identicalObserved
                    (webapps (store w1) !! ctrl.NamespacedName req)
                    (webapps (store w') !! ctrl.NamespacedName req))
      by (rewrite Ha1, Ha'; unfold identicalObserved; simpl; by rewrite HS).
    split.
    { unfold idempotentAt. rewrite Hrun1. cbn [fst snd]. rewrite Hrun'.
      cbn [fst snd]. split; [exact Hid|by right]. }
    split; [done|]. split; [done|]. split; [done|]. split; [exact Hid|].
    by rewrite Ha1, Ha'.
  - (* the first pass ran to its end *)
    destruct (complete_settles _ _ _ _ _ Hwf Hrun1) as (a1 & d1 & s1 & Hset).
    destruct (complete_since _ _ _ _ _ Hwf Hrun1)
      as (a1' & t1 & Ha1' & Hsince & Ht1).
    destruct (settled_steady _ _ _ _ _ _ 0 Hset Hquiet2)
      as (w' & tr' & a2 & rvd & rvs & t2 & Hrun' & Hset2 & HT & HO & Ht2
          & Hd & Hs & Hm & _).
    rewrite Hrun' in Hrun2. injection Hrun2 as <- <- <-.
    destruct Hset as (Ha1 & Hd1 & Hs1 & _). destruct Hset2 as (Ha2 & _).
    assert (a1' = a1) as -> by congruence.
    split; [done|]. split; [by intros []|]. intros _.
    exists a1, d1, s1, a2, rvd, rvs, t1, t2.
    destruct HO as (HOn & HOc).
    split_and!; try done; try lia.
    intros ->. unfold identicalObserved. simpl. f_equal.
    by apply (identical_same_time a1 a2 t1).
Qed.

Lemma Scenario_worldOf_wf a sc :
  keyOf a = Scenario.key → purgeable (appv1alpha1.ObjectMeta a) = false →
  wfStore (store (Scenario.worldOf a sc)).
Proof.
  intros Hk Hp. split_and!; simpl.
  - by apply wfTable_singleton.
  - intros k o. by rewrite lookup_empty.
  - intros k o. by rewrite lookup_empty.
Qed.

(** C3, the claim as stated fails, in four ways.  On a WebApp without the
    finalizer the first pass only registers the finalizer: it leaves no
    status and touches no child, and the second pass creates both children
    and writes the status.  On a registered WebApp with a clock that moves,
    the status after the second pass is not the one after the first: the
    transition time of the Progressing condition has moved.  On a registered
    WebApp without children, even with a clock that stands still (so that
    the status stays identical), the second pass issues child mutations
    that are not those of the first: two updates where the first pass
    created; and the updates of a third pass are not those of the second,
    since they submit the resource versions the second left.  And when the
    store refuses a call of the first pass, the second pass changes the
    status the first left (Degraded turns False). *)
Lemma C3_first_pass_only_registers :
  ¬ idempotentAt Scenario.reconciler Scenario.req Scenario.fresh0
  ∧ childMutations (Scenario.traceOf Scenario.fresh0) = []
  ∧ length (childMutations
              (Scenario.traceOf (Scenario.worldAfter Scenario.fresh0))) = 2%nat
  ∧ ¬ identicalObserved
        (Scenario.storedWebApp (Scenario.worldAfter Scenario.fresh0))
        (Scenario.storedWebApp
           (Scenario.worldAfter (Scenario.worldAfter Scenario.fresh0)))
  ∧ ¬ idempotentAt Scenario.reconciler Scenario.req Scenario.ticking
  ∧ ¬ identicalObserved
        (Scenario.storedWebApp (Scenario.worldAfter Scenario.ticking))
        (Scenario.storedWebApp
           (Scenario.worldAfter (Scenario.worldAfter Scenario.ticking)))
  ∧ ¬ idempotentAt Scenario.reconciler Scenario.req Scenario.registered0
  ∧ identicalObserved
      (Scenario.storedWebApp (Scenario.worldAfter Scenario.registered0))
      (Scenario.storedWebApp
         (Scenario.worldAfter (Scenario.worldAfter Scenario.registered0)))
  ∧ ¬ idempotentAt Scenario.reconciler Scenario.req
        (Scenario.worldAfter Scenario.registered0)
  ∧ ¬ idempotentAt Scenario.reconciler Scenario.req Scenario.createFails.
Proof.
  set (progressingTime := λ st : appv1alpha1.WebAppStatus,
         metav1.LastTransitionTime
           <$> meta.FindStatusCondition (appv1alpha1.Conditions st)
                 appv1alpha1.TypeProgressing).
  set (degraded := λ st : appv1alpha1.WebAppStatus,
         metav1.Status
           <$> meta.FindStatusCondition (appv1alpha1.Conditions st)
                 appv1alpha1.TypeDegraded).
  set (isCreate := λ e : Event,
         match e with ECreate _ _ => true | _ => false end).
  set (version := λ e : Event,
         match e with
         | EUpdate (ODeployment d) _ =>
             metav1.ResourceVersion (appsv1.ObjectMeta d)
         | EUpdate (OService s) _ =>
             metav1.ResourceVersion (corev1.ObjectMeta s)
         | _ => 0%N
         end).
  assert (Hfresh : ¬ identicalObserved
            (Scenario.storedWebApp (Scenario.worldAfter Scenario.fresh0))
            (Scenario.storedWebApp
               (Scenario.worldAfter (Scenario.worldAfter Scenario.fresh0)))).
  { unfold identicalObserved. intros H.
    apply (f_equal (fmap (λ st, length (appv1alpha1.Conditions st)))) in H.
    revert H. vm_compute. discriminate. }
  assert (Htick : ¬ identicalObserved
            (Scenario.storedWebApp (Scenario.worldAfter Scenario.ticking))
            (Scenario.storedWebApp
               (Scenario.worldAfter (Scenario.worldAfter Scenario.ticking)))).
  { unfold identicalObserved. intros H.
    apply (f_equal (fmap progressingTime)) in H.
    revert H. vm_compute. discriminate. }
  split; [intros [H _]; exact (Hfresh H)|].
  split; [vm_compute; reflexivity|]. split; [vm_compute; reflexivity|].
  split; [exact Hfresh|].
  split; [intros [H _]; exact (Htick H)|].
  split; [exact Htick|].
  split.
  { intros [_ [H|H]].
    - apply (f_equal (fmap isCreate)) in H. revert H. vm_compute. discriminate.
    - apply (f_equal length) in H. revert H. vm_compute. discriminate. }
  split; [vm_compute; reflexivity|].
  split.
  { intros [_ [H|H]].
    - apply (f_equal (fmap version)) in H. revert H. vm_compute. discriminate.
    - apply (f_equal length) in H. revert H. vm_compute. discriminate. }
  intros [H _]. unfold identicalObserved in H.
  apply (f_equal (fmap degraded)) in H. revert H. vm_compute. discriminate.
Qed.

Lemma Scenario_hollow_wf : wfStore (store Scenario.hollow).
Proof.
  split_and!; simpl.
  - apply wfTable_singleton; vm_compute; reflexivity.
  - apply wfTable_singleton; vm_compute; reflexivity.
  - intros k o. by rewrite lookup_empty.
Qed.

Lemma C3_second_pass_changes_nothing_witness :
  (Scenario.resultOf (Scenario.worldAfter Scenario.ticking) = completed
   ∧ ∃ a1 a2 t2,
       Scenario.storedWebApp (Scenario.worldAfter Scenario.ticking) = Some a1
       ∧ Scenario.storedWebApp
           (Scenario.worldAfter (Scenario.worldAfter Scenario.ticking))
         = Some a2
       ∧ conditionsOf a2
         = retimed appv1alpha1.TypeProgressing (metav1.At t2) (conditionsOf a1)
       ∧ length (childMutations
                   (Scenario.traceOf (Scenario.worldAfter Scenario.ticking)))
         = 2%nat)
  ∧ (Scenario.resultOf (Scenario.worldAfter Scenario.hollow)
     = Scenario.resultOf Scenario.hollow
     ∧ idempotentAt Scenario.reconciler Scenario.req Scenario.hollow)
  ∧ idempotentAt Scenario.kindless Scenario.req Scenario.registered0.
Proof.
  split; [|split].
  - assert (Hres : Scenario.resultOf Scenario.ticking = completed)
      by (vm_compute; reflexivity).
    assert (Hreg : ∀ a, webapps (store Scenario.ticking)
                          !! ctrl.NamespacedName Scenario.req = Some a →
                        fresh a = false).
    { intros a. simpl. rewrite lookup_singleton_eq. by intros [= <-]. }
    assert (Hq2 : faultFree 10 (env (Scenario.worldAfter Scenario.ticking))
                  = true) by (vm_compute; reflexivity).
    pose proof (C3_second_pass_changes_nothing
                  Scenario.reconciler Scenario.req Scenario.ticking
                  _ _ _ _ _ _
                  (Scenario_worldOf_wf Scenario.registered _ eq_refl eq_refl)
                  Hreg
                  (Scenario_run Scenario.ticking)
                  (or_introl Hres) Hq2
                  (Scenario_run (Scenario.worldAfter Scenario.ticking)))
      as (Hsame & _ & Hsteady).
    split; [by rewrite Hsame|].
    destruct (Hsteady Hres)
      as (a1 & d1 & s1 & a2 & rvd & rvs & t1 & t2 & Ha1 & _ & _ & Ha2 & _ & _
          & Hc & _ & _ & _ & _ & _ & _ & Hm).
    exists a1, a2, t2. split; [exact Ha1|]. split; [exact Ha2|].
    split; [exact Hc|]. rewrite Hm. reflexivity.
  - assert (Hres : Scenario.resultOf Scenario.hollow ≠ completed)
      by (intros H; revert H; vm_compute; discriminate).
    assert (Hreg : ∀ a, webapps (store Scenario.hollow)
                          !! ctrl.NamespacedName Scenario.req = Some a →
                        fresh a = false).
    { intros a. simpl. rewrite lookup_singleton_eq. by intros [= <-]. }
    assert (Hq1 : faultFree 10 (env Scenario.hollow) = true)
      by (vm_compute; reflexivity).
    assert (Hq2 : faultFree 10 (env (Scenario.worldAfter Scenario.hollow))
                  = true) by (vm_compute; reflexivity).
    pose proof (C3_second_pass_changes_nothing
                  Scenario.reconciler Scenario.req Scenario.hollow
                  _ _ _ _ _ _
                  Scenario_hollow_wf
                  Hreg
                  (Scenario_run Scenario.hollow)
                  (or_intror Hq1) Hq2
                  (Scenario_run (Scenario.worldAfter Scenario.hollow)))
      as (Hsame & Hstuck & _).
    split; [exact Hsame|]. by destruct (Hstuck Hres) as (Hid & _).
  - set (run1 := Reconcile Scenario.kindless Scenario.req Scenario.registered0).
    set (run2 := Reconcile Scenario.kindless Scenario.req run1.1.2).
    assert (Hres : run1.1.1 ≠ completed)
      by (intros H; revert H; vm_compute; discriminate).
    assert (Hreg : ∀ a, webapps (store Scenario.registered0)
                          !! ctrl.NamespacedName Scenario.req = Some a →
                        fresh a = false).
    { intros a. simpl. rewrite lookup_singleton_eq. by intros [= <-]. }
    assert (Hq1 : faultFree 10 (env Scenario.registered0) = true)
      by (vm_compute; reflexivity).
    assert (Hq2 : faultFree 10 (env run1.1.2) = true)
      by (vm_compute; reflexivity).
    pose proof (C3_second_pass_changes_nothing
                  Scenario.kindless Scenario.req Scenario.registered0
                  _ _ _ _ _ _
                  (Scenario_worldOf_wf Scenario.registered _ eq_refl eq_refl)
                  Hreg (run_eta run1) (or_intror Hq1) Hq2 (run_eta run2))
      as (_ & Hstuck & _).
    by destruct (Hstuck Hres) as (Hid & _).
Defined.

(** ** Further properties of a pass *)

Lemma Scenario_run_inv w res w' tr :
  Reconcile Scenario.reconciler Scenario.req w = (res, w', tr) →
  Scenario.resultOf w = res ∧ Scenario.worldAfter w = w'
  ∧ Scenario.traceOf w = tr.
Proof.
  unfold Scenario.resultOf, Scenario.worldAfter, Scenario.traceOf.
  by intros ->.
Qed.

(** A pass for a key under which no WebApp is stored is a no-op: one
    read, no write, success with the zero result (no requeue). *)
Theorem Reconcile_absent_is_noop r req w
    (Habsent : webapps (store w) !! ctrl.NamespacedName req = None)
    (Hquiet : faultFree 1 (env w) = true) :
  ∃ w', Reconcile r req w
        = (Ok ctrl.zeroResult, w',
           [EGet KWebApp (ctrl.NamespacedName req)
              (Err (NewNotFound "webapps.app.54b3r.io"
                      (ctrl.NamespacedName req).2))])
        ∧ store w' = store w.
Proof.
  apply faultFree_S in Hquiet as [He _].
  unfold Reconcile, bind, attempt. rewrite Get_run. red_obj.
  destruct (environment (env w)) as [[e|] e1]; simpl in He; [done|].
  rewrite Habsent. simpl. by eexists.
Qed.

Lemma Reconcile_absent_is_noop_witness :
  Scenario.storedWebApp (Scenario.worldAfter Scenario.deleting0) = None
  ∧ Scenario.resultOf (Scenario.worldAfter Scenario.deleting0)
    = Ok ctrl.zeroResult
  ∧ store (Scenario.worldAfter (Scenario.worldAfter Scenario.deleting0))
    = store (Scenario.worldAfter Scenario.deleting0).
Proof.
  assert (Ha : webapps (store (Scenario.worldAfter Scenario.deleting0))
               !! ctrl.NamespacedName Scenario.req = None)
    by (vm_compute; reflexivity).
  destruct (Reconcile_absent_is_noop Scenario.reconciler Scenario.req
              (Scenario.worldAfter Scenario.deleting0) Ha)
    as (w' & Hrun & Hst); [vm_compute; reflexivity|].
  destruct (Scenario_run_inv _ _ _ _ Hrun) as (Hr & Hw & _).
  split; [exact Ha|]. split; [exact Hr|]. rewrite Hw. exact Hst.
Defined.

(** The three results of a successful pass: nothing to do (no requeue),
    finalizer registered (immediate requeue), reconciled (requeue after one
    minute). *)
Theorem Reconcile_results r req w res w' tr
    (Hrun : Reconcile r req w = (Ok res, w', tr)) :
  res = ctrl.zeroResult
  ∨ res = {| ctrl.Requeue := true; ctrl.RequeueAfter := 0 |}
  ∨ res = {| ctrl.Requeue := false; ctrl.RequeueAfter := 60 * 1000000000 |}.
Proof. apply Reconcile_Pass in Hrun. inversion Hrun; subst; auto. Qed.

Lemma Reconcile_results_witness :
  Scenario.resultOf Scenario.registered0
  = Ok {| ctrl.Requeue := false; ctrl.RequeueAfter := 60 * 1000000000 |}
  ∧ ({| ctrl.Requeue := false; ctrl.RequeueAfter := 60 * 1000000000 |}
     = ctrl.zeroResult
     ∨ {| ctrl.Requeue := false; ctrl.RequeueAfter := 60 * 1000000000 |}
       = {| ctrl.Requeue := true; ctrl.RequeueAfter := 0 |}
     ∨ {| ctrl.Requeue := false; ctrl.RequeueAfter := 60 * 1000000000 |}
       = {| ctrl.Requeue := false; ctrl.RequeueAfter := 60 * 1000000000 |}).
Proof.
  assert (Hres : Scenario.resultOf Scenario.registered0
                 = Ok {| ctrl.Requeue := false;
                         ctrl.RequeueAfter := 60 * 1000000000 |})
    by (vm_compute; reflexivity).
  split; [exact Hres|].
  apply (Reconcile_results Scenario.reconciler Scenario.req
           Scenario.registered0 _ (Scenario.worldAfter Scenario.registered0)
           (Scenario.traceOf Scenario.registered0)).
  rewrite Scenario_run, Hres. reflexivity.
Defined.

Lemma reconcileDeployment_calls r a w res w' tr :
  reconcileDeployment r a w = (res, w', tr) → (length tr ≤ 2)%nat.
Proof.
  unfold reconcileDeployment.
  destruct (controllerutil.SetControllerReference _ _ _) as [e|m]; intros H.
  { inv_run. simpl. lia. }
  inv_run; cbv beta iota zeta in *.
  all: repeat match goal with
       | H : context [IsNotFound ?e] |- _ => destruct (IsNotFound e)
       | H : match ?l with [] => _ | _ :: _ => _ end _ = _ |- _ =>
           destruct l
       end; inv_run.
  all: repeat match goal with
       | H : Get _ _ = _ |- _ => apply Get_trace in H
       | H : Create _ _ = _ |- _ => apply Create_trace in H
       | H : Update _ _ = _ |- _ => apply Update_trace in H
       end; subst; simpl; lia.
Qed.

Lemma reconcileService_calls r a w res w' tr :
  reconcileService r a w = (res, w', tr) → (length tr ≤ 2)%nat.
Proof.
  unfold reconcileService.
  destruct (controllerutil.SetControllerReference _ _ _) as [e|m]; intros H.
  { inv_run. simpl. lia. }
  inv_run; cbv beta iota zeta in *.
  all: repeat match goal with
       | H : context [IsNotFound ?e] |- _ => destruct (IsNotFound e)
       end; inv_run.
  all: repeat match goal with
       | H : Get _ _ = _ |- _ => apply Get_trace in H
       | H : Create _ _ = _ |- _ => apply Create_trace in H
       | H : Update _ _ = _ |- _ => apply Update_trace in H
       end; subst; simpl; lia.
Qed.

(** A pass issues at least one and at most ten requests to the API server,
    the first being the read of the WebApp. *)
Theorem Reconcile_at_most_ten_requests r req w res w' tr
    (Hrun : Reconcile r req w = (res, w', tr)) :
  (1 ≤ length tr ≤ 10)%nat
  ∧ ∃ rr, head tr = Some (EGet KWebApp (ctrl.NamespacedName req) rr).
Proof.
  apply Reconcile_Pass in Hrun.
  inversion Hrun; subst; clear Hrun;
    unfold markProgressing, reportDegraded, writeAvailable, clearProgressing,
      clearDegraded in *.
  all: repeat match goal with
       | H : Get _ _ = _ |- _ => apply Get_trace in H
       | H : Update _ _ = _ |- _ => apply Update_trace in H
       | H : setCondition _ _ _ _ _ _ _ = _ |- _ =>
           apply setCondition_trace in H as [? H]
       | H : reconcileDeployment _ _ _ = _ |- _ =>
           apply reconcileDeployment_calls in H
       | H : reconcileService _ _ _ = _ |- _ =>
           apply reconcileService_calls in H
       end; subst.
  all: split; [rewrite ?length_app; simpl; lia|by eexists].
Qed.

Lemma Reconcile_at_most_ten_requests_witness :
  length (Scenario.traceOf Scenario.registered0) = 10%nat
  ∧ (1 ≤ length (Scenario.traceOf Scenario.registered0) ≤ 10)%nat.
Proof.
  split; [vm_compute; reflexivity|].
  apply (Reconcile_at_most_ten_requests Scenario.reconciler Scenario.req
           Scenario.registered0 _ _ _ (Scenario_run Scenario.registered0)).
Defined.

(** ** The owner reference and the creation of the children *)

Lemma owner_reference_set r a gvk :
  runtime.gvkForWebApp (Scheme r) = Some gvk →
  controllerutil.SetControllerReference a
    (appsv1.ObjectMeta (desiredDeployment a)) (Scheme r)
  = inr (metav1.setOwnerReferences [controllerRef gvk a]
           (appsv1.ObjectMeta (desiredDeployment a))).
Proof.
  intros Hgvk. unfold controllerutil.SetControllerReference. rewrite Hgvk.
  destruct gvk as [v k].
  assert (Hv : controllerutil.validateOwner (appv1alpha1.ObjectMeta a)
                 (appsv1.ObjectMeta (desiredDeployment a)) = None).
  { unfold controllerutil.validateOwner. simpl.
    repeat case_bool_decide; done. }
  rewrite Hv. reflexivity.
Qed.

(** With the kind registered in the scheme and no fault, the
    synchronisation of a missing Deployment creates it: named like the
    WebApp, controlled by it, with the replicas of the spec (one when the
    spec gives none), one container [webapp] running the image on the port,
    and the labels of the WebApp as selector and pod labels. *)
Theorem reconcileDeployment_creates r (a : appv1alpha1.WebApp) w gvk
    (Hgvk : runtime.gvkForWebApp (Scheme r) = Some gvk)
    (Habsent : deployments (store w) !! keyOf a = None)
    (Hquiet : faultFree 2 (env w) = true) :
  ∃ w' d tr,
    reconcileDeployment r a w = (Ok tt, w', tr)
    ∧ deployments (store w') = <[keyOf a := d]> (deployments (store w))
    ∧ childMutations tr
      = [ECreate
           (ODeployment
              (appsv1.setObjectMeta
                 (metav1.setOwnerReferences [controllerRef gvk a]
                    (appsv1.ObjectMeta (desiredDeployment a)))
                 (desiredDeployment a)))
           (Ok (ODeployment d))]
    ∧ keyOf d = keyOf a
    ∧ metav1.OwnerReferences (appsv1.ObjectMeta d) = [controllerRef gvk a]
    ∧ appsv1.Replicas (appsv1.Spec d) = Some (desiredReplicas a)
    ∧ appsv1.Selector (appsv1.Spec d)
      = Some {| metav1.MatchLabels :=
                  labelsForWebApp (metav1.Name (appv1alpha1.ObjectMeta a)) |}
    ∧ metav1.Labels (corev1.TemplateMeta (appsv1.Template (appsv1.Spec d)))
      = labelsForWebApp (metav1.Name (appv1alpha1.ObjectMeta a))
    ∧ corev1.Containers
        (corev1.TemplateSpec (appsv1.Template (appsv1.Spec d)))
      = [ {| corev1.Name := "webapp";
             corev1.Image := appv1alpha1.Image (appv1alpha1.Spec a);
             corev1.Ports :=
               [ {| corev1.PortName := EmptyString; corev1.HostPort := 0;
                    corev1.ContainerPort_ :=
                      appv1alpha1.Port (appv1alpha1.Spec a);
                    corev1.Protocol := "TCP" |} ];
             corev1.Env := []; corev1.Resources := ∅ |} ].
Proof.
  apply faultFree_S in Hquiet as [He1 [He2 _]%faultFree_S].
  unfold reconcileDeployment. rewrite (owner_reference_set r a gvk Hgvk).
  change (metav1.Namespace (appv1alpha1.ObjectMeta a),
          metav1.Name (appv1alpha1.ObjectMeta a)) with (keyOf a).
  unfold bind, attempt, ret. rewrite Get_run. red_obj.
  destruct (environment (env w)) as [[e|] e1]; simpl in He1, He2; [done|].
  rewrite Habsent. cbv beta iota zeta.
  change (IsNotFound (NewNotFound _ _)) with true. cbv beta iota zeta.
  rewrite Create_run. red_obj.
  destruct (environment e1) as [[e|] e2]; simpl in He2; [done|].
  match goal with |- context [_ !! keyOf ?obj] =>
    change (keyOf obj) with (keyOf a)
  end.
  rewrite Habsent. cbv beta iota zeta. red_obj.
  eexists _, _, _. split; [reflexivity|]. red_obj.
  split; [reflexivity|]. split; [reflexivity|].
  unfold desiredReplicas. split_and!; reflexivity.
Qed.

Lemma reconcileDeployment_creates_witness :
  ∃ d, deployments
         (store (Scenario.syncDeployment Scenario.registered0).1.2)
       !! Scenario.key = Some d
       ∧ appsv1.Replicas (appsv1.Spec d) = Some 2
       ∧ metav1.OwnerReferences (appsv1.ObjectMeta d)
         = [controllerRef ("app.54b3r.io/v1alpha1", "WebApp")
              (Scenario.marked Scenario.registered0)].
Proof.
  destruct (reconcileDeployment_creates Scenario.reconciler
              (Scenario.marked Scenario.registered0)
              (Scenario.mark Scenario.registered0).1.2
              ("app.54b3r.io/v1alpha1", "WebApp"))
    as (w' & d & tr & Hrun & Hst & _ & Hk & Ho & Hr & _);
    [reflexivity|vm_compute; reflexivity|vm_compute; reflexivity|].
  exists d. unfold Scenario.syncDeployment. rewrite Hrun. simpl.
  rewrite Hst.
  change (keyOf (Scenario.marked Scenario.registered0)) with Scenario.key.
  rewrite lookup_insert_eq. split; [reflexivity|]. split; [|exact Ho].
  rewrite Hr. reflexivity.
Defined.

Lemma owner_reference_set_service r a gvk :
  runtime.gvkForWebApp (Scheme r) = Some gvk →
  controllerutil.SetControllerReference a
    (corev1.ObjectMeta (desiredService a)) (Scheme r)
  = inr (metav1.setOwnerReferences [controllerRef gvk a]
           (corev1.ObjectMeta (desiredService a))).
Proof. apply owner_reference_set. Qed.

(** Likewise a missing Service is created: named like the WebApp,
    controlled by it, of type ClusterIP, selecting the labels of the WebApp
    and forwarding the port of the spec to the same container port. *)
Theorem reconcileService_creates r (a : appv1alpha1.WebApp) w gvk
    (Hgvk : runtime.gvkForWebApp (Scheme r) = Some gvk)
    (Habsent : services (store w) !! keyOf a = None)
    (Hquiet : faultFree 2 (env w) = true) :
  ∃ w' s tr,
    reconcileService r a w = (Ok tt, w', tr)
    ∧ services (store w') = <[keyOf a := s]> (services (store w))
    ∧ childMutations tr
      = [ECreate
           (OService
              (corev1.setObjectMeta
                 (metav1.setOwnerReferences [controllerRef gvk a]
                    (corev1.ObjectMeta (desiredService a)))
                 (desiredService a)))
           (Ok (OService s))]
    ∧ keyOf s = keyOf a
    ∧ metav1.OwnerReferences (corev1.ObjectMeta s) = [controllerRef gvk a]
    ∧ corev1.Type_ (corev1.Spec s) = "ClusterIP"
    ∧ corev1.Selector (corev1.Spec s)
      = labelsForWebApp (metav1.Name (appv1alpha1.ObjectMeta a))
    ∧ corev1.SvcPorts (corev1.Spec s)
      = [ {| corev1.SvcPortName := EmptyString;
             corev1.SvcProtocol := "TCP";
             corev1.Port := appv1alpha1.Port (appv1alpha1.Spec a);
             corev1.TargetPort :=
               intstr.IntVal (appv1alpha1.Port (appv1alpha1.Spec a));
             corev1.NodePort := 0 |} ].
Proof.
  apply faultFree_S in Hquiet as [He1 [He2 _]%faultFree_S].
  unfold reconcileService. rewrite (owner_reference_set_service r a gvk Hgvk).
  change (metav1.Namespace (appv1alpha1.ObjectMeta a),
          metav1.Name (appv1alpha1.ObjectMeta a)) with (keyOf a).
  unfold bind, attempt, ret. rewrite Get_run. red_obj.
  destruct (environment (env w)) as [[e|] e1]; simpl in He1, He2; [done|].
  rewrite Habsent. cbv beta iota zeta.
  change (IsNotFound (NewNotFound _ _)) with true. cbv beta iota zeta.
  rewrite Create_run. red_obj.
  destruct (environment e1) as [[e|] e2]; simpl in He2; [done|].
  match goal with |- context [_ !! keyOf ?obj] =>
    change (keyOf obj) with (keyOf a)
  end.
  rewrite Habsent. cbv beta iota zeta. red_obj.
  eexists _, _, _. split; [reflexivity|]. red_obj.
  split; [reflexivity|]. split; [reflexivity|]. split_and!; reflexivity.
Qed.

Lemma reconcileService_creates_witness :
  ∃ s, services (store (Scenario.syncService Scenario.registered0).1.2)
       !! Scenario.key = Some s
       ∧ corev1.Type_ (corev1.Spec s) = "ClusterIP"
       ∧ metav1.OwnerReferences (corev1.ObjectMeta s)
         = [controllerRef ("app.54b3r.io/v1alpha1", "WebApp")
              (Scenario.marked Scenario.registered0)].
Proof.
  destruct (reconcileService_creates Scenario.reconciler
              (Scenario.marked Scenario.registered0)
              (Scenario.syncDeployment Scenario.registered0).1.2
              ("app.54b3r.io/v1alpha1", "WebApp"))
    as (w' & s & tr & Hrun & Hst & _ & Hk & Ho & Ht & _);
    [reflexivity|vm_compute; reflexivity|vm_compute; reflexivity|].
  exists s. unfold Scenario.syncService. rewrite Hrun. simpl.
  rewrite Hst.
  change (keyOf (Scenario.marked Scenario.registered0)) with Scenario.key.
  rewrite lookup_insert_eq. split; [reflexivity|]. split; [exact Ht|exact Ho].
Defined.


(** ** The owned fields after a synchronisation *)

(** Whatever the Deployment was, after a successful synchronisation the
    stored Deployment has the replicas of the spec (one when the spec gives
    none) and its first container runs the image of the spec on the port
    of the spec. *)
Theorem reconcileDeployment_restores_owned_fields r
    (a : appv1alpha1.WebApp) w w' tr
    (Hwf : wfTable (deployments (store w)))
    (Hrun : reconcileDeployment r a w = (Ok tt, w', tr)) :
  ∃ d c0 rest,
    deployments (store w') !! keyOf a = Some d
    ∧ corev1.Containers (corev1.TemplateSpec (appsv1.Template (appsv1.Spec d)))
      = c0 :: rest
    ∧ appsv1.Replicas (appsv1.Spec d) = Some (desiredReplicas a)
    ∧ corev1.Image c0 = appv1alpha1.Image (appv1alpha1.Spec a)
    ∧ (corev1.ContainerPort_ <$> corev1.Ports c0)
      = [appv1alpha1.Port (appv1alpha1.Spec a)].
Proof.
  destruct (reconcileDeployment_ok _ _ _ _ _ Hwf Hrun)
    as (d & m & _ & Hl & (c0 & rest & Hc & Hd) & _).
  exists d, c0, rest. split; [done|]. split; [done|].
  assert (Hc' := Hc). rewrite <- Hd in Hc'. simpl in Hc'.
  injection Hc' as Hc0.
  split_and!.
  - rewrite <- Hd. simpl. unfold desiredReplicas.
    by destruct (appv1alpha1.Replicas (appv1alpha1.Spec a)).
  - by rewrite <- Hc0.
  - by rewrite <- Hc0.
Qed.

Lemma reconcileDeployment_restores_owned_fields_witness :
  wfTable (deployments (store Scenario.tuned))
  ∧ ∃ d, Scenario.deploymentAfter Scenario.tuned = Some d
         ∧ appsv1.Replicas (appsv1.Spec d) = Some 2.
Proof.
  assert (Hwf : wfTable (deployments (store Scenario.tuned)))
    by (destruct Scenario_tuned_wf as (_ & H & _); exact H).
  split; [exact Hwf|].
  set (run := reconcileDeployment Scenario.reconciler Scenario.registered
                Scenario.tuned).
  assert (Hres : run.1.1 = Ok tt) by (vm_compute; reflexivity).
  destruct (reconcileDeployment_restores_owned_fields Scenario.reconciler
              Scenario.registered Scenario.tuned run.1.2 run.2 Hwf)
    as (d & c0 & rest & Hl & _ & Hr & _).
  { rewrite <- Hres. apply run_eta. }
  exists d. split; [exact Hl|exact Hr].
Defined.

(** Likewise the stored Service has the port of the spec, forwarded to the
    same target port, and selects the labels of the WebApp. *)
Theorem reconcileService_restores_owned_fields r
    (a : appv1alpha1.WebApp) w w' tr
    (Hwf : wfTable (services (store w)))
    (Hrun : reconcileService r a w = (Ok tt, w', tr)) :
  ∃ s,
    services (store w') !! keyOf a = Some s
    ∧ corev1.Selector (corev1.Spec s)
      = labelsForWebApp (metav1.Name (appv1alpha1.ObjectMeta a))
    ∧ (corev1.Port <$> corev1.SvcPorts (corev1.Spec s))
      = [appv1alpha1.Port (appv1alpha1.Spec a)]
    ∧ (corev1.TargetPort <$> corev1.SvcPorts (corev1.Spec s))
      = [intstr.IntVal (appv1alpha1.Port (appv1alpha1.Spec a))].
Proof.
  destruct (reconcileService_ok _ _ _ _ _ Hwf Hrun)
    as (s & m & _ & Hl & Hs & _).
  exists s. split; [done|]. unfold serviceCarries in Hs.
  split_and!; by rewrite <- Hs.
Qed.

Lemma reconcileService_restores_owned_fields_witness :
  wfTable (services (store Scenario.tuned))
  ∧ ∃ s, Scenario.serviceAfter Scenario.tuned = Some s
         ∧ (corev1.Port <$> corev1.SvcPorts (corev1.Spec s)) = [8080].
Proof.
  assert (Hwf : wfTable (services (store Scenario.tuned)))
    by (destruct Scenario_tuned_wf as (_ & _ & H); exact H).
  split; [exact Hwf|].
  set (run := reconcileService Scenario.reconciler Scenario.registered
                Scenario.tuned).
  assert (Hres : run.1.1 = Ok tt) by (vm_compute; reflexivity).
  destruct (reconcileService_restores_owned_fields Scenario.reconciler
              Scenario.registered Scenario.tuned run.1.2 run.2 Hwf)
    as (s & Hl & _ & Hp & _).
  { rewrite <- Hres. apply run_eta. }
  exists s. split; [exact Hl|exact Hp].
Defined.

(** ** The index into the containers of an existing Deployment *)

Lemma setCondition_keeps_children r a ty st rs msg w res w' tr :
  setCondition r a ty st rs msg w = (res, w', tr) →
  deployments (store w') = deployments (store w)
  ∧ services (store w') = services (store w).
Proof.
  unfold setCondition, Now, bind, wrapErr. rewrite StatusUpdate_cases.
  destruct (environment (env w)) as [[e|] e1];
    [|destruct (webapps (store w) !! _) as [s|];
      [destruct (sameVersion _ s)|]];
    by intros [= <- <- <-].
Qed.

(** A pass panics only at the index into the containers of an existing
    Deployment that lists none; by then it has issued no child create or
    update. *)
Theorem Reconcile_panics_only_on_empty_containers r req w msg w' tr
    (Hrun : Reconcile r req w = (Panic msg, w', tr)) :
  msg = "runtime error: index out of range [0] with length 0"
  ∧ childMutations tr = []
  ∧ ∃ k d, deployments (store w) !! k = Some d
           ∧ corev1.Containers
               (corev1.TemplateSpec (appsv1.Template (appsv1.Spec d))) = [].
Proof.
  apply Reconcile_Pass in Hrun. inversion Hrun; subst; clear Hrun.
  unfold markProgressing in *.
  match goal with
  | HG : Get _ w = _, HM : setCondition _ _ _ _ _ _ _ = _,
    HD : reconcileDeployment _ _ _ = _ |- _ =>
      pose proof (Get_trace _ _ _ _ _ HG) as ->;
      apply Get_ok_stored in HG as (_ & Hst);
      pose proof (setCondition_trace _ _ _ _ _ _ _ _ _ _ HM) as [rr ->];
      apply setCondition_keeps_children in HM as (Hd & _);
      apply reconcileDeployment_panics in HD as (d & Hl & Hc & -> & -> & _)
  end.
  split; [done|]. split; [reflexivity|]. eexists _, d. split; [|done].
  by rewrite <- Hst, <- Hd.
Qed.

Lemma reconcileDeployment_hollow r (a : appv1alpha1.WebApp) w d gvk n :
  runtime.gvkForWebApp (Scheme r) = Some gvk →
  deployments (store w) !! keyOf a = Some d →
  corev1.Containers (corev1.TemplateSpec (appsv1.Template (appsv1.Spec d)))
  = [] →
  faultFree (S n) (env w) = true →
  ∃ w', reconcileDeployment r a w
        = (Panic "runtime error: index out of range [0] with length 0", w',
           [EGet KDeployment (keyOf a) (Ok (ODeployment d))])
        ∧ store w' = store w.
Proof.
  intros Hgvk Hl Hc [He _]%faultFree_S.
  unfold reconcileDeployment. rewrite (owner_reference_set r a gvk Hgvk).
  change (metav1.Namespace (appv1alpha1.ObjectMeta a),
          metav1.Name (appv1alpha1.ObjectMeta a)) with (keyOf a).
  unfold bind, attempt, ret, panic. rewrite Get_run. red_obj.
  destruct (environment (env w)) as [[e|] e1]; simpl in He; [done|].
  rewrite Hl. cbv beta iota zeta.
  change (corev1.Containers (corev1.TemplateSpec (appsv1.Template (appsv1.Spec
            (appsv1.setSpec (appsv1.setReplicas ?x (appsv1.Spec d)) d)))))
    with (corev1.Containers (corev1.TemplateSpec (appsv1.Template (appsv1.Spec d)))).
  rewrite Hc.
  simpl (corev1.Containers _). cbv beta iota zeta. by eexists.
Qed.

(** And it does panic there: for a registered WebApp whose Deployment
    lists no container a pass without faults writes the Progressing mark,
    reads the Deployment and panics; the WebApp is left Progressing=True and
    no child is written. *)
Theorem Reconcile_panics_on_empty_containers r req w a d gvk
    (Hlook : webapps (store w) !! ctrl.NamespacedName req = Some a)
    (Hkey : keyOf a = ctrl.NamespacedName req)
    (Hdel : deletionRequested a = false)
    (Hfin : hasFinalizer a = true)
    (Hgvk : runtime.gvkForWebApp (Scheme r) = Some gvk)
    (Hdep : deployments (store w) !! ctrl.NamespacedName req = Some d)
    (Hnone : corev1.Containers
               (corev1.TemplateSpec (appsv1.Template (appsv1.Spec d))) = [])
    (Hquiet : faultFree 3 (env w) = true) :
  ∃ w' tr a' c,
    Reconcile r req w
    = (Panic "runtime error: index out of range [0] with length 0", w', tr)
    ∧ childMutations tr = []
    ∧ deployments (store w') = deployments (store w)
    ∧ webapps (store w') !! ctrl.NamespacedName req = Some a'
    ∧ meta.FindStatusCondition (conditionsOf a') appv1alpha1.TypeProgressing
      = Some c
    ∧ metav1.Status c = metav1.ConditionTrue
    ∧ metav1.Reason c = "Reconciling".
Proof.
  destruct (@Get_quiet _ WebApp_Object (ctrl.NamespacedName req) w a 2
              Hlook Hquiet) as (w0 & HG & Hst0 & Hq0).
  assert (Hs0 : synced a w0) by (unfold synced; by rewrite Hst0, Hkey).
  destruct (setCondition_quiet r a a appv1alpha1.TypeProgressing
              metav1.ConditionTrue "Reconciling" "reconciliation in progress"
              w0 1 Hs0 eq_refl Hq0)
    as (w2 & HM & Hs2 & Hd2 & Hsv2 & Hq2).
  match type of HM with _ = (Ok ?x, _, _) => set (a2 := x) in * end.
  destruct (reconcileDeployment_hollow r a2 w2 d gvk 0 Hgvk)
    as (w3 & HD & Hst3); [|done|done|].
  { change (keyOf a2) with (keyOf a). by rewrite Hd2, Hst0, Hkey. }
  destruct (find_SetStatusCondition_same (now (env w0)) (conditionsOf a)
              (newCondition a appv1alpha1.TypeProgressing metav1.ConditionTrue
                 "Reconciling" "reconciliation in progress"))
    as (c & Hc & _ & Hcs & Hcr & _).
  exists w3. eexists. exists a2, c. split.
  { apply Pass_Reconcile. eapply pass_deployment_panicked; eauto. }
  split; [reflexivity|]. split; [by rewrite Hst3, Hd2, Hst0|].
  split; [rewrite Hst3, <- Hkey; exact Hs2|]. by split_and!.
Qed.

Lemma Reconcile_panics_on_empty_containers_witness :
  Scenario.resultOf Scenario.hollow
  = Panic "runtime error: index out of range [0] with length 0".
Proof.
  destruct (Reconcile_panics_on_empty_containers Scenario.reconciler
              Scenario.req Scenario.hollow Scenario.registered
              Scenario.hollowDeployment ("app.54b3r.io/v1alpha1", "WebApp"))
    as (w' & tr & a' & c & Hrun & _);
    [vm_compute; reflexivity|reflexivity|reflexivity|reflexivity|reflexivity
    |vm_compute; reflexivity|reflexivity|reflexivity|].
  by destruct (Scenario_run_inv _ _ _ _ Hrun) as (-> & _).
Defined.

Lemma Reconcile_panics_only_on_empty_containers_witness :
  childMutations (Scenario.traceOf Scenario.hollow) = [].
Proof.
  assert (Hres : Scenario.resultOf Scenario.hollow
                 = Panic "runtime error: index out of range [0] with length 0")
    by (vm_compute; reflexivity).
  destruct (Reconcile_panics_only_on_empty_containers Scenario.reconciler
              Scenario.req Scenario.hollow
              "runtime error: index out of range [0] with length 0"
              (Scenario.worldAfter Scenario.hollow)
              (Scenario.traceOf Scenario.hollow)) as (_ & Hm & _).
  { rewrite Scenario_run, Hres. reflexivity. }
  exact Hm.
Defined.

(** ** Deletion when another controller holds a finalizer *)

(** The deletion pass removes the operator's finalizer and no other: the
    finalizers of other controllers stay, in their order, and with them the
    WebApp, unchanged but for the resource version. *)
Theorem deletion_keeps_foreign_finalizers r req w a
    (Hlook : webapps (store w) !! ctrl.NamespacedName req = Some a)
    (Hkey : keyOf a = ctrl.NamespacedName req)
    (Hdel : deletionRequested a = true)
    (Hfin : hasFinalizer a = true)
    (Hother : ∃ f, f ∈ metav1.Finalizers (appv1alpha1.ObjectMeta a)
                   ∧ f ≠ webappFinalizer)
    (Hquiet : faultFree 2 (env w) = true) :
  ∃ w' tr a',
    Reconcile r req w = (Ok ctrl.zeroResult, w', tr)
    ∧ webapps (store w') !! ctrl.NamespacedName req = Some a'
    ∧ metav1.Finalizers (appv1alpha1.ObjectMeta a')
      = List.filter (λ f, negb (bool_decide (f = webappFinalizer)))
          (metav1.Finalizers (appv1alpha1.ObjectMeta a))
    ∧ metav1.Finalizers (appv1alpha1.ObjectMeta a') ≠ []
    ∧ appv1alpha1.Spec a' = appv1alpha1.Spec a
    ∧ appv1alpha1.Status a' = appv1alpha1.Status a
    ∧ metav1.DeletionTimestamp (appv1alpha1.ObjectMeta a')
      = metav1.DeletionTimestamp (appv1alpha1.ObjectMeta a)
    ∧ metav1.Generation (appv1alpha1.ObjectMeta a')
      = metav1.Generation (appv1alpha1.ObjectMeta a).
Proof.
  destruct Hother as (f & Hf & Hne).
  destruct (@Get_quiet _ WebApp_Object (ctrl.NamespacedName req) w a 1
              Hlook Hquiet) as (w0 & HG & Hst0 & Hq0).
  apply faultFree_S in Hq0 as [He _].
  assert (Hl0 : webapps (store w0) !! keyOf (removeToken a) = Some a)
    by (rewrite Hst0; change (keyOf (removeToken a)) with (keyOf a);
        by rewrite Hkey).
  pose proof (Update_run (removeToken a) a w0 Hl0
                (sameVersion_removeToken a)) as HU.
  destruct (environment (env w0)) as [[e|] e1]; simpl in He; [done|].
  cbv zeta in HU. red_obj.
  set (a' := updated (nextRV (store w0)) a (removeToken a)) in *.
  assert (Hfs : metav1.Finalizers (appv1alpha1.ObjectMeta a')
                = List.filter (λ f, negb (bool_decide (f = webappFinalizer)))
                    (metav1.Finalizers (appv1alpha1.ObjectMeta a)))
    by reflexivity.
  assert (Hin : f ∈ metav1.Finalizers (appv1alpha1.ObjectMeta a')).
  { rewrite Hfs. apply list_elem_of_In, filter_In. split.
    - by apply list_elem_of_In.
    - by rewrite bool_decide_eq_false_2. }
  assert (Hnp : purgeable (appv1alpha1.ObjectMeta a') = false).
  { unfold purgeable. apply andb_false_iff. right.
    apply bool_decide_eq_false_2. intros Hnil. rewrite Hnil in Hin.
    by apply elem_of_nil in Hin. }
  rewrite Hnp in HU.
  eexists _, _, a'. split.
  { apply Pass_Reconcile. eapply pass_deleting_released; eauto. }
  split.
  { red_obj. change (keyOf (removeToken a)) with (keyOf a). rewrite Hkey.
    apply lookup_insert_eq. }
  split; [exact Hfs|]. split.
  { intros Hnil. rewrite Hnil in Hin. by apply elem_of_nil in Hin. }
  split_and!; try reflexivity.
  unfold a', updated. red_obj. simpl.
  by rewrite bool_decide_eq_true_2.
Qed.

Lemma deletion_keeps_foreign_finalizers_witness :
  ∃ a', Scenario.storedWebApp (Scenario.worldAfter Scenario.heldByAnother)
        = Some a'
        ∧ metav1.Finalizers (appv1alpha1.ObjectMeta a')
          = ["example.com/backup"].
Proof.
  destruct (deletion_keeps_foreign_finalizers Scenario.reconciler Scenario.req
              Scenario.heldByAnother
              (Scenario.demo ["example.com/backup"; webappFinalizer]
                 (Some (metav1.At 90%N))))
    as (w' & tr & a' & Hrun & Hl & Hf & _);
    [vm_compute; reflexivity|reflexivity|reflexivity|reflexivity| |reflexivity|].
  { exists "example.com/backup". split; [left|done]. }
  destruct (Scenario_run_inv _ _ _ _ Hrun) as (_ & Hw & _).
  exists a'. unfold Scenario.storedWebApp. rewrite Hw.
  split; [exact Hl|]. rewrite Hf. reflexivity.
Defined.

(** ** One condition per type, and its transition time *)

Lemma updateFirst_types now l c :
  metav1.Type_ <$> meta.updateFirst now l c = metav1.Type_ <$> l.
Proof.
  induction l as [|x l IH]; [done|]. cbn [meta.updateFirst].
  case_bool_decide as Hx; rewrite !fmap_cons.
  - f_equal. by destruct (mergeCondition_agrees now x c Hx) as (-> & _).
  - by rewrite IH.
Qed.

Lemma find_None_types l ty :
  meta.FindStatusCondition l ty = None → ty ∉ metav1.Type_ <$> l.
Proof.
  induction l as [|x l IH]; simpl.
  - intros _. apply not_elem_of_nil.
  - case_bool_decide; [done|]. intros Hf. apply not_elem_of_cons. auto.
Qed.

Lemma SetStatusCondition_types now l c :
  metav1.Type_ <$> meta.SetStatusCondition now l c
  = match meta.FindStatusCondition l (metav1.Type_ c) with
    | Some _ => metav1.Type_ <$> l
    | None => (metav1.Type_ <$> l) ++ [metav1.Type_ c]
    end.
Proof.
  unfold meta.SetStatusCondition.
  destruct (meta.FindStatusCondition l (metav1.Type_ c)) eqn:Hf.
  - apply updateFirst_types.
  - rewrite fmap_app. simpl. by destruct (metav1.Time_IsZero _).
Qed.

(** [setCondition] submits the conditions with the type written exactly
    once: a list without a repeated type stays so, gaining the type only
    when it is new; the other conditions stay as they are.  The transition
    time of the condition written is kept when its status does not change
    and is the time of the call otherwise. *)
Theorem setCondition_one_condition_per_type r a ty st rs msg w res w' tr
    (Hrun : setCondition r a ty st rs msg w = (res, w', tr)) :
  ∃ obj rr c,
    tr = [EStatusUpdate (OWebApp obj) rr]
    ∧ (NoDup (metav1.Type_ <$> conditionsOf a) →
       NoDup (metav1.Type_ <$> conditionsOf obj))
    ∧ (metav1.Type_ <$> conditionsOf obj)
      = match meta.FindStatusCondition (conditionsOf a) ty with
        | Some _ => metav1.Type_ <$> conditionsOf a
        | None => (metav1.Type_ <$> conditionsOf a) ++ [ty]
        end
    ∧ (∀ ty', ty' ≠ ty →
         meta.FindStatusCondition (conditionsOf obj) ty'
         = meta.FindStatusCondition (conditionsOf a) ty')
    ∧ meta.FindStatusCondition (conditionsOf obj) ty = Some c
    ∧ metav1.Status c = st
    ∧ metav1.LastTransitionTime c
      = match meta.FindStatusCondition (conditionsOf a) ty with
        | Some e =>
            if bool_decide (metav1.Status e = st)
            then metav1.LastTransitionTime e
            else metav1.At (now (env w))
        | None => metav1.At (now (env w))
        end.
Proof.
  destruct (setCondition_trace _ _ _ _ _ _ _ _ _ _ Hrun) as [rr ->].
  destruct (find_SetStatusCondition_time (now (env w)) (conditionsOf a)
              (newCondition a ty st rs msg) eq_refl) as (c & Hc & Ht).
  destruct (find_SetStatusCondition_same (now (env w)) (conditionsOf a)
              (newCondition a ty st rs msg)) as (c' & Hc' & _ & Hst & _).
  assert (c' = c) as -> by congruence.
  pose proof (SetStatusCondition_types (now (env w)) (conditionsOf a)
                (newCondition a ty st rs msg)) as Hty.
  simpl in Hty, Hc, Ht, Hst.
  eexists _, rr, c. split; [reflexivity|].
  change (conditionsOf (conditioned (now (env w)) a ty st rs msg))
    with (meta.SetStatusCondition (now (env w)) (conditionsOf a)
            (newCondition a ty st rs msg)).
  split_and!; try done.
  - intros Hnd. rewrite Hty.
    destruct (meta.FindStatusCondition (conditionsOf a) ty) eqn:Hf; [done|].
    apply NoDup_app. split_and!; [done| |apply NoDup_singleton].
    intros x Hx ->%list_elem_of_singleton.
    by apply find_None_types in Hf.
  - intros ty' Hne. by apply find_SetStatusCondition_other.
Qed.

Lemma setCondition_one_condition_per_type_witness :
  ∃ obj rr,
    (Scenario.mark Scenario.registered0).2 = [EStatusUpdate (OWebApp obj) rr]
    ∧ (metav1.Type_ <$> conditionsOf obj) = ["Progressing"].
Proof.
  destruct (setCondition_one_condition_per_type Scenario.reconciler
              Scenario.registered
              appv1alpha1.TypeProgressing metav1.ConditionTrue "Reconciling"
              "reconciliation in progress"
              (Scenario.fetch Scenario.registered0).1.2
              (Scenario.mark Scenario.registered0).1.1
              (Scenario.mark Scenario.registered0).1.2
              (Scenario.mark Scenario.registered0).2
              (run_eta (Scenario.mark Scenario.registered0)))
    as (obj & rr & c & Htr & _ & Hty & _).
  exists obj, rr. split; [exact Htr|exact Hty].
Defined.

(** ** Errors name the step that failed *)




(** ** A pass touches only the objects of its key *)

Lemma agreeOutside_refl {A} (k : types.NamespacedName) (t : gmap types.NamespacedName A) :
  agreeOutside k t t.
Proof. by intros k' _. Qed.

Lemma agreeOutside_trans {A} (k : types.NamespacedName) (t1 t2 t3 : gmap types.NamespacedName A) :
  agreeOutside k t1 t2 → agreeOutside k t2 t3 → agreeOutside k t1 t3.
Proof. intros H1 H2 k' Hk. by rewrite H2, H1. Qed.

Lemma agreeOutside_insert {A} (k : types.NamespacedName) (t : gmap types.NamespacedName A) x :
  agreeOutside k t (<[k := x]> t).
Proof. intros k' Hk. by rewrite lookup_insert_ne. Qed.

Lemma agreeOutside_delete {A} (k : types.NamespacedName) (t : gmap types.NamespacedName A) :
  agreeOutside k t (delete k t).
Proof. intros k' Hk. by rewrite lookup_delete_ne. Qed.

Lemma wfTable_delete `{Object A} (t : gmap types.NamespacedName A)
    (k : types.NamespacedName) :
  wfTable t → wfTable (delete k t).
Proof.
  intros Hwf k' o. destruct (decide (k = k')) as [<-|Hne].
  - by rewrite lookup_delete_eq.
  - rewrite lookup_delete_ne by done. apply Hwf.
Qed.

Lemma touchesOnly_refl k w : touchesOnly k w w.
Proof. split_and!; apply agreeOutside_refl. Qed.

Lemma touchesOnly_trans k w1 w2 w3 :
  touchesOnly k w1 w2 → touchesOnly k w2 w3 → touchesOnly k w1 w3.
Proof.
  intros (? & ? & ?) (? & ? & ?). split_and!; by eapply agreeOutside_trans.
Qed.

Lemma touchesOnly_store k w w' : store w' = store w → touchesOnly k w w'.
Proof. intros Hs. unfold touchesOnly. rewrite Hs. apply touchesOnly_refl. Qed.

(** Opens a write into its outcomes and settles the frame of each. *)
Ltac frame_write H :=
  red_obj;
  repeat match type of H with
  | context [match environment ?e with _ => _ end] =>
      destruct (environment e) as [[?|] ?]
  | context [match ?t !! ?k with _ => _ end] =>
      let Hl := fresh "Hl" in destruct (t !! k) eqn:Hl
  | context [if sameVersion ?x ?y then _ else _] => destruct (sameVersion x y)
  | context [if purgeable ?x then _ else _] =>
      let Hp := fresh "Hp" in destruct (purgeable x) eqn:Hp
  | _ => progress (cbv beta iota zeta in H)
  end;
  injection H as <- <- <-; red_obj.

Lemma StatusUpdate_frame obj w res w' tr :
  wfStore (store w) →
  StatusUpdate obj w = (res, w', tr) →
  wfStore (store w')
  ∧ touchesOnly (keyOf obj) w w'
  ∧ ∀ y, res = Ok y → keyOf y = keyOf obj.
Proof.
  intros (Hwa & Hwd & Hws) H. rewrite StatusUpdate_cases in H.
  frame_write H.
  all: try (split_and!; [done|by apply touchesOnly_store|done]).
  destruct (Hwa _ _ Hl) as [Hk Hp]. split_and!.
  - split_and!; [|done|done]. by apply wfTable_insert.
  - split_and!; [apply agreeOutside_insert|apply agreeOutside_refl..].
  - by intros y [= <-].
Qed.

Lemma Update_webapp_frame (obj : appv1alpha1.WebApp) w res w' tr :
  wfStore (store w) →
  Update obj w = (res, w', tr) →
  wfStore (store w')
  ∧ touchesOnly (keyOf obj) w w'
  ∧ ∀ y, res = Ok y →
         keyOf y = keyOf obj ∧ appv1alpha1.Spec y = appv1alpha1.Spec obj.
Proof.
  intros (Hwa & Hwd & Hws) H. rewrite Update_cases in H.
  frame_write H.
  all: try (split_and!; [done|by apply touchesOnly_store|done]).
  all: destruct (Hwa _ _ Hl) as [Hk _]; split_and!.
  - split_and!; [|done|done]. by apply wfTable_delete.
  - split_and!; [apply agreeOutside_delete|apply agreeOutside_refl..].
  - by intros y [= <-].
  - split_and!; [|done|done]. by apply wfTable_insert.
  - split_and!; [apply agreeOutside_insert|apply agreeOutside_refl..].
  - by intros y [= <-].
Qed.

Lemma Update_deployment_frame (obj : appsv1.Deployment) w res w' tr :
  wfStore (store w) →
  Update obj w = (res, w', tr) →
  wfStore (store w') ∧ touchesOnly (keyOf obj) w w'.
Proof.
  intros (Hwa & Hwd & Hws) H. rewrite Update_cases in H.
  frame_write H.
  all: try (split_and!; [done|by apply touchesOnly_store]).
  all: destruct (Hwd _ _ Hl) as [Hk _]; split_and!.
  - split_and!; [done| |done]. by apply wfTable_delete.
  - split_and!; [|apply agreeOutside_delete|]; apply agreeOutside_refl.
  - split_and!; [done| |done]. by apply wfTable_insert.
  - split_and!; [|apply agreeOutside_insert|]; apply agreeOutside_refl.
Qed.

Lemma Update_service_frame (obj : corev1.Service) w res w' tr :
  wfStore (store w) →
  Update obj w = (res, w', tr) →
  wfStore (store w') ∧ touchesOnly (keyOf obj) w w'.
Proof.
  intros (Hwa & Hwd & Hws) H. rewrite Update_cases in H.
  frame_write H.
  all: try (split_and!; [done|by apply touchesOnly_store]).
  all: destruct (Hws _ _ Hl) as [Hk _]; split_and!.
  - split_and!; [done|done|]. by apply wfTable_delete.
  - split_and!; [| |apply agreeOutside_delete]; apply agreeOutside_refl.
  - split_and!; [done|done|]. by apply wfTable_insert.
  - split_and!; [| |apply agreeOutside_insert]; apply agreeOutside_refl.
Qed.

Lemma Create_deployment_frame (obj : appsv1.Deployment) w res w' tr :
  wfStore (store w) →
  Create obj w = (res, w', tr) →
  wfStore (store w') ∧ touchesOnly (keyOf obj) w w'.
Proof.
  intros (Hwa & Hwd & Hws) H. rewrite Create_run in H.
  frame_write H.
  all: try (split_and!; [done|by apply touchesOnly_store]).
  split_and!.
  - split_and!; [done| |done]. by apply wfTable_insert.
  - split_and!; [|apply agreeOutside_insert|]; apply agreeOutside_refl.
Qed.

Lemma Create_service_frame (obj : corev1.Service) w res w' tr :
  wfStore (store w) →
  Create obj w = (res, w', tr) →
  wfStore (store w') ∧ touchesOnly (keyOf obj) w w'.
Proof.
  intros (Hwa & Hwd & Hws) H. rewrite Create_run in H.
  frame_write H.
  all: try (split_and!; [done|by apply touchesOnly_store]).
  split_and!.
  - split_and!; [done|done|]. by apply wfTable_insert.
  - split_and!; [| |apply agreeOutside_insert]; apply agreeOutside_refl.
Qed.

Lemma touchesOnly_after_read k w w1 w2 :
  store w1 = store w → touchesOnly k w1 w2 → touchesOnly k w w2.
Proof.
  intros Hs H. eapply touchesOnly_trans; [|exact H]. by apply touchesOnly_store.
Qed.

Lemma reconcileDeployment_touches r (a : appv1alpha1.WebApp) w res w' tr :
  wfStore (store w) →
  reconcileDeployment r a w = (res, w', tr) →
  wfStore (store w') ∧ touchesOnly (keyOf a) w w'.
Proof.
  intros Hwf. unfold reconcileDeployment.
  destruct (controllerutil.SetControllerReference _ _ _) as [e|m] eqn:Hscr;
    intros H.
  { inv_run. split; [done|apply touchesOnly_refl]. }
  destruct (SetControllerReference_key _ _ _ _ Hscr) as (Hn & Hns & _).
  change (metav1.Namespace (appv1alpha1.ObjectMeta a),
          metav1.Name (appv1alpha1.ObjectMeta a)) with (keyOf a) in H.
  inv_run; cbv beta iota zeta in *.
  all: repeat match goal with
       | H : context [IsNotFound ?e] |- _ => destruct (IsNotFound e)
       | H : match ?l with [] => _ | _ :: _ => _ end _ = _ |- _ =>
           destruct l
       end; inv_run.
  all: assert (Hm : keyOf (appsv1.setObjectMeta m (desiredDeployment a))
                    = keyOf a)
         by (unfold keyOf; f_equal; [exact Hns|exact Hn]).
  all: match goal with
       | HG : Get _ _ = (_, ?w1, _) |- _ =>
           pose proof (Get_store _ _ _ _ _ HG) as Hst;
           assert (Hwf1 : wfStore (store w1)) by (by rewrite Hst)
       end.
  all: try match goal with
       | HC : Create _ _ = _ |- _ =>
           apply (Create_deployment_frame _ _ _ _ _ Hwf1) in HC as [? HT];
           rewrite Hm in HT
       | HG : Get _ _ = (Ok ?d, _, _), HU : Update _ _ = _ |- _ =>
           pose proof (Get_ok_stored _ _ _ _ _ HG) as [Hl _]; red_obj;
           destruct (proj1 (proj2 Hwf) _ _ Hl) as [Hkd _];
           apply (Update_deployment_frame _ _ _ _ _ Hwf1) in HU as [? HT];
           match type of HT with
           | touchesOnly ?k _ _ => change k with (keyOf d) in HT
           end;
           rewrite Hkd in HT
       end.
  all: try (split; [done|by eapply touchesOnly_after_read]).
  all: split; [by rewrite Hst|by apply touchesOnly_store].
Qed.

Lemma reconcileService_touches r (a : appv1alpha1.WebApp) w res w' tr :
  wfStore (store w) →
  reconcileService r a w = (res, w', tr) →
  wfStore (store w') ∧ touchesOnly (keyOf a) w w'.
Proof.
  intros Hwf. unfold reconcileService.
  destruct (controllerutil.SetControllerReference _ _ _) as [e|m] eqn:Hscr;
    intros H.
  { inv_run. split; [done|apply touchesOnly_refl]. }
  destruct (SetControllerReference_key _ _ _ _ Hscr) as (Hn & Hns & _).
  change (metav1.Namespace (appv1alpha1.ObjectMeta a),
          metav1.Name (appv1alpha1.ObjectMeta a)) with (keyOf a) in H.
  inv_run; cbv beta iota zeta in *.
  all: repeat match goal with
       | H : context [IsNotFound ?e] |- _ => destruct (IsNotFound e)
       end; inv_run.
  all: assert (Hm : keyOf (corev1.setObjectMeta m (desiredService a))
                    = keyOf a)
         by (unfold keyOf; f_equal; [exact Hns|exact Hn]).
  all: match goal with
       | HG : Get _ _ = (_, ?w1, _) |- _ =>
           pose proof (Get_store _ _ _ _ _ HG) as Hst;
           assert (Hwf1 : wfStore (store w1)) by (by rewrite Hst)
       end.
  all: try match goal with
       | HC : Create _ _ = _ |- _ =>
           apply (Create_service_frame _ _ _ _ _ Hwf1) in HC as [? HT];
           rewrite Hm in HT
       | HG : Get _ _ = (Ok ?d, _, _), HU : Update _ _ = _ |- _ =>
           pose proof (Get_ok_stored _ _ _ _ _ HG) as [Hl _]; red_obj;
           destruct (proj2 (proj2 Hwf) _ _ Hl) as [Hkd _];
           apply (Update_service_frame _ _ _ _ _ Hwf1) in HU as [? HT];
           match type of HT with
           | touchesOnly ?k _ _ => change k with (keyOf d) in HT
           end;
           rewrite Hkd in HT
       end.
  all: try (split; [done|by eapply touchesOnly_after_read]).
  all: split; [by rewrite Hst|by apply touchesOnly_store].
Qed.

Lemma setCondition_touches r a ty st rs msg w res w' tr :
  wfStore (store w) →
  setCondition r a ty st rs msg w = (res, w', tr) →
  wfStore (store w')
  ∧ touchesOnly (keyOf a) w w'
  ∧ ∀ y, res = Ok y → keyOf y = keyOf a.
Proof.
  intros Hwf. unfold setCondition, Now, bind, wrapErr.
  destruct (StatusUpdate _ _) as [[res0 w0] t0] eqn:HS.
  destruct (StatusUpdate_frame _ _ _ _ _ Hwf HS) as (Hwf' & HT & Hk).
  destruct res0; intros [= <- <- <-]; by split_and!.
Qed.

(** Follows the store through the calls of a pass found in the context:
    after each call it is well formed and differs from the first only under
    the key of the pass. *)
Ltac touch k :=
  repeat match goal with
  | Hwf : wfStore (store ?wi), HT : touchesOnly _ ?w0 ?wi,
    H : Get _ ?wi = (_, ?wj, _) |- _ =>
      lazymatch goal with
      | _ : touchesOnly _ w0 wj |- _ => fail
      | _ =>
          let Hst := fresh "Hst" in
          pose proof (Get_store _ _ _ _ _ H) as Hst;
          assert (wfStore (store wj)) by (rewrite Hst; exact Hwf);
          assert (touchesOnly k w0 wj)
            by (eapply touchesOnly_trans;
                [exact HT|by apply touchesOnly_store])
      end
  | Hwf : wfStore (store ?wi), HT : touchesOnly _ ?w0 ?wi,
    H : setCondition _ ?x _ _ _ _ ?wi = (?res, ?wj, _) |- _ =>
      lazymatch goal with
      | _ : touchesOnly _ w0 wj |- _ => fail
      | _ =>
          let Hw := fresh "Hwf" in
          let Ht := fresh "HT" in
          let Hk := fresh "Hk" in
          destruct (setCondition_touches _ _ _ _ _ _ _ _ _ _ Hwf H)
            as (Hw & Ht & Hk);
          assert (keyOf x = k) as Hkx
            by (try match x with
                    | withObserved ?y _ => change (keyOf x) with (keyOf y)
                    end; congruence);
          rewrite Hkx in Ht, Hk;
          try (specialize (Hk _ eq_refl));
          pose proof (touchesOnly_trans _ _ _ _ HT Ht);
          clear Ht Hkx
      end
  | Hwf : wfStore (store ?wi), HT : touchesOnly _ ?w0 ?wi,
    H : reconcileDeployment _ ?x ?wi = (_, ?wj, _) |- _ =>
      lazymatch goal with
      | _ : touchesOnly _ w0 wj |- _ => fail
      | _ =>
          let Hw := fresh "Hwf" in
          let Ht := fresh "HT" in
          destruct (reconcileDeployment_touches _ _ _ _ _ _ Hwf H) as (Hw & Ht);
          assert (keyOf x = k) as Hkx by (simpl; congruence);
          rewrite Hkx in Ht;
          pose proof (touchesOnly_trans _ _ _ _ HT Ht);
          clear Ht Hkx
      end
  | Hwf : wfStore (store ?wi), HT : touchesOnly _ ?w0 ?wi,
    H : reconcileService _ ?x ?wi = (_, ?wj, _) |- _ =>
      lazymatch goal with
      | _ : touchesOnly _ w0 wj |- _ => fail
      | _ =>
          let Hw := fresh "Hwf" in
          let Ht := fresh "HT" in
          destruct (reconcileService_touches _ _ _ _ _ _ Hwf H) as (Hw & Ht);
          assert (keyOf x = k) as Hkx by (simpl; congruence);
          rewrite Hkx in Ht;
          pose proof (touchesOnly_trans _ _ _ _ HT Ht);
          clear Ht Hkx
      end
  | Hwf : wfStore (store ?wi), HT : touchesOnly _ ?w0 ?wi,
    H : Update ?x ?wi = (_, ?wj, _) |- _ =>
      lazymatch goal with
      | _ : touchesOnly _ w0 wj |- _ => fail
      | _ =>
          let Hw := fresh "Hwf" in
          let Ht := fresh "HT" in
          destruct (Update_webapp_frame _ _ _ _ _ Hwf H) as (Hw & Ht & _);
          assert (keyOf x = k) as Hkx
            by (rewrite ?keyOf_addToken, ?keyOf_removeToken; congruence);
          rewrite Hkx in Ht;
          pose proof (touchesOnly_trans _ _ _ _ HT Ht);
          clear Ht Hkx
      end
  end.

(** A pass leaves every WebApp, Deployment and Service stored under
    another key as it is, and keeps the store well formed: every object
    under its own name, none awaiting its purge. *)
Theorem Reconcile_touches_only_its_key r req w res w' tr
    (Hwf : wfStore (store w))
    (Hrun : Reconcile r req w = (res, w', tr)) :
  wfStore (store w') ∧ touchesOnly (ctrl.NamespacedName req) w w'.
Proof.
  pose proof (touchesOnly_refl (ctrl.NamespacedName req) w) as HT0.
  apply Reconcile_Pass in Hrun.
  inversion Hrun; subst; clear Hrun;
    unfold markProgressing, reportDegraded, writeAvailable, clearProgressing,
      clearDegraded in *.
  all: try match goal with
       | H : Get (A:=appv1alpha1.WebApp) _ _ = (Ok ?a, _, _) |- _ =>
           pose proof (Get_ok_stored _ _ _ _ _ H) as [Hl _]; red_obj;
           destruct (proj1 Hwf _ _ Hl) as [Hka _]
       end.
  all: touch (ctrl.NamespacedName req).
  all: split; assumption.
Qed.

Lemma Reconcile_touches_only_its_key_witness :
  wfStore (store Scenario.tuned)
  ∧ wfStore (store (Scenario.worldAfter Scenario.tuned)).
Proof.
  split; [exact Scenario_tuned_wf|].
  apply (Reconcile_touches_only_its_key Scenario.reconciler Scenario.req
           Scenario.tuned _ _ _ Scenario_tuned_wf
           (Scenario_run Scenario.tuned)).
Defined.

(** ** Any number of passes *)

Lemma sameObserved_refl a : sameObserved a a.
Proof.
  destruct (meta.FindStatusCondition (conditionsOf a)
              appv1alpha1.TypeProgressing) as [c|] eqn:Hf.
  - exists (metav1.LastTransitionTime c). split; [done|].
    by rewrite (retimed_same _ _ _ c Hf).
  - exists metav1.ZeroTime. split; [done|]. by rewrite retimed_none.
Qed.

Lemma sameObserved_trans a b c :
  sameObserved a b → sameObserved b c → sameObserved a c.
Proof.
  intros (t1 & Hn1 & H1) (t2 & Hn2 & H2). exists t2. split; [congruence|].
  by rewrite H2, H1, retimed_retimed.
Qed.

Lemma settled_passes r req n :
  ∀ w a d s,
    settled r req w a d s →
    faultFree (10 * n) (env w) = true →
    allComplete r req n w
    ∧ ∃ a' d' s',
        settled r req (passes r req n w) a' d' s'
        ∧ sameTarget a a'
        ∧ sameObserved a a'
        ∧ appsv1.Spec d' = appsv1.Spec d
        ∧ appsv1.Status d' = appsv1.Status d
        ∧ corev1.Spec s' = corev1.Spec s.
Proof.
  induction n as [|n IH]; intros w a d s Hset Hq.
  { split; [done|]. exists a, d, s.
    split_and!; try done; [apply sameTarget_refl|apply sameObserved_refl]. }
  replace (10 * S n)%nat with (10 + 10 * n)%nat in Hq by lia.
  destruct (settled_steady _ _ _ _ _ _ _ Hset Hq)
    as (w1 & tr & a1 & rvd & rvs & t & Hrun & Hset1 & HT & HO & _ & _ & _ & _
        & Hq1).
  destruct (IH _ _ _ _ Hset1 Hq1)
    as (Hall & a' & d' & s' & Hset' & HT' & HO' & Hd' & Hds' & Hs').
  simpl. rewrite Hrun. simpl. split; [done|].
  exists a', d', s'. split_and!; try done.
  - by eapply sameTarget_trans.
  - eapply sameObserved_trans; [by exists (metav1.At t)|done].
Qed.

(** After a pass that ran to its end, any number [n] of further passes, the
    environment raising no fault during their [10 * n] calls, all run to
    their end and leave what is observed as it was: the WebApp with its
    spec, identity, replica count and conditions (but for the transition
    time of the Progressing condition), the Deployment with its spec and
    status, the Service with its spec. *)
Theorem passes_change_nothing r req w0 w tr0 n
    (Hwf : wfStore (store w0))
    (Hrun : Reconcile r req w0 = (completed, w, tr0))
    (Hquiet : faultFree (10 * n) (env w) = true) :
  allComplete r req n w
  ∧ ∃ a d s a' d' s',
      webapps (store w) !! ctrl.NamespacedName req = Some a
      ∧ deployments (store w) !! ctrl.NamespacedName req = Some d
      ∧ services (store w) !! ctrl.NamespacedName req = Some s
      ∧ webapps (store (passes r req n w)) !! ctrl.NamespacedName req = Some a'
      ∧ deployments (store (passes r req n w)) !! ctrl.NamespacedName req
        = Some d'
      ∧ services (store (passes r req n w)) !! ctrl.NamespacedName req
        = Some s'
      ∧ sameTarget a a'
      ∧ sameObserved a a'
      ∧ appsv1.Spec d' = appsv1.Spec d
      ∧ appsv1.Status d' = appsv1.Status d
      ∧ corev1.Spec s' = corev1.Spec s.
Proof.
  destruct (complete_settles _ _ _ _ _ Hwf Hrun) as (a & d & s & Hset).
  destruct (settled_passes _ _ n _ _ _ _ Hset Hquiet)
    as (Hall & a' & d' & s' & Hset' & HT & HO & Hd & Hds & Hs).
  split; [done|]. exists a, d, s, a', d', s'.
  destruct Hset as (? & ? & ? & _). destruct Hset' as (? & ? & ? & _).
  by split_and!.
Qed.

Lemma passes_change_nothing_witness :
  allComplete Scenario.reconciler Scenario.req 3
    (Scenario.worldAfter Scenario.registered0).
Proof.
  assert (Hres : Scenario.resultOf Scenario.registered0 = completed)
    by (vm_compute; reflexivity).
  apply (passes_change_nothing Scenario.reconciler Scenario.req
           Scenario.registered0 (Scenario.worldAfter Scenario.registered0)
           (Scenario.traceOf Scenario.registered0) 3).
  - apply Scenario_worldOf_wf; vm_compute; reflexivity.
  - rewrite Scenario_run, Hres. reflexivity.
  - vm_compute; reflexivity.
Defined.

(** ** The desired state is the user's *)

Lemma keepsDesired_refl a : keepsDesired a a.
Proof. unfold keepsDesired. by split_and!. Qed.

Lemma keepsDesired_trans a b c :
  keepsDesired a b → keepsDesired b c → keepsDesired a c.
Proof.
  unfold keepsDesired.
  intros (A1&A2&A3&A4&A5&A6&A7&A8&A9&A10) (B1&B2&B3&B4&B5&B6&B7&B8&B9&B10).
  split_and!; try congruence.
  intros f Hf. by rewrite (B10 f Hf), (A10 f Hf).
Qed.

Lemma sameTarget_keepsDesired a b : sameTarget a b → keepsDesired a b.
Proof.
  intros (Hsp & rv & Hm). unfold keepsDesired. rewrite Hm. by split_and!.
Qed.

Lemma keepsDesired_addToken rv a : keepsDesired a (updated rv a (addToken a)).
Proof.
  unfold keepsDesired, updated, addToken, controllerutil.AddFinalizer.
  red_obj. simpl. rewrite bool_decide_eq_true_2 by done. simpl.
  destruct (controllerutil.ContainsFinalizer _ _); simpl; split_and!; try done.
  intros f Hf. rewrite elem_of_app, list_elem_of_singleton.
  split; [intros [?|?]; [done|by destruct Hf]|by left].
Qed.

Lemma keepsDesired_removeToken rv a :
  keepsDesired a (updated rv a (removeToken a)).
Proof.
  unfold keepsDesired, updated, removeToken, controllerutil.RemoveFinalizer.
  red_obj. simpl. rewrite bool_decide_eq_true_2 by done. simpl.
  split_and!; try done.
  intros f Hf. rewrite !list_elem_of_In, filter_In.
  rewrite bool_decide_eq_false_2 by done. split; [by intros [? _]|by split].
Qed.

Lemma Update_token_keeps (x a : appv1alpha1.WebApp) w res w' tr :
  synced a w → x = addToken a ∨ x = removeToken a →
  Update x w = (res, w', tr) →
  ∀ a', webapps (store w') !! keyOf a = Some a' → keepsDesired a a'.
Proof.
  intros Hs Hx H a' Ha'.
  assert (Hk : keyOf x = keyOf a)
    by (destruct Hx as [-> | ->];
        [apply keyOf_addToken|apply keyOf_removeToken]).
  rewrite Update_cases in H. red_obj. rewrite Hk, Hs in H.
  destruct (environment (env w)) as [[e|] e1].
  { injection H as <- <- <-. red_obj. unfold synced in Hs.
    rewrite Hs in Ha'. injection Ha' as <-. apply keepsDesired_refl. }
  destruct (sameVersion x a).
  - injection H as <- <- <-. red_obj.
    destruct (purgeable _).
    + by rewrite lookup_delete_eq in Ha'.
    + rewrite lookup_insert_eq in Ha'. injection Ha' as <-.
      destruct Hx as [-> | ->];
        [apply keepsDesired_addToken|apply keepsDesired_removeToken].
  - injection H as <- <- <-. red_obj. unfold synced in Hs.
    rewrite Hs in Ha'. injection Ha' as <-. apply keepsDesired_refl.
Qed.

Lemma setCondition_sameTarget r x a ty st rs msg w res w' tr :
  synced a w →
  appv1alpha1.ObjectMeta x = appv1alpha1.ObjectMeta a →
  setCondition r x ty st rs msg w = (res, w', tr) →
  ∃ a', synced a' w' ∧ sameTarget a a'
        ∧ match res with Ok y => y = a' | _ => True end.
Proof.
  intros Hs Hm H.
  destruct (setCondition_synced _ _ _ _ _ _ _ _ _ _ _ Hs Hm H)
    as (_ & _ & _ & [(e & _ & -> & Hst & _)|(a' & _ & -> & -> & Hs' & _)]).
  - exists a. split; [|split; [apply sameTarget_refl|done]].
    unfold synced in *. by rewrite Hst.
  - eexists. split; [exact Hs'|]. split; [|done].
    apply sameTarget_statusUpdated.
Qed.

Ltac keep_target :=
  repeat match goal with
  | Hs : synced ?a ?w, H : reconcileDeployment _ _ ?w = (_, ?w', _) |- _ =>
      lazymatch goal with
      | _ : synced _ w' |- _ => fail
      | _ => pose proof (reconcileDeployment_synced _ _ _ _ _ _ _ Hs H)
      end
  | Hs : synced ?a ?w, H : reconcileService _ _ ?w = (_, ?w', _) |- _ =>
      lazymatch goal with
      | _ : synced _ w' |- _ => fail
      | _ => pose proof (reconcileService_synced _ _ _ _ _ _ _ Hs H)
      end
  | Hs : synced ?a ?w, H : Get _ ?w = (_, ?w', _) |- _ =>
      lazymatch goal with
      | _ : synced _ w' |- _ => fail
      | _ => pose proof (Get_keeps_synced _ _ _ _ _ _ Hs H)
      end
  | Hs : synced ?a0 ?w, H : setCondition _ ?x _ _ _ _ ?w = (_, ?w', _) |- _ =>
      lazymatch goal with
      | _ : synced _ w' |- _ => fail
      | _ =>
          let a' := fresh "s" in
          let Hs' := fresh "Hs" in
          let Ha := fresh "Ha" in
          let He := fresh "He" in
          destruct (setCondition_sameTarget _ x a0 _ _ _ _ _ _ _ _
                      Hs eq_refl H) as (a' & Hs' & Ha & He);
          simpl in He; try subst a'
      end
  end.

(** A pass never edits what the user wrote: whatever it leaves stored
    under its key has the spec, the generation, the identity, the labels,
    annotations, owner references and deletion time it found, and the same
    finalizers of other controllers; it writes only the status and its own
    finalizer. *)
Theorem Reconcile_keeps_the_desired_state r req w res w' tr a a'
    (Hrun : Reconcile r req w = (res, w', tr))
    (Hlook : webapps (store w) !! ctrl.NamespacedName req = Some a)
    (Hkey : keyOf a = ctrl.NamespacedName req)
    (Hafter : webapps (store w') !! ctrl.NamespacedName req = Some a') :
  keepsDesired a a'.
Proof.
  assert (Hk : ∀ x, webapps (store w) !! ctrl.NamespacedName req = Some x →
                    keyOf x = ctrl.NamespacedName req)
    by (intros x Hx; congruence).
  apply Reconcile_Pass in Hrun.
  inversion Hrun; subst; clear Hrun;
    unfold markProgressing, reportDegraded, writeAvailable, clearProgressing,
      clearDegraded in *;
    try match goal with
    | H : Get (A:=appv1alpha1.WebApp) _ w = (Err _, _, _) |- _ =>
        apply Get_store in H; rewrite H in Hafter;
        assert (a' = a) as -> by congruence; apply keepsDesired_refl
    end;
    match goal with
    | H : Get _ w = (Ok ?b, _, _) |- _ =>
        destruct (Get_synced _ _ _ _ _ H Hk) as (Hs & Hst & Hkb & Hb & _);
        assert (b = a) as -> by congruence
    end.
  all: try match goal with
    | H : Update ?x _ = _ |- _ =>
        rewrite <- Hkey in Hafter;
        apply (Update_token_keeps x _ _ _ _ _ Hs) with (a' := a') in H;
          [exact H|auto|exact Hafter]
    end.
  all: keep_target.
  all: match goal with
    | Hx : webapps (store ?wf) !! _ = Some ?y, Hs' : synced ?b ?wf
      |- keepsDesired _ ?y =>
        assert (y = b) as ->;
          [eapply synced_stored; [exact Hs'| |exact Hx]|]
    end.
  all: repeat match goal with
    | H : sameTarget _ _ |- _ => pose proof (sameTarget_key _ _ H); revert H
    end; intros; try congruence.
  all: apply sameTarget_keepsDesired;
    eauto using sameTarget_refl, sameTarget_trans.
Qed.

Lemma Reconcile_keeps_the_desired_state_witness :
  keepsDesired Scenario.registered
    (Scenario.current (Scenario.worldAfter Scenario.registered0)).
Proof.
  apply (Reconcile_keeps_the_desired_state Scenario.reconciler Scenario.req
           Scenario.registered0 _ _ _ _ _ (Scenario_run Scenario.registered0)).
  - vm_compute; reflexivity.
  - reflexivity.
  - vm_compute; reflexivity.
Defined.
